(** * OpenList driver-manager isolation layer: wire protocol, sessions,
      fan-out and the remote-side instance manager.

    A shallow embedding of
      - driver-manager/internal/protocol/protocol.go   (ProtocolHandler)
      - driver-manager/internal/manager/manager.go     (DriverManager)
      - the host-side client role  (DriverManagerClient, DriverManagerPool)
      - the host-side server role  (DriverManagerServer, DriverManagerConnection)
    Go maps are stdpp [gmap]s, structs are records, [(value, error)] results
    are sums or pairs, and code that mutates shared state threads that state
    explicitly.  Functions of the Go standard library that the code calls
    (strings.TrimSpace, the text layer of encoding/json) are passed in as a
    [GoLib] record; [goLib] is a concrete instance, which writes and reads
    strings as encoding/json does: the examples run with it, and the round
    trip of a message through its line is proved for it.  The line scanner
    both sides read with, a [bufio.Scanner] with its default buffer, is
    [Scanner]. *)

From Stdlib Require Import ZArith String Ascii List Lia Bool.
From stdpp Require Import base option list gmap strings fin_maps sorting pretty.

Open Scope string_scope.
Open Scope list_scope.
Open Scope Z_scope.

(* ===================================================================== *)
(** ** JSON documents and Go's dynamic values                             *)
(* ===================================================================== *)

(** A JSON document.  Object members are kept in document order, with
    duplicates, because encoding/json consumes them in that order.  The same
    type stands for the contents of a Go [interface{}] that holds generic JSON
    data ([nil] is [JNull], a nested [map[string]interface{}] is a [JObj]).
    Numbers are the integers: the only numbers this layer itself reads or
    writes are error codes and driver counts. *)
#[local] Unset Elimination Schemes.
Inductive json : Type :=
  | JNull
  | JBool (b : bool)
  | JNum (n : Z)
  | JStr (s : string)
  | JArr (l : list json)
  | JObj (kvs : list (string * json)).
#[local] Set Elimination Schemes.

Definition error := string.

(** [dq s] is [s] with every apostrophe turned into a double quote: the JSON
    lines of the examples are written with apostrophes. *)
Fixpoint dq (s : string) : string :=
  match s with
  | String c r => String (if Ascii.eqb c "'" then "034" else c)%char (dq r)
  | EmptyString => EmptyString
  end.

(** [v.(string)], [v.(bool)], [v.(map[string]interface{})] with the comma-ok
    form: [None] is [ok == false]. *)
Definition asString (v : json) : option string :=
  match v with JStr s => Some s | _ => None end.

Definition asBool (v : json) : option bool :=
  match v with JBool b => Some b | _ => None end.

(** Decoding a JSON object into a Go map inserts the members in document
    order, so the last duplicate wins. *)
Definition insertAll (kvs : list (string * json)) (m : gmap string json)
  : gmap string json :=
  fold_left (fun acc kv => <[kv.1 := kv.2]> acc) kvs m.

Definition asMap (v : json) : option (gmap string json) :=
  match v with JObj kvs => Some (insertAll kvs ∅) | _ => None end.

(** Reading a key of a [map[string]interface{}]: a nil map and a missing key
    both give the zero value, the nil interface. *)
Definition getParam (params : option (gmap string json)) (k : string) : json :=
  match params with
  | Some m => default JNull (m !! k)
  | None => JNull
  end.

(** encoding/json writes the keys of a map in sorted order. *)
Definition key_le (a b : string * json) : Prop := String.le a.1 b.1.

#[global] Instance key_le_dec : RelDecision key_le.
Proof. intros a b. unfold key_le. apply _. Defined.

Definition marshalMap (m : gmap string json) : json :=
  JObj (merge_sort key_le (map_to_list m)).

Definition int64_min : Z := - 2 ^ 63.
Definition int64_max : Z := 2 ^ 63 - 1.
Definition is_int (n : Z) : bool := (int64_min <=? n) && (n <=? int64_max).

(* ===================================================================== *)
(** ** The Go library functions the code relies on                        *)
(* ===================================================================== *)

(** [jsonText d] is the text json.Marshal produces for the document [d]
    ([None]: the marshal error); [jsonParse s] is the document the decoder
    reads from [s] ([None]: a syntax error).  How a document maps to and from
    the fields of a struct is not part of this record: it is determined by the
    struct tags in the source and modelled below. *)
Record GoLib : Type := {
  TrimSpace : string -> string;
  jsonText : json -> option string;
  jsonParse : string -> option json;
}.

(* ===================================================================== *)
(** ** Go strings as UTF-8                                                *)
(* ===================================================================== *)

(** Go strings are byte strings; the loops of registry.go and the string
    code of encoding/json walk them rune by rune.  [runes s] is what
    [for _, char := range s] yields: the code points of the UTF-8 sequences of
    [s], with U+FFFD for every byte that does not start a well-formed
    sequence (such a byte is passed over alone).
    [runeString r] is the conversion [string(r)] of a rune: its UTF-8
    encoding, and that of U+FFFD when [r] is not a valid code point. *)
Module Utf8.

Definition RuneError : Z := 65533.

Definition byteZ (c : ascii) : Z := Z.of_N (N_of_ascii c).

Definition byte (n : Z) : ascii := ascii_of_N (Z.to_N n).

(** A continuation byte, 0x80 to 0xBF. *)
Definition cont (b : Z) : bool := (128 <=? b) && (b <=? 191).

Fixpoint runes (s : string) : list Z :=
  match s with
  | EmptyString => []
  | String c0 r0 =>
      let b0 := byteZ c0 in
      if b0 <? 128 then b0 :: runes r0
      else if (194 <=? b0) && (b0 <=? 223) then
        match r0 with
        | String c1 r1 =>
            let b1 := byteZ c1 in
            if cont b1 then (b0 mod 32 * 64 + b1 mod 64) :: runes r1
            else RuneError :: runes r0
        | _ => RuneError :: runes r0
        end
      else if (224 <=? b0) && (b0 <=? 239) then
        match r0 with
        | String c1 (String c2 r2) =>
            let b1 := byteZ c1 in
            let b2 := byteZ c2 in
            let lo := if b0 =? 224 then 160 else 128 in
            let hi := if b0 =? 237 then 159 else 191 in
            if (lo <=? b1) && (b1 <=? hi) && cont b2
            then (b0 mod 16 * 4096 + b1 mod 64 * 64 + b2 mod 64) :: runes r2
            else RuneError :: runes r0
        | _ => RuneError :: runes r0
        end
      else if (240 <=? b0) && (b0 <=? 244) then
        match r0 with
        | String c1 (String c2 (String c3 r3)) =>
            let b1 := byteZ c1 in
            let b2 := byteZ c2 in
            let b3 := byteZ c3 in
            let lo := if b0 =? 240 then 144 else 128 in
            let hi := if b0 =? 244 then 143 else 191 in
            if (lo <=? b1) && (b1 <=? hi) && cont b2 && cont b3
            then (b0 mod 8 * 262144 + b1 mod 64 * 4096 + b2 mod 64 * 64 + b3 mod 64)
                   :: runes r3
            else RuneError :: runes r0
        | _ => RuneError :: runes r0
        end
      else RuneError :: runes r0
  end.

Definition encode3 (r : Z) : string :=
  String (byte (224 + r / 4096))
    (String (byte (128 + r / 64 mod 64)) (String (byte (128 + r mod 64)) "")).

Definition runeString (r : Z) : string :=
  if (0 <=? r) && (r <? 128) then String (byte r) ""
  else if (128 <=? r) && (r <? 2048) then
    String (byte (192 + r / 64)) (String (byte (128 + r mod 64)) "")
  else if ((2048 <=? r) && (r <? 55296)) || ((57344 <=? r) && (r <? 65536)) then encode3 r
  else if (65536 <=? r) && (r <=? 1114111) then
    String (byte (240 + r / 262144))
      (String (byte (128 + r / 4096 mod 64))
         (String (byte (128 + r / 64 mod 64)) (String (byte (128 + r mod 64)) "")))
  else encode3 RuneError.

(** A string of ASCII characters only. *)
Fixpoint isAscii (s : string) : bool :=
  match s with
  | EmptyString => true
  | String c r => (byteZ c <? 128) && isAscii r
  end.

(** The character [c] does not occur in [s]. *)
Fixpoint lacks (c : ascii) (s : string) : bool :=
  match s with
  | EmptyString => true
  | String c' r => negb (Ascii.eqb c' c) && lacks c r
  end.

(** The length of the well-formed sequence at the head of [s], the size
    [utf8.DecodeRuneInString] returns for it; 0 when [s] is empty or its first
    byte starts no well-formed sequence (the decoder then returns U+FFFD with
    size 1). *)
Definition seqLen (s : string) : nat :=
  match s with
  | EmptyString => 0%nat
  | String c0 r0 =>
      let b0 := byteZ c0 in
      if b0 <? 128 then 1%nat
      else if (194 <=? b0) && (b0 <=? 223) then
        match r0 with
        | String c1 _ => if cont (byteZ c1) then 2%nat else 0%nat
        | _ => 0%nat
        end
      else if (224 <=? b0) && (b0 <=? 239) then
        match r0 with
        | String c1 (String c2 _) =>
            let b1 := byteZ c1 in
            let b2 := byteZ c2 in
            let lo := if b0 =? 224 then 160 else 128 in
            let hi := if b0 =? 237 then 159 else 191 in
            if (lo <=? b1) && (b1 <=? hi) && cont b2 then 3%nat else 0%nat
        | _ => 0%nat
        end
      else if (240 <=? b0) && (b0 <=? 244) then
        match r0 with
        | String c1 (String c2 (String c3 _)) =>
            let b1 := byteZ c1 in
            let b2 := byteZ c2 in
            let b3 := byteZ c3 in
            let lo := if b0 =? 240 then 144 else 128 in
            let hi := if b0 =? 244 then 143 else 191 in
            if (lo <=? b1) && (b1 <=? hi) && cont b2 && cont b3 then 4%nat else 0%nat
        | _ => 0%nat
        end
      else 0%nat
  end.

(** A loop [for i < len(s) { _, size := utf8.DecodeRuneInString(s[i:]); ...;
    i += size }] passes over [s] one sequence at a time; in the functions
    written after it here, [skip] counts the bytes of the sequence at hand
    that are still to be passed over. *)

(** [utf8.ValidString] *)
Fixpoint validFrom (skip : nat) (s : string) : bool :=
  match s with
  | EmptyString => true
  | String c r =>
      match skip with
      | S k => validFrom k r
      | O =>
          match seqLen s with
          | O => false
          | S k => validFrom k r
          end
      end
  end.

Definition valid (s : string) : bool := validFrom 0 s.

(** The first [k] bytes of [s] are continuation bytes. *)
Fixpoint contPrefix (k : nat) (s : string) : bool :=
  match k, s with
  | O, _ => true
  | S k, String c r => cont (byteZ c) && contPrefix k r
  | S _, EmptyString => false
  end.

(** The string with U+FFFD in place of every byte that starts no well-formed
    sequence: what decoding rune by rune and encoding each rune again
    gives. *)
Fixpoint coerceFrom (skip : nat) (s : string) : string :=
  match s with
  | EmptyString => EmptyString
  | String c r =>
      match skip with
      | S k => String c (coerceFrom k r)
      | O =>
          match seqLen s with
          | O => encode3 RuneError +:+ coerceFrom 0 r
          | S k => String c (coerceFrom k r)
          end
      end
  end.

Definition coerce (s : string) : string := coerceFrom 0 s.

End Utf8.

(** *** A reference instance of [GoLib], used to run the examples.
    It reads and writes compact JSON with integer numbers; members of an
    object are printed in the order the document lists them.  Strings are
    written and read as encoding/json does it: the encoder escapes the quote,
    the backslash, the control characters, [<], [>] and [&], U+2028 and
    U+2029, and writes [\ufffd] for every byte that starts no well-formed
    UTF-8 sequence; the decoder resolves the escapes, surrogate pairs
    included, and stores U+FFFD for every such byte and for a surrogate
    without its partner. *)
Module RefLib.

Definition isJsonSpace (c : ascii) : bool :=
  match c with
  | " " | "009" | "010" | "013" => true
  | _ => false
  end%char.

Fixpoint skipWs (s : string) : string :=
  match s with
  | String c r => if isJsonSpace c then skipWs r else s
  | EmptyString => s
  end.

Definition ref_TrimSpace (s : string) : string :=
  let dropl := fix dropl (s : string) : string :=
    match s with
    | String c r => if Ascii.is_space c then dropl r else s
    | EmptyString => s
    end in
  String.rev (dropl (String.rev (dropl s))).

Definition hexDigit (n : N) : ascii :=
  ascii_of_N (if (n <? 10)%N then 48 + n else 87 + n).

Definition hexValue (c : ascii) : option N :=
  let n := N_of_ascii c in
  if (48 <=? n)%N && (n <=? 57)%N then Some (n - 48)%N
  else if (97 <=? n)%N && (n <=? 102)%N then Some (n - 87)%N
  else if (65 <=? n)%N && (n <=? 70)%N then Some (n - 55)%N
  else None.

(** What the encoder writes for an ASCII character.  Backspace and form feed
    have had their short escapes since Go 1.22; before that they were written
    like the other control characters.  The decoder reads both forms. *)
Definition escapeChar (c : ascii) : string :=
  let n := N_of_ascii c in
  match c with
  | "008"%char => "\b"
  | "012"%char => "\f"
  | "034"%char => String "\" (String "034" "")
  | "\"%char => "\\"
  | "010"%char => "\n"
  | "013"%char => "\r"
  | "009"%char => "\t"
  | "<"%char => "\u003c"
  | ">"%char => "\u003e"
  | "&"%char => "\u0026"
  | _ => if (n <? 32)%N
         then "\u00" +:+ String (hexDigit (n / 16)) (String (hexDigit (n mod 16)) "")
         else String c ""
  end.

(** The escape of U+2028 or U+2029 when its three bytes are at the head of
    [s]. *)
Definition lineSeparator (s : string) : option string :=
  match s with
  | String c0 (String c1 (String c2 _)) =>
      if Ascii.eqb c0 "226" && Ascii.eqb c1 "128" then
        if Ascii.eqb c2 "168" then Some "\u2028"
        else if Ascii.eqb c2 "169" then Some "\u2029"
        else None
      else None
  | _ => None
  end.

(** The loop of the encoder over a string; [skip] counts the bytes of the
    sequence at hand that are still to be copied. *)
Fixpoint escapeFrom (skip : nat) (s : string) : string :=
  match s with
  | EmptyString => ""
  | String c r =>
      match skip with
      | S k => String c (escapeFrom k r)
      | O =>
          if (N_of_ascii c <? 128)%N then escapeChar c +:+ escapeFrom 0 r
          else
            match lineSeparator s, r with
            | Some code, String _ (String _ r') => code +:+ escapeFrom 0 r'
            | _, _ =>
                match Utf8.seqLen s with
                | O => "\ufffd" +:+ escapeFrom 0 r
                | S k => String c (escapeFrom k r)
                end
            end
      end
  end.

Definition escape (s : string) : string := escapeFrom 0 s.

Definition quote (s : string) : string :=
  String "034" (escape s +:+ String "034" "").

Fixpoint printJson (j : json) : string :=
  match j with
  | JNull => "null"
  | JBool true => "true"
  | JBool false => "false"
  | JNum n => pretty n
  | JStr s => quote s
  | JArr l =>
      "[" +:+ (fix elems (l : list json) : string :=
                 match l with
                 | [] => ""
                 | [x] => printJson x
                 | x :: r => printJson x +:+ "," +:+ elems r
                 end) l +:+ "]"
  | JObj kvs =>
      "{" +:+ (fix members (l : list (string * json)) : string :=
                 match l with
                 | [] => ""
                 | [(k, v)] => quote k +:+ ":" +:+ printJson v
                 | (k, v) :: r => quote k +:+ ":" +:+ printJson v +:+ "," +:+ members r
                 end) kvs +:+ "}"
  end.

(** The UTF-8 encoding of a code point. *)
Definition utf8 (cp : N) : string :=
  if (cp <? 128)%N then String (ascii_of_N cp) ""
  else if (cp <? 2048)%N then
    String (ascii_of_N (192 + cp / 64)) (String (ascii_of_N (128 + cp mod 64)) "")
  else if (cp <? 65536)%N then
    String (ascii_of_N (224 + cp / 4096))
      (String (ascii_of_N (128 + (cp / 64) mod 64))
         (String (ascii_of_N (128 + cp mod 64)) ""))
  else
    String (ascii_of_N (240 + cp / 262144))
      (String (ascii_of_N (128 + (cp / 4096) mod 64))
         (String (ascii_of_N (128 + (cp / 64) mod 64))
            (String (ascii_of_N (128 + cp mod 64)) ""))).

(** The code unit four hexadecimal digits denote. *)
Definition hex4 (a b c d : ascii) : option N :=
  match hexValue a, hexValue b, hexValue c, hexValue d with
  | Some x, Some y, Some z, Some w => Some (((x * 16 + y) * 16 + z) * 16 + w)%N
  | _, _, _, _ => None
  end.

(** The code point of a surrogate pair, U+FFFD when the two code units are
    not a high surrogate followed by a low one ([utf16.DecodeRune]). *)
Definition pairRune (hi lo : N) : N :=
  if (55296 <=? hi)%N && (hi <? 56320)%N && (56320 <=? lo)%N && (lo <? 57344)%N
  then (65536 + (hi - 55296) * 1024 + (lo - 56320))%N
  else 65533%N.

(** The contents of a string literal up to its closing quote, escapes
    resolved; [acc] holds what has been read, last byte first.  The bytes
    that are not part of an escape are taken as they are here and coerced to
    UTF-8 where the literal is stored. *)
Fixpoint parseStr (s : string) (acc : string) : option (string * string) :=
  match s with
  | EmptyString => None
  | String "034" r => Some (String.rev acc, r)
  | String "\" (String e r) =>
      match e with
      | "034" | "\" | "/" => parseStr r (String e acc)
      | "b" => parseStr r (String "008" acc)
      | "f" => parseStr r (String "012" acc)
      | "n" => parseStr r (String "010" acc)
      | "r" => parseStr r (String "013" acc)
      | "t" => parseStr r (String "009" acc)
      | "u" =>
          match r with
          | String a (String b (String c (String d r'))) =>
              match hex4 a b c d with
              | Some cp =>
                  if (55296 <=? cp)%N && (cp <? 57344)%N then
                    match r' with
                    | String "\" (String "u" (String a' (String b' (String c'
                        (String d' r''))))) =>
                        match hex4 a' b' c' d' with
                        | Some lo =>
                            if (pairRune cp lo =? 65533)%N
                            then parseStr r' (String.rev (utf8 65533) +:+ acc)
                            else parseStr r'' (String.rev (utf8 (pairRune cp lo)) +:+ acc)
                        | None => parseStr r' (String.rev (utf8 65533) +:+ acc)
                        end
                    | _ => parseStr r' (String.rev (utf8 65533) +:+ acc)
                    end
                  else parseStr r' (String.rev (utf8 cp) +:+ acc)
              | None => None
              end
          | _ => None
          end
      | _ => None
      end%char
  | String c r =>
      if (N_of_ascii c <? 32)%N then None else parseStr r (String c acc)
  end%char.

Fixpoint parseDigits (s : string) (acc : N) : N * string :=
  match s with
  | String c r =>
      match Ascii.is_nat c with
      | Some d => parseDigits r (10 * acc + N.of_nat d)
      | None => (acc, s)
      end
  | EmptyString => (acc, s)
  end.

(** An integer literal: no leading zeros, no fraction, no exponent. *)
Definition parseInt (s : string) : option (N * string) :=
  match s with
  | String c r =>
      match Ascii.is_nat c with
      | Some d =>
          let '(n, rest) := if decide (d = 0%nat) then (0%N, r) else parseDigits s 0 in
          match rest with
          | String c' _ =>
              match Ascii.is_nat c', c' with
              | Some _, _ => None
              | None, ("." | "e" | "E")%char => None
              | None, _ => Some (n, rest)
              end
          | EmptyString => Some (n, rest)
          end
      | None => None
      end
  | EmptyString => None
  end.

Definition expect (lit : string) (s : string) (j : json) : option (json * string) :=
  if String.prefix lit s
  then Some (j, String.substring (String.length lit) (String.length s - String.length lit) s)
  else None.

Fixpoint parseValue (fuel : nat) (s : string) : option (json * string) :=
  match fuel with
  | O => None
  | S f =>
      match skipWs s with
      | String "n" _ as t => expect "null" t JNull
      | String "t" _ as t => expect "true" t (JBool true)
      | String "f" _ as t => expect "false" t (JBool false)
      | String "034" r =>
          match parseStr r "" with
          | Some (str, rest) => Some (JStr (Utf8.coerce str), rest)
          | None => None
          end
      | String "-" r =>
          match parseInt r with
          | Some (n, rest) => Some (JNum (- Z.of_N n), rest)
          | None => None
          end
      | String "[" r =>
          match skipWs r with
          | String "]" rest => Some (JArr [], rest)
          | t => parseElems f t []
          end
      | String "{" r =>
          match skipWs r with
          | String "}" rest => Some (JObj [], rest)
          | t => parseMembers f t []
          end
      | t =>
          match parseInt t with
          | Some (n, rest) => Some (JNum (Z.of_N n), rest)
          | None => None
          end
      end%char
  end
  with parseElems (fuel : nat) (s : string) (acc : list json) : option (json * string) :=
  match fuel with
  | O => None
  | S f =>
      match parseValue f s with
      | Some (v, rest) =>
          match skipWs rest with
          | String "," rest' => parseElems f rest' (v :: acc)
          | String "]" rest' => Some (JArr (rev (v :: acc)), rest')
          | _ => None
          end%char
      | None => None
      end
  end
  with parseMembers (fuel : nat) (s : string) (acc : list (string * json))
  : option (json * string) :=
  match fuel with
  | O => None
  | S f =>
      match skipWs s with
      | String "034" r =>
          match parseStr r "" with
          | Some (k, rest) =>
              match skipWs rest with
              | String ":" rest' =>
                  match parseValue f rest' with
                  | Some (v, rest'') =>
                      match skipWs rest'' with
                      | String "," t => parseMembers f t ((Utf8.coerce k, v) :: acc)
                      | String "}" t => Some (JObj (rev ((Utf8.coerce k, v) :: acc)), t)
                      | _ => None
                      end%char
                  | None => None
                  end
              | _ => None
              end%char
          | None => None
          end
      | _ => None
      end%char
  end.

Definition parseJson (s : string) : option json :=
  match parseValue (2 * String.length s + 2) s with
  | Some (j, rest) => if decide (skipWs rest = "") then Some j else None
  | None => None
  end.

(** What follows a value in a document written without white space: the end
    of the text, a comma or a closing bracket. *)
Definition valueEnd (rest : string) : bool :=
  match rest with
  | EmptyString => true
  | String c _ => Ascii.eqb c "," || Ascii.eqb c "]" || Ascii.eqb c "}"
  end.

End RefLib.

Definition goLib : GoLib := {|
  TrimSpace := RefLib.ref_TrimSpace;
  jsonText := fun d => Some (RefLib.printJson d);
  jsonParse := RefLib.parseJson;
|}.

(** Every string of the document, keys included, is well-formed UTF-8. *)
Fixpoint validDoc (j : json) : bool :=
  match j with
  | JStr s => Utf8.valid s
  | JArr l =>
      (fix all (l : list json) : bool :=
         match l with
         | [] => true
         | x :: r => validDoc x && all r
         end) l
  | JObj kvs =>
      (fix all (l : list (string * json)) : bool :=
         match l with
         | [] => true
         | (k, v) :: r => Utf8.valid k && validDoc v && all r
         end) kvs
  | _ => true
  end.

(* ===================================================================== *)
(** ** Wire protocol: Message and ErrorInfo                               *)
(* ===================================================================== *)

(** [ErrorInfo]: both fields are always written. *)
Record ErrorInfo : Type := {
  Code : Z;             (* int    `json:"code"`    *)
  ErrMessage : string;  (* Message string `json:"message"` *)
}.

(** [Message].  [Params] is a Go map, [None] being the nil map; [Result] is an
    [interface{}], [JNull] being nil; [Error] is a pointer, [None] being nil. *)
Record Message : Type := {
  ID : string;                          (* `json:"id"`               *)
  Type_ : string;                       (* `json:"type"`             *)
  Method : string;                      (* `json:"method,omitempty"` *)
  Params : option (gmap string json);   (* `json:"params,omitempty"` *)
  Result : json;                        (* `json:"result,omitempty"` *)
  Error : option ErrorInfo;             (* `json:"error,omitempty"`  *)
}.

(** [var msg Message]: the zero value. *)
Definition zeroMessage : Message :=
  {| ID := ""; Type_ := ""; Method := ""; Params := None; Result := JNull; Error := None |}.

Definition zeroErrorInfo : ErrorInfo := {| Code := 0; ErrMessage := "" |}.

Module Wire.

Definition encodeErrorInfo (e : ErrorInfo) : json :=
  JObj [("code", JNum e.(Code)); ("message", JStr e.(ErrMessage))].

(** The document json.Marshal builds for a [Message]: fields in declaration
    order; an [omitempty] field is left out when it is the empty string, a
    map of length 0 (nil or not), a nil interface or a nil pointer. *)
Definition encodeMessage (m : Message) : json :=
  JObj ([("id", JStr m.(ID)); ("type", JStr m.(Type_))]
        ++ (if decide (m.(Method) = "") then [] else [("method", JStr m.(Method))])
        ++ (match m.(Params) with
            | Some p => if decide (size p = 0%nat) then [] else [("params", marshalMap p)]
            | None => []
            end)
        ++ (match m.(Result) with
            | JNull => []
            | r => [("result", r)]
            end)
        ++ (match m.(Error) with
            | Some e => [("error", encodeErrorInfo e)]
            | None => []
            end)).

(** Key matching of the decoder: the tag, compared without regard to
    (ASCII) letter case. *)
Definition toLower (c : ascii) : ascii :=
  let n := N_of_ascii c in
  if (65 <=? n)%N && (n <=? 90)%N then ascii_of_N (n + 32) else c.

Fixpoint foldName (s : string) : string :=
  match s with
  | String c r => String (toLower c) (foldName r)
  | EmptyString => EmptyString
  end.

(** The decoder records the first type mismatch and keeps going. *)
Definition saveError (old new : option error) : option error :=
  match old with
  | Some _ => old
  | None => new
  end.

Definition typeError (what field : string) : option error :=
  Some ("json: cannot unmarshal " +:+ what +:+ " into Go struct field " +:+ field).

Definition kindOf (v : json) : string :=
  match v with
  | JNull => "null"
  | JBool _ => "bool"
  | JNum _ => "number"
  | JStr _ => "string"
  | JArr _ => "array"
  | JObj _ => "object"
  end.

(** A string field: a string is stored, [null] leaves the field as it is. *)
Definition decodeString (field : string) (cur : string) (v : json)
  : string * option error :=
  match v with
  | JStr s => (s, None)
  | JNull => (cur, None)
  | _ => (cur, typeError (kindOf v) field)
  end.

(** An int field: the number must fit the 64-bit int. *)
Definition decodeInt (field : string) (cur : Z) (v : json) : Z * option error :=
  match v with
  | JNum n => if is_int n then (n, None) else (cur, typeError "number" field)
  | JNull => (cur, None)
  | _ => (cur, typeError (kindOf v) field)
  end.

(** A [map[string]interface{}] field: [null] stores the nil map; an object
    is merged into the map already there (a fresh one if that is nil). *)
Definition decodeMap (field : string) (cur : option (gmap string json)) (v : json)
  : option (gmap string json) * option error :=
  match v with
  | JObj kvs => (Some (insertAll kvs (default ∅ cur)), None)
  | JNull => (None, None)
  | _ => (cur, typeError (kindOf v) field)
  end.

Definition decodeErrorField (e : ErrorInfo * option error) (kv : string * json)
  : ErrorInfo * option error :=
  let '(cur, err) := e in
  let k := foldName kv.1 in
  if decide (k = "code") then
    let '(c, err') := decodeInt "ErrorInfo.code" cur.(Code) kv.2 in
    ({| Code := c; ErrMessage := cur.(ErrMessage) |}, saveError err err')
  else if decide (k = "message") then
    let '(s, err') := decodeString "ErrorInfo.message" cur.(ErrMessage) kv.2 in
    ({| Code := cur.(Code); ErrMessage := s |}, saveError err err')
  else e.

(** A [*ErrorInfo] field: [null] stores nil; anything else allocates the
    struct when the pointer is nil and then decodes into it. *)
Definition decodeErrorInfo (cur : option ErrorInfo) (v : json)
  : option ErrorInfo * option error :=
  match v with
  | JNull => (None, None)
  | JObj kvs =>
      let '(e, err) := fold_left decodeErrorField kvs (default zeroErrorInfo cur, None) in
      (Some e, err)
  | _ => (Some (default zeroErrorInfo cur), typeError (kindOf v) "Message.error")
  end.

Definition decodeField (acc : Message * option error) (kv : string * json)
  : Message * option error :=
  let '(m, err) := acc in
  let k := foldName kv.1 in
  let v := kv.2 in
  if decide (k = "id") then
    let '(s, err') := decodeString "Message.id" m.(ID) v in
    ({| ID := s; Type_ := m.(Type_); Method := m.(Method); Params := m.(Params);
        Result := m.(Result); Error := m.(Error) |}, saveError err err')
  else if decide (k = "type") then
    let '(s, err') := decodeString "Message.type" m.(Type_) v in
    ({| ID := m.(ID); Type_ := s; Method := m.(Method); Params := m.(Params);
        Result := m.(Result); Error := m.(Error) |}, saveError err err')
  else if decide (k = "method") then
    let '(s, err') := decodeString "Message.method" m.(Method) v in
    ({| ID := m.(ID); Type_ := m.(Type_); Method := s; Params := m.(Params);
        Result := m.(Result); Error := m.(Error) |}, saveError err err')
  else if decide (k = "params") then
    let '(p, err') := decodeMap "Message.params" m.(Params) v in
    ({| ID := m.(ID); Type_ := m.(Type_); Method := m.(Method); Params := p;
        Result := m.(Result); Error := m.(Error) |}, saveError err err')
  else if decide (k = "result") then
    ({| ID := m.(ID); Type_ := m.(Type_); Method := m.(Method); Params := m.(Params);
        Result := v; Error := m.(Error) |}, err)
  else if decide (k = "error") then
    let '(e, err') := decodeErrorInfo m.(Error) v in
    ({| ID := m.(ID); Type_ := m.(Type_); Method := m.(Method); Params := m.(Params);
        Result := m.(Result); Error := e |}, saveError err err')
  else acc.

(** Decoding a document into [*Message]: members are consumed in document
    order, unknown keys are skipped; [null] leaves the target untouched. *)
Definition decodeMessage (d : json) (target : Message) : Message * option error :=
  match d with
  | JObj kvs => fold_left decodeField kvs (target, None)
  | JNull => (target, None)
  | _ => (target, Some ("json: cannot unmarshal " +:+ kindOf d +:+ " into Go value of type Message"))
  end.

Section WithLib.
Context (lib : GoLib).

(** [json.Marshal(msg)] *)
Definition Marshal (m : Message) : option string :=
  jsonText lib (encodeMessage m).

(** [json.Unmarshal([]byte(line), &msg)]: the text is checked first, and
    on a syntax error the target is not touched. *)
Definition Unmarshal (line : string) (target : Message) : Message * option error :=
  match jsonParse lib line with
  | Some d => decodeMessage d target
  | None => (target, Some "json: syntax error")
  end.
End WithLib.

End Wire.

(* ===================================================================== *)
(** ** Stream session: DriverManagerClient / DriverManagerConnection      *)
(* ===================================================================== *)

(** [HandshakeInfo]; [Drivers] is a Go map, [None] being nil. *)
Record HandshakeInfo : Type := {
  DriverCount : Z;                       (* `json:"driver_count"` *)
  Drivers : option (gmap string json);   (* `json:"drivers"`      *)
}.

Definition zeroHandshakeInfo : HandshakeInfo := {| DriverCount := 0; Drivers := None |}.

(** A response channel, [make(chan Message, 1)]: one buffer slot. *)
Record Chan : Type := {
  buf : option Message;
  closed : bool;
}.

Definition newChan : Chan := {| buf := None; closed := false |}.

(** The state the two session types share.  [DriverManagerClient] (the
    host dialled out; [name] is its address) and [DriverManagerConnection]
    (the driver manager dialled in; [name] is its ID) have the same fields and
    the same [processMessages] and [sendRequest] bodies, up to the names of
    their mutexes.  Channels are references: [responses] maps a correlation ID
    to a channel of [chans].  [wire] is what has been written to [conn],
    oldest first, and [broken] says that [conn.Write] fails. *)
Record Session : Type := {
  name : string;
  connected : bool;
  responses : gmap string nat;
  chans : gmap nat Chan;
  handshake : option HandshakeInfo;
  wire : list string;
  broken : bool;
  log : list string;
}.

Definition newSession (nm : string) : Session :=
  {| name := nm; connected := true; responses := ∅; chans := ∅;
     handshake := None; wire := []; broken := false; log := [] |}.

Definition set_connected (b : bool) (s : Session) : Session :=
  {| name := s.(name); connected := b; responses := s.(responses); chans := s.(chans);
     handshake := s.(handshake); wire := s.(wire); broken := s.(broken); log := s.(log) |}.

Definition set_responses (r : gmap string nat) (s : Session) : Session :=
  {| name := s.(name); connected := s.(connected); responses := r; chans := s.(chans);
     handshake := s.(handshake); wire := s.(wire); broken := s.(broken); log := s.(log) |}.

Definition set_chans (c : gmap nat Chan) (s : Session) : Session :=
  {| name := s.(name); connected := s.(connected); responses := s.(responses); chans := c;
     handshake := s.(handshake); wire := s.(wire); broken := s.(broken); log := s.(log) |}.

Definition set_handshake (h : option HandshakeInfo) (s : Session) : Session :=
  {| name := s.(name); connected := s.(connected); responses := s.(responses);
     chans := s.(chans); handshake := h; wire := s.(wire); broken := s.(broken);
     log := s.(log) |}.

Definition set_wire (w : list string) (s : Session) : Session :=
  {| name := s.(name); connected := s.(connected); responses := s.(responses);
     chans := s.(chans); handshake := s.(handshake); wire := w; broken := s.(broken);
     log := s.(log) |}.

Definition logf (line : string) (s : Session) : Session :=
  {| name := s.(name); connected := s.(connected); responses := s.(responses);
     chans := s.(chans); handshake := s.(handshake); wire := s.(wire);
     broken := s.(broken); log := s.(log) ++ [line] |}.

(** One result of [scanner.Scan()] returning true, together with whether the
    context was already cancelled when the loop body looked at it. *)
Record Tick : Type := {
  ctx_done : bool;
  text : string;
}.

Definition newline : string := String "010" "".

Module Session.
Section WithLib.
Context (lib : GoLib).

(** [conn.Write(append(data, '\n'))] *)
Definition Write (data : string) (s : Session) : Session * option error :=
  if s.(broken) then (s, Some "write: broken pipe")
  else (set_wire (s.(wire) ++ [data +:+ newline]) s, None).

(** [IsConnected] *)
Definition IsConnected (s : Session) : bool := s.(connected).

(** [Close]: the flag is cleared (the error of [conn.Close] is not
    modelled). *)
Definition Close (s : Session) : Session := set_connected false s.

(** The [select] that hands a response to its awaiter: the send goes
    through when the slot is free; with the slot taken it waits five
    seconds and gives up with a warning.  A send on a closed channel is a
    run-time panic, recorded in the log. *)
Definition deliver (c : nat) (msg : Message) (s : Session) : Session :=
  match s.(chans) !! c with
  | Some ch =>
      if ch.(closed) then logf "panic: send on closed channel" s
      else match ch.(buf) with
           | None => set_chans (<[c := {| buf := Some msg; closed := false |}]> s.(chans)) s
           | Some _ =>
               logf ("Response channel timeout for message ID: " +:+ msg.(ID)) s
           end
  | None => s
  end.

(** The body of the [for dmc.scanner.Scan()] loop of [processMessages],
    after the cancellation check. *)
Definition processLine (s : Session) (raw : string) : Session :=
  let line := TrimSpace lib raw in
  if decide (line = "") then s
  else
    match Wire.Unmarshal lib line zeroMessage with
    | (_, Some err) => logf ("Failed to parse message: " +:+ err) s
    | (msg, None) =>
        if decide (msg.(Type_) = "handshake") then s
        else if decide (msg.(Type_) = "response" /\ msg.(ID) <> "") then
          match s.(responses) !! msg.(ID) with
          | Some c => deliver c msg s
          | None => s
          end
        else s
    end.

(** [processMessages]: the read loop.  [scanErr] is what [scanner.Err()]
    returns once [Scan] has returned false.  The deferred function clears
    the connected flag on every way out. *)
Fixpoint processMessages (s : Session) (feed : list Tick) (scanErr : option error)
  : Session :=
  match feed with
  | t :: rest =>
      if t.(ctx_done) then set_connected false s
      else processMessages (processLine s t.(text)) rest scanErr
  | [] =>
      set_connected false
        (match scanErr with
         | Some e => logf ("Scanner error: " +:+ e) s
         | None => s
         end)
  end.

(** [fmt.Sprintf("%s-%d", method, time.Now().UnixNano())], [now] being the
    clock reading. *)
Definition genID (method : string) (now : Z) : string :=
  method +:+ "-" +:+ pretty now.

(** The deferred function of [sendRequest]. *)
Definition cleanup (id : string) (c : nat) (s : Session) : Session :=
  let s1 := set_responses (delete id s.(responses)) s in
  set_chans (alter (fun ch => {| buf := ch.(buf); closed := true |}) c s1.(chans)) s1.

(** [make(chan Message, 1)] returns a channel that did not exist before. *)
Definition freshChan (s : Session) : nat := fresh (dom s.(chans)).

(** [sendRequest] up to the point where it blocks in [select]. *)
Inductive Pending : Type :=
  | Exited (s : Session) (r : json + error)
  | Waiting (s : Session) (id : string) (c : nat).

Definition sendRequest_begin (now : Z) (s : Session) (method : string)
    (params : option (gmap string json)) : Pending :=
  if negb (IsConnected s) then Exited s (inr "not connected to driver manager")
  else
    let id := genID method now in
    let c := freshChan s in
    let s1 := set_responses (<[id := c]> s.(responses))
                (set_chans (<[c := newChan]> s.(chans)) s) in
    let request := {| ID := id; Type_ := "request"; Method := method;
                      Params := params; Result := JNull; Error := None |} in
    match Wire.Marshal lib request with
    | None => Exited (cleanup id c s1) (inr "failed to marshal request")
    | Some data =>
        match Write data s1 with
        | (s2, Some e) => Exited (cleanup id c s2) (inr ("failed to send request: " +:+ e))
        | (s2, None) => Waiting s2 id c
        end
    end.

(** What the caller's surroundings do during one call: the clock reading
    taken for the correlation ID, the lines the read loop handles while the
    caller is blocked, and the deadline that ends the wait when no response
    has come: the 30 s timer always fires in the end, so the [select] always
    returns.  [early] says that the deadline case is the one that runs even
    though a response is waiting as well ([select] picks any ready case). *)
Inductive Deadline : Type := CtxDone | TimerFired.

Record CallEnv : Type := {
  now : Z;
  incoming : list string;
  early : bool;
  deadline : Deadline;
}.

Definition deadlineError (d : Deadline) : error :=
  match d with
  | CtxDone => "context canceled"
  | TimerFired => "request timeout"
  end.

Definition responseResult (response : Message) : json + error :=
  match response.(Error) with
  | Some e => inr ("driver manager error " +:+ pretty e.(Code) +:+ ": " +:+ e.(ErrMessage))
  | None => inl response.(Result)
  end.

(** The final [select] and the way out through the deferred function. *)
Definition sendRequest_end (early : bool) (d : Deadline) (s : Session) (id : string)
    (c : nat) : Session * (json + error) :=
  match s.(chans) !! c with
  | Some {| buf := Some response |} =>
      if early then (cleanup id c s, inr (deadlineError d))
      else (cleanup id c (set_chans (<[c := newChan]> s.(chans)) s), responseResult response)
  | _ => (cleanup id c s, inr (deadlineError d))
  end.

(** [sendRequest]: one whole call. *)
Definition sendRequest (env : CallEnv) (s : Session) (method : string)
    (params : option (gmap string json)) : Session * (json + error) :=
  match sendRequest_begin env.(now) s method params with
  | Exited s' r => (s', r)
  | Waiting s1 id c =>
      sendRequest_end env.(early) env.(deadline)
        (fold_left processLine env.(incoming) s1) id c
  end.

End WithLib.
End Session.

(* ===================================================================== *)
(** ** The line scanner: bufio.Scanner                                    *)
(* ===================================================================== *)

(** Both sides read their connection with [bufio.NewScanner(conn)]: the
    split function is [bufio.ScanLines] and the buffer is the default one,
    which grows to [MaxScanTokenSize] bytes and no further. *)
Module Scanner.

(** [bufio.MaxScanTokenSize] *)
Definition MaxScanTokenSize : N := 64 * 1024.

(** [bufio.ErrTooLong] *)
Definition ErrTooLong : error := "bufio.Scanner: token too long".

(** [dropCR]: a carriage return at the end of the line is not part of the
    token. *)
Definition dropCR (data : string) : string :=
  match String.rev data with
  | String "013" r => String.rev r
  | _ => data
  end.

(** One call of [Scan] with [raw] as the next line of the connection, the
    newline that ends it left out.  The line and its newline have to fit into
    the buffer: a line of [MaxScanTokenSize] bytes or more fills the buffer
    before its newline is seen, and [Scan] returns false with [ErrTooLong],
    which every later call repeats. *)
Definition token (raw : string) : string + error :=
  if (MaxScanTokenSize <=? N.of_nat (String.length raw))%N then inr ErrTooLong
  else inl (dropCR raw).

End Scanner.

(* ===================================================================== *)
(** ** Handshake                                                          *)
(* ===================================================================== *)

Module Handshake.

Definition decodeInfoField (acc : HandshakeInfo * option error) (kv : string * json)
  : HandshakeInfo * option error :=
  let '(h, err) := acc in
  let k := Wire.foldName kv.1 in
  if decide (k = "driver_count") then
    let '(n, err') := Wire.decodeInt "HandshakeInfo.driver_count" h.(DriverCount) kv.2 in
    ({| DriverCount := n; Drivers := h.(Drivers) |}, Wire.saveError err err')
  else if decide (k = "drivers") then
    let '(m, err') := Wire.decodeMap "HandshakeInfo.drivers" h.(Drivers) kv.2 in
    ({| DriverCount := h.(DriverCount); Drivers := m |}, Wire.saveError err err')
  else acc.

(** Decoding a document into [*HandshakeInfo]. *)
Definition decodeInfo (d : json) (target : HandshakeInfo) : HandshakeInfo * option error :=
  match d with
  | JObj kvs => fold_left decodeInfoField kvs (target, None)
  | JNull => (target, None)
  | _ => (target, Some ("json: cannot unmarshal " +:+ Wire.kindOf d
                        +:+ " into Go value of type HandshakeInfo"))
  end.

(** Time is counted in nanoseconds, as [UnixNano] does. *)
Definition second : Z := 1000000000.

(** [time.NewTimer(30 * time.Second)] *)
Definition handshakeTimeout : Z := 30 * second.

(** What [Scan] does once the lines of a connection have been read: it
    returns false with [Err()] nil (end of input), it returns false with an
    error, or, the peer being silent with the connection open, it does not
    return. *)
Inductive ScanEnd : Type :=
  | EndOfInput
  | ReadError (e : error)
  | Silent.

(** What a call of [waitForHandshake] comes to: it returns, leaving the
    lines [rest] of the connection unread, or it stays blocked in [Scan]. *)
Inductive Wait (L : Type) : Type :=
  | Returned (r : HandshakeInfo + error) (rest : list L)
  | Blocked.
Arguments Returned {L} r rest.
Arguments Blocked {L}.

(** The outbound client has two loops that call [Scan] on the one scanner of
    the connection: [Connect] starts the read loop [processMessages] in a
    goroutine of its own and then calls [waitForHandshake].  A line of the
    connection is returned by one call of [Scan], and so goes to one of the
    two loops. *)
Inductive Reader : Type :=
  | ReadLoop
  | Waiter.

(** What a loop body of [waitForHandshake] decides. *)
Inductive Step : Type :=
  | Continue
  | Return (r : HandshakeInfo + error).

Section WithLib.
Context (lib : GoLib).

(** "Parse handshake data": [json.Marshal(msg.Result)], then
    [json.Unmarshal(resultData, &handshake)]. *)
Definition parseHandshake (result : json) : HandshakeInfo + error :=
  match jsonText lib result with
  | None => inr "failed to marshal handshake result"
  | Some resultData =>
      match jsonParse lib resultData with
      | None => inr "failed to parse handshake: json: syntax error"
      | Some d =>
          match decodeInfo d zeroHandshakeInfo with
          | (h, None) => inl h
          | (_, Some e) => inr ("failed to parse handshake: " +:+ e)
          end
      end
  end.

(** The scanned-line part of the loop body, for a given acceptance test on
    the decoded message. *)
Definition handshakeLine (accept : Message -> bool) (raw : string) : Step :=
  let line := TrimSpace lib raw in
  if decide (line = "") then Continue
  else
    match Wire.Unmarshal lib line zeroMessage with
    | (_, Some _) => Continue
    | (msg, None) => if accept msg then Return (parseHandshake msg.(Result)) else Continue
    end.

(** [if msg.Type == "handshake"] (the inbound listener) *)
Definition serverAccepts (msg : Message) : bool :=
  bool_decide (msg.(Type_) = "handshake").

(** [if msg.Type == "handshake" && msg.ID == "handshake"] (the outbound
    client) *)
Definition clientAccepts (msg : Message) : bool :=
  bool_decide (msg.(Type_) = "handshake") && bool_decide (msg.(ID) = "handshake").

(** [DriverManagerServer.waitForHandshake].  [clock] is the time that has
    passed since the 30 s timer was started when an iteration of the loop
    begins; [feed] are the lines the peer writes to the connection, each with
    the time at which it arrives, and [fin] says what [Scan] does after the
    last of them.  [Scan] returns a line as its token when the line fits the
    scanner's buffer; at a longer line it fails, and the loop returns the
    scanner's error.  The timer is looked at when an iteration begins and not
    while [Scan] waits for a line.  After the end of the input the loop spins
    until the timer fires. *)
Fixpoint serverWaitForHandshake (clock : Z) (feed : list (Z * string)) (fin : ScanEnd)
  : Wait (Z * string) :=
  if handshakeTimeout <=? clock then Returned (inr "handshake timeout") feed
  else
    match feed with
    | (arrival, raw) :: rest =>
        match Scanner.token raw with
        | inl text =>
            match handshakeLine serverAccepts text with
            | Return r => Returned r rest
            | Continue => serverWaitForHandshake (Z.max clock arrival) rest fin
            end
        | inr e => Returned (inr ("scanner error: " +:+ e)) rest
        end
    | [] =>
        match fin with
        | EndOfInput => Returned (inr "handshake timeout") []
        | ReadError e => Returned (inr ("scanner error: " +:+ e)) []
        | Silent => Blocked
        end
    end.

(** Whether the context is cancelled at time [clock]. *)
Definition cancelled_at (cancelAt : option Z) (clock : Z) : bool :=
  match cancelAt with
  | Some t => t <=? clock
  | None => false
  end.

(** [DriverManagerClient.waitForHandshake]: as above, with the context's
    cancellation as one more case of the [select]; when both that case and
    the timer's are ready the context's is taken here.  Each line of [feed]
    says which loop's call of [Scan] returns it: a line that goes to the read
    loop is not seen here, and this loop's call of [Scan] goes on waiting.  A
    line that is too long for the buffer fails the scanner for both loops. *)
Fixpoint clientWaitForHandshake (cancelAt : option Z) (clock : Z)
    (feed : list (Reader * (Z * string))) (fin : ScanEnd)
  : Wait (Reader * (Z * string)) :=
  if cancelled_at cancelAt clock then Returned (inr "context canceled") feed
  else if handshakeTimeout <=? clock then Returned (inr "handshake timeout") feed
  else
    match feed with
    | (reader, (arrival, raw)) :: rest =>
        match Scanner.token raw with
        | inl text =>
            match reader with
            | ReadLoop => clientWaitForHandshake cancelAt clock rest fin
            | Waiter =>
                match handshakeLine clientAccepts text with
                | Return r => Returned r rest
                | Continue => clientWaitForHandshake cancelAt (Z.max clock arrival) rest fin
                end
            end
        | inr e => Returned (inr ("scanner error: " +:+ e)) rest
        end
    | [] =>
        match fin with
        | EndOfInput =>
            Returned (inr (if cancelled_at cancelAt (handshakeTimeout - 1)
                           then "context canceled" else "handshake timeout")) []
        | ReadError e => Returned (inr ("scanner error: " +:+ e)) []
        | Silent => Blocked
        end
    end.

End WithLib.
End Handshake.

(* ===================================================================== *)
(** ** Outbound client role and the pool of clients                       *)
(* ===================================================================== *)

(** A [map[string]interface{}] stored in an [interface{}]. *)
Definition mapValue (m : option (gmap string json)) : json :=
  match m with
  | Some m => marshalMap m
  | None => JNull
  end.

(** [result.(map[string]interface{})], or "invalid response format". *)
Definition expectMap (r : json + error) : gmap string json + error :=
  match r with
  | inl v =>
      match asMap v with
      | Some m => inl m
      | None => inr "invalid response format"
      end
  | inr e => inr e
  end.

Module Client.
Section WithLib.
Context (lib : GoLib).

(** [Connect], after the dial has succeeded: the scanner is created, the
    connected flag is set, the read loop is started, the handshake is awaited,
    and a failed handshake closes the client.  [feed] are the lines the peer
    writes, each with the loop whose call of [Scan] returns it; what the read
    loop does with its lines is [Session.processLine].  [None]: the call does
    not return. *)
Definition Connect (cancelAt : option Z) (feed : list (Handshake.Reader * (Z * string)))
    (fin : Handshake.ScanEnd) (address : string) : option (Session * option error) :=
  let s := newSession address in
  match Handshake.clientWaitForHandshake lib cancelAt 0 feed fin with
  | Handshake.Returned (inl h) _ => Some (set_handshake (Some h) s, None)
  | Handshake.Returned (inr e) _ => Some (Session.Close s, Some ("handshake failed: " +:+ e))
  | Handshake.Blocked => None
  end.

(** [ListDrivers] *)
Definition ListDrivers (env : Session.CallEnv) (s : Session)
  : Session * (gmap string json + error) :=
  let '(s', r) := Session.sendRequest lib env s "list_drivers" None in
  (s', expectMap r).

(** [GetDriverInfo] *)
Definition GetDriverInfo (env : Session.CallEnv) (s : Session) (driverName : string)
  : Session * (gmap string json + error) :=
  let params := {[ "driver" := JStr driverName ]} in
  let '(s', r) := Session.sendRequest lib env s "get_driver_info" (Some params) in
  (s', expectMap r).

Definition createParams (instanceID driverName : string)
    (config : option (gmap string json)) : gmap string json :=
  <["instance_id" := JStr instanceID]>
    (<["driver" := JStr driverName]> {[ "config" := mapValue config ]}).

Definition executeParams (instanceID operation : string)
    (operationParams : option (gmap string json)) : gmap string json :=
  <["instance_id" := JStr instanceID]>
    (<["operation" := JStr operation]> {[ "params" := mapValue operationParams ]}).

(** [CreateDriverInstance] *)
Definition CreateDriverInstance (env : Session.CallEnv) (s : Session)
    (instanceID driverName : string) (config : option (gmap string json))
  : Session * (json + error) :=
  Session.sendRequest lib env s "create_instance"
    (Some (createParams instanceID driverName config)).

(** [ExecuteDriverOperation] *)
Definition ExecuteDriverOperation (env : Session.CallEnv) (s : Session)
    (instanceID operation : string) (operationParams : option (gmap string json))
  : Session * (json + error) :=
  Session.sendRequest lib env s "execute_operation"
    (Some (executeParams instanceID operation operationParams)).

End WithLib.
End Client.

(** [DriverManagerPool]: the clients in the order [AddDriverManager]
    appended them.  The slice holds copies of the client structs; a copy
    shares the response table and the connection with the original, and has
    its own connected flag, which is the one [IsConnected] reads here. *)
Record DriverManagerPool : Type := {
  pool_clients : list Session;
}.

Module Pool.
Section WithLib.
Context (lib : GoLib).
(** The surroundings of the request made on each client. *)
Context (env : Session -> Session.CallEnv).

(** [AddDriverManager], after a successful [Connect]. *)
Definition AddDriverManager (client : Session) (p : DriverManagerPool) : DriverManagerPool :=
  {| pool_clients := p.(pool_clients) ++ [client] |}.

(** [GetConnectedManagers] *)
Definition GetConnectedManagers (p : DriverManagerPool) : list Session :=
  filter (fun c => Session.IsConnected c = true) p.(pool_clients).

(** The [for _, client := range dmp.clients] loop of [GetDriverInfo]; the
    clients come back with what the requests did to them. *)
Fixpoint GetDriverInfo_loop (clients : list Session) (driverName : string)
  : list Session * (gmap string json + error) :=
  match clients with
  | client :: rest =>
      if negb (Session.IsConnected client) then
        let '(rest', r) := GetDriverInfo_loop rest driverName in (client :: rest', r)
      else
        match Client.GetDriverInfo lib (env client) client driverName with
        | (client', inl info) => (client' :: rest, inl info)
        | (client', inr _) =>
            let '(rest', r) := GetDriverInfo_loop rest driverName in (client' :: rest', r)
        end
  | [] => ([], inr ("driver " +:+ driverName +:+ " not found in any connected manager"))
  end.

(** [GetDriverInfo] *)
Definition GetDriverInfo (p : DriverManagerPool) (driverName : string)
  : DriverManagerPool * (gmap string json + error) :=
  let '(cs, r) := GetDriverInfo_loop p.(pool_clients) driverName in
  ({| pool_clients := cs |}, r).

End WithLib.
End Pool.

(* ===================================================================== *)
(** ** Inbound listener: DriverManagerServer                              *)
(* ===================================================================== *)

(** [clients] is the Go map from connection ID to connection; [cancelled]
    says that [dms.cancel()] has run. *)
Record DriverManagerServer : Type := {
  clients : gmap string Session;
  cancelled : bool;
}.

(** [for _, m := range managers { r, err := call(m); if err == nil { return r } }]:
    the managers come back with what the requests did to them, and [None]
    says that the loop ran to its end. *)
Fixpoint tryEach {R : Type} (call : Session -> Session * (R + error))
    (managers : list Session) : list Session * option R :=
  match managers with
  | m :: rest =>
      match call m with
      | (m', inl v) => (m' :: rest, Some v)
      | (m', inr _) => let '(rest', r) := tryEach call rest in (m' :: rest', r)
      end
  | [] => ([], None)
  end.

Module Server.
Section WithLib.
Context (lib : GoLib).

(** [NewDriverManagerServer] *)
Definition NewDriverManagerServer : DriverManagerServer :=
  {| clients := ∅; cancelled := false |}.

(** [fmt.Sprintf("dm-%d", time.Now().UnixNano())] *)
Definition connID (now : Z) : string := "dm-" +:+ pretty now.

(** [handleConnection]: the connection object is built, with its ID taken
    from the clock and a scanner of its own; the handshake is awaited; and
    only then is the client put into [dms.clients] (the read loop is started
    after that).  When [waitForHandshake] fails, or does not return, nothing
    is registered. *)
Definition handleConnection (now : Z) (feed : list (Z * string)) (fin : Handshake.ScanEnd)
    (srv : DriverManagerServer) : DriverManagerServer :=
  let client := newSession (connID now) in
  match Handshake.serverWaitForHandshake lib 0 feed fin with
  | Handshake.Returned (inl h) _ =>
      let client := set_handshake (Some h) client in
      {| clients := <[client.(name) := client]> srv.(clients); cancelled := srv.(cancelled) |}
  | Handshake.Returned (inr _) _ => srv
  | Handshake.Blocked => srv
  end.

(** [Stop] *)
Definition Stop (srv : DriverManagerServer) : DriverManagerServer :=
  {| clients := Session.Close <$> srv.(clients); cancelled := true |}.

(** A [for ... range dms.clients] visits every key once, in an order the
    language leaves open: [order] is the order of one such loop. *)
Definition rangeOrder (srv : DriverManagerServer) (order : list string) : Prop :=
  order ≡ₚ (map_to_list srv.(clients)).*1.

(** [GetConnectedManagers] *)
Definition GetConnectedManagers (order : list string) (srv : DriverManagerServer)
  : list Session :=
  filter (fun c => Session.IsConnected c = true)
         (omap (fun k => srv.(clients) !! k) order).

(** The managers are pointers into [dms.clients]: what a request did to a
    manager is seen through the map. *)
Definition store (managers : list Session) (srv : DriverManagerServer)
  : DriverManagerServer :=
  {| clients := fold_left (fun m c => <[c.(name) := c]> m) managers srv.(clients);
     cancelled := srv.(cancelled) |}.

Section Requests.
Context (order : list string).
Context (env : Session -> Session.CallEnv).

(** The request each loop makes on one manager. *)
Definition infoCall (driverName : string) (manager : Session)
  : Session * (gmap string json + error) :=
  let params := {[ "driver" := JStr driverName ]} in
  let '(manager', r) :=
    Session.sendRequest lib (env manager) manager "get_driver_info" (Some params) in
  (manager', expectMap r).

Definition createCall (instanceID driverName : string)
    (config : option (gmap string json)) (manager : Session) : Session * (json + error) :=
  Session.sendRequest lib (env manager) manager "create_instance"
    (Some (Client.createParams instanceID driverName config)).

Definition executeCall (instanceID operation : string)
    (operationParams : option (gmap string json)) (manager : Session)
  : Session * (json + error) :=
  Session.sendRequest lib (env manager) manager "execute_operation"
    (Some (Client.executeParams instanceID operation operationParams)).

(** [GetDriverInfo]: a result that is not a map counts as a miss. *)
Definition GetDriverInfo (srv : DriverManagerServer) (driverName : string)
  : DriverManagerServer * (gmap string json + error) :=
  let managers := GetConnectedManagers order srv in
  match tryEach (infoCall driverName) managers with
  | (ms, Some infoMap) => (store ms srv, inl infoMap)
  | (ms, None) =>
      (store ms srv, inr ("driver " +:+ driverName +:+ " not found in any connected manager"))
  end.

(** [CreateDriverInstance] *)
Definition CreateDriverInstance (srv : DriverManagerServer)
    (instanceID driverName : string) (config : option (gmap string json))
  : DriverManagerServer * option error :=
  let managers := GetConnectedManagers order srv in
  if decide (length managers = 0%nat) then (srv, Some "no connected driver managers")
  else
    match tryEach (createCall instanceID driverName config) managers with
    | (ms, Some _) => (store ms srv, None)
    | (ms, None) => (store ms srv, Some "failed to create driver instance on any manager")
    end.

(** [ExecuteDriverOperation] *)
Definition ExecuteDriverOperation (srv : DriverManagerServer)
    (instanceID operation : string) (operationParams : option (gmap string json))
  : DriverManagerServer * (json + error) :=
  let managers := GetConnectedManagers order srv in
  match tryEach (executeCall instanceID operation operationParams) managers with
  | (ms, Some result) => (store ms srv, inl result)
  | (ms, None) => (store ms srv, inr "failed to execute operation on any manager")
  end.

End Requests.

(** What the listener and its callers can do to the server, one step at a
    time: accept a connection, let the read loop of a registered connection
    handle a line or end, send a request on a registered connection, run one
    of the fan-out requests, stop. *)
Inductive step : DriverManagerServer -> DriverManagerServer -> Prop :=
  | step_accept now feed fin srv :
      step srv (handleConnection now feed fin srv)
  | step_line id c raw srv :
      srv.(clients) !! id = Some c ->
      step srv {| clients := <[id := Session.processLine lib c raw]> srv.(clients);
                  cancelled := srv.(cancelled) |}
  | step_loop_end id c srv :
      srv.(clients) !! id = Some c ->
      step srv {| clients := <[id := set_connected false c]> srv.(clients);
                  cancelled := srv.(cancelled) |}
  | step_request id c env method params srv :
      srv.(clients) !! id = Some c ->
      step srv {| clients := <[id := (Session.sendRequest lib env c method params).1]>
                               srv.(clients);
                  cancelled := srv.(cancelled) |}
  | step_info order env driverName srv :
      step srv (GetDriverInfo order env srv driverName).1
  | step_create order env instanceID driverName config srv :
      step srv (CreateDriverInstance order env srv instanceID driverName config).1
  | step_execute order env instanceID operation params srv :
      step srv (ExecuteDriverOperation order env srv instanceID operation params).1
  | step_stop srv :
      step srv (Stop srv).

Inductive reachable : DriverManagerServer -> Prop :=
  | reachable_new : reachable NewDriverManagerServer
  | reachable_step srv srv' : reachable srv -> step srv srv' -> reachable srv'.

End WithLib.
End Server.

(* ===================================================================== *)
(** ** Remote-side instance manager: DriverManager                        *)
(* ===================================================================== *)

(** [model.Storage], the fields the manager sets. *)
Record Storage : Type := {
  StorageID : Z;
  MountPath : string;
  StorageDriver : string;
  Addition : gmap string json;
  Status : string;
}.

(** [model.Object], [model.ListArgs], [model.OtherArgs]. *)
Record Object : Type := {
  ObjID : string;
  ObjName : string;
  ObjPath : string;
  IsDir : bool;
}.

Record ListArgs : Type := { Refresh : bool }.

Record OtherArgs : Type := {
  OtherMethod : string;
  OtherData : gmap string json;
}.

(** The [driver.Driver] interface with its optional capabilities
    [driver.Getter] and [driver.Other].  A driver is a value of type [D]; a
    method returns the driver as the call left it along with its result.
    [isGetter] and [isOther] are the type assertions
    [instance.Driver.(driver.Getter)] and [instance.Driver.(driver.Other)]:
    they look at the dynamic type and call nothing. *)
Class DriverOps (D : Type) : Type := {
  drvSetStorage : Storage -> D -> D;
  drvInit : D -> D * option error;
  drvDrop : D -> D * option error;
  drvList : D -> Object -> ListArgs -> D * (json + error);
  drvLink : D -> Object -> D * (json + error);
  isGetter : D -> bool;
  drvGet : D -> string -> D * (json + error);
  isOther : D -> bool;
  drvOther : D -> OtherArgs -> D * (json + error);
}.

(** A call of a driver method, as recorded in [calls] below. *)
Inductive DriverCall : Type :=
  | CallSetStorage (instanceID : string)
  | CallInit (instanceID : string)
  | CallDrop (instanceID : string)
  | CallList (instanceID : string) (path : string) (refresh : bool)
  | CallLink (instanceID : string) (path : string)
  | CallGet (instanceID : string) (path : string)
  | CallOther (instanceID : string) (method : string).

Section Manager.
Context {D : Type} `{DriverOps D}.

(** [registry.DriverInfo]; [Constructor] is the driver a call of the
    constructor returns. *)
Record DriverInfo : Type := {
  InfoName : string;
  InfoConfig : json;
  Items : json;
  I18n : json;
  Constructor : D;
}.

(** [DriverInstance] *)
Record DriverInstance : Type := {
  InstID : string;
  InstName : string;
  Driver : D;
  Config : gmap string json;
  Enabled : bool;
}.

(** [DriverManager].  [calls] is not a field of the Go struct: it lists, oldest
    first, the driver methods called so far. *)
Record DriverManager : Type := {
  registry : gmap string DriverInfo;
  instances : gmap string DriverInstance;
  calls : list DriverCall;
}.

Definition set_instances (i : gmap string DriverInstance) (dm : DriverManager)
  : DriverManager :=
  {| registry := dm.(registry); instances := i; calls := dm.(calls) |}.

Definition called (c : DriverCall) (dm : DriverManager) : DriverManager :=
  {| registry := dm.(registry); instances := dm.(instances); calls := dm.(calls) ++ [c] |}.

Definition set_driver (d : D) (i : DriverInstance) : DriverInstance :=
  {| InstID := i.(InstID); InstName := i.(InstName); Driver := d;
     Config := i.(Config); Enabled := i.(Enabled) |}.

Definition set_enabled (b : bool) (i : DriverInstance) : DriverInstance :=
  {| InstID := i.(InstID); InstName := i.(InstName); Driver := i.(Driver);
     Config := i.(Config); Enabled := b |}.

(** [NewDriverManager] *)
Definition NewDriverManager (reg : gmap string DriverInfo) : DriverManager :=
  {| registry := reg; instances := ∅; calls := [] |}.

(** [DriverRegistry.GetDriver] *)
Definition GetDriver (reg : gmap string DriverInfo) (name : string) : DriverInfo + error :=
  match reg !! name with
  | Some info => inl info
  | None => inr ("driver " +:+ name +:+ " not found")
  end.

(** "Create storage model for the driver" *)
Definition newStorage (instanceID driverName : string) (config : gmap string json)
  : Storage :=
  {| StorageID := 0;
     MountPath := "/driver-" +:+ instanceID;
     StorageDriver := driverName;
     Addition := config;
     Status := "work" |}.

(** [CreateDriverInstance] *)
Definition CreateDriverInstance (dm : DriverManager) (instanceID driverName : string)
    (config : gmap string json) : DriverManager * option error :=
  match dm.(instances) !! instanceID with
  | Some _ => (dm, Some ("driver instance " +:+ instanceID +:+ " already exists"))
  | None =>
      match GetDriver dm.(registry) driverName with
      | inr e => (dm, Some ("failed to get driver info: " +:+ e))
      | inl driverInfo =>
          let driverInstance := driverInfo.(Constructor) in
          let storage := newStorage instanceID driverName config in
          let driverInstance := drvSetStorage storage driverInstance in
          let dm := called (CallSetStorage instanceID) dm in
          let '(driverInstance, err) := drvInit driverInstance in
          let dm := called (CallInit instanceID) dm in
          match err with
          | Some e => (dm, Some ("failed to initialize driver: " +:+ e))
          | None =>
              let instance := {| InstID := instanceID; InstName := driverName;
                                 Driver := driverInstance; Config := config;
                                 Enabled := true |} in
              (set_instances (<[instanceID := instance]> dm.(instances)) dm, None)
          end
      end
  end.

(** [GetDriverInstance] *)
Definition GetDriverInstance (dm : DriverManager) (instanceID : string)
  : DriverInstance + error :=
  match dm.(instances) !! instanceID with
  | Some instance => inl instance
  | None => inr ("driver instance " +:+ instanceID +:+ " not found")
  end.

(** [RemoveDriverInstance].  The driver is reached through a pointer, so the
    entry that stays after a failed [Drop] holds the driver as [Drop] left
    it. *)
Definition RemoveDriverInstance (dm : DriverManager) (instanceID : string)
  : DriverManager * option error :=
  match dm.(instances) !! instanceID with
  | None => (dm, Some ("driver instance " +:+ instanceID +:+ " not found"))
  | Some instance =>
      let '(d, err) := drvDrop instance.(Driver) in
      let dm := called (CallDrop instanceID) dm in
      match err with
      | Some e =>
          (set_instances (<[instanceID := set_driver d instance]> dm.(instances)) dm,
           Some ("failed to drop driver: " +:+ e))
      | None => (set_instances (delete instanceID dm.(instances)) dm, None)
      end
  end.

(** [EnableDriverInstance] and [DisableDriverInstance] *)
Definition setEnabled (b : bool) (dm : DriverManager) (instanceID : string)
  : DriverManager * option error :=
  match dm.(instances) !! instanceID with
  | None => (dm, Some ("driver instance " +:+ instanceID +:+ " not found"))
  | Some instance =>
      (set_instances (<[instanceID := set_enabled b instance]> dm.(instances)) dm, None)
  end.

Definition EnableDriverInstance := setEnabled true.
Definition DisableDriverInstance := setEnabled false.

(** [IsDriverInstanceEnabled] *)
Definition IsDriverInstanceEnabled (dm : DriverManager) (instanceID : string) : bool :=
  match dm.(instances) !! instanceID with
  | None => false
  | Some instance => instance.(Enabled)
  end.

(** What a driver method did is seen through the instance's pointer. *)
Definition afterCall (dm : DriverManager) (instance : DriverInstance) (c : DriverCall)
    (r : D * (json + error)) : DriverManager * (json + error) :=
  let dm := called c dm in
  (set_instances (alter (set_driver r.1) instance.(InstID) dm.(instances)) dm, r.2).

(** [executeListOperation] *)
Definition executeListOperation (dm : DriverManager) (instance : DriverInstance)
    (params : gmap string json) : DriverManager * (json + error) :=
  match asString (default JNull (params !! "path")) with
  | None => (dm, inr "path parameter is required")
  | Some path =>
      let dir := {| ObjID := path; ObjName := path; ObjPath := path; IsDir := true |} in
      let args := {| Refresh := default false (asBool (default JNull (params !! "refresh"))) |} in
      afterCall dm instance (CallList instance.(InstID) path args.(Refresh))
        (drvList instance.(Driver) dir args)
  end.

(** [executeLinkOperation] *)
Definition executeLinkOperation (dm : DriverManager) (instance : DriverInstance)
    (params : gmap string json) : DriverManager * (json + error) :=
  match asString (default JNull (params !! "path")) with
  | None => (dm, inr "path parameter is required")
  | Some path =>
      let file := {| ObjID := path; ObjName := path; ObjPath := path; IsDir := false |} in
      afterCall dm instance (CallLink instance.(InstID) path) (drvLink instance.(Driver) file)
  end.

(** [executeGetOperation] *)
Definition executeGetOperation (dm : DriverManager) (instance : DriverInstance)
    (params : gmap string json) : DriverManager * (json + error) :=
  if negb (isGetter instance.(Driver)) then
    (dm, inr "driver does not support get operation")
  else
    match asString (default JNull (params !! "path")) with
    | None => (dm, inr "path parameter is required")
    | Some path =>
        afterCall dm instance (CallGet instance.(InstID) path) (drvGet instance.(Driver) path)
    end.

(** [executeOtherOperation] *)
Definition executeOtherOperation (dm : DriverManager) (instance : DriverInstance)
    (params : gmap string json) : DriverManager * (json + error) :=
  if negb (isOther instance.(Driver)) then
    (dm, inr "driver does not support other operation")
  else
    let method := default "" (asString (default JNull (params !! "method"))) in
    let args := {| OtherMethod := method; OtherData := params |} in
    afterCall dm instance (CallOther instance.(InstID) method)
      (drvOther instance.(Driver) args).

(** [ExecuteDriverOperation] *)
Definition ExecuteDriverOperation (dm : DriverManager) (instanceID operation : string)
    (params : gmap string json) : DriverManager * (json + error) :=
  match GetDriverInstance dm instanceID with
  | inr e => (dm, inr e)
  | inl instance =>
      if negb (IsDriverInstanceEnabled dm instanceID) then
        (dm, inr ("driver instance " +:+ instanceID +:+ " is disabled"))
      else if decide (operation = "list") then executeListOperation dm instance params
      else if decide (operation = "link") then executeLinkOperation dm instance params
      else if decide (operation = "get") then executeGetOperation dm instance params
      else if decide (operation = "other") then executeOtherOperation dm instance params
      else (dm, inr ("unsupported operation: " +:+ operation))
  end.

End Manager.

(* ===================================================================== *)
(** ** Remote-side protocol handler: ProtocolHandler                      *)
(* ===================================================================== *)

(** A [map[string]interface{}] literal, as the value of an [interface{}]. *)
Definition obj (members : list (string * json)) : json :=
  marshalMap (list_to_map members).

Section Protocol.
Context {D : Type} `{DriverOps D}.

(** [ProtocolHandler]: the manager it serves and its connection; [out] is
    what has been written to [conn], oldest first, and [connBroken] says that
    [conn.Write] fails. *)
Record ProtocolHandler : Type := {
  driverManager : DriverManager (D := D);
  out : list string;
  connBroken : bool;
}.

Definition set_manager (dm : DriverManager) (ph : ProtocolHandler) : ProtocolHandler :=
  {| driverManager := dm; out := ph.(out); connBroken := ph.(connBroken) |}.

(** [NewProtocolHandler] *)
Definition NewProtocolHandler (dm : DriverManager) : ProtocolHandler :=
  {| driverManager := dm; out := []; connBroken := false |}.

Context (lib : GoLib).

(** [sendMessage] *)
Definition sendMessage (ph : ProtocolHandler) (msg : Message)
  : ProtocolHandler * option error :=
  match Wire.Marshal lib msg with
  | None => (ph, Some "json: unsupported value")
  | Some data =>
      if ph.(connBroken) then (ph, Some "write: broken pipe")
      else ({| driverManager := ph.(driverManager);
               out := ph.(out) ++ [data +:+ newline];
               connBroken := ph.(connBroken) |}, None)
  end.

(** The message [sendError] builds. *)
Definition errorResponse (id : string) (code : Z) (message : string) : Message :=
  {| ID := id; Type_ := "response"; Method := ""; Params := None; Result := JNull;
     Error := Some {| Code := code; ErrMessage := message |} |}.

(** [sendError] *)
Definition sendError (ph : ProtocolHandler) (id : string) (code : Z) (message : string)
  : ProtocolHandler * option error :=
  sendMessage ph (errorResponse id code message).

Definition resultResponse (id : string) (result : json) : Message :=
  {| ID := id; Type_ := "response"; Method := ""; Params := None; Result := result;
     Error := None |}.

(** "Create driver info for handshake": the entry of one driver. *)
Definition handshakeEntry (driver : DriverInfo (D := D)) : json :=
  obj [("name", JStr driver.(InfoName)); ("config", driver.(InfoConfig));
       ("items", driver.(Items)); ("i18n", driver.(I18n))].

(** The message [SendHandshake] builds; [registry.GetDriverCount()] is the
    length of the registry's map. *)
Definition handshakeMessage (ph : ProtocolHandler) (managerID : string) : Message :=
  let drivers := ph.(driverManager).(registry) in
  let driverInfo := handshakeEntry <$> drivers in
  {| ID := "handshake"; Type_ := "handshake"; Method := ""; Params := None;
     Result := obj [("manager_id", JStr managerID);
                    ("driver_count", JNum (Z.of_nat (size drivers)));
                    ("drivers", marshalMap driverInfo)];
     Error := None |}.

(** [SendHandshake] *)
Definition SendHandshake (ph : ProtocolHandler) (managerID : string)
  : ProtocolHandler * option error :=
  sendMessage ph (handshakeMessage ph managerID).

(** [handlePing] *)
Definition handlePing (ph : ProtocolHandler) (msg : Message)
  : ProtocolHandler * option error :=
  sendMessage ph (resultResponse msg.(ID) (JStr "pong")).

(** [handleListDrivers] *)
Definition handleListDrivers (ph : ProtocolHandler) (msg : Message)
  : ProtocolHandler * option error :=
  let drivers := ph.(driverManager).(registry) in
  let result :=
    (fun driver => obj [("name", JStr driver.(InfoName)); ("config", driver.(InfoConfig));
                        ("i18n", driver.(I18n))]) <$> drivers in
  sendMessage ph (resultResponse msg.(ID) (marshalMap result)).

(** [handleGetDriverInfo] *)
Definition handleGetDriverInfo (ph : ProtocolHandler) (msg : Message)
  : ProtocolHandler * option error :=
  match asString (getParam msg.(Params) "driver") with
  | None => sendError ph msg.(ID) 400 "driver parameter is required"
  | Some driverName =>
      match GetDriver ph.(driverManager).(registry) driverName with
      | inr e => sendError ph msg.(ID) 404 e
      | inl driver =>
          let result := obj [("name", JStr driver.(InfoName)); ("config", driver.(InfoConfig));
                             ("items", driver.(Items)); ("i18n", driver.(I18n))] in
          sendMessage ph (resultResponse msg.(ID) result)
      end
  end.

(** The common tail of the handlers that change the manager: a manager
    error is answered with code 500, success with ["success"]. *)
Definition answer (ph : ProtocolHandler) (msg : Message)
    (r : DriverManager * option error) : ProtocolHandler * option error :=
  let ph := set_manager r.1 ph in
  match r.2 with
  | Some e => sendError ph msg.(ID) 500 e
  | None => sendMessage ph (resultResponse msg.(ID) (JStr "success"))
  end.

(** [handleCreateInstance] *)
Definition handleCreateInstance (ph : ProtocolHandler) (msg : Message)
  : ProtocolHandler * option error :=
  match asString (getParam msg.(Params) "instance_id") with
  | None => sendError ph msg.(ID) 400 "instance_id parameter is required"
  | Some instanceID =>
      match asString (getParam msg.(Params) "driver") with
      | None => sendError ph msg.(ID) 400 "driver parameter is required"
      | Some driverName =>
          let config := default ∅ (asMap (getParam msg.(Params) "config")) in
          answer ph msg (CreateDriverInstance ph.(driverManager) instanceID driverName config)
      end
  end.

(** [handleRemoveInstance] *)
Definition handleRemoveInstance (ph : ProtocolHandler) (msg : Message)
  : ProtocolHandler * option error :=
  match asString (getParam msg.(Params) "instance_id") with
  | None => sendError ph msg.(ID) 400 "instance_id parameter is required"
  | Some instanceID => answer ph msg (RemoveDriverInstance ph.(driverManager) instanceID)
  end.

(** [handleListInstances] *)
Definition handleListInstances (ph : ProtocolHandler) (msg : Message)
  : ProtocolHandler * option error :=
  let result :=
    (fun instance => obj [("id", JStr instance.(InstID)); ("name", JStr instance.(InstName));
                          ("enabled", JBool instance.(Enabled));
                          ("config", marshalMap instance.(Config))])
      <$> ph.(driverManager).(instances) in
  sendMessage ph (resultResponse msg.(ID) (marshalMap result)).

(** [handleEnableInstance] *)
Definition handleEnableInstance (ph : ProtocolHandler) (msg : Message)
  : ProtocolHandler * option error :=
  match asString (getParam msg.(Params) "instance_id") with
  | None => sendError ph msg.(ID) 400 "instance_id parameter is required"
  | Some instanceID => answer ph msg (EnableDriverInstance ph.(driverManager) instanceID)
  end.

(** [handleDisableInstance] *)
Definition handleDisableInstance (ph : ProtocolHandler) (msg : Message)
  : ProtocolHandler * option error :=
  match asString (getParam msg.(Params) "instance_id") with
  | None => sendError ph msg.(ID) 400 "instance_id parameter is required"
  | Some instanceID => answer ph msg (DisableDriverInstance ph.(driverManager) instanceID)
  end.

(** [handleExecuteOperation] *)
Definition handleExecuteOperation (ph : ProtocolHandler) (msg : Message)
  : ProtocolHandler * option error :=
  match asString (getParam msg.(Params) "instance_id") with
  | None => sendError ph msg.(ID) 400 "instance_id parameter is required"
  | Some instanceID =>
      match asString (getParam msg.(Params) "operation") with
      | None => sendError ph msg.(ID) 400 "operation parameter is required"
      | Some operation =>
          let operationParams := default ∅ (asMap (getParam msg.(Params) "params")) in
          let '(dm, r) :=
            ExecuteDriverOperation ph.(driverManager) instanceID operation operationParams in
          let ph := set_manager dm ph in
          match r with
          | inr e => sendError ph msg.(ID) 500 e
          | inl result => sendMessage ph (resultResponse msg.(ID) result)
          end
      end
  end.

(** [handleRequest] *)
Definition handleRequest (ph : ProtocolHandler) (msg : Message)
  : ProtocolHandler * option error :=
  let method := msg.(Method) in
  if decide (method = "list_drivers") then handleListDrivers ph msg
  else if decide (method = "get_driver_info") then handleGetDriverInfo ph msg
  else if decide (method = "create_instance") then handleCreateInstance ph msg
  else if decide (method = "remove_instance") then handleRemoveInstance ph msg
  else if decide (method = "list_instances") then handleListInstances ph msg
  else if decide (method = "enable_instance") then handleEnableInstance ph msg
  else if decide (method = "disable_instance") then handleDisableInstance ph msg
  else if decide (method = "execute_operation") then handleExecuteOperation ph msg
  else sendError ph msg.(ID) 400 ("Unknown method: " +:+ method).

(** [processMessage] *)
Definition processMessage (ph : ProtocolHandler) (line : string)
  : ProtocolHandler * option error :=
  match Wire.Unmarshal lib line zeroMessage with
  | (msg, Some err) => sendError ph msg.(ID) 400 ("Invalid JSON: " +:+ err)
  | (msg, None) =>
      if decide (msg.(Type_) = "request") then handleRequest ph msg
      else if decide (msg.(Type_) = "ping") then handlePing ph msg
      else sendError ph msg.(ID) 400 ("Unknown message type: " +:+ msg.(Type_))
  end.

(** [Handle]: the read loop of the handler. *)
Fixpoint Handle (ph : ProtocolHandler) (feed : list Tick) (scanErr : option error)
  : ProtocolHandler * option error :=
  match feed with
  | t :: rest =>
      if t.(ctx_done) then (ph, Some "context canceled")
      else
        let line := TrimSpace lib t.(text) in
        if decide (line = "") then Handle ph rest scanErr
        else
          match processMessage ph line with
          | (ph', Some err) => (ph', Some ("failed to process message: " +:+ err))
          | (ph', None) => Handle ph' rest scanErr
          end
  | [] => (ph, scanErr)
  end.

End Protocol.

(* ===================================================================== *)
(** ** A driver to run the manager with                                   *)
(* ===================================================================== *)

(** A driver whose [Init] and [Drop] fail on demand, which lists the path it
    is asked for, and which implements neither [Getter] nor [Other] unless
    [canGet] says so. *)
Record StubDriver : Type := {
  failInit : bool;
  failDrop : bool;
  canGet : bool;
  mounted : string;
  uses : nat;
}.

Definition stubDriver (failInit failDrop : bool) : StubDriver :=
  {| failInit := failInit; failDrop := failDrop; canGet := false; mounted := ""; uses := 0 |}.

Definition stubUsed (d : StubDriver) : StubDriver :=
  {| failInit := d.(failInit); failDrop := d.(failDrop); canGet := d.(canGet);
     mounted := d.(mounted); uses := S d.(uses) |}.

#[global] Instance stubOps : DriverOps StubDriver := {|
  drvSetStorage st d :=
    {| failInit := d.(failInit); failDrop := d.(failDrop); canGet := d.(canGet);
       mounted := st.(MountPath); uses := d.(uses) |};
  drvInit d := (stubUsed d, if d.(failInit) then Some "init refused" else None);
  drvDrop d := (stubUsed d, if d.(failDrop) then Some "drop refused" else None);
  drvList d dir args := (stubUsed d, inl (JArr [JStr dir.(ObjPath)]));
  drvLink d file := (stubUsed d, inl (JStr file.(ObjPath)));
  isGetter d := d.(canGet);
  drvGet d path := (stubUsed d, inl (JStr path));
  isOther d := false;
  drvOther d args := (stubUsed d, inr "not supported");
|}.

Definition stubInfo (name : string) (d : StubDriver) : DriverInfo :=
  {| InfoName := name; InfoConfig := JObj []; Items := JArr []; I18n := JObj [];
     Constructor := d |}.

(** A registry with a driver "Local" that works, a driver "Flaky" whose
    [Init] fails and a driver "Sticky" whose [Drop] fails. *)
Definition stubRegistry : gmap string (DriverInfo (D := StubDriver)) :=
  <["Local" := stubInfo "Local" (stubDriver false false)]>
    (<["Flaky" := stubInfo "Flaky" (stubDriver true false)]>
       {[ "Sticky" := stubInfo "Sticky" (stubDriver false true) ]}).

Definition tick (raw : string) : Tick := {| ctx_done := false; text := raw |}.

(** The surroundings of a call that gets no answer: no line arrives while the
    caller waits, and the timer ends the wait. *)
Definition quiet (clock : Z) : Session.CallEnv :=
  {| Session.now := clock; Session.incoming := []; Session.early := false;
     Session.deadline := Session.TimerFired |}.

(** The state of a session while one request is pending. *)
Definition pendingAfter (lib : GoLib) (clock : Z) (s : Session) (method : string) : Session :=
  match Session.sendRequest_begin lib clock s method None with
  | Session.Waiting s1 _ _ => s1
  | Session.Exited s1 _ => s1
  end.

(** A call that ends in an error. *)
Definition fails {R : Type} (call : Session -> Session * (R + error)) (m : Session) : Prop :=
  exists e, (call m).2 = inr e.

(** What the pool's [GetDriverInfo] loop does to a client it passes, and
    what it means for that client to miss. *)
Definition asked (lib : GoLib) (env : Session -> Session.CallEnv) (driverName : string)
    (c : Session) : Session :=
  if Session.IsConnected c then (Client.GetDriverInfo lib (env c) c driverName).1 else c.

Definition misses (lib : GoLib) (env : Session -> Session.CallEnv) (driverName : string)
    (c : Session) : Prop :=
  Session.IsConnected c = true ->
  fails (fun c => Client.GetDriverInfo lib (env c) c driverName) c.

(** The surroundings of a call that is answered by [line]. *)
Definition answering (clock : Z) (line : string) : Session.CallEnv :=
  {| Session.now := clock; Session.incoming := [line]; Session.early := false;
     Session.deadline := Session.TimerFired |}.

(** The handshake of a driver manager that hosts no driver. *)
Definition emptyHandshake : string :=
  (dq "{'id':'handshake','type':'handshake','result':{'driver_count':0,'drivers':{}}}").

(** A listener that has accepted two driver managers, "dm-1" and then
    "dm-2". *)
Definition twoManagers : DriverManagerServer :=
  Server.handleConnection goLib 2 [(0, emptyHandshake)] Handshake.Silent
    (Server.handleConnection goLib 1 [(0, emptyHandshake)] Handshake.Silent
       Server.NewDriverManagerServer).

(** Every manager answers [create_instance] with success. *)
Definition createOK : Session -> Session.CallEnv :=
  fun _ => answering 7 (dq "{'id':'create_instance-7','type':'response','result':'success'}").

(** What has been written to the connection registered under [id]. *)
Definition wireOf (srv : DriverManagerServer) (id : string) : list string :=
  match srv.(clients) !! id with
  | Some c => c.(wire)
  | None => []
  end.

(** A pool of two clients of which only the second hosts driver "X":
    the first answers [get_driver_info] with a 404, the second with the
    driver's description. *)
Definition twoClients : DriverManagerPool :=
  Pool.AddDriverManager (newSession "b:5245")
    (Pool.AddDriverManager (newSession "a:5245") {| pool_clients := [] |}).

Definition onlySecondHostsX (c : Session) : Session.CallEnv :=
  if decide (c.(name) = "a:5245") then
    answering 1 (dq "{'id':'get_driver_info-1','type':'response','error':{'code':404,'message':'driver X not found'}}")
  else
    answering 2 (dq "{'id':'get_driver_info-2','type':'response','result':{'name':'X'}}").

(** A configuration, a manager with one instance "s-1" of driver "Local",
    and a manager with one instance "s-2" of driver "Sticky". *)
Definition tmpConfig : gmap string json := {[ "root_folder_path" := JStr "/tmp" ]}.

Definition oneInstance : DriverManager (D := StubDriver) :=
  (CreateDriverInstance (NewDriverManager stubRegistry) "s-1" "Local" tmpConfig).1.

Definition stickyInstance : DriverManager (D := StubDriver) :=
  (CreateDriverInstance (NewDriverManager stubRegistry) "s-2" "Sticky" tmpConfig).1.

(** A message the wire carries unchanged: its params are not an empty non-nil
    map and its error code fits the Go int. *)
Definition wireNormal (m : Message) : Prop :=
  (forall p, m.(Params) = Some p -> size p <> 0%nat)
  /\ (forall e, m.(Error) = Some e -> is_int e.(Code) = true).




(** The session has completed its handshake. *)
Definition handshaken (c : Session) : Prop := is_Some c.(handshake).

(** A registry of 64 drivers, "driver-0" to "driver-63", each with an item
    list that takes 1 KiB as text. *)
Definition bulkyInfo (i : nat) : string * DriverInfo (D := StubDriver) :=
  let name := "driver-" +:+ pretty i in
  (name, {| InfoName := name; InfoConfig := JObj [];
            Items := JArr [JStr (N.iter 1024 (String "x") "")]; I18n := JObj [];
            Constructor := stubDriver false false |}).

Definition bulkyRegistry : gmap string (DriverInfo (D := StubDriver)) :=
  list_to_map (bulkyInfo <$> seq 0 64).

(* ===================================================================== *)
(** ** Runs of the instance manager                                       *)
(* ===================================================================== *)

Section ManagerRuns.
Context {D : Type} `{DriverOps D}.

(** Every instance is stored under its own ID. *)
Definition keyedByID (dm : DriverManager (D := D)) : Prop :=
  forall id instance, dm.(instances) !! id = Some instance -> instance.(InstID) = id.

(** The instance a driver call was made on. *)
Definition callInstance (c : DriverCall) : string :=
  match c with
  | CallSetStorage id | CallInit id | CallDrop id => id
  | CallList id _ _ | CallLink id _ | CallGet id _ | CallOther id _ => id
  end.

(** One call of an exported method that can change the manager. *)
Inductive managerStep : DriverManager (D := D) -> DriverManager (D := D) -> Prop :=
  | mstep_create dm instanceID driverName config :
      managerStep dm (CreateDriverInstance dm instanceID driverName config).1
  | mstep_remove dm instanceID :
      managerStep dm (RemoveDriverInstance dm instanceID).1
  | mstep_enable dm instanceID :
      managerStep dm (EnableDriverInstance dm instanceID).1
  | mstep_disable dm instanceID :
      managerStep dm (DisableDriverInstance dm instanceID).1
  | mstep_execute dm instanceID operation params :
      managerStep dm (ExecuteDriverOperation dm instanceID operation params).1.

(** The managers that calls can produce from [NewDriverManager reg]. *)
Inductive managerReachable (reg : gmap string (DriverInfo (D := D)))
  : DriverManager (D := D) -> Prop :=
  | mreach_new : managerReachable reg (NewDriverManager reg)
  | mreach_step dm dm' :
      managerReachable reg dm -> managerStep dm dm' -> managerReachable reg dm'.

End ManagerRuns.

(* ===================================================================== *)
(** ** Runs of the protocol handler                                       *)
(* ===================================================================== *)

Section ProtocolRuns.
Context {D : Type} `{DriverOps D}.
Context (lib : GoLib).

(** [line] is what [sendMessage] writes for [resp]. *)
Definition lineOf (resp : Message) (line : string) : Prop :=
  exists data, Wire.Marshal lib resp = Some data /\ line = data +:+ newline.

(** [resp] is a response to the message [id]: it carries that id and the
    type "response", no method and no params, and when it carries an error it
    carries no result and one of the codes 400, 404 and 500. *)
Definition responseTo (id : string) (resp : Message) : Prop :=
  resp.(ID) = id /\ resp.(Type_) = "response"
  /\ resp.(Method) = "" /\ resp.(Params) = None
  /\ forall e, resp.(Error) = Some e -> resp.(Result) = JNull /\ e.(Code) ∈ [400; 404; 500].

(** The line a tick of the scanner carries is blank, and the id the decoder
    reads from it. *)
Definition blank (t : Tick) : Prop := TrimSpace lib t.(text) = "".

#[global] Instance blank_dec (t : Tick) : Decision (blank t).
Proof. unfold blank. apply _. Defined.

Definition requestID (t : Tick) : string :=
  (Wire.Unmarshal lib (TrimSpace lib t.(text)) zeroMessage).1.(ID).

(** The outcome [r] of handling the message [id] on the handler [ph]: the
    connection is as it was; the manager is as it was or one call of an
    exported method further; and either one line has been written, a response
    to [id], or the outcome is an error and nothing has been written. *)
Definition answered (ph : ProtocolHandler (D := D)) (id : string)
    (r : ProtocolHandler (D := D) * option error) : Prop :=
  r.1.(connBroken) = ph.(connBroken)
  /\ (r.1.(driverManager) = ph.(driverManager)
      \/ managerStep ph.(driverManager) r.1.(driverManager))
  /\ match r.2 with
     | None =>
         exists resp line,
           responseTo id resp /\ lineOf resp line /\ r.1.(out) = ph.(out) ++ [line]
     | Some _ => r.1.(out) = ph.(out)
     end.

(** The requests that can change the manager. *)
Definition mutating : list string :=
  ["create_instance"; "remove_instance"; "enable_instance"; "disable_instance";
   "execute_operation"].

End ProtocolRuns.

(* ===================================================================== *)
(** ** Requests and their responses                                       *)
(* ===================================================================== *)

(** Every correlation ID of the response table points to a channel that
    exists. *)
Definition tableSound (s : Session) : Prop :=
  forall id c, s.(responses) !! id = Some c -> is_Some (s.(chans) !! c).

(** The read loop takes the line [raw] as the response [msg] to the request
    [id]: the line is not blank and decodes, without error, into a message of
    type "response" with that id. *)
Definition answers (lib : GoLib) (id : string) (raw : string) (msg : Message) : Prop :=
  TrimSpace lib raw <> ""
  /\ Wire.Unmarshal lib (TrimSpace lib raw) zeroMessage = (msg, None)
  /\ msg.(Type_) = "response"
  /\ msg.(ID) = id.

(** The request message [sendRequest] builds. *)
Definition requestMessage (id method : string) (params : option (gmap string json))
  : Message :=
  {| ID := id; Type_ := "request"; Method := method; Params := params; Result := JNull;
     Error := None |}.

(* ===================================================================== *)
(** ** All drivers of all managers: GetAllDrivers                         *)
(* ===================================================================== *)

(** [for k, v := range src { dst[k] = v }] *)
Definition mergeInto (src dst : gmap string json) : gmap string json :=
  map_fold (fun k v acc => <[k := v]> acc) dst src.

Module PoolDrivers.
Section WithLib.
Context (lib : GoLib).
Context (env : Session -> Session.CallEnv).

(** The [for _, client := range dmp.clients] loop of
    [DriverManagerPool.GetAllDrivers]: a client that is not connected is
    passed over, a client whose [ListDrivers] fails is logged and passed
    over, and the drivers of the others are merged into [allDrivers]. *)
Fixpoint GetAllDrivers_loop (clients : list Session) (allDrivers : gmap string json)
  : list Session * gmap string json :=
  match clients with
  | client :: rest =>
      if negb (Session.IsConnected client) then
        let '(rest', all) := GetAllDrivers_loop rest allDrivers in (client :: rest', all)
      else
        match Client.ListDrivers lib (env client) client with
        | (client', inr err) =>
            let client' :=
              logf ("Failed to get drivers from manager " +:+ client.(name) +:+ ": " +:+ err)
                   client' in
            let '(rest', all) := GetAllDrivers_loop rest allDrivers in (client' :: rest', all)
        | (client', inl drivers) =>
            let '(rest', all) := GetAllDrivers_loop rest (mergeInto drivers allDrivers) in
            (client' :: rest', all)
        end
  | [] => ([], allDrivers)
  end.

(** [DriverManagerPool.GetAllDrivers] *)
Definition GetAllDrivers (p : DriverManagerPool)
  : DriverManagerPool * (gmap string json + error) :=
  let '(cs, all) := GetAllDrivers_loop p.(pool_clients) ∅ in
  ({| pool_clients := cs |}, inl all).

(** The client [c], asked by the loop, reports the driver [name] with the
    description [v]. *)
Definition reports (c : Session) (name : string) (v : json) : Prop :=
  Session.IsConnected c = true
  /\ exists drivers,
       (Client.ListDrivers lib (env c) c).2 = inl drivers /\ drivers !! name = Some v.

End WithLib.
End PoolDrivers.

Module ServerDrivers.
Section WithLib.
Context (lib : GoLib).
Context (order : list string).
Context (env : Session -> Session.CallEnv).

(** The [for _, manager := range managers] loop of
    [DriverManagerServer.GetAllDrivers]: a manager whose request fails is
    logged and passed over, a result that is not a map is passed over
    silently, and the drivers of the others are merged into [allDrivers]. *)
Fixpoint GetAllDrivers_loop (managers : list Session) (allDrivers : gmap string json)
  : list Session * gmap string json :=
  match managers with
  | manager :: rest =>
      match Session.sendRequest lib (env manager) manager "list_drivers" None with
      | (manager', inr err) =>
          let manager' :=
            logf ("Failed to get drivers from manager " +:+ manager.(name) +:+ ": " +:+ err)
                 manager' in
          let '(rest', all) := GetAllDrivers_loop rest allDrivers in (manager' :: rest', all)
      | (manager', inl drivers) =>
          let allDrivers :=
            match asMap drivers with
            | Some driversMap => mergeInto driversMap allDrivers
            | None => allDrivers
            end in
          let '(rest', all) := GetAllDrivers_loop rest allDrivers in (manager' :: rest', all)
      end
  | [] => ([], allDrivers)
  end.

(** [DriverManagerServer.GetAllDrivers] *)
Definition GetAllDrivers (srv : DriverManagerServer)
  : DriverManagerServer * (gmap string json + error) :=
  let managers := Server.GetConnectedManagers order srv in
  let '(ms, all) := GetAllDrivers_loop managers ∅ in
  (Server.store ms srv, inl all).

(** The manager [m], asked by the loop, reports the driver [name] with the
    description [v]. *)
Definition reports (m : Session) (name : string) (v : json) : Prop :=
  exists drivers driversMap,
    (Session.sendRequest lib (env m) m "list_drivers" None).2 = inl drivers
    /\ asMap drivers = Some driversMap
    /\ driversMap !! name = Some v.

End WithLib.
End ServerDrivers.

(* ===================================================================== *)
(** ** Driver registry: display names and option lists                    *)
(* ===================================================================== *)

(** The loops of registry.go walk their strings rune by rune, with [Utf8.runes]
    and [Utf8.runeString]. *)
(* ===================================================================== *)
(** ** Driver descriptions: internal/op and the driver registry           *)
(* ===================================================================== *)

(** [driver.Item], [driver.Config] and [driver.Info] are declared outside
    these sources; the records below have the fields the code here reads or
    writes. *)
Module driver.

Module Item.
Record t : Type := {
  Name : string;
  Type_ : string;
  Default : string;
  Options : string;
  Required : bool;
  Help : string;
}.
End Item.

Module Config.
Record t : Type := {
  Name : string;
  LocalSort : bool;
  OnlyLocal : bool;
  OnlyProxy : bool;
  NoCache : bool;
  DefaultRoot : string;
  Alert : string;
  ProxyRangeOption : bool;
}.
End Config.

Module Info.
Record t : Type := {
  Common : list Item.t;
  Additional : list Item.t;
  Config : Config.t;
}.
End Info.

End driver.

(** The type names of internal/conf, declared outside these sources. *)
Module conf.
Record Types : Type := {
  TypeString : string;
  TypeNumber : string;
  TypeText : string;
  TypeBool : string;
  TypeSelect : string;
}.
End conf.

(** What the code asks of package reflect.  A type is a struct with its
    fields, a pointer, or a type of another kind; [name] is what [Name()]
    returns.  A struct tag is kept as the list of its key-value pairs, in the
    order they are written. *)
Module reflect.

Inductive Type_ : Type :=
  | Struct (name : string) (fields : list StructField)
  | Pointer (elem : Type_)
  | Other (name : string)
with StructField : Type :=
  | Field (fieldName : string) (fieldType : Type_) (tag : list (string * string)).

(** [t.Name()]: an unnamed type such as a pointer has the empty name. *)
Definition Name (t : Type_) : string :=
  match t with
  | Struct name _ => name
  | Pointer _ => ""
  | Other name => name
  end.

(** [tag.Lookup(key)] and [tag.Get(key)] *)
Fixpoint Lookup (key : string) (tag : list (string * string)) : option string :=
  match tag with
  | [] => None
  | (k, v) :: rest => if decide (k = key) then Some v else Lookup key rest
  end.

Definition Get (key : string) (tag : list (string * string)) : string :=
  default "" (Lookup key tag).

End reflect.

(** The part of the [driver.Driver] interface [RegisterDriver] uses:
    [Config()], and the type of what [GetAddition()] returns. *)
Class DriverMeta (D : Type) : Type := {
  drvConfig : D -> driver.Config.t;
  drvAdditionType : D -> reflect.Type_;
}.

Module Op.

Section Items.
Context (ct : conf.Types).
Context (ToLower : string -> string).

(** [getMainItems] *)
Definition getMainItems (config : driver.Config.t) : list driver.Item.t :=
  let items :=
    [ {| driver.Item.Name := "mount_path"; driver.Item.Type_ := conf.TypeString ct;
         driver.Item.Default := ""; driver.Item.Options := ""; driver.Item.Required := true;
         driver.Item.Help :=
           "The path you want to mount to, it is unique and cannot be repeated" |};
      {| driver.Item.Name := "order"; driver.Item.Type_ := conf.TypeNumber ct;
         driver.Item.Default := ""; driver.Item.Options := ""; driver.Item.Required := false;
         driver.Item.Help := "use to sort" |};
      {| driver.Item.Name := "remark"; driver.Item.Type_ := conf.TypeText ct;
         driver.Item.Default := ""; driver.Item.Options := ""; driver.Item.Required := false;
         driver.Item.Help := "" |} ] in
  let items :=
    if negb config.(driver.Config.NoCache) then
      items ++ [ {| driver.Item.Name := "cache_expiration";
                    driver.Item.Type_ := conf.TypeNumber ct;
                    driver.Item.Default := "30"; driver.Item.Options := "";
                    driver.Item.Required := true;
                    driver.Item.Help := "The cache expiration time for this storage" |} ]
    else items in
  let items :=
    if negb config.(driver.Config.OnlyProxy) && negb config.(driver.Config.OnlyLocal) then
      let items :=
        items ++ [ {| driver.Item.Name := "web_proxy"; driver.Item.Type_ := conf.TypeBool ct;
                      driver.Item.Default := ""; driver.Item.Options := "";
                      driver.Item.Required := false; driver.Item.Help := "" |};
                   {| driver.Item.Name := "webdav_policy";
                      driver.Item.Type_ := conf.TypeSelect ct;
                      driver.Item.Default := "302_redirect";
                      driver.Item.Options := "302_redirect,use_proxy_url,native_proxy";
                      driver.Item.Required := true; driver.Item.Help := "" |} ] in
      if config.(driver.Config.ProxyRangeOption) then
        let item :=
          {| driver.Item.Name := "proxy_range"; driver.Item.Type_ := conf.TypeBool ct;
             driver.Item.Default :=
               if decide (config.(driver.Config.Name) = "139Yun") then "true" else "";
             driver.Item.Options := ""; driver.Item.Required := false;
             driver.Item.Help := "Need to enable proxy" |} in
        items ++ [item]
      else items
    else
      items ++ [ {| driver.Item.Name := "webdav_policy";
                    driver.Item.Type_ := conf.TypeSelect ct;
                    driver.Item.Default := "native_proxy";
                    driver.Item.Options := "use_proxy_url,native_proxy";
                    driver.Item.Required := true; driver.Item.Help := "" |} ] in
  let items :=
    items ++ [ {| driver.Item.Name := "down_proxy_url"; driver.Item.Type_ := conf.TypeText ct;
                  driver.Item.Default := ""; driver.Item.Options := "";
                  driver.Item.Required := false; driver.Item.Help := "" |} ] in
  let items :=
    if config.(driver.Config.LocalSort) then
      items ++ [ {| driver.Item.Name := "order_by"; driver.Item.Type_ := conf.TypeSelect ct;
                    driver.Item.Default := ""; driver.Item.Options := "name,size,modified";
                    driver.Item.Required := false; driver.Item.Help := "" |};
                 {| driver.Item.Name := "order_direction";
                    driver.Item.Type_ := conf.TypeSelect ct;
                    driver.Item.Default := ""; driver.Item.Options := "asc,desc";
                    driver.Item.Required := false; driver.Item.Help := "" |} ]
    else items in
  let items :=
    items ++ [ {| driver.Item.Name := "extract_folder"; driver.Item.Type_ := conf.TypeSelect ct;
                  driver.Item.Default := ""; driver.Item.Options := "front,back";
                  driver.Item.Required := false; driver.Item.Help := "" |} ] in
  let items :=
    items ++ [ {| driver.Item.Name := "disable_index"; driver.Item.Type_ := conf.TypeBool ct;
                  driver.Item.Default := "false"; driver.Item.Options := "";
                  driver.Item.Required := true; driver.Item.Help := "" |} ] in
  items ++ [ {| driver.Item.Name := "enable_sign"; driver.Item.Type_ := conf.TypeBool ct;
                driver.Item.Default := "false"; driver.Item.Options := "";
                driver.Item.Required := true; driver.Item.Help := "" |} ].

(** The body of the loop of [getAdditionalItems] for a field that is not a
    struct: [None] is [continue]. *)
Definition fieldItem (fieldType : reflect.Type_) (tag : list (string * string))
    (defaultRoot : string) : option driver.Item.t :=
  let ignore := reflect.Lookup "ignore" tag in
  match reflect.Lookup "json" tag with
  | None => None
  | Some name =>
      if decide (ignore = Some "true") then None
      else
        let type := ToLower (reflect.Name fieldType) in
        let type := if decide (reflect.Get "type" tag <> "") then reflect.Get "type" tag
                    else type in
        let default := reflect.Get "default" tag in
        let required := bool_decide (reflect.Get "required" tag = "true") in
        let '(default, required) :=
          if decide (name = "root_folder_id" \/ name = "root_folder_path") then
            let default := if decide (default = "") then defaultRoot else default in
            (default, bool_decide (default <> ""))
          else (default, required) in
        let type := if decide (type = "") then "string" else type in
        Some {| driver.Item.Name := name; driver.Item.Type_ := type;
                driver.Item.Default := default;
                driver.Item.Options := reflect.Get "options" tag;
                driver.Item.Required := required;
                driver.Item.Help := reflect.Get "help" tag |}
  end.

(** [getAdditionalItems]: the fields in order, a field of struct kind
    replaced by the items of its own fields.  [None] is the panic of
    [t.NumField()] on a type that is not a struct. *)
Fixpoint getAdditionalItems (t : reflect.Type_) (defaultRoot : string)
  : option (list driver.Item.t) :=
  match t with
  | reflect.Struct _ fields =>
      (fix loop (fields : list reflect.StructField) : option (list driver.Item.t) :=
         match fields with
         | [] => Some []
         | reflect.Field _ fieldType tag :: rest =>
             let here :=
               match fieldType with
               | reflect.Struct _ _ => getAdditionalItems fieldType defaultRoot
               | _ => Some (option_list (fieldItem fieldType tag defaultRoot))
               end in
             match here, loop rest with
             | Some items, Some more => Some (items ++ more)
             | _, _ => None
             end
         end) fields
  | _ => None
  end.

End Items.

Section Drivers.
Context {D : Type} `{DriverMeta D}.
Context (ct : conf.Types).
Context (ToLower : string -> string).

(** The package variables [driverMap] and [driverInfoMap]; a constructor is
    kept as the driver a call of it returns. *)
Record State : Type := {
  driverMap : gmap string D;
  driverInfoMap : gmap string driver.Info.t;
}.

Definition empty : State := {| driverMap := ∅; driverInfoMap := ∅ |}.

(** [for tAddition.Kind() == reflect.Pointer { tAddition = tAddition.Elem() }] *)
Fixpoint deref (t : reflect.Type_) : reflect.Type_ :=
  match t with
  | reflect.Pointer elem => deref elem
  | _ => t
  end.

(** [registerDriverItems]; [None] is a panic. *)
Definition registerDriverItems (config : driver.Config.t) (addition : reflect.Type_)
    (st : State) : option State :=
  let tAddition := deref addition in
  let mainItems := getMainItems ct config in
  match getAdditionalItems ToLower tAddition config.(driver.Config.DefaultRoot) with
  | None => None
  | Some additionalItems =>
      Some {| driverMap := st.(driverMap);
              driverInfoMap :=
                <[config.(driver.Config.Name) :=
                    {| driver.Info.Common := mainItems;
                       driver.Info.Additional := additionalItems;
                       driver.Info.Config := config |}]> st.(driverInfoMap) |}
  end.

(** [RegisterDriver] *)
Definition RegisterDriver (constructor : D) (st : State) : option State :=
  let tempDriver := constructor in
  let tempConfig := drvConfig tempDriver in
  match registerDriverItems tempConfig (drvAdditionType tempDriver) st with
  | None => None
  | Some st =>
      Some {| driverMap := <[tempConfig.(driver.Config.Name) := constructor]> st.(driverMap);
              driverInfoMap := st.(driverInfoMap) |}
  end.

(** [GetDriver] *)
Definition GetDriver (st : State) (name : string) : D + error :=
  match st.(driverMap) !! name with
  | Some n => inl n
  | None => inr ("no driver named: " +:+ name)
  end.

(** [GetDriverInfoMap] *)
Definition GetDriverInfoMap (st : State) : gmap string driver.Info.t :=
  st.(driverInfoMap).

(** [order] is the order in which a range over the keys of [m] visits
    them. *)
Definition keyOrder {A : Type} (m : gmap string A) (order : list string) : Prop :=
  order ≡ₚ (map_to_list m).*1.

(** [GetDriverNames], [order] being the order of its range over
    [driverInfoMap]. *)
Definition GetDriverNames (order : list string) (st : State) : list string :=
  filter (fun k => is_Some (st.(driverInfoMap) !! k)) order.

(** The states that calls of [RegisterDriver] produce. *)
Inductive registered : State -> Prop :=
  | registered_empty : registered empty
  | registered_more constructor st st' :
      registered st -> RegisterDriver constructor st = Some st' -> registered st'.

End Drivers.

(** The two loops of [GetCombinedDriverNames] that combine and deduplicate:
    a name is appended when the set has not seen it. *)
Fixpoint dedupe (names : list string) (nameSet : gset string) (allNames : list string)
  : gset string * list string :=
  match names with
  | [] => (nameSet, allNames)
  | name :: rest =>
      if decide (name ∈ nameSet) then dedupe rest nameSet allNames
      else dedupe rest ({[ name ]} ∪ nameSet) (allNames ++ [name])
  end.

(** [GetCombinedDriverNames]: [localNames] is what [GetDriverNames] returned,
    and [remoteNames] the names collected from the range over the drivers of
    the pool (none when there is no remote driver factory or the pool
    failed). *)
Definition GetCombinedDriverNames (localNames remoteNames : list string) : list string :=
  let '(nameSet, allNames) := dedupe localNames ∅ [] in
  (dedupe remoteNames nameSet allNames).2.

Definition zeroInfo : driver.Info.t :=
  {| driver.Info.Common := []; driver.Info.Additional := [];
     driver.Info.Config :=
       {| driver.Config.Name := ""; driver.Config.LocalSort := false;
          driver.Config.OnlyLocal := false; driver.Config.OnlyProxy := false;
          driver.Config.NoCache := false; driver.Config.DefaultRoot := "";
          driver.Config.Alert := ""; driver.Config.ProxyRangeOption := false |} |}.

(** [convertRemoteDriverInfo] *)
Definition convertRemoteDriverInfo (data : json) : driver.Info.t * bool :=
  (zeroInfo, false).

(** [GetCombinedDriverInfoMap]: [remote] is [None] when there is no remote
    driver factory, and what the pool's [GetAllDrivers] returned otherwise. *)
Definition GetCombinedDriverInfoMap {D : Type} (st : State (D := D))
    (remote : option (gmap string json + error)) : gmap string driver.Info.t :=
  let combined := st.(driverInfoMap) in
  match remote with
  | Some (inl drivers) =>
      map_fold
        (fun name driverData combined =>
           if decide (is_Some (combined !! name)) then combined
           else
             let '(info, ok) := convertRemoteDriverInfo driverData in
             if ok then <[name := info]> combined else combined)
        combined drivers
  | _ => combined
  end.

End Op.

Module Registry.

(** The loop of [convertToDisplayName]; [char - 32] is the rune arithmetic of
    the source (a rune read from a string is never negative, so nothing
    wraps). *)
Fixpoint displayLoop (chars : list Z) (capitalize : bool) (result : string) : string :=
  match chars with
  | [] => result
  | char :: rest =>
      if char =? 95 then displayLoop rest true (result +:+ " ")
      else if capitalize then
        displayLoop rest false (result +:+ Utf8.runeString (char - 32))
      else displayLoop rest capitalize (result +:+ Utf8.runeString char)
  end.

(** [convertToDisplayName] *)
Definition convertToDisplayName (name : string) : string :=
  displayLoop (Utf8.runes name) true "".

(** The loop of [parseOptions]: the pieces found so far and the piece being
    read. *)
Fixpoint optionsLoop (chars : list Z) (result : list string) (current : string)
  : list string * string :=
  match chars with
  | [] => (result, current)
  | char :: rest =>
      if char =? 44 then
        if decide (current <> "") then optionsLoop rest (result ++ [current]) ""
        else optionsLoop rest result current
      else optionsLoop rest result (current +:+ Utf8.runeString char)
  end.

(** [parseOptions]; the nil slice is the empty list. *)
Definition parseOptions (options : string) : list string :=
  if decide (options = "") then []
  else
    let '(result, current) := optionsLoop (Utf8.runes options) [] "" in
    if decide (current <> "") then result ++ [current] else result.

(** The map [options] that [generateI18n] builds for a select item. *)
Definition optionNames (options : string) : gmap string string :=
  fold_left (fun acc option => <[option := convertToDisplayName option]> acc)
            (parseOptions options) ∅.

(** The body of the loop over the items of [generateI18n], on the two
    translation tables. *)
Definition translateItem (tables : gmap string json * gmap string json)
    (item : driver.Item.t) : gmap string json * gmap string json :=
  let '(enUS, zhCN) := tables in
  let name := item.(driver.Item.Name) in
  let enUS := <[name := JStr (convertToDisplayName name)]> enUS in
  let zhCN := <[name := JStr (convertToDisplayName name)]> zhCN in
  let '(enUS, zhCN) :=
    if decide (item.(driver.Item.Help) <> "") then
      (<[name +:+ "_help" := JStr item.(driver.Item.Help)]> enUS,
       <[name +:+ "_help" := JStr item.(driver.Item.Help)]> zhCN)
    else (enUS, zhCN) in
  if decide (item.(driver.Item.Type_) = "select" /\ item.(driver.Item.Options) <> "") then
    let options := marshalMap (JStr <$> optionNames item.(driver.Item.Options)) in
    (<[name +:+ "_options" := options]> enUS, <[name +:+ "_options" := options]> zhCN)
  else (enUS, zhCN).

(** The two tables of [generateI18n], before they are put under "en_us" and
    "zh_cn". *)
Definition translations (driverName : string) (items : list driver.Item.t)
    (config : driver.Config.t) : gmap string json * gmap string json :=
  let enUS := <["driver_name" := JStr driverName]> ∅ in
  let zhCN := <["driver_name" := JStr driverName]> ∅ in
  let '(enUS, zhCN) :=
    if decide (config.(driver.Config.Alert) <> "") then
      (<["alert" := JStr config.(driver.Config.Alert)]> enUS,
       <["alert" := JStr config.(driver.Config.Alert)]> zhCN)
    else (enUS, zhCN) in
  fold_left translateItem items (enUS, zhCN).

(** [generateI18n] *)
Definition generateI18n (driverName : string) (items : list driver.Item.t)
    (config : driver.Config.t) : gmap string json :=
  let '(enUS, zhCN) := translations driverName items config in
  <["zh_cn" := marshalMap zhCN]> (<["en_us" := marshalMap enUS]> ∅).

Section Load.
Context {D : Type} `{DriverOps D}.
(** The JSON forms of [driver.Config] and [[]driver.Item], whose tags are
    declared outside these sources. *)
Context (encodeConfig : driver.Config.t -> json).
Context (encodeItems : list driver.Item.t -> json).

(** [loadDrivers], on the drivers the registry holds. *)
Definition loadDrivers (st : Op.State (D := D)) (drivers : gmap string (DriverInfo (D := D)))
  : gmap string (DriverInfo (D := D)) :=
  map_fold
    (fun name info drivers =>
       match Op.GetDriver st name with
       | inr _ => drivers
       | inl constructor =>
           let allItems := info.(driver.Info.Common) ++ info.(driver.Info.Additional) in
           <[name := {| InfoName := name;
                        InfoConfig := encodeConfig info.(driver.Info.Config);
                        Items := encodeItems allItems;
                        I18n := marshalMap
                                  (generateI18n name allItems info.(driver.Info.Config));
                        Constructor := constructor |}]> drivers
       end)
    drivers (Op.GetDriverInfoMap st).

(** [NewDriverRegistry] *)
Definition NewDriverRegistry (st : Op.State (D := D)) : gmap string (DriverInfo (D := D)) :=
  loadDrivers st ∅.

(** [ListDrivers] returns a copy of the map. *)
Definition ListDrivers (r : gmap string (DriverInfo (D := D)))
  : gmap string (DriverInfo (D := D)) := r.

(** [GetDriverNames], [order] being the order of its range over the map. *)
Definition GetDriverNames (order : list string) (r : gmap string (DriverInfo (D := D)))
  : list string :=
  filter (fun k => is_Some (r !! k)) order.

(** [GetDriverCount] *)
Definition GetDriverCount (r : gmap string (DriverInfo (D := D))) : Z :=
  Z.of_nat (size r).

End Load.

End Registry.

(* ===================================================================== *)
(** ** Two drivers to register                                            *)
(* ===================================================================== *)

(** "Local", whose addition has a root folder path and an option list, and
    "S3", whose addition is reached through a pointer. *)
Inductive SampleDriver : Type := LocalDriver | S3Driver.

Definition sampleConfig (d : SampleDriver) : driver.Config.t :=
  {| driver.Config.Name := match d with LocalDriver => "Local" | S3Driver => "S3" end;
     driver.Config.LocalSort := match d with LocalDriver => true | S3Driver => false end;
     driver.Config.OnlyLocal := match d with LocalDriver => true | S3Driver => false end;
     driver.Config.OnlyProxy := false;
     driver.Config.NoCache := match d with LocalDriver => true | S3Driver => false end;
     driver.Config.DefaultRoot := "/";
     driver.Config.Alert := "";
     driver.Config.ProxyRangeOption := false |}.

#[global] Instance sampleMeta : DriverMeta SampleDriver := {|
  drvConfig := sampleConfig;
  drvAdditionType d :=
    match d with
    | LocalDriver =>
        reflect.Pointer
          (reflect.Struct "Addition"
             [ reflect.Field "RootPath" (reflect.Other "string")
                 [("json", "root_folder_path")];
               reflect.Field "Thumbnail" (reflect.Other "bool")
                 [("json", "thumbnail"); ("help", "show thumbnails")] ])
    | S3Driver =>
        reflect.Pointer
          (reflect.Struct "Addition"
             [ reflect.Field "Bucket" (reflect.Other "string")
                 [("json", "bucket"); ("required", "true")];
               reflect.Field "Region" (reflect.Other "string")
                 [("json", "region"); ("type", "select"); ("options", "us,eu");
                  ("default", "us")] ])
    end;
|}.

Definition sampleTypes : conf.Types :=
  {| conf.TypeString := "string"; conf.TypeNumber := "number"; conf.TypeText := "text";
     conf.TypeBool := "bool"; conf.TypeSelect := "select" |}.

(** The state of package op after both drivers have registered. *)
Definition sampleOp : option (Op.State (D := SampleDriver)) :=
  match Op.RegisterDriver sampleTypes Wire.foldName LocalDriver Op.empty with
  | Some st => Op.RegisterDriver sampleTypes Wire.foldName S3Driver st
  | None => None
  end.

(* ===================================================================== *)
(** ** Remote drivers on the OpenList side: GenericAddition and the adapter *)
(* ===================================================================== *)

(** [GenericAddition], a [map[string]interface{}]; [None] is the nil map. *)
Module GenericAddition.

Definition t : Type := option (gmap string json).

Section WithLib.
Context (lib : GoLib).

(** [json.Unmarshal(data, &m)] on a [map[string]interface{}]: the text is
    checked first; an object is merged into the map already there (a fresh
    one if that is nil), [null] stores the nil map, and any other value is a
    type error that leaves the map as it is. *)
Definition unmarshalMap (data : string) (target : t) : t * option error :=
  match jsonParse lib data with
  | None => (target, Some "json: syntax error")
  | Some (JObj kvs) => (Some (insertAll kvs (default ∅ target)), None)
  | Some JNull => (None, None)
  | Some d =>
      (target,
       Some ("json: cannot unmarshal " +:+ Wire.kindOf d
             +:+ " into Go value of type map[string]interface {}"))
  end.

(** [UnmarshalJSON] *)
Definition UnmarshalJSON (ga : t) (data : string) : t * option error :=
  let ga := Some (default ∅ ga) in
  unmarshalMap data ga.

(** [MarshalJSON]; [None] is the error of [json.Marshal]. *)
Definition MarshalJSON (ga : t) : option string :=
  match ga with
  | None => Some "{}"
  | Some m => jsonText lib (marshalMap m)
  end.

End WithLib.

(** [GetConfig] *)
Definition GetConfig (ga : t) : gmap string json :=
  match ga with
  | None => ∅
  | Some m => m
  end.

(** [SetConfig]; a nil [config] is ranged over like an empty one. *)
Definition SetConfig (ga : t) (config : gmap string json) : t :=
  let ga := default ∅ ga in
  Some (mergeInto config ga).

End GenericAddition.

(** [model.Storage] and [model.OtherArgs] as the adapters read them: the
    addition of a storage is the JSON text kept in the database, and the data
    of an [Other] call is any value. *)
Module model.

Module Storage.
Record t : Type := {
  ID : Z;
  Driver : string;
  Addition : string;
}.
End Storage.

Module OtherArgs.
Record t : Type := {
  Obj : option Object;
  Method : string;
  Data : json;
}.
End OtherArgs.

End model.

(** [RemoteDriverAdapter].  [addition] is [None] for the nil interface and
    holds the [GenericAddition] behind the pointer once [GetAddition] has made
    it; what a caller does through that pointer is done to this field. *)
Module RemoteDriverAdapter.

Record t : Type := {
  client : Session;
  instanceID : string;
  storage : option model.Storage.t;
  config : driver.Config.t;
  addition : option GenericAddition.t;
}.

Definition set_client (c : Session) (rda : t) : t :=
  {| client := c; instanceID := rda.(instanceID); storage := rda.(storage);
     config := rda.(config); addition := rda.(addition) |}.

(** [NewRemoteDriverAdapter] *)
Definition NewRemoteDriverAdapter (client : Session) (instanceID : string)
    (config : driver.Config.t) : t :=
  {| client := client; instanceID := instanceID; storage := None; config := config;
     addition := None |}.

(** [Config], [GetStorage], [SetStorage] *)
Definition Config (rda : t) : driver.Config.t := rda.(config).

Definition GetStorage (rda : t) : option model.Storage.t := rda.(storage).

Definition SetStorage (storage : model.Storage.t) (rda : t) : t :=
  {| client := rda.(client); instanceID := rda.(instanceID); storage := Some storage;
     config := rda.(config); addition := rda.(addition) |}.

(** [GetAddition]: the adapter as the call leaves it; the pointer returned is
    the one in its [addition]. *)
Definition GetAddition (rda : t) : t :=
  match rda.(addition) with
  | None =>
      {| client := rda.(client); instanceID := rda.(instanceID); storage := rda.(storage);
         config := rda.(config); addition := Some (Some ∅) |}
  | Some _ => rda
  end.

(** The maps of parameters the operations send. *)
Definition dropParams (rda : t) : gmap string json :=
  {[ "instance_id" := JStr rda.(instanceID) ]}.

Definition listParams (dir : Object) (args : ListArgs) : gmap string json :=
  <["path" := JStr dir.(ObjPath)]> {[ "refresh" := JBool args.(Refresh) ]}.

Definition linkParams (file : Object) : gmap string json :=
  {[ "path" := JStr file.(ObjPath) ]}.

Definition getParams (path : string) : gmap string json :=
  {[ "path" := JStr path ]}.

Definition otherParams (args : model.OtherArgs.t) : gmap string json :=
  let params :=
    <["method" := JStr args.(model.OtherArgs.Method)]>
      {[ "data" := args.(model.OtherArgs.Data) ]} in
  match args.(model.OtherArgs.Obj) with
  | Some o => <["path" := JStr o.(ObjPath)]> params
  | None => params
  end.

Section WithLib.
Context (lib : GoLib).
(** [json.Unmarshal] of a text into [[]model.Object], [model.Object] and
    [model.Link], whose fields are declared outside these sources. *)
Context {Objects OneObject OneLink : Type}.
Context (decodeObjects : string -> Objects + error).
Context (decodeObject : string -> OneObject + error).
Context (decodeLink : string -> OneLink + error).

(** The configuration [Init] sends: the one of the addition when
    [GetAddition] has made it, the addition text of the storage otherwise. *)
Definition initConfig (rda : t) (storage : model.Storage.t)
  : option (gmap string json) + error :=
  match rda.(addition) with
  | Some ga => inl (Some (GenericAddition.GetConfig ga))
  | None =>
      if decide (storage.(model.Storage.Addition) = "") then inl (Some ∅)
      else
        match GenericAddition.unmarshalMap lib storage.(model.Storage.Addition) (Some ∅) with
        | (_, Some err) => inr ("failed to parse addition from database: " +:+ err)
        | (config, None) => inl config
        end
  end.

(** [Init] *)
Definition Init (env : Session.CallEnv) (rda : t) : t * option error :=
  match rda.(storage) with
  | None => (rda, Some "storage not set")
  | Some storage =>
      match initConfig rda storage with
      | inr err => (rda, Some err)
      | inl config =>
          let '(c, r) :=
            Client.CreateDriverInstance lib env rda.(client) rda.(instanceID)
              storage.(model.Storage.Driver) config in
          (set_client c rda, match r with inl _ => None | inr err => Some err end)
      end
  end.

(** [Drop] *)
Definition Drop (env : Session.CallEnv) (rda : t) : t * option error :=
  let '(c, r) :=
    Session.sendRequest lib env rda.(client) "remove_instance" (Some (dropParams rda)) in
  (set_client c rda, match r with inl _ => None | inr err => Some err end).

(** [convertToObjects], [convertToObject], [convertToLink]: the result is
    marshalled and read back into the type wanted. *)
Definition convert {R : Type} (decode : string -> R + error) (what : string)
    (result : json) : R + error :=
  match jsonText lib result with
  | None => inr "failed to marshal result: json: unsupported value"
  | Some data =>
      match decode data with
      | inr err => inr ("failed to unmarshal " +:+ what +:+ ": " +:+ err)
      | inl v => inl v
      end
  end.

Definition convertToObjects : json -> Objects + error := convert decodeObjects "objects".
Definition convertToObject : json -> OneObject + error := convert decodeObject "object".
Definition convertToLink : json -> OneLink + error := convert decodeLink "link".

(** [List] *)
Definition List (env : Session.CallEnv) (rda : t) (dir : Object) (args : ListArgs)
  : t * (Objects + error) :=
  let params := listParams dir args in
  let '(c, r) :=
    Client.ExecuteDriverOperation lib env rda.(client) rda.(instanceID) "list"
      (Some params) in
  (set_client c rda,
   match r with
   | inr err => inr err
   | inl result => convertToObjects result
   end).

(** [Link]; the link arguments are not sent. *)
Definition Link (env : Session.CallEnv) (rda : t) (file : Object)
  : t * (OneLink + error) :=
  let params := linkParams file in
  let '(c, r) :=
    Client.ExecuteDriverOperation lib env rda.(client) rda.(instanceID) "link"
      (Some params) in
  (set_client c rda,
   match r with
   | inr err => inr err
   | inl result => convertToLink result
   end).

(** [Get] *)
Definition Get (env : Session.CallEnv) (rda : t) (path : string)
  : t * (OneObject + error) :=
  let params := getParams path in
  let '(c, r) :=
    Client.ExecuteDriverOperation lib env rda.(client) rda.(instanceID) "get"
      (Some params) in
  (set_client c rda,
   match r with
   | inr err => inr err
   | inl result => convertToObject result
   end).

(** [Other]: the result is returned as it came. *)
Definition Other (env : Session.CallEnv) (rda : t) (args : model.OtherArgs.t)
  : t * (json + error) :=
  let params := otherParams args in
  let '(c, r) :=
    Client.ExecuteDriverOperation lib env rda.(client) rda.(instanceID) "other"
      (Some params) in
  (set_client c rda, r).

End WithLib.

End RemoteDriverAdapter.

(** The connection carries the message [m] as the line [data]: [m] is
    marshalled to [data], a line that trimming leaves as it is, and the
    decoder reads from it the document that was written. *)
Definition carries (lib : GoLib) (m : Message) (data : string) : Prop :=
  Wire.Marshal lib m = Some data
  /\ TrimSpace lib data = data
  /\ data <> ""
  /\ jsonParse lib data = Some (Wire.encodeMessage m).

(* ===================================================================== *)
(** * Properties                                                          *)
(* ===================================================================== *)

(** ** The reference library on concrete lines *)

Example parse_ping :
  jsonParse goLib (dq "{'id':'p1','type':'ping'}")
  = Some (JObj [("id", JStr "p1"); ("type", JStr "ping")]).
Proof. vm_compute. reflexivity. Qed.

Example parse_garbage : jsonParse goLib "{not json" = None.
Proof. vm_compute. reflexivity. Qed.

Example parse_print_nested :
  let d := JObj [("a", JArr [JNum (-12); JBool true; JNull]);
                 ("b<", JStr ("x" +:+ String "010" "y"))] in
  jsonParse goLib (RefLib.printJson d) = Some d.
Proof. vm_compute. reflexivity. Qed.

Example unmarshal_ping :
  Wire.Unmarshal goLib (dq "{'id':'p1','type':'ping'}") zeroMessage
  = ({| ID := "p1"; Type_ := "ping"; Method := ""; Params := None;
        Result := JNull; Error := None |}, None).
Proof. vm_compute. reflexivity. Qed.

(** A type mismatch is reported, and the fields decoded before and after it
    are kept. *)
Example unmarshal_partial :
  let r := Wire.Unmarshal goLib (dq "{'id':'x7','type':5}") zeroMessage in
  (r.1).(ID) = "x7" /\ (r.1).(Type_) = "" /\ r.2 <> None.
Proof. vm_compute. repeat split. discriminate. Qed.

(** End-to-end scenario 2 of the specification: a ping is answered with a
    pong that carries the same id. *)
Example ping_pong :
  (Handle goLib (NewProtocolHandler (NewDriverManager stubRegistry))
     [tick (dq "{'id':'p1','type':'ping'}")] None).1.(out)
  = [(dq "{'id':'p1','type':'response','result':'pong'}") +:+ newline].
Proof. vm_compute. reflexivity. Qed.

(* ===================================================================== *)
(** ** Lines that do not parse (claim C1)                                 *)
(* ===================================================================== *)

Section Unparseable.
Context (lib : GoLib).

Lemma processLine_unparseable (s : Session) (raw : string) (msg : Message) (err : error) :
  TrimSpace lib raw <> "" ->
  Wire.Unmarshal lib (TrimSpace lib raw) zeroMessage = (msg, Some err) ->
  Session.processLine lib s raw = logf ("Failed to parse message: " +:+ err) s.
Proof.
  intros Hne Hu. unfold Session.processLine.
  destruct (decide (TrimSpace lib raw = "")) as [Heq|_]; [contradiction|].
  rewrite Hu. reflexivity.
Qed.

Context {D : Type} `{DriverOps D}.

Lemma processMessage_unparseable (ph : ProtocolHandler (D := D)) (line : string)
    (msg : Message) (err : error) :
  Wire.Unmarshal lib line zeroMessage = (msg, Some err) ->
  processMessage lib ph line = sendError lib ph msg.(ID) 400 ("Invalid JSON: " +:+ err).
Proof. intros Hu. unfold processMessage. rewrite Hu. reflexivity. Qed.

Lemma sendMessage_written (ph : ProtocolHandler (D := D)) (m : Message) (data : string) :
  Wire.Marshal lib m = Some data ->
  ph.(connBroken) = false ->
  sendMessage lib ph m
  = ({| driverManager := ph.(driverManager); out := ph.(out) ++ [data +:+ newline];
        connBroken := false |}, None).
Proof. intros Hm Hb. unfold sendMessage. rewrite Hm, Hb. reflexivity. Qed.

Lemma sendMessage_broken (ph : ProtocolHandler (D := D)) (m : Message) (data : string) :
  Wire.Marshal lib m = Some data ->
  ph.(connBroken) = true ->
  sendMessage lib ph m = (ph, Some "write: broken pipe").
Proof. intros Hm Hb. unfold sendMessage. rewrite Hm, Hb. reflexivity. Qed.

End Unparseable.

(** Claim C1, as the code has it.  A line that does not decode into a
    [Message] is treated in two ways.
    - The host-side read loop ([processMessages] of both session types)
      writes a log entry and nothing else: nothing is sent, the response
      table, the channels and the connected flag stay as they are, and the
      loop goes on with the next line.
    - The remote-side [ProtocolHandler] answers it: [processMessage] sends an
      error response of code 400 whose id is whatever the decoder had stored
      before it failed.  When that write goes through, [Handle] goes on with
      the next line; when it fails, [Handle] returns the failure. *)
Theorem unparseable_line (lib : GoLib) :
  (forall (s : Session) (raw : string) (rest : list Tick) (scanErr : option error)
          (msg : Message) (err : error),
      TrimSpace lib raw <> "" ->
      Wire.Unmarshal lib (TrimSpace lib raw) zeroMessage = (msg, Some err) ->
      let s' := Session.processLine lib s raw in
      s' = logf ("Failed to parse message: " +:+ err) s
      /\ s'.(wire) = s.(wire)
      /\ s'.(responses) = s.(responses)
      /\ s'.(chans) = s.(chans)
      /\ s'.(connected) = s.(connected)
      /\ Session.processMessages lib s (tick raw :: rest) scanErr
         = Session.processMessages lib s' rest scanErr)
  /\
  (forall (D : Type) (ops : DriverOps D) (ph : ProtocolHandler (D := D)) (raw : string)
          (rest : list Tick) (scanErr : option error) (msg : Message) (err : error)
          (data : string),
      TrimSpace lib raw <> "" ->
      Wire.Unmarshal lib (TrimSpace lib raw) zeroMessage = (msg, Some err) ->
      Wire.Marshal lib (errorResponse msg.(ID) 400 ("Invalid JSON: " +:+ err)) = Some data ->
      (ph.(connBroken) = false ->
         let ph' := {| driverManager := ph.(driverManager);
                       out := ph.(out) ++ [data +:+ newline];
                       connBroken := false |} in
         processMessage lib ph (TrimSpace lib raw) = (ph', None)
         /\ Handle lib ph (tick raw :: rest) scanErr = Handle lib ph' rest scanErr)
      /\
      (ph.(connBroken) = true ->
         Handle lib ph (tick raw :: rest) scanErr
         = (ph, Some ("failed to process message: " +:+ "write: broken pipe")))).
Proof.
  split.
  - intros s raw rest scanErr msg err Hne Hu s'.
    assert (Hs : s' = logf ("Failed to parse message: " +:+ err) s)
      by (eapply processLine_unparseable; eauto).
    split; [exact Hs|].
    rewrite Hs. repeat split; try reflexivity.
    cbn [Session.processMessages tick ctx_done text].
    rewrite (processLine_unparseable lib s raw msg err Hne Hu). reflexivity.
  - intros D ops ph raw rest scanErr msg err data Hne Hu Hm.
    pose proof (processMessage_unparseable lib ph _ _ _ Hu) as Hp.
    unfold sendError in Hp.
    split; intros Hb.
    + intros ph'.
      rewrite (sendMessage_written lib ph _ _ Hm Hb) in Hp.
      split; [exact Hp|].
      cbn [Handle tick ctx_done text].
      destruct (decide (TrimSpace lib raw = "")) as [Heq|_]; [contradiction|].
      rewrite Hp. reflexivity.
    + rewrite (sendMessage_broken lib ph _ _ Hm Hb) in Hp.
      cbn [Handle tick ctx_done text].
      destruct (decide (TrimSpace lib raw = "")) as [Heq|_]; [contradiction|].
      rewrite Hp. reflexivity.
Qed.

(** The theorem at work on the line [{not json], read by a session and by a
    handler with a working connection. *)
Lemma unparseable_line_witness :
  let raw := "{not json" in
  let s := newSession "dm-1" in
  let ph := NewProtocolHandler (NewDriverManager stubRegistry) in
  (Session.processLine goLib s raw).(wire) = []
  /\ (processMessage goLib ph raw).1.(out)
     = [(dq "{'id':'','type':'response','error':{'code':400,'message':'Invalid JSON: json: syntax error'}}")
        +:+ newline].
Proof.
  intros raw s ph.
  assert (Hne : TrimSpace goLib raw <> "")
    by (intros E; vm_compute in E; discriminate E).
  assert (Hu : Wire.Unmarshal goLib (TrimSpace goLib raw) zeroMessage
               = (zeroMessage, Some "json: syntax error"))
    by (vm_compute; reflexivity).
  assert (Hm : Wire.Marshal goLib
                 (errorResponse zeroMessage.(ID) 400 ("Invalid JSON: " +:+ "json: syntax error"))
               = Some (dq "{'id':'','type':'response','error':{'code':400,'message':'Invalid JSON: json: syntax error'}}"))
    by (vm_compute; reflexivity).
  destruct (unparseable_line goLib) as [Hhost Hremote].
  split.
  - exact (proj1 (proj2 (Hhost s raw [] None _ _ Hne Hu))).
  - pose proof (proj1 (proj1 (Hremote _ _ ph raw [] None _ _ _ Hne Hu Hm) eq_refl)) as Hp.
    change (TrimSpace goLib raw) with raw in Hp.
    rewrite Hp. reflexivity.
Defined.

(** Claim C1 as stated fails on the remote side: the handler does send
    something for a line that does not parse, namely an error response. *)
Lemma unparseable_line_answered :
  let ph := NewProtocolHandler (NewDriverManager stubRegistry) in
  let raw := "{not json" in
  (Wire.Unmarshal goLib raw zeroMessage).2 <> None
  /\ ph.(out) = []
  /\ (Handle goLib ph [tick raw] None).1.(out)
     = [(dq "{'id':'','type':'response','error':{'code':400,'message':'Invalid JSON: json: syntax error'}}")
        +:+ newline].
Proof. vm_compute. repeat split. discriminate. Qed.

(* ===================================================================== *)
(** ** Requests and the response table (claims C2 and C6)                 *)
(* ===================================================================== *)

Section SessionFacts.
Context (lib : GoLib).

Lemma deliver_responses c msg s :
  (Session.deliver c msg s).(responses) = s.(responses).
Proof.
  unfold Session.deliver.
  destruct (s.(chans) !! c) as [ch|]; [|reflexivity].
  destruct ch.(closed); [reflexivity|].
  destruct ch.(buf); reflexivity.
Qed.

Lemma deliver_wire c msg s :
  (Session.deliver c msg s).(wire) = s.(wire).
Proof.
  unfold Session.deliver.
  destruct (s.(chans) !! c) as [ch|]; [|reflexivity].
  destruct ch.(closed); [reflexivity|].
  destruct ch.(buf); reflexivity.
Qed.

Lemma processLine_responses s raw :
  (Session.processLine lib s raw).(responses) = s.(responses).
Proof.
  unfold Session.processLine.
  destruct (decide (TrimSpace lib raw = "")); [reflexivity|].
  destruct (Wire.Unmarshal lib (TrimSpace lib raw) zeroMessage) as [msg [err|]];
    [reflexivity|].
  destruct (decide (msg.(Type_) = "handshake")); [reflexivity|].
  destruct (decide (msg.(Type_) = "response" /\ msg.(ID) <> "")); [|reflexivity].
  destruct (s.(responses) !! msg.(ID)); [apply deliver_responses|reflexivity].
Qed.

Lemma processLines_responses lines s :
  (fold_left (Session.processLine lib) lines s).(responses) = s.(responses).
Proof.
  revert s. induction lines as [|l lines IH]; intros s; [reflexivity|].
  cbn [fold_left]. rewrite IH. apply processLine_responses.
Qed.

Lemma begin_waiting now s method params s1 id c :
  Session.sendRequest_begin lib now s method params = Session.Waiting s1 id c ->
  s.(connected) = true
  /\ id = Session.genID method now
  /\ c = Session.freshChan s
  /\ s1.(responses) = <[id := c]> s.(responses)
  /\ s1.(chans) = <[c := newChan]> s.(chans).
Proof.
  unfold Session.sendRequest_begin, Session.IsConnected.
  destruct s.(connected) eqn:Hc; cbn [negb]; [|discriminate].
  destruct (Wire.Marshal lib _) as [data|]; [|discriminate].
  unfold Session.Write. cbn [set_responses set_chans broken].
  destruct s.(broken); [discriminate|].
  intros [= <- <- <-]. repeat split.
Qed.

Lemma begin_exited now s method params s' r :
  Session.sendRequest_begin lib now s method params = Session.Exited s' r ->
  (s.(connected) = false /\ s' = s /\ r = inr "not connected to driver manager")
  \/ (s.(connected) = true
      /\ s'.(responses) = delete (Session.genID method now) s.(responses)
      /\ exists e, r = inr e).
Proof.
  unfold Session.sendRequest_begin, Session.IsConnected.
  destruct s.(connected) eqn:Hc; cbn [negb].
  - intros Hx. right. split; [reflexivity|].
    destruct (Wire.Marshal lib _) as [data|].
    + unfold Session.Write in Hx. cbn [set_responses set_chans broken] in Hx.
      destruct s.(broken); [|discriminate].
      injection Hx as <- <-. split; [|eauto].
      cbn. apply delete_insert_eq.
    + injection Hx as <- <-. split; [|eauto].
      cbn. apply delete_insert_eq.
  - intros [= <- <-]. left. auto.
Qed.

Lemma end_responses early d s id c :
  (Session.sendRequest_end early d s id c).1.(responses) = delete id s.(responses).
Proof.
  unfold Session.sendRequest_end.
  destruct (s.(chans) !! c) as [[[response|] cl]|]; try reflexivity.
  destruct early; reflexivity.
Qed.

Lemma sendRequest_responses env s method params :
  s.(connected) = true ->
  (Session.sendRequest lib env s method params).1.(responses)
  = delete (Session.genID method env.(Session.now)) s.(responses).
Proof.
  intros Hc. unfold Session.sendRequest.
  destruct (Session.sendRequest_begin lib _ s method params) as [s' r|s1 id c] eqn:Hb.
  - apply begin_exited in Hb as [(Hc' & _)|(_ & Hr & _)]; [congruence|exact Hr].
  - apply begin_waiting in Hb as (_ & -> & _ & Hr & _).
    rewrite end_responses, processLines_responses, Hr.
    apply delete_insert_eq.
Qed.

Lemma sendRequest_not_connected env s method params :
  s.(connected) = false ->
  Session.sendRequest lib env s method params
  = (s, inr "not connected to driver manager").
Proof.
  intros Hc. unfold Session.sendRequest, Session.sendRequest_begin, Session.IsConnected.
  rewrite Hc. reflexivity.
Qed.

Lemma sendRequest_deadline env s method params data :
  s.(connected) = true ->
  s.(broken) = false ->
  Wire.Marshal lib {| ID := Session.genID method env.(Session.now); Type_ := "request";
                      Method := method; Params := params; Result := JNull;
                      Error := None |} = Some data ->
  env.(Session.incoming) = [] ->
  (Session.sendRequest lib env s method params).2
  = inr (Session.deadlineError env.(Session.deadline)).
Proof.
  intros Hc Hb Hm Hi.
  unfold Session.sendRequest, Session.sendRequest_begin, Session.IsConnected.
  rewrite Hc, Hm, Hi. cbn [negb]. unfold Session.Write.
  cbn [set_responses set_chans broken]. rewrite Hb.
  cbn [fold_left]. unfold Session.sendRequest_end.
  cbn [set_wire set_responses set_chans chans].
  rewrite lookup_insert_eq. reflexivity.
Qed.
End SessionFacts.

Lemma sendRequest_outcome (lib : GoLib) (env : Session.CallEnv) (s : Session)
    (method : string) (params : option (gmap string json)) :
  let r := (Session.sendRequest lib env s method params).2 in
  r = inr "not connected to driver manager"
  \/ r = inr "failed to marshal request"
  \/ (exists e, r = inr ("failed to send request: " +:+ e))
  \/ r = inr (Session.deadlineError env.(Session.deadline))
  \/ (exists response, r = Session.responseResult response).
Proof.
  unfold Session.sendRequest, Session.sendRequest_begin.
  destruct (negb (Session.IsConnected s)); [left; reflexivity|].
  destruct (Wire.Marshal lib _) as [data|]; [|right; left; reflexivity].
  unfold Session.Write. cbn [set_responses set_chans broken].
  destruct s.(broken); [right; right; left; eauto|].
  unfold Session.sendRequest_end.
  match goal with |- context [chans ?x !! ?c] => destruct (chans x !! c) as [[[response|] cl]|] end;
    try (right; right; right; left; reflexivity).
  destruct env.(Session.early);
    [right; right; right; left; reflexivity|right; right; right; right; eauto].
Qed.

(** The frame of [sendRequest].  On a session that is not connected the call
    fails at once and leaves the session as it was: no awaiter is registered
    and nothing is written.  On a connected session, whichever way the call
    ends (marshal failure, write failure, cancellation, timeout, a response
    with or without an error), the response table after the call is the table
    before it without the call's correlation ID; so the ID is no longer
    registered, and the table has its pre-call contents and size whenever
    that ID was not already pending when the call registered it. *)
Theorem sendRequest_frame (lib : GoLib) (env : Session.CallEnv) (s : Session)
    (method : string) (params : option (gmap string json)) :
  let id := Session.genID method env.(Session.now) in
  let r := Session.sendRequest lib env s method params in
  (s.(connected) = false ->
     r = (s, inr "not connected to driver manager")
     /\ r.1.(responses) = s.(responses) /\ r.1.(wire) = s.(wire))
  /\ (s.(connected) = true ->
        r.1.(responses) = delete id s.(responses)
        /\ r.1.(responses) !! id = None
        /\ (s.(responses) !! id = None ->
              r.1.(responses) = s.(responses)
              /\ size r.1.(responses) = size s.(responses)))
  /\ (r.2 = inr "not connected to driver manager"
      \/ r.2 = inr "failed to marshal request"
      \/ (exists e, r.2 = inr ("failed to send request: " +:+ e))
      \/ r.2 = inr (Session.deadlineError env.(Session.deadline))
      \/ (exists response, r.2 = Session.responseResult response)).
Proof.
  intros id r. split; [|split].
  - intros Hc. subst r. rewrite (sendRequest_not_connected lib env s method params Hc).
    auto.
  - intros Hc. subst r.
    rewrite (sendRequest_responses lib env s method params Hc).
    fold id. split; [reflexivity|]. split; [apply lookup_delete_eq|].
    intros Hfresh. rewrite (delete_id _ _ Hfresh). auto.
  - apply sendRequest_outcome.
Qed.

(** A request on a fresh connection that gets no answer times out, and the
    table is empty again; on a closed connection the request is refused. *)
Lemma sendRequest_frame_witness :
  let s := newSession "dm-1" in
  let r := Session.sendRequest goLib (quiet 5) s "list_drivers" None in
  r.2 = inr "request timeout"
  /\ r.1.(responses) = s.(responses)
  /\ size r.1.(responses) = size s.(responses)
  /\ Session.sendRequest goLib (quiet 5) (Session.Close s) "list_drivers" None
     = (Session.Close s, inr "not connected to driver manager").
Proof.
  intros s r.
  destruct (sendRequest_frame goLib (quiet 5) s "list_drivers" None) as (_ & Hon & _).
  destruct (sendRequest_frame goLib (quiet 5) (Session.Close s) "list_drivers" None)
    as (Hoff & _ & _).
  split; [vm_compute; reflexivity|].
  split; [exact (proj1 (proj2 (proj2 (Hon eq_refl)) eq_refl))|].
  split; [exact (proj2 (proj2 (proj2 (Hon eq_refl)) eq_refl))|].
  exact (proj1 (Hoff eq_refl)).
Defined.

(** With no line delivered while the caller waits, the call ends in the
    deadline that fired. *)
Lemma sendRequest_times_out (lib : GoLib) (clock : Z) (s : Session) (method : string)
    (params : option (gmap string json)) (data : string) :
  s.(connected) = true ->
  s.(broken) = false ->
  Wire.Marshal lib {| ID := Session.genID method clock; Type_ := "request";
                      Method := method; Params := params; Result := JNull;
                      Error := None |} = Some data ->
  (Session.sendRequest lib (quiet clock) s method params).2 = inr "request timeout".
Proof.
  intros Hc Hb Hm.
  exact (sendRequest_deadline lib (quiet clock) s method params data Hc Hb Hm eq_refl).
Qed.

(** Claim C6 at a failing input.  A request "list_drivers" issued at the
    clock reading 5 is pending on a connected session, so the table holds one
    entry.  A second "list_drivers" call reads the same clock value, draws
    the same ID, and times out: its deferred [delete] takes the first
    caller's entry away, and the table is empty, one entry short of its size
    before the call. *)
Lemma sendRequest_shrinks_table :
  let s1 := pendingAfter goLib 5 (newSession "dm-1") "list_drivers" in
  let r := Session.sendRequest goLib (quiet 5) s1 "list_drivers" None in
  s1.(connected) = true
  /\ is_Some (s1.(responses) !! "list_drivers-5")
  /\ size s1.(responses) = 1%nat
  /\ r.2 = inr "request timeout"
  /\ r.1.(responses) !! "list_drivers-5" = None
  /\ size r.1.(responses) = 0%nat.
Proof. vm_compute. repeat split. eexists. reflexivity. Qed.

(** The correlation IDs of two requests of the same method differ when the
    clock readings differ. *)
Lemma genID_clock_inj (method : string) (t1 t2 : Z) :
  Session.genID method t1 = Session.genID method t2 -> t1 = t2.
Proof.
  unfold Session.genID. intros Heq.
  apply (inj (String.app method)) in Heq.
  apply (inj (String.app "-")) in Heq.
  apply (inj pretty) in Heq. exact Heq.
Qed.

(** Nothing else tells two requests apart: the same method at the same clock
    reading gives the same ID, and the second registration replaces the
    first. *)
Lemma genID_same_clock (lib : GoLib) (clock : Z) (s s1 s2 : Session) (method : string)
    (params1 params2 : option (gmap string json)) (id1 id2 : string) (c1 c2 : nat) :
  Session.sendRequest_begin lib clock s method params1 = Session.Waiting s1 id1 c1 ->
  Session.sendRequest_begin lib clock s1 method params2 = Session.Waiting s2 id2 c2 ->
  id1 = id2
  /\ s1.(responses) !! id1 = Some c1
  /\ s2.(responses) !! id1 = Some c2
  /\ c1 <> c2.
Proof.
  intros H1 H2.
  apply begin_waiting in H1 as (_ & -> & -> & Hr1 & Hc1).
  apply begin_waiting in H2 as (_ & -> & -> & Hr2 & Hc2).
  split; [reflexivity|].
  rewrite Hr2, Hr1, !lookup_insert_eq. repeat split.
  unfold Session.freshChan at 2. rewrite Hc1.
  intros Heq.
  pose proof (is_fresh (dom (<[Session.freshChan s := newChan]> s.(chans)))) as Hf.
  rewrite <- Heq in Hf. apply Hf.
  rewrite dom_insert_L. set_solver.
Qed.

(** Claim C2 at a failing input: two requests "list_drivers" that both read
    the clock value 5 while the first is still pending.  Both get the ID
    [list_drivers-5]; after the second registration the table holds one
    entry, the second caller's channel; and when the first caller then gives
    up, its deferred [delete] removes that entry, so the second caller, still
    waiting, is no longer registered. *)
Lemma correlation_id_reused :
  match Session.sendRequest_begin goLib 5 (newSession "dm-1") "list_drivers" None with
  | Session.Waiting s1 id1 c1 =>
      match Session.sendRequest_begin goLib 5 s1 "list_drivers" None with
      | Session.Waiting s2 id2 c2 =>
          id1 = "list_drivers-5" /\ id2 = "list_drivers-5"
          /\ s1.(responses) !! id1 = Some c1
          /\ s2.(responses) !! id2 = Some c2
          /\ c1 <> c2
          /\ size s2.(responses) = 1%nat
          /\ (Session.sendRequest_end false Session.TimerFired s2 id1 c1).1.(responses) !! id2
             = None
      | Session.Exited _ _ => False
      end
  | Session.Exited _ _ => False
  end.
Proof. vm_compute. repeat split. discriminate. Qed.

(* ===================================================================== *)
(** ** Fan-out over the connected sessions (claim C3)                     *)
(* ===================================================================== *)

Section FanOut.
Context {R : Type} (call : Session -> Session * (R + error)).

Lemma tryEach_hit (l1 l2 : list Session) (m : Session) (v : R) :
  Forall (fails call) l1 ->
  (call m).2 = inl v ->
  tryEach call (l1 ++ m :: l2) = (((fun x => (call x).1) <$> l1) ++ (call m).1 :: l2, Some v).
Proof.
  intros Hl1 Hm. induction Hl1 as [|x l1 [e He] _ IH]; cbn [app fmap list_fmap tryEach].
  - destruct (call m) as [m' r]. cbn in Hm. subst r. reflexivity.
  - rewrite IH. destruct (call x) as [x' r]. cbn in He. subst r. reflexivity.
Qed.

Lemma tryEach_miss (l : list Session) :
  Forall (fails call) l ->
  tryEach call l = ((fun x => (call x).1) <$> l, None).
Proof.
  intros Hl. induction Hl as [|x l [e He] _ IH]; cbn [fmap list_fmap tryEach].
  - reflexivity.
  - rewrite IH. destruct (call x) as [x' r]. cbn in He. subst r. reflexivity.
Qed.
End FanOut.

Section PoolFacts.
Context (lib : GoLib) (env : Session -> Session.CallEnv).

Lemma pool_loop_hit (driverName : string) (l1 l2 : list Session) (c : Session)
    (info : gmap string json) :
  Forall (misses lib env driverName) l1 ->
  Session.IsConnected c = true ->
  (Client.GetDriverInfo lib (env c) c driverName).2 = inl info ->
  Pool.GetDriverInfo_loop lib env (l1 ++ c :: l2) driverName
  = ((asked lib env driverName <$> l1) ++ (Client.GetDriverInfo lib (env c) c driverName).1 :: l2,
     inl info).
Proof.
  intros Hl1 Hc Hinfo.
  induction Hl1 as [|x l1 Hx _ IH]; cbn [app fmap list_fmap Pool.GetDriverInfo_loop].
  - rewrite Hc. cbn [negb].
    destruct (Client.GetDriverInfo lib (env c) c driverName) as [c' r].
    cbn in Hinfo. subst r. reflexivity.
  - rewrite IH. unfold asked, misses, fails in *.
    destruct (Session.IsConnected x); cbn [negb]; [|reflexivity].
    destruct (Hx eq_refl) as [e He].
    destruct (Client.GetDriverInfo lib (env x) x driverName) as [x' r].
    cbn in He. subst r. reflexivity.
Qed.

Lemma pool_loop_miss (driverName : string) (l : list Session) :
  Forall (misses lib env driverName) l ->
  Pool.GetDriverInfo_loop lib env l driverName
  = (asked lib env driverName <$> l,
     inr ("driver " +:+ driverName +:+ " not found in any connected manager")).
Proof.
  intros Hl.
  induction Hl as [|x l Hx _ IH]; cbn [fmap list_fmap Pool.GetDriverInfo_loop].
  - reflexivity.
  - rewrite IH. unfold asked, misses, fails in *.
    destruct (Session.IsConnected x); cbn [negb]; [|reflexivity].
    destruct (Hx eq_refl) as [e He].
    destruct (Client.GetDriverInfo lib (env x) x driverName) as [x' r].
    cbn in He. subst r. reflexivity.
Qed.
End PoolFacts.

Section ServerFacts.
Context (lib : GoLib) (order : list string) (env : Session -> Session.CallEnv).

Lemma server_info_hit srv driverName l1 l2 m info :
  Server.GetConnectedManagers order srv = l1 ++ m :: l2 ->
  Forall (fails (Server.infoCall lib env driverName)) l1 ->
  (Server.infoCall lib env driverName m).2 = inl info ->
  Server.GetDriverInfo lib order env srv driverName
  = (Server.store (((fun x => (Server.infoCall lib env driverName x).1) <$> l1)
                   ++ (Server.infoCall lib env driverName m).1 :: l2) srv,
     inl info).
Proof.
  intros Hm Hl1 Hhit. unfold Server.GetDriverInfo.
  rewrite Hm, (tryEach_hit _ l1 l2 m info Hl1 Hhit). reflexivity.
Qed.

Lemma server_info_miss srv driverName :
  Forall (fails (Server.infoCall lib env driverName)) (Server.GetConnectedManagers order srv) ->
  (Server.GetDriverInfo lib order env srv driverName).2
  = inr ("driver " +:+ driverName +:+ " not found in any connected manager").
Proof.
  intros Hl. unfold Server.GetDriverInfo.
  rewrite (tryEach_miss _ _ Hl). reflexivity.
Qed.

Lemma server_create_none srv instanceID driverName config :
  Server.GetConnectedManagers order srv = [] ->
  Server.CreateDriverInstance lib order env srv instanceID driverName config
  = (srv, Some "no connected driver managers").
Proof. intros Hm. unfold Server.CreateDriverInstance. rewrite Hm. reflexivity. Qed.

Lemma server_create_hit srv instanceID driverName config l1 l2 m v :
  Server.GetConnectedManagers order srv = l1 ++ m :: l2 ->
  Forall (fails (Server.createCall lib env instanceID driverName config)) l1 ->
  (Server.createCall lib env instanceID driverName config m).2 = inl v ->
  Server.CreateDriverInstance lib order env srv instanceID driverName config
  = (Server.store
       (((fun x => (Server.createCall lib env instanceID driverName config x).1) <$> l1)
        ++ (Server.createCall lib env instanceID driverName config m).1 :: l2) srv,
     None).
Proof.
  intros Hm Hl1 Hhit. unfold Server.CreateDriverInstance.
  rewrite Hm, (tryEach_hit _ l1 l2 m v Hl1 Hhit).
  destruct (decide (length (l1 ++ m :: l2) = 0%nat)) as [Hlen|_]; [|reflexivity].
  rewrite length_app in Hlen. cbn in Hlen. lia.
Qed.

Lemma server_create_miss srv instanceID driverName config :
  Server.GetConnectedManagers order srv <> [] ->
  Forall (fails (Server.createCall lib env instanceID driverName config))
         (Server.GetConnectedManagers order srv) ->
  (Server.CreateDriverInstance lib order env srv instanceID driverName config).2
  = Some "failed to create driver instance on any manager".
Proof.
  intros Hne Hl. unfold Server.CreateDriverInstance.
  rewrite (tryEach_miss _ _ Hl).
  destruct (decide (length (Server.GetConnectedManagers order srv) = 0%nat)) as [Hlen|_];
    [|reflexivity].
  destruct (Server.GetConnectedManagers order srv); [congruence|discriminate].
Qed.

Lemma server_execute_hit srv instanceID operation params l1 l2 m v :
  Server.GetConnectedManagers order srv = l1 ++ m :: l2 ->
  Forall (fails (Server.executeCall lib env instanceID operation params)) l1 ->
  (Server.executeCall lib env instanceID operation params m).2 = inl v ->
  Server.ExecuteDriverOperation lib order env srv instanceID operation params
  = (Server.store
       (((fun x => (Server.executeCall lib env instanceID operation params x).1) <$> l1)
        ++ (Server.executeCall lib env instanceID operation params m).1 :: l2) srv,
     inl v).
Proof.
  intros Hm Hl1 Hhit. unfold Server.ExecuteDriverOperation.
  rewrite Hm, (tryEach_hit _ l1 l2 m v Hl1 Hhit). reflexivity.
Qed.

Lemma server_execute_miss srv instanceID operation params :
  Forall (fails (Server.executeCall lib env instanceID operation params))
         (Server.GetConnectedManagers order srv) ->
  (Server.ExecuteDriverOperation lib order env srv instanceID operation params).2
  = inr "failed to execute operation on any manager".
Proof.
  intros Hl. unfold Server.ExecuteDriverOperation.
  rewrite (tryEach_miss _ _ Hl). reflexivity.
Qed.

(** The managers of one loop are the connected entries of the map, each
    once, in the order the loop visits the keys. *)
Lemma omap_lookup_keys {A} (m : gmap string A) (l : list (string * A)) :
  Forall (fun kv => m !! kv.1 = Some kv.2) l ->
  omap (fun k => m !! k) l.*1 = l.*2.
Proof.
  induction 1 as [|[k v] l Hkv _ IH]; [reflexivity|].
  cbn in *. rewrite Hkv, IH. reflexivity.
Qed.

Lemma connected_managers_perm srv :
  Server.rangeOrder srv order ->
  Server.GetConnectedManagers order srv
  ≡ₚ filter (fun c => Session.IsConnected c = true) (map_to_list srv.(clients)).*2.
Proof.
  unfold Server.rangeOrder, Server.GetConnectedManagers. intros Hp.
  rewrite Hp. rewrite omap_lookup_keys; [reflexivity|].
  apply Forall_forall. intros [k v] Hin. cbn.
  by apply elem_of_map_to_list.
Qed.

End ServerFacts.

(** Claim C3, as the code has it.
    - The pool's [GetDriverInfo] goes through its clients in slice order,
      that is, in the order they were added; it skips a client that is not
      connected, returns the first success and leaves the clients after it
      alone; when every connected client fails (or none is connected) it
      returns "driver ... not found in any connected manager".
    - The listener's [GetDriverInfo], [CreateDriverInstance] and
      [ExecuteDriverOperation] go through the connected entries of the
      [clients] map in the order [range] visits them, which the language
      leaves open: each connected entry is in the list once, the first
      success is returned and the managers after it are left alone.  When
      every manager fails, each returns its own single failure;
      [CreateDriverInstance] returns "no connected driver managers" when
      there is none to try. *)
Theorem fan_out (lib : GoLib) (env : Session -> Session.CallEnv) :
  (forall driverName l1 l2 c info,
      Forall (misses lib env driverName) l1 ->
      Session.IsConnected c = true ->
      (Client.GetDriverInfo lib (env c) c driverName).2 = inl info ->
      Pool.GetDriverInfo lib env {| pool_clients := l1 ++ c :: l2 |} driverName
      = ({| pool_clients := (asked lib env driverName <$> l1)
                            ++ (Client.GetDriverInfo lib (env c) c driverName).1 :: l2 |},
         inl info))
  /\ (forall driverName p,
        Forall (misses lib env driverName) p.(pool_clients) ->
        Pool.GetDriverInfo lib env p driverName
        = ({| pool_clients := asked lib env driverName <$> p.(pool_clients) |},
           inr ("driver " +:+ driverName +:+ " not found in any connected manager")))
  /\ (forall order srv,
        Server.rangeOrder srv order ->
        Server.GetConnectedManagers order srv
        ≡ₚ filter (fun c => Session.IsConnected c = true) (map_to_list srv.(clients)).*2)
  /\ (forall order srv driverName l1 l2 m info,
        Server.GetConnectedManagers order srv = l1 ++ m :: l2 ->
        Forall (fails (Server.infoCall lib env driverName)) l1 ->
        (Server.infoCall lib env driverName m).2 = inl info ->
        Server.GetDriverInfo lib order env srv driverName
        = (Server.store (((fun x => (Server.infoCall lib env driverName x).1) <$> l1)
                         ++ (Server.infoCall lib env driverName m).1 :: l2) srv,
           inl info))
  /\ (forall order srv driverName,
        Forall (fails (Server.infoCall lib env driverName))
               (Server.GetConnectedManagers order srv) ->
        (Server.GetDriverInfo lib order env srv driverName).2
        = inr ("driver " +:+ driverName +:+ " not found in any connected manager"))
  /\ (forall order srv instanceID driverName config,
        Server.GetConnectedManagers order srv = [] ->
        Server.CreateDriverInstance lib order env srv instanceID driverName config
        = (srv, Some "no connected driver managers"))
  /\ (forall order srv instanceID driverName config l1 l2 m v,
        Server.GetConnectedManagers order srv = l1 ++ m :: l2 ->
        Forall (fails (Server.createCall lib env instanceID driverName config)) l1 ->
        (Server.createCall lib env instanceID driverName config m).2 = inl v ->
        Server.CreateDriverInstance lib order env srv instanceID driverName config
        = (Server.store
             (((fun x => (Server.createCall lib env instanceID driverName config x).1) <$> l1)
              ++ (Server.createCall lib env instanceID driverName config m).1 :: l2) srv,
           None))
  /\ (forall order srv instanceID driverName config,
        Server.GetConnectedManagers order srv <> [] ->
        Forall (fails (Server.createCall lib env instanceID driverName config))
               (Server.GetConnectedManagers order srv) ->
        (Server.CreateDriverInstance lib order env srv instanceID driverName config).2
        = Some "failed to create driver instance on any manager")
  /\ (forall order srv instanceID operation params l1 l2 m v,
        Server.GetConnectedManagers order srv = l1 ++ m :: l2 ->
        Forall (fails (Server.executeCall lib env instanceID operation params)) l1 ->
        (Server.executeCall lib env instanceID operation params m).2 = inl v ->
        Server.ExecuteDriverOperation lib order env srv instanceID operation params
        = (Server.store
             (((fun x => (Server.executeCall lib env instanceID operation params x).1) <$> l1)
              ++ (Server.executeCall lib env instanceID operation params m).1 :: l2) srv,
           inl v))
  /\ (forall order srv instanceID operation params,
        Forall (fails (Server.executeCall lib env instanceID operation params))
               (Server.GetConnectedManagers order srv) ->
        (Server.ExecuteDriverOperation lib order env srv instanceID operation params).2
        = inr "failed to execute operation on any manager").
Proof.
  repeat apply conj.
  - intros driverName l1 l2 c info Hl1 Hc Hinfo. unfold Pool.GetDriverInfo.
    cbn [pool_clients].
    rewrite (pool_loop_hit lib env driverName l1 l2 c info Hl1 Hc Hinfo). reflexivity.
  - intros driverName p Hl. unfold Pool.GetDriverInfo.
    rewrite (pool_loop_miss lib env driverName _ Hl). reflexivity.
  - intros order srv. apply connected_managers_perm.
  - intros order srv. apply server_info_hit.
  - intros order srv. apply server_info_miss.
  - intros order srv. apply server_create_none.
  - intros order srv. apply server_create_hit.
  - intros order srv. apply server_create_miss.
  - intros order srv. apply server_execute_hit.
  - intros order srv. apply server_execute_miss.
Qed.

(** End-to-end scenario 5 of the specification, through the theorem: the
    pool asks its first client, which misses, then its second, which hosts
    driver "X", and returns what the second answered. *)
Lemma fan_out_witness :
  let r := Pool.GetDriverInfo goLib onlySecondHostsX twoClients "X" in
  r.2 = inl {[ "name" := JStr "X" ]}
  /\ (wire <$> r.1.(pool_clients))
     = [ [(dq "{'id':'get_driver_info-1','type':'request','method':'get_driver_info','params':{'driver':'X'}}")
          +:+ newline];
         [(dq "{'id':'get_driver_info-2','type':'request','method':'get_driver_info','params':{'driver':'X'}}")
          +:+ newline] ].
Proof.
  intros r.
  pose proof (proj1 (fan_out goLib onlySecondHostsX) "X"
                [newSession "a:5245"] [] (newSession "b:5245") {[ "name" := JStr "X" ]})
    as Hhit.
  assert (Hr : r = ({| pool_clients :=
                         (asked goLib onlySecondHostsX "X" <$> [newSession "a:5245"])
                         ++ (Client.GetDriverInfo goLib (onlySecondHostsX (newSession "b:5245"))
                               (newSession "b:5245") "X").1 :: [] |},
                    inl {[ "name" := JStr "X" ]})).
  { apply Hhit.
    - constructor; [|constructor]. intros _. exists "driver manager error 404: driver X not found".
      vm_compute. reflexivity.
    - reflexivity.
    - vm_compute. reflexivity. }
  rewrite Hr. split; [reflexivity|]. vm_compute. reflexivity.
Defined.

(** Claim C3 as stated fails for the listener: its sessions are not tried in
    registration order.  "dm-1" registered before "dm-2", both are connected
    and both would accept the request; a loop over the map that visits "dm-2"
    first sends the request to "dm-2" and never to "dm-1". *)
Lemma fan_out_not_in_registration_order :
  let order := ["dm-2"; "dm-1"] in
  let r := Server.CreateDriverInstance goLib order createOK twoManagers "s-1" "Local" None in
  Server.rangeOrder twoManagers order
  /\ (Session.IsConnected <$> twoManagers.(clients) !! "dm-1") = Some true
  /\ ((fun c => (Server.createCall goLib createOK "s-1" "Local" None c).2)
        <$> twoManagers.(clients) !! "dm-1") = Some (inl (JStr "success"))
  /\ r.2 = None
  /\ wireOf r.1 "dm-1" = []
  /\ wireOf r.1 "dm-2"
     = [(dq "{'id':'create_instance-7','type':'request','method':'create_instance','params':{'config':null,'driver':'Local','instance_id':'s-1'}}")
        +:+ newline].
Proof.
  intros order r. split.
  - unfold Server.rangeOrder.
    replace ((map_to_list twoManagers.(clients)).*1) with ["dm-1"; "dm-2"]
      by (vm_compute; reflexivity).
    apply perm_swap.
  - split; [vm_compute; reflexivity|].
    split; [vm_compute; reflexivity|].
    vm_compute. repeat split.
Qed.

(* ===================================================================== *)
(** ** The instance table (claims C4 and C5)                              *)
(* ===================================================================== *)

Section ManagerFacts.
Context {D : Type} `{DriverOps D}.
Implicit Types dm : DriverManager (D := D).

Lemma create_duplicate dm instanceID driverName config :
  is_Some (dm.(instances) !! instanceID) ->
  CreateDriverInstance dm instanceID driverName config
  = (dm, Some ("driver instance " +:+ instanceID +:+ " already exists")).
Proof. intros [i Hi]. unfold CreateDriverInstance. rewrite Hi. reflexivity. Qed.

Lemma create_failure_keeps_table dm instanceID driverName config e :
  (CreateDriverInstance dm instanceID driverName config).2 = Some e ->
  (CreateDriverInstance dm instanceID driverName config).1.(instances) = dm.(instances).
Proof.
  unfold CreateDriverInstance.
  destruct (dm.(instances) !! instanceID); [reflexivity|].
  destruct (GetDriver dm.(registry) driverName) as [info|e']; [|reflexivity].
  destruct (drvInit _) as [d [e'|]]; [reflexivity|discriminate].
Qed.

Lemma create_success dm instanceID driverName config :
  (CreateDriverInstance dm instanceID driverName config).2 = None ->
  dm.(instances) !! instanceID = None
  /\ exists info d,
       dm.(registry) !! driverName = Some info
       /\ drvInit (drvSetStorage (newStorage instanceID driverName config) info.(Constructor))
          = (d, None)
       /\ (CreateDriverInstance dm instanceID driverName config).1.(instances)
          = <[instanceID := {| InstID := instanceID; InstName := driverName; Driver := d;
                               Config := config; Enabled := true |}]> dm.(instances).
Proof.
  unfold CreateDriverInstance, GetDriver.
  destruct (dm.(instances) !! instanceID); [discriminate|].
  destruct (dm.(registry) !! driverName) as [info|]; [|discriminate].
  destruct (drvInit _) as [d [e'|]] eqn:Hinit; [discriminate|].
  intros _. split; [reflexivity|]. exists info, d. auto.
Qed.

Lemma create_init_failure dm instanceID driverName config info d e :
  dm.(instances) !! instanceID = None ->
  dm.(registry) !! driverName = Some info ->
  drvInit (drvSetStorage (newStorage instanceID driverName config) info.(Constructor))
  = (d, Some e) ->
  (CreateDriverInstance dm instanceID driverName config).2
  = Some ("failed to initialize driver: " +:+ e)
  /\ (CreateDriverInstance dm instanceID driverName config).1.(instances) = dm.(instances).
Proof.
  intros Hi Hr Hinit. unfold CreateDriverInstance, GetDriver.
  rewrite Hi, Hr, Hinit. auto.
Qed.

Lemma remove_unknown dm instanceID :
  dm.(instances) !! instanceID = None ->
  RemoveDriverInstance dm instanceID
  = (dm, Some ("driver instance " +:+ instanceID +:+ " not found")).
Proof. intros Hi. unfold RemoveDriverInstance. rewrite Hi. reflexivity. Qed.

Lemma remove_drop_failure dm instanceID instance d e :
  dm.(instances) !! instanceID = Some instance ->
  drvDrop instance.(Driver) = (d, Some e) ->
  (RemoveDriverInstance dm instanceID).2 = Some ("failed to drop driver: " +:+ e)
  /\ (RemoveDriverInstance dm instanceID).1.(instances)
     = <[instanceID := set_driver d instance]> dm.(instances).
Proof.
  intros Hi Hd. unfold RemoveDriverInstance. rewrite Hi, Hd. auto.
Qed.

Lemma remove_success dm instanceID instance d :
  dm.(instances) !! instanceID = Some instance ->
  drvDrop instance.(Driver) = (d, None) ->
  (RemoveDriverInstance dm instanceID).2 = None
  /\ (RemoveDriverInstance dm instanceID).1.(instances) = delete instanceID dm.(instances).
Proof.
  intros Hi Hd. unfold RemoveDriverInstance. rewrite Hi, Hd. auto.
Qed.

Lemma execute_absent dm instanceID operation params :
  dm.(instances) !! instanceID = None ->
  ExecuteDriverOperation dm instanceID operation params
  = (dm, inr ("driver instance " +:+ instanceID +:+ " not found")).
Proof.
  intros Hi. unfold ExecuteDriverOperation, GetDriverInstance. rewrite Hi. reflexivity.
Qed.

Lemma execute_disabled dm instanceID operation params instance :
  dm.(instances) !! instanceID = Some instance ->
  instance.(Enabled) = false ->
  ExecuteDriverOperation dm instanceID operation params
  = (dm, inr ("driver instance " +:+ instanceID +:+ " is disabled")).
Proof.
  intros Hi He.
  unfold ExecuteDriverOperation, GetDriverInstance, IsDriverInstanceEnabled.
  rewrite Hi, He. reflexivity.
Qed.

Lemma execute_unknown dm instanceID operation params instance :
  dm.(instances) !! instanceID = Some instance ->
  instance.(Enabled) = true ->
  operation <> "list" -> operation <> "link" -> operation <> "get" -> operation <> "other" ->
  ExecuteDriverOperation dm instanceID operation params
  = (dm, inr ("unsupported operation: " +:+ operation)).
Proof.
  intros Hi He H1 H2 H3 H4.
  unfold ExecuteDriverOperation, GetDriverInstance, IsDriverInstanceEnabled.
  rewrite Hi, He. cbn [negb].
  repeat (destruct (decide _); [contradiction|]). reflexivity.
Qed.

Lemma execute_missing_path dm instanceID operation params instance :
  dm.(instances) !! instanceID = Some instance ->
  instance.(Enabled) = true ->
  operation = "list" \/ operation = "link" \/ operation = "get" ->
  asString (default JNull (params !! "path")) = None ->
  (ExecuteDriverOperation dm instanceID operation params).1 = dm
  /\ ((ExecuteDriverOperation dm instanceID operation params).2
      = inr "path parameter is required"
      \/ (operation = "get"
          /\ isGetter instance.(Driver) = false
          /\ (ExecuteDriverOperation dm instanceID operation params).2
             = inr "driver does not support get operation")).
Proof.
  intros Hi He Hop Hp.
  unfold ExecuteDriverOperation, GetDriverInstance, IsDriverInstanceEnabled.
  rewrite Hi, He. cbn [negb].
  destruct Hop as [-> | [-> | ->] ].
  - destruct (decide ("list" = "list")); [|contradiction].
    unfold executeListOperation. rewrite Hp. auto.
  - destruct (decide ("link" = "list")); [discriminate|].
    destruct (decide ("link" = "link")); [|contradiction].
    unfold executeLinkOperation. rewrite Hp. auto.
  - destruct (decide ("get" = "list")); [discriminate|].
    destruct (decide ("get" = "link")); [discriminate|].
    destruct (decide ("get" = "get")); [|contradiction].
    unfold executeGetOperation.
    destruct (isGetter instance.(Driver)); cbn [negb]; [rewrite Hp|]; auto.
Qed.

Lemma disable_then_disabled dm dm' instanceID :
  DisableDriverInstance dm instanceID = (dm', None) ->
  exists instance,
    dm'.(instances) !! instanceID = Some instance /\ instance.(Enabled) = false.
Proof.
  unfold DisableDriverInstance, setEnabled.
  destruct (dm.(instances) !! instanceID) as [instance|]; [|discriminate].
  intros [= <-]. exists (set_enabled false instance).
  cbn. rewrite lookup_insert_eq. auto.
Qed.

End ManagerFacts.

(** Claim C4.  [CreateDriverInstance] with an ID that is already in the
    table fails and leaves the whole manager as it was, so no driver method is
    called and no instance changes.  Whenever it fails the table is unchanged;
    when it succeeds, the ID was free, [Init] of the freshly constructed driver
    returned no error, and the table is the old one with that instance added:
    in particular an [Init] failure leaves the table unchanged.
    [RemoveDriverInstance] with an unknown ID fails and leaves the manager as
    it was; when [Drop] fails the removal is abandoned and the entry stays
    (holding the driver as [Drop] left it). *)
Theorem instance_table_guard {D : Type} `{DriverOps D} (dm : DriverManager (D := D))
    (instanceID driverName : string) (config : gmap string json) :
  let created := CreateDriverInstance dm instanceID driverName config in
  let removed := RemoveDriverInstance dm instanceID in
  (is_Some (dm.(instances) !! instanceID) ->
     created = (dm, Some ("driver instance " +:+ instanceID +:+ " already exists")))
  /\ (forall e, created.2 = Some e -> created.1.(instances) = dm.(instances))
  /\ (created.2 = None ->
        dm.(instances) !! instanceID = None
        /\ exists info d,
             dm.(registry) !! driverName = Some info
             /\ drvInit (drvSetStorage (newStorage instanceID driverName config)
                           info.(Constructor)) = (d, None)
             /\ created.1.(instances)
                = <[instanceID := {| InstID := instanceID; InstName := driverName;
                                     Driver := d; Config := config; Enabled := true |}]>
                    dm.(instances))
  /\ (forall info d e,
        dm.(instances) !! instanceID = None ->
        dm.(registry) !! driverName = Some info ->
        drvInit (drvSetStorage (newStorage instanceID driverName config) info.(Constructor))
        = (d, Some e) ->
        created.2 = Some ("failed to initialize driver: " +:+ e)
        /\ created.1.(instances) = dm.(instances))
  /\ (dm.(instances) !! instanceID = None ->
        removed = (dm, Some ("driver instance " +:+ instanceID +:+ " not found")))
  /\ (forall instance d e,
        dm.(instances) !! instanceID = Some instance ->
        drvDrop instance.(Driver) = (d, Some e) ->
        removed.2 = Some ("failed to drop driver: " +:+ e)
        /\ removed.1.(instances) = <[instanceID := set_driver d instance]> dm.(instances)
        /\ is_Some (removed.1.(instances) !! instanceID)
        /\ dom removed.1.(instances) = dom dm.(instances)).
Proof.
  intros created removed. repeat apply conj.
  - apply create_duplicate.
  - intros e. apply create_failure_keeps_table.
  - apply create_success.
  - intros info d e. apply create_init_failure.
  - apply remove_unknown.
  - intros instance d e Hi Hd.
    destruct (remove_drop_failure dm instanceID instance d e Hi Hd) as [Herr Htab].
    split; [exact Herr|]. split; [exact Htab|].
    subst removed. rewrite Htab. split.
    + rewrite lookup_insert_eq. eauto.
    + apply dom_insert_lookup_L. eauto.
Qed.

(** End-to-end scenario 3 of the specification and its neighbours: a second
    [create_instance] with the same ID fails with "already exists" and changes
    nothing; a driver whose [Init] fails is not inserted; an unknown ID cannot
    be removed; a driver whose [Drop] fails stays in the table. *)
Lemma instance_table_guard_witness :
  CreateDriverInstance oneInstance "s-1" "Local" tmpConfig
  = (oneInstance, Some "driver instance s-1 already exists")
  /\ (CreateDriverInstance oneInstance "s-3" "Flaky" tmpConfig).2
     = Some "failed to initialize driver: init refused"
  /\ (CreateDriverInstance oneInstance "s-3" "Flaky" tmpConfig).1.(instances)
     = oneInstance.(instances)
  /\ RemoveDriverInstance oneInstance "s-9"
     = (oneInstance, Some "driver instance s-9 not found")
  /\ (RemoveDriverInstance stickyInstance "s-2").2
     = Some "failed to drop driver: drop refused"
  /\ is_Some ((RemoveDriverInstance stickyInstance "s-2").1.(instances) !! "s-2").
Proof.
  destruct (instance_table_guard oneInstance "s-1" "Local" tmpConfig)
    as (Hdup & _).
  destruct (instance_table_guard oneInstance "s-3" "Flaky" tmpConfig)
    as (_ & _ & _ & Hinit & _).
  destruct (instance_table_guard oneInstance "s-9" "Local" tmpConfig)
    as (_ & _ & _ & _ & Hunknown & _).
  destruct (instance_table_guard stickyInstance "s-2" "Sticky" tmpConfig)
    as (_ & _ & _ & _ & _ & Hdrop).
  split.
  { apply Hdup. vm_compute. eauto. }
  assert (Hflaky : stubRegistry !! "Flaky" = Some (stubInfo "Flaky" (stubDriver true false)))
    by (vm_compute; reflexivity).
  destruct (Hinit _ _ "init refused" eq_refl Hflaky eq_refl) as [He Ht].
  split; [exact He|]. split; [exact Ht|].
  split; [exact (Hunknown eq_refl)|].
  assert (Hs : stickyInstance.(instances) !! "s-2"
               = Some {| InstID := "s-2"; InstName := "Sticky";
                         Driver := {| failInit := false; failDrop := true; canGet := false;
                                      mounted := "/driver-s-2"; uses := 1 |};
                         Config := tmpConfig; Enabled := true |})
    by (vm_compute; reflexivity).
  destruct (Hdrop _ _ "drop refused" Hs eq_refl) as (He' & _ & Hstay & _).
  split; [exact He'|exact Hstay].
Defined.

(** Claim C5.  [ExecuteDriverOperation] fails with "... not found" for an
    ID that is not in the table and with "... is disabled" for an instance
    whose enabled flag is off, whatever the operation and its parameters; it
    fails with "unsupported operation" for an operation other than list, link,
    get and other; and it rejects list, link and get when [path] is missing or
    not a string.  In each case the manager, and with it the list of driver
    calls, is as before, so the refusal is repeated until something else
    changes the instance: after [DisableDriverInstance] every execution is
    refused, and [EnableDriverInstance] turns the flag back on. *)
Theorem execute_guards {D : Type} `{DriverOps D} (dm : DriverManager (D := D))
    (instanceID operation : string) (params : gmap string json) :
  let r := ExecuteDriverOperation dm instanceID operation params in
  (dm.(instances) !! instanceID = None ->
     r = (dm, inr ("driver instance " +:+ instanceID +:+ " not found")))
  /\ (forall instance,
        dm.(instances) !! instanceID = Some instance ->
        instance.(Enabled) = false ->
        r = (dm, inr ("driver instance " +:+ instanceID +:+ " is disabled")))
  /\ (forall dm0,
        DisableDriverInstance dm0 instanceID = (dm, None) ->
        r = (dm, inr ("driver instance " +:+ instanceID +:+ " is disabled")))
  /\ (forall dm',
        EnableDriverInstance dm instanceID = (dm', None) ->
        IsDriverInstanceEnabled dm' instanceID = true)
  /\ (forall instance,
        dm.(instances) !! instanceID = Some instance ->
        instance.(Enabled) = true ->
        operation <> "list" -> operation <> "link" ->
        operation <> "get" -> operation <> "other" ->
        r = (dm, inr ("unsupported operation: " +:+ operation)))
  /\ (forall instance,
        dm.(instances) !! instanceID = Some instance ->
        instance.(Enabled) = true ->
        operation = "list" \/ operation = "link" \/ operation = "get" ->
        asString (default JNull (params !! "path")) = None ->
        r.1 = dm
        /\ r.1.(calls) = dm.(calls)
        /\ (r.2 = inr "path parameter is required"
            \/ (operation = "get"
                /\ isGetter instance.(Driver) = false
                /\ r.2 = inr "driver does not support get operation"))).
Proof.
  intros r. repeat apply conj.
  - apply execute_absent.
  - intros instance. apply execute_disabled.
  - intros dm0 Hdis.
    destruct (disable_then_disabled dm0 dm instanceID Hdis) as (instance & Hi & He).
    exact (execute_disabled dm instanceID operation params instance Hi He).
  - intros dm'. unfold EnableDriverInstance, setEnabled, IsDriverInstanceEnabled.
    destruct (dm.(instances) !! instanceID) as [instance|]; [|discriminate].
    intros [= <-]. cbn. rewrite lookup_insert_eq. reflexivity.
  - intros instance. apply execute_unknown.
  - intros instance Hi He Hop Hp.
    destruct (execute_missing_path dm instanceID operation params instance Hi He Hop Hp)
      as [Hdm Hr].
    subst r. rewrite Hdm. auto.
Qed.

(** End-to-end scenario 4 of the specification and its neighbours, on the
    instance "s-1": "bogus" is an unsupported operation, a list without a path
    is rejected, and once disabled the instance refuses even a proper list. *)
Lemma execute_guards_witness :
  ExecuteDriverOperation oneInstance "s-1" "bogus" {[ "path" := JStr "/" ]}
  = (oneInstance, inr "unsupported operation: bogus")
  /\ (ExecuteDriverOperation oneInstance "s-1" "list" ∅).1 = oneInstance
  /\ ExecuteDriverOperation oneInstance "s-7" "list" {[ "path" := JStr "/" ]}
     = (oneInstance, inr "driver instance s-7 not found")
  /\ (let off := (DisableDriverInstance oneInstance "s-1").1 in
      ExecuteDriverOperation off "s-1" "list" {[ "path" := JStr "/" ]}
      = (off, inr "driver instance s-1 is disabled"))
  /\ (ExecuteDriverOperation oneInstance "s-1" "list" {[ "path" := JStr "/" ]}).2
     = inl (JArr [JStr "/"]).
Proof.
  assert (Hs : oneInstance.(instances) !! "s-1"
               = Some {| InstID := "s-1"; InstName := "Local";
                         Driver := {| failInit := false; failDrop := false; canGet := false;
                                      mounted := "/driver-s-1"; uses := 1 |};
                         Config := tmpConfig; Enabled := true |})
    by (vm_compute; reflexivity).
  split.
  { destruct (execute_guards oneInstance "s-1" "bogus" {[ "path" := JStr "/" ]})
      as (_ & _ & _ & _ & Hunknown & _).
    apply (Hunknown _ Hs eq_refl); discriminate. }
  split.
  { destruct (execute_guards oneInstance "s-1" "list" ∅) as (_ & _ & _ & _ & _ & Hpath).
    exact (proj1 (Hpath _ Hs eq_refl (or_introl eq_refl) eq_refl)). }
  split.
  { destruct (execute_guards oneInstance "s-7" "list" {[ "path" := JStr "/" ]})
      as (Habsent & _).
    exact (Habsent eq_refl). }
  split.
  { intros off.
    destruct (execute_guards off "s-1" "list" {[ "path" := JStr "/" ]})
      as (_ & _ & Hoff & _).
    apply (Hoff oneInstance). vm_compute. reflexivity. }
  vm_compute. reflexivity.
Defined.

(* ===================================================================== *)
(** ** Request parameters in the protocol handler (claim C10)             *)
(* ===================================================================== *)

(** Claim C10.  In [handleCreateInstance] a [config] that is missing or is
    not a JSON object, and in [handleExecuteOperation] a [params] that is
    missing or is not a JSON object, is replaced by an empty map and the
    request goes on to the manager with it.  A missing or non-string
    [instance_id], [driver] or [operation] is answered with an error response
    of code 400, and the manager is not called. *)
Theorem optional_parameters {D : Type} `{DriverOps D} (lib : GoLib)
    (ph : ProtocolHandler (D := D)) (msg : Message) :
  (forall instanceID driverName,
      asString (getParam msg.(Params) "instance_id") = Some instanceID ->
      asString (getParam msg.(Params) "driver") = Some driverName ->
      asMap (getParam msg.(Params) "config") = None ->
      handleCreateInstance lib ph msg
      = answer lib ph msg (CreateDriverInstance ph.(driverManager) instanceID driverName ∅))
  /\ (forall instanceID operation,
        asString (getParam msg.(Params) "instance_id") = Some instanceID ->
        asString (getParam msg.(Params) "operation") = Some operation ->
        asMap (getParam msg.(Params) "params") = None ->
        handleExecuteOperation lib ph msg
        = (let '(dm, r) := ExecuteDriverOperation ph.(driverManager) instanceID operation ∅ in
           match r with
           | inr e => sendError lib (set_manager dm ph) msg.(ID) 500 e
           | inl result => sendMessage lib (set_manager dm ph) (resultResponse msg.(ID) result)
           end))
  /\ (asString (getParam msg.(Params) "instance_id") = None ->
        handleCreateInstance lib ph msg
        = sendMessage lib ph (errorResponse msg.(ID) 400 "instance_id parameter is required")
        /\ handleExecuteOperation lib ph msg
           = sendMessage lib ph (errorResponse msg.(ID) 400 "instance_id parameter is required"))
  /\ (forall instanceID,
        asString (getParam msg.(Params) "instance_id") = Some instanceID ->
        asString (getParam msg.(Params) "driver") = None ->
        handleCreateInstance lib ph msg
        = sendMessage lib ph (errorResponse msg.(ID) 400 "driver parameter is required"))
  /\ (forall instanceID,
        asString (getParam msg.(Params) "instance_id") = Some instanceID ->
        asString (getParam msg.(Params) "operation") = None ->
        handleExecuteOperation lib ph msg
        = sendMessage lib ph (errorResponse msg.(ID) 400 "operation parameter is required")).
Proof.
  repeat apply conj.
  - intros instanceID driverName Hi Hd Hc. unfold handleCreateInstance.
    rewrite Hi, Hd, Hc. reflexivity.
  - intros instanceID operation Hi Ho Hp. unfold handleExecuteOperation.
    rewrite Hi, Ho, Hp. reflexivity.
  - intros Hi. unfold handleCreateInstance, handleExecuteOperation, sendError.
    rewrite Hi. auto.
  - intros instanceID Hi Hd. unfold handleCreateInstance, sendError.
    rewrite Hi, Hd. reflexivity.
  - intros instanceID Hi Ho. unfold handleExecuteOperation, sendError.
    rewrite Hi, Ho. reflexivity.
Qed.

(** A [create_instance] whose [config] is a string is carried out with an
    empty configuration and answered with success; one without [instance_id]
    is answered with code 400. *)
Lemma optional_parameters_witness :
  let ph := NewProtocolHandler (NewDriverManager stubRegistry) in
  let r := processMessage goLib ph
             (dq "{'id':'c1','type':'request','method':'create_instance','params':{'instance_id':'s-1','driver':'Local','config':'oops'}}") in
  r.1.(out) = [(dq "{'id':'c1','type':'response','result':'success'}") +:+ newline]
  /\ (Config <$> r.1.(driverManager).(instances) !! "s-1") = Some ∅
  /\ (processMessage goLib ph
        (dq "{'id':'c2','type':'request','method':'create_instance','params':{'driver':'Local'}}")).1.(out)
     = [(dq "{'id':'c2','type':'response','error':{'code':400,'message':'instance_id parameter is required'}}")
        +:+ newline].
Proof.
  intros ph r.
  set (msg1 := {| ID := "c1"; Type_ := "request"; Method := "create_instance";
                  Params := Some (<["instance_id" := JStr "s-1"]>
                                    (<["driver" := JStr "Local"]>
                                       {[ "config" := JStr "oops" ]}));
                  Result := JNull; Error := None |}).
  set (msg2 := {| ID := "c2"; Type_ := "request"; Method := "create_instance";
                  Params := Some {[ "driver" := JStr "Local" ]};
                  Result := JNull; Error := None |}).
  destruct (optional_parameters goLib ph msg1) as (Hcfg & _).
  destruct (optional_parameters goLib ph msg2) as (_ & _ & Hid & _).
  assert (Hr : r = handleCreateInstance goLib ph msg1) by (vm_compute; reflexivity).
  assert (H1 : handleCreateInstance goLib ph msg1
               = answer goLib ph msg1
                   (CreateDriverInstance ph.(driverManager) "s-1" "Local" ∅)).
  { apply Hcfg; vm_compute; reflexivity. }
  assert (H2 : handleCreateInstance goLib ph msg2
               = sendMessage goLib ph
                   (errorResponse msg2.(ID) 400 "instance_id parameter is required")).
  { refine (proj1 (Hid _)). vm_compute. reflexivity. }
  split; [rewrite Hr, H1; vm_compute; reflexivity|].
  split; [rewrite Hr, H1; vm_compute; reflexivity|].
  transitivity (handleCreateInstance goLib ph msg2).1.(out); [vm_compute; reflexivity|].
  rewrite H2. vm_compute. reflexivity.
Defined.

(* ===================================================================== *)
(** ** The reference library reads back what it wrote                     *)
(* ===================================================================== *)

Lemma app_empty_r (s : string) : s +:+ "" = s.
Proof.
  induction s as [|c s IH]; [reflexivity|].
  change (String c s +:+ "") with (String c (s +:+ "")). rewrite IH. reflexivity.
Qed.

Lemma string_app_assoc (s t u : string) : (s +:+ t) +:+ u = s +:+ (t +:+ u).
Proof.
  induction s as [|c s IH]; [reflexivity|].
  change ((String c s +:+ t) +:+ u) with (String c ((s +:+ t) +:+ u)).
  rewrite IH. reflexivity.
Qed.

Section TextFacts.
Import RefLib.

Lemma app_cons (c : ascii) (a b : string) : String c a +:+ b = String c (a +:+ b).
Proof. reflexivity. Qed.

Lemma str_length_app (a b : string) :
  String.length (a +:+ b) = (String.length a + String.length b)%nat.
Proof.
  induction a as [|x a IH]; [reflexivity|].
  rewrite app_cons. cbn [String.length]. rewrite IH. reflexivity.
Qed.

Lemma high_byte (c : ascii) :
  ((N_of_ascii c <? 128)%N = false) <-> (128 <= Utf8.byteZ c).
Proof. unfold Utf8.byteZ. rewrite N.ltb_ge. lia. Qed.

(** A byte that is neither a quote, a backslash nor a control character is
    taken as it is. *)
Lemma parseStr_raw (c : ascii) (t acc : string) :
  (N_of_ascii c <? 128)%N = false ->
  parseStr (String c t) acc = parseStr t (String c acc).
Proof.
  intros Hc.
  destruct c as [b0 b1 b2 b3 b4 b5 b6 b7].
  destruct b7; [|destruct b0, b1, b2, b3, b4, b5, b6; vm_compute in Hc; discriminate Hc].
  destruct b0, b1, b2, b3, b4, b5, b6; reflexivity.
Qed.

(** What the encoder writes for an ASCII character is read back as that
    character. *)
Lemma parseStr_escapeChar (c : ascii) (t acc : string) :
  (N_of_ascii c <? 128)%N = true ->
  parseStr (escapeChar c +:+ t) acc = parseStr t (String c acc).
Proof.
  intros Hc.
  destruct c as [b0 b1 b2 b3 b4 b5 b6 b7].
  destruct b7; [destruct b0, b1, b2, b3, b4, b5, b6; vm_compute in Hc; discriminate Hc|].
  destruct b0, b1, b2, b3, b4, b5, b6; reflexivity.
Qed.

Lemma cont_high (c : ascii) :
  Utf8.cont (Utf8.byteZ c) = true -> (N_of_ascii c <? 128)%N = false.
Proof. unfold Utf8.cont. intros Hc. apply high_byte. lia. Qed.

(** After the first byte of a sequence of more than one byte come its
    continuation bytes. *)
Lemma seqLen_cont (c : ascii) (r : string) (k : nat) :
  (N_of_ascii c <? 128)%N = false ->
  Utf8.seqLen (String c r) = S k ->
  Utf8.contPrefix k r = true.
Proof.
  intros Hc. apply high_byte in Hc. unfold Utf8.seqLen.
  destruct (Utf8.byteZ c <? 128) eqn:H1; [lia|].
  destruct ((194 <=? Utf8.byteZ c) && (Utf8.byteZ c <=? 223)).
  { destruct r as [|c1 r1]; [discriminate|].
    destruct (Utf8.cont (Utf8.byteZ c1)) eqn:Hc1; [|discriminate].
    intros [= <-]. cbn. rewrite Hc1. reflexivity. }
  destruct ((224 <=? Utf8.byteZ c) && (Utf8.byteZ c <=? 239)).
  { destruct r as [|c1 [|c2 r2] ]; try discriminate.
    destruct (_ && _) eqn:Hb; [|discriminate].
    intros [= <-]. cbn. unfold Utf8.cont in *.
    destruct (Utf8.byteZ c =? 224), (Utf8.byteZ c =? 237);
      repeat rewrite andb_true_iff in *; repeat rewrite andb_true_iff; lia. }
  destruct ((240 <=? Utf8.byteZ c) && (Utf8.byteZ c <=? 244)); [|discriminate].
  destruct r as [|c1 [|c2 [|c3 r3] ] ]; try discriminate.
  destruct (_ && _) eqn:Hb; [|discriminate].
  intros [= <-]. cbn. unfold Utf8.cont in *.
  destruct (Utf8.byteZ c =? 240), (Utf8.byteZ c =? 244);
    repeat rewrite andb_true_iff in *; repeat rewrite andb_true_iff; lia.
Qed.

Lemma seqLen_ascii (c : ascii) (r : string) :
  (N_of_ascii c <? 128)%N = true -> Utf8.seqLen (String c r) = 1%nat.
Proof.
  intros Hc. unfold Utf8.seqLen.
  assert (H : (Utf8.byteZ c <? 128) = true).
  { unfold Utf8.byteZ. apply N.ltb_lt in Hc. apply Z.ltb_lt. lia. }
  rewrite H. reflexivity.
Qed.

(** The three bytes of U+2028 or U+2029 at the head of a string, and the
    escape written for them, which is read back as these three bytes. *)
Lemma lineSeparator_Some (s code : string) :
  lineSeparator s = Some code ->
  exists x r,
    s = String "226" (String "128" (String x r))
    /\ forall t acc,
        parseStr (code +:+ t) acc
        = parseStr t (String x (String "128" (String "226" acc))).
Proof.
  unfold lineSeparator.
  destruct s as [|c0 [|c1 [|c2 r] ] ]; try discriminate.
  destruct (Ascii.eqb c0 "226") eqn:H0; [|discriminate].
  destruct (Ascii.eqb c1 "128") eqn:H1; [|discriminate].
  apply Ascii.eqb_eq in H0, H1. subst c0 c1. cbn [andb].
  destruct (Ascii.eqb c2 "168") eqn:H2.
  { apply Ascii.eqb_eq in H2. subst c2. intros [= <-].
    exists "168"%char, r. split; [reflexivity|]. intros t acc. reflexivity. }
  destruct (Ascii.eqb c2 "169") eqn:H3; [|discriminate].
  apply Ascii.eqb_eq in H3. subst c2. intros [= <-].
  exists "169"%char, r. split; [reflexivity|]. intros t acc. reflexivity.
Qed.

Lemma separator_length (x : ascii) (r : string) (k : nat) :
  Utf8.seqLen (String "226" (String "128" (String x r))) = S k -> k = 2%nat.
Proof.
  unfold Utf8.seqLen.
  change (Utf8.byteZ "226") with 226. change (Utf8.byteZ "128") with 128.
  cbv beta iota zeta.
  change (226 <? 128) with false.
  change ((194 <=? 226) && (226 <=? 223)) with false.
  change ((224 <=? 226) && (226 <=? 239)) with true.
  cbv iota.
  destruct (_ && _); congruence.
Qed.

Lemma lineSeparator_short (c : ascii) (r : string) :
  (forall a b r', r <> String a (String b r')) -> lineSeparator (String c r) = None.
Proof.
  intros Hr. unfold lineSeparator.
  destruct r as [|a [|b r'] ]; try reflexivity.
  exfalso. exact (Hr a b r' eq_refl).
Qed.

(** A string literal that the encoder wrote for a well-formed string is read
    back byte for byte. *)
Lemma parseStr_escape (n : nat) :
  forall (s : string) (skip : nat) (acc rest : string),
    (String.length s <= n)%nat ->
    Utf8.validFrom skip s = true ->
    Utf8.contPrefix skip s = true ->
    parseStr (escapeFrom skip s +:+ String "034" rest) acc
    = Some (String.rev_app acc s, rest).
Proof.
  induction n as [|n IH]; intros s skip acc rest Hlen Hv Hc.
  { destruct s; [reflexivity|cbn in Hlen; lia]. }
  destruct s as [|c r]; [reflexivity|].
  cbn [String.length] in Hlen.
  destruct skip as [|k].
  - cbn [escapeFrom Utf8.validFrom] in *.
    destruct (N_of_ascii c <? 128)%N eqn:Hascii.
    + rewrite (seqLen_ascii c r Hascii) in Hv.
      rewrite string_app_assoc, parseStr_escapeChar by exact Hascii.
      apply (IH r 0%nat); [lia|exact Hv|reflexivity].
    + destruct (Utf8.seqLen (String c r)) as [|k] eqn:Hseq; [discriminate Hv|].
      pose proof (seqLen_cont c r k Hascii Hseq) as Hk.
      destruct (lineSeparator (String c r)) as [code|] eqn:Hsep.
      * apply lineSeparator_Some in Hsep as (x & r' & [= -> ->] & Hx).
        assert (Hv' : Utf8.validFrom 0 r' = true).
        { assert (Hk2 : k = 2%nat) by exact (separator_length x r' k Hseq).
          subst k. exact Hv. }
        cbn [String.length] in Hlen.
        rewrite string_app_assoc, Hx.
        apply (IH r' 0%nat); [lia|exact Hv'|reflexivity].
      * rewrite app_cons, parseStr_raw by exact Hascii.
        apply (IH r k); [lia|exact Hv|exact Hk].
  - cbn [escapeFrom Utf8.validFrom Utf8.contPrefix] in *.
    apply andb_true_iff in Hc as [Hc Hk].
    rewrite app_cons, parseStr_raw by (apply cont_high, Hc).
    apply (IH r k); [lia|exact Hv|exact Hk].
Qed.

Lemma coerce_valid (s : string) :
  forall skip, Utf8.validFrom skip s = true -> Utf8.coerceFrom skip s = s.
Proof.
  induction s as [|c r IH]; intros skip Hv; [reflexivity|].
  cbn [Utf8.coerceFrom Utf8.validFrom] in *.
  destruct skip as [|k]; [|rewrite (IH k Hv); reflexivity].
  destruct (Utf8.seqLen (String c r)) as [|k]; [discriminate Hv|].
  rewrite (IH k Hv). reflexivity.
Qed.

End TextFacts.

Section NumberFacts.
Import RefLib.

Lemma digit_char (d : N) :
  (d < 10)%N -> Ascii.is_nat (pretty_N_char d) = Some (N.to_nat d).
Proof.
  intros Hd.
  assert (d = 0 \/ d = 1 \/ d = 2 \/ d = 3 \/ d = 4 \/ d = 5 \/ d = 6 \/ d = 7
          \/ d = 8 \/ d = 9)%N as Hcases by lia.
  repeat (destruct Hcases as [-> | Hcases]; [reflexivity|]).
  subst d. reflexivity.
Qed.

(** Reading the digits that [pretty_N_go] put in front of [s]. *)
Lemma parseDigits_pretty (x : N) :
  exists p : N, forall (s rest : string) (acc : N),
    parseDigits (pretty_N_go x s +:+ rest) acc
    = parseDigits (s +:+ rest) (acc * p + x).
Proof.
  induction (N.lt_wf_0 x) as [x _ IH].
  destruct (decide (x = 0%N)) as [-> | Hx].
  - exists 1%N. intros s rest acc. rewrite pretty_N_go_0. f_equal. lia.
  - destruct (IH (x / 10)%N) as [p Hp]; [apply N.div_lt; lia|].
    exists (10 * p)%N. intros s rest acc.
    rewrite pretty_N_go_step by (apply N.neq_0_lt_0, Hx). rewrite Hp, app_cons.
    cbn [parseDigits]. rewrite digit_char by (apply N.mod_lt; lia).
    f_equal. rewrite N2Nat.id. pose proof (N.div_mod x 10 ltac:(lia)). lia.
Qed.

(** The text of a positive number starts with a digit that is not zero. *)
Lemma pretty_head (x : N) :
  (0 < x)%N ->
  forall s, exists c r d, pretty_N_go x s = String c r /\ Ascii.is_nat c = Some (S d).
Proof.
  induction (N.lt_wf_0 x) as [x _ IH]. intros Hx s.
  rewrite pretty_N_go_step by exact Hx.
  destruct (decide (x / 10 = 0)%N) as [Hz | Hz].
  - rewrite Hz, pretty_N_go_0.
    assert (Hlt : (x < 10)%N) by (apply N.div_small_iff in Hz; lia).
    rewrite N.mod_small by exact Hlt.
    exists (pretty_N_char x), s, (N.to_nat x - 1)%nat. split; [reflexivity|].
    rewrite digit_char by exact Hlt. f_equal. lia.
  - apply IH; [apply N.div_lt; lia|apply N.neq_0_lt_0, Hz].
Qed.

Lemma valueEnd_number (rest : string) (n : N) :
  valueEnd rest = true ->
  match rest with
  | String c' _ =>
      match Ascii.is_nat c', c' with
      | Some _, _ => None
      | None, ("." | "e" | "E")%char => None
      | None, _ => Some (n, rest)
      end
  | EmptyString => Some (n, rest)
  end = Some (n, rest).
Proof.
  destruct rest as [|c r]; [reflexivity|].
  unfold valueEnd. intros He.
  destruct (Ascii.eqb c ",") eqn:H1; [apply Ascii.eqb_eq in H1; subst c; reflexivity|].
  destruct (Ascii.eqb c "]") eqn:H2; [apply Ascii.eqb_eq in H2; subst c; reflexivity|].
  destruct (Ascii.eqb c "}") eqn:H3; [apply Ascii.eqb_eq in H3; subst c; reflexivity|].
  discriminate He.
Qed.

Lemma parseDigits_end (rest : string) (n : N) :
  valueEnd rest = true -> parseDigits rest n = (n, rest).
Proof.
  destruct rest as [|c r]; [reflexivity|].
  unfold valueEnd. intros He.
  destruct (Ascii.eqb c ",") eqn:H1; [apply Ascii.eqb_eq in H1; subst c; reflexivity|].
  destruct (Ascii.eqb c "]") eqn:H2; [apply Ascii.eqb_eq in H2; subst c; reflexivity|].
  destruct (Ascii.eqb c "}") eqn:H3; [apply Ascii.eqb_eq in H3; subst c; reflexivity|].
  discriminate He.
Qed.

(** An integer is read back from its decimal text. *)
Lemma parseInt_pretty (x : N) (rest : string) :
  valueEnd rest = true -> parseInt (pretty x +:+ rest) = Some (x, rest).
Proof.
  intros He. unfold pretty, pretty_N.
  destruct (decide (x = 0%N)) as [-> | Hx].
  - change ("0" +:+ rest) with (String "0" rest). unfold parseInt.
    change (Ascii.is_nat "0") with (Some 0%nat). cbv iota.
    destruct (decide (0%nat = 0%nat)) as [_ | Hn]; [|congruence].
    apply valueEnd_number, He.
  - destruct (pretty_head x ltac:(lia) "") as (c & r & d & Heq & Hc).
    destruct (parseDigits_pretty x) as [p Hp].
    specialize (Hp "" rest 0%N).
    change ("" +:+ rest) with rest in Hp.
    replace (0 * p + x)%N with x in Hp by lia.
    rewrite (parseDigits_end rest x He) in Hp.
    rewrite Heq in *. rewrite app_cons in *.
    unfold parseInt. rewrite Hc.
    destruct (decide (S d = 0%nat)) as [Hn | _]; [discriminate Hn|].
    rewrite Hp. apply valueEnd_number, He.
Qed.

Lemma digit_not_space (c : ascii) (d : nat) :
  Ascii.is_nat c = Some d ->
  isJsonSpace c = false /\ c <> "]"%char /\ c <> "}"%char.
Proof.
  intros Hc.
  destruct c as [b0 b1 b2 b3 b4 b5 b6 b7].
  destruct b0, b1, b2, b3, b4, b5, b6, b7; try discriminate Hc;
    (split; [reflexivity|split; discriminate]).
Qed.

(** A text that starts with a digit is read as a number. *)
Lemma parseValue_digit (f : nat) (c : ascii) (t : string) (d : nat) :
  Ascii.is_nat c = Some d ->
  parseValue (S f) (String c t)
  = match parseInt (String c t) with
    | Some (n, rest) => Some (JNum (Z.of_N n), rest)
    | None => None
    end.
Proof.
  intros Hc.
  destruct c as [b0 b1 b2 b3 b4 b5 b6 b7].
  destruct b0, b1, b2, b3, b4, b5, b6, b7; try discriminate Hc; reflexivity.
Qed.

Lemma parseValue_number (f : nat) (n : Z) (rest : string) :
  valueEnd rest = true ->
  parseValue (S f) (pretty n +:+ rest) = Some (JNum n, rest).
Proof.
  intros He. destruct n as [|p|p].
  - change (pretty 0%Z) with (pretty 0%N).
    change (pretty 0%N +:+ rest) with (String "0" rest).
    rewrite (parseValue_digit f "0" rest 0) by reflexivity.
    change (String "0" rest) with (pretty 0%N +:+ rest).
    rewrite parseInt_pretty by exact He. reflexivity.
  - change (pretty (Z.pos p)) with (pretty (N.pos p)).
    pose proof (parseInt_pretty (N.pos p) rest He) as Hint.
    unfold pretty, pretty_N in *.
    destruct (decide (N.pos p = 0%N)) as [Hn | _]; [discriminate Hn|].
    destruct (pretty_head (N.pos p) ltac:(lia) "") as (c & r & d & Heq & Hc).
    rewrite Heq in *. rewrite app_cons in *.
    rewrite (parseValue_digit f c _ _ Hc), Hint. reflexivity.
  - change (pretty (Z.neg p)) with ("-" +:+ pretty (N.pos p)).
    rewrite string_app_assoc.
    change ("-" +:+ (pretty (N.pos p) +:+ rest))
      with (String "-" (pretty (N.pos p) +:+ rest)).
    change (parseValue (S f) (String "-" (pretty (N.pos p) +:+ rest)))
      with (match parseInt (pretty (N.pos p) +:+ rest) with
            | Some (n, rest) => Some (JNum (- Z.of_N n), rest)
            | None => None
            end).
    rewrite parseInt_pretty by exact He. reflexivity.
Qed.

End NumberFacts.

Section DocumentFacts.
Import RefLib.

#[local] Abbreviation memberText :=
  (fun kv : string * json => quote kv.1 +:+ ":" +:+ printJson kv.2).

Lemma printJson_arr (l : list json) :
  printJson (JArr l) = "[" +:+ String.concat "," (map printJson l) +:+ "]".
Proof.
  cbn [printJson]. do 2 f_equal.
  induction l as [|x l IH]; [reflexivity|].
  destruct l as [|y l]; [reflexivity|].
  change (String.concat "," (map printJson (x :: y :: l)))
    with (printJson x +:+ "," +:+ String.concat "," (map printJson (y :: l))).
  rewrite <- IH. reflexivity.
Qed.

Lemma printJson_obj (kvs : list (string * json)) :
  printJson (JObj kvs) = "{" +:+ String.concat "," (map memberText kvs) +:+ "}".
Proof.
  cbn [printJson]. do 2 f_equal.
  induction kvs as [|[k v] l IH]; [reflexivity|].
  destruct l as [|kv' l]; [reflexivity|].
  change (String.concat "," (map memberText ((k, v) :: kv' :: l)))
    with ((quote k +:+ ":" +:+ printJson v)
          +:+ "," +:+ String.concat "," (map memberText (kv' :: l))).
  rewrite <- IH, !string_app_assoc. destruct kv' as [k' v']. reflexivity.
Qed.

Lemma validDoc_arr (l : list json) : validDoc (JArr l) = forallb validDoc l.
Proof.
  cbn [validDoc]. induction l as [|x l IH]; [reflexivity|].
  cbn [forallb]. rewrite IH. reflexivity.
Qed.

Lemma validDoc_obj (kvs : list (string * json)) :
  validDoc (JObj kvs)
  = forallb (fun kv => Utf8.valid kv.1 && validDoc kv.2) kvs.
Proof.
  cbn [validDoc]. induction kvs as [|[k v] l IH]; [reflexivity|].
  cbn [forallb fst snd]. rewrite IH. reflexivity.
Qed.

(** The text of a value starts with a character that is neither white space
    nor a closing bracket. *)
Lemma printJson_head (j : json) :
  exists c r, printJson j = String c r
    /\ isJsonSpace c = false /\ c <> "]"%char /\ c <> "}"%char.
Proof.
  destruct j as [|[|]|[|p|p]|s|l|kvs];
    try (eexists _, _; split; [reflexivity|];
         split; [reflexivity|split; discriminate]).
  cbn [printJson]. change (pretty (Z.pos p)) with (pretty (N.pos p)).
  unfold pretty, pretty_N.
  destruct (decide (N.pos p = 0%N)) as [Hn | _]; [discriminate Hn|].
  destruct (pretty_head (N.pos p) ltac:(lia) "") as (c & r & d & Heq & Hc).
  exists c, r. split; [exact Heq|]. exact (digit_not_space c _ Hc).
Qed.

Lemma substring_all (s : string) : substring 0 (String.length s) s = s.
Proof. induction s as [|c s IH]; [reflexivity|]. cbn. rewrite IH. reflexivity. Qed.

Lemma expect_literal (lit rest : string) (j : json) :
  expect lit (lit +:+ rest) j = Some (j, rest).
Proof.
  unfold expect.
  assert (Hp : String.prefix lit (lit +:+ rest) = true).
  { induction lit as [|c lit IH]; [destruct rest; reflexivity|].
    rewrite app_cons. cbn [String.prefix].
    destruct (ascii_dec c c) as [_ | Hn]; [exact IH|congruence]. }
  rewrite Hp, str_length_app.
  replace (String.length lit + String.length rest - String.length lit)%nat
    with (String.length rest) by lia.
  do 2 f_equal.
  induction lit as [|c lit IH]; [apply substring_all|].
  rewrite app_cons. cbn [String.length substring]. apply IH.
  destruct (String.prefix lit (lit +:+ rest)) eqn:E; [reflexivity|].
  exfalso. revert E. clear. induction lit as [|c lit IH]; [destruct rest; discriminate|].
  rewrite app_cons. cbn [String.prefix].
  destruct (ascii_dec c c) as [_ | Hn]; [exact IH|congruence].
Qed.

Lemma parseElems_S (f : nat) (s : string) (acc : list json) :
  parseElems (S f) s acc
  = match parseValue f s with
    | Some (v, rest) =>
        match skipWs rest with
        | String "," rest' => parseElems f rest' (v :: acc)
        | String "]" rest' => Some (JArr (rev (v :: acc)), rest')
        | _ => None
        end%char
    | None => None
    end.
Proof. reflexivity. Qed.

Lemma parseMembers_quote (f : nat) (t : string) (acc : list (string * json)) :
  parseMembers (S f) (String "034" t) acc
  = match parseStr t "" with
    | Some (k, rest) =>
        match skipWs rest with
        | String ":" rest' =>
            match parseValue f rest' with
            | Some (v, rest'') =>
                match skipWs rest'' with
                | String "," t => parseMembers f t ((Utf8.coerce k, v) :: acc)
                | String "}" t => Some (JObj (rev ((Utf8.coerce k, v) :: acc)), t)
                | _ => None
                end%char
            | None => None
            end
        | _ => None
        end%char
    | None => None
    end.
Proof. reflexivity. Qed.

Lemma parseValue_quote (f : nat) (t : string) :
  parseValue (S f) (String "034" t)
  = match parseStr t "" with
    | Some (str, rest) => Some (JStr (Utf8.coerce str), rest)
    | None => None
    end.
Proof. reflexivity. Qed.

Lemma parseValue_arr (f : nat) (c : ascii) (t : string) :
  isJsonSpace c = false -> c <> "]"%char ->
  parseValue (S f) (String "[" (String c t)) = parseElems f (String c t) [].
Proof.
  intros Hs Hc.
  destruct c as [b0 b1 b2 b3 b4 b5 b6 b7].
  destruct b0, b1, b2, b3, b4, b5, b6, b7;
    try discriminate Hs; try (exfalso; apply Hc; reflexivity); reflexivity.
Qed.

Lemma parseValue_obj (f : nat) (t : string) :
  parseValue (S f) (String "{" (String "034" t))
  = parseMembers f (String "034" t) [].
Proof. reflexivity. Qed.

(** A string literal is read back; the text after it is left. *)
Lemma parseStr_quote (s rest : string) :
  Utf8.valid s = true ->
  parseStr (escape s +:+ String "034" rest) "" = Some (s, rest)
  /\ Utf8.coerce s = s.
Proof.
  intros Hv. split.
  - exact (parseStr_escape (String.length s) s 0 "" rest (le_n _) Hv eq_refl).
  - exact (coerce_valid s 0 Hv).
Qed.

Lemma quote_app (s rest : string) :
  quote s +:+ rest = String "034" (escape s +:+ String "034" rest).
Proof.
  unfold quote. rewrite app_cons, string_app_assoc. reflexivity.
Qed.

Lemma quote_length (s : string) :
  String.length (quote s) = (String.length (escape s) + 2)%nat.
Proof. unfold quote. cbn [String.length]. rewrite str_length_app. cbn. lia. Qed.

(** [readsBack f]: with fuel [f] every value whose text is no longer than
    [f] is read back from its text, and the text that follows is left. *)
#[local] Abbreviation readsBack f :=
  (forall (j : json) (rest : string),
      validDoc j = true -> valueEnd rest = true ->
      (String.length (printJson j) <= f)%nat ->
      parseValue f (printJson j +:+ rest) = Some (j, rest)).

Lemma parseElems_concat (F : nat) (HF : forall f, (f < F)%nat -> readsBack f) :
  forall (l : list json) (x : json) (fuel : nat) (acc : list json) (rest : string),
    forallb validDoc (x :: l) = true ->
    (fuel <= F)%nat ->
    (String.length (String.concat "," (map printJson (x :: l))) + 1 <= fuel)%nat ->
    parseElems fuel (String.concat "," (map printJson (x :: l)) +:+ String "]" rest) acc
    = Some (JArr (rev acc ++ x :: l), rest).
Proof.
  induction l as [|y l IH]; intros x fuel acc rest Hv HfF Hlen;
    (destruct fuel as [|f]; [lia|]);
    cbn [forallb] in Hv; apply andb_true_iff in Hv as [Hx Hl].
  - cbn [map String.concat] in *.
    rewrite parseElems_S, (HF f ltac:(lia) x (String "]" rest) Hx eq_refl ltac:(lia)).
    reflexivity.
  - change (String.concat "," (map printJson (x :: y :: l)))
      with (printJson x +:+ "," +:+ String.concat "," (map printJson (y :: l))) in *.
    rewrite !str_length_app in Hlen. cbn [String.length] in Hlen.
    rewrite !string_app_assoc.
    change ("," +:+ ?t) with (String "," t).
    rewrite parseElems_S.
    rewrite (HF f ltac:(lia) x (String "," _) Hx eq_refl ltac:(lia)).
    cbn [skipWs isJsonSpace]. cbv iota.
    rewrite (IH y f (x :: acc) rest Hl ltac:(lia) ltac:(lia)).
    cbn [rev]. rewrite <- app_assoc. reflexivity.
Qed.

Lemma parseMembers_concat (F : nat) (HF : forall f, (f < F)%nat -> readsBack f) :
  forall (l : list (string * json)) (kv : string * json) (fuel : nat)
         (acc : list (string * json)) (rest : string),
    forallb (fun kv => Utf8.valid kv.1 && validDoc kv.2) (kv :: l) = true ->
    (fuel <= F)%nat ->
    (String.length (String.concat "," (map memberText (kv :: l))) + 1 <= fuel)%nat ->
    parseMembers fuel (String.concat "," (map memberText (kv :: l)) +:+ String "}" rest) acc
    = Some (JObj (rev acc ++ kv :: l), rest).
Proof.
  induction l as [|kv' l IH]; intros [k v] fuel acc rest Hv HfF Hlen;
    (destruct fuel as [|f]; [lia|]);
    cbn [forallb fst snd] in Hv; apply andb_true_iff in Hv as [Hkv Hl];
    apply andb_true_iff in Hkv as [Hk Hx];
    assert (Hco : Utf8.coerce k = k) by exact (coerce_valid k 0%nat Hk).
  - cbn [map String.concat fst snd] in *.
    rewrite !str_length_app, quote_length in Hlen. cbn [String.length] in Hlen.
    rewrite !string_app_assoc, quote_app, parseMembers_quote.
    change (":" +:+ ?t) with (String ":" t).
    rewrite (proj1 (parseStr_quote k _ Hk)), Hco.
    cbn [skipWs isJsonSpace]. cbv iota.
    rewrite (HF f ltac:(lia) v (String "}" rest) Hx eq_refl ltac:(lia)).
    reflexivity.
  - change (String.concat "," (map memberText ((k, v) :: kv' :: l)))
      with ((quote k +:+ ":" +:+ printJson v)
            +:+ "," +:+ String.concat "," (map memberText (kv' :: l))) in *.
    rewrite !str_length_app, quote_length in Hlen. cbn [String.length] in Hlen.
    rewrite !string_app_assoc, quote_app, parseMembers_quote.
    change (":" +:+ ?t) with (String ":" t).
    change ("," +:+ ?t) with (String "," t).
    rewrite (proj1 (parseStr_quote k _ Hk)), Hco.
    cbn [skipWs isJsonSpace]. cbv iota.
    rewrite (HF f ltac:(lia) v (String "," _) Hx eq_refl ltac:(lia)).
    cbn [skipWs isJsonSpace]. cbv iota.
    rewrite (IH kv' f ((k, v) :: acc) rest Hl ltac:(lia) ltac:(lia)).
    cbn [rev]. rewrite <- app_assoc. reflexivity.
Qed.

Lemma concat_head {A : Type} (text : A -> string) (x : A) (l : list A) (c : ascii)
    (r : string) :
  text x = String c r ->
  exists r', String.concat "," (map text (x :: l)) = String c r'.
Proof.
  intros Hx. destruct l as [|y l]; cbn [map String.concat]; rewrite Hx; eauto.
Qed.

(** Every value is read back from its text when the fuel covers the length of
    the text. *)
Lemma parseValue_printJson (f : nat) : readsBack f.
Proof.
  induction f as [f IH] using (well_founded_induction lt_wf).
  intros j rest Hv He Hlen.
  destruct f as [|f].
  { destruct (printJson_head j) as (c & r & Heq & _). rewrite Heq in Hlen.
    cbn in Hlen. lia. }
  destruct j as [|[|]|n|s|l|kvs].
  - exact (expect_literal "null" rest JNull).
  - exact (expect_literal "true" rest (JBool true)).
  - exact (expect_literal "false" rest (JBool false)).
  - exact (parseValue_number f n rest He).
  - cbn [printJson validDoc] in *.
    rewrite quote_app, parseValue_quote.
    destruct (parseStr_quote s rest Hv) as [-> ->]. reflexivity.
  - destruct l as [|x l]; [reflexivity|].
    rewrite validDoc_arr in Hv. rewrite printJson_arr in *.
    rewrite !str_length_app in Hlen. cbn [String.length] in Hlen.
    rewrite !string_app_assoc.
    change ("[" +:+ ?t) with (String "[" t).
    change ("]" +:+ rest) with (String "]" rest).
    destruct (printJson_head x) as (c & r & Heq & Hs & Hc & _).
    destruct (concat_head printJson x l c r Heq) as [r' Hr'].
    pose proof (parseElems_concat f (fun f' Hf' => IH f' ltac:(lia)) l x f [] rest
                  Hv (le_n _) ltac:(lia)) as Hel.
    rewrite Hr' in *. rewrite app_cons in *.
    rewrite parseValue_arr by assumption. exact Hel.
  - destruct kvs as [|[k v] l]; [reflexivity|].
    rewrite validDoc_obj in Hv. rewrite printJson_obj in *.
    rewrite !str_length_app in Hlen. cbn [String.length] in Hlen.
    rewrite !string_app_assoc.
    change ("{" +:+ ?t) with (String "{" t).
    change ("}" +:+ rest) with (String "}" rest).
    destruct (concat_head memberText (k, v) l "034" (escape k +:+ String "034" (":" +:+ printJson v)))
      as [r' Hr'].
    { cbv beta. cbn [fst snd]. rewrite quote_app. reflexivity. }
    pose proof (parseMembers_concat f (fun f' Hf' => IH f' ltac:(lia)) l (k, v) f [] rest
                  Hv (le_n _) ltac:(lia)) as Hel.
    rewrite Hr' in *. rewrite app_cons in *.
    rewrite parseValue_obj. exact Hel.
Qed.

(** The reference library reads back every document it wrote whose strings
    are well-formed UTF-8. *)
Lemma parse_print (j : json) :
  validDoc j = true -> jsonParse goLib (printJson j) = Some j.
Proof.
  intros Hv. cbn [jsonParse goLib]. unfold parseJson.
  pose proof (parseValue_printJson (2 * String.length (printJson j) + 2) j ""
                Hv eq_refl ltac:(lia)) as H.
  rewrite app_empty_r in H. rewrite H. reflexivity.
Qed.

End DocumentFacts.

(* ===================================================================== *)
(** ** Serialize, then deserialize (claim C7)                             *)
(* ===================================================================== *)

Lemma insertAll_list_to_map (kvs : list (string * json)) :
  insertAll kvs ∅ = list_to_map (rev kvs).
Proof.
  unfold insertAll, list_to_map.
  symmetry. exact (fold_left_rev_right (fun kv acc => <[kv.1 := kv.2]> acc) kvs ∅).
Qed.

Lemma marshalMap_round_trip (p : gmap string json) :
  asMap (marshalMap p) = Some p.
Proof.
  unfold marshalMap, asMap. f_equal.
  rewrite insertAll_list_to_map.
  assert (Hperm : rev (merge_sort key_le (map_to_list p)) ≡ₚ map_to_list p).
  { rewrite <- Permutation_rev. apply merge_sort_Permutation. }
  rewrite <- (list_to_map_to_list p) at 2.
  apply list_to_map_proper; [|exact Hperm].
  rewrite Hperm. apply NoDup_fst_map_to_list.
Qed.

Lemma decodeField_id m v : 
  Wire.decodeField (m, None) ("id", JStr v)
  = ({| ID := v; Type_ := m.(Type_); Method := m.(Method); Params := m.(Params);
        Result := m.(Result); Error := m.(Error) |}, None).
Proof. reflexivity. Qed.

Lemma decodeField_type m v : 
  Wire.decodeField (m, None) ("type", JStr v)
  = ({| ID := m.(ID); Type_ := v; Method := m.(Method); Params := m.(Params);
        Result := m.(Result); Error := m.(Error) |}, None).
Proof. reflexivity. Qed.

Lemma decodeField_method m v : 
  Wire.decodeField (m, None) ("method", JStr v)
  = ({| ID := m.(ID); Type_ := m.(Type_); Method := v; Params := m.(Params);
        Result := m.(Result); Error := m.(Error) |}, None).
Proof. reflexivity. Qed.

Lemma decodeField_params m p : 
  m.(Params) = None ->
  Wire.decodeField (m, None) ("params", marshalMap p)
  = ({| ID := m.(ID); Type_ := m.(Type_); Method := m.(Method); Params := Some p;
        Result := m.(Result); Error := m.(Error) |}, None).
Proof.
  intros Hp. 
  change (Wire.decodeField (m, None) ("params", marshalMap p))
    with (let '(p', err') := Wire.decodeMap "Message.params" m.(Params) (marshalMap p) in
          ({| ID := m.(ID); Type_ := m.(Type_); Method := m.(Method); Params := p';
              Result := m.(Result); Error := m.(Error) |}, Wire.saveError None err')).
  rewrite Hp. unfold Wire.decodeMap, marshalMap. cbn [default].
  pose proof (marshalMap_round_trip p) as Hrt. unfold asMap, marshalMap in Hrt.
  injection Hrt as ->. reflexivity.
Qed.

Lemma decodeField_result m v : 
  Wire.decodeField (m, None) ("result", v)
  = ({| ID := m.(ID); Type_ := m.(Type_); Method := m.(Method); Params := m.(Params);
        Result := v; Error := m.(Error) |}, None).
Proof. reflexivity. Qed.

Lemma decodeField_error m e : 
  m.(Error) = None ->
  is_int e.(Code) = true ->
  Wire.decodeField (m, None) ("error", Wire.encodeErrorInfo e)
  = ({| ID := m.(ID); Type_ := m.(Type_); Method := m.(Method); Params := m.(Params);
        Result := m.(Result); Error := Some e |}, None).
Proof.
  intros He Hc.
  change (Wire.decodeField (m, None) ("error", Wire.encodeErrorInfo e))
    with (let '(e', err') := Wire.decodeErrorInfo m.(Error) (Wire.encodeErrorInfo e) in
          ({| ID := m.(ID); Type_ := m.(Type_); Method := m.(Method); Params := m.(Params);
              Result := m.(Result); Error := e' |}, Wire.saveError None err')).
  rewrite He. unfold Wire.decodeErrorInfo, Wire.encodeErrorInfo.
  cbn [fold_left default].
  change (Wire.decodeErrorField (zeroErrorInfo, None) ("code", JNum e.(Code)))
    with (let '(c, err') := Wire.decodeInt "ErrorInfo.code" 0 (JNum e.(Code)) in
          ({| Code := c; ErrMessage := "" |}, Wire.saveError None err')).
  unfold Wire.decodeInt. rewrite Hc. cbn.
  destruct e; reflexivity.
Qed.

Lemma decode_encode (m : Message) :
  wireNormal m ->
  Wire.decodeMessage (Wire.encodeMessage m) zeroMessage = (m, None).
Proof.
  intros [Hparams Herror].
  unfold Wire.decodeMessage, Wire.encodeMessage.
  rewrite !fold_left_app. cbn [fold_left].
  rewrite decodeField_id, decodeField_type. cbn [ID Type_ Method Params Result Error zeroMessage].
  destruct m as [id ty method params result err]. cbn [ID Type_ Method Params Result Error] in *.
  assert (Hm : fold_left Wire.decodeField
                 (if decide (method = "") then [] else [("method", JStr method)])
                 ({| ID := id; Type_ := ty; Method := ""; Params := None; Result := JNull;
                     Error := None |}, None)
               = ({| ID := id; Type_ := ty; Method := method; Params := None; Result := JNull;
                     Error := None |}, None)).
  { destruct (decide (method = "")) as [->|]; [reflexivity|].
    cbn [fold_left]. rewrite decodeField_method. reflexivity. }
  rewrite Hm. clear Hm.
  assert (Hp : fold_left Wire.decodeField
                 (match params with
                  | Some p => if decide (size p = 0%nat) then [] else [("params", marshalMap p)]
                  | None => []
                  end)
                 ({| ID := id; Type_ := ty; Method := method; Params := None; Result := JNull;
                     Error := None |}, None)
               = ({| ID := id; Type_ := ty; Method := method; Params := params;
                     Result := JNull; Error := None |}, None)).
  { destruct params as [p|]; [|reflexivity].
    destruct (decide (size p = 0%nat)) as [Hz|_]; [exfalso; exact (Hparams p eq_refl Hz)|].
    cbn [fold_left]. rewrite decodeField_params; reflexivity. }
  rewrite Hp. clear Hp.
  assert (He : forall r,
             fold_left Wire.decodeField
               (match err with Some e => [("error", Wire.encodeErrorInfo e)] | None => [] end)
               ({| ID := id; Type_ := ty; Method := method; Params := params;
                   Result := r; Error := None |}, None)
             = ({| ID := id; Type_ := ty; Method := method; Params := params;
                   Result := r; Error := err |}, None)).
  { intros r. destruct err as [e|]; [|reflexivity].
    cbn [fold_left]. rewrite decodeField_error; [reflexivity|reflexivity|].
    apply Herror. reflexivity. }
  destruct result; cbn [fold_left]; rewrite ?decodeField_result; apply He.
Qed.




(* ===================================================================== *)
(** ** The registry of the inbound listener (claim C8)                    *)
(* ===================================================================== *)

Section RegistryFacts.
Context (lib : GoLib).

Lemma deliver_handshake c msg s :
  (Session.deliver c msg s).(handshake) = s.(handshake).
Proof.
  unfold Session.deliver.
  destruct (s.(chans) !! c) as [ch|]; [|reflexivity].
  destruct ch.(closed); [reflexivity|].
  destruct ch.(buf); reflexivity.
Qed.

Lemma processLine_handshake s raw :
  (Session.processLine lib s raw).(handshake) = s.(handshake).
Proof.
  unfold Session.processLine.
  destruct (decide (TrimSpace lib raw = "")); [reflexivity|].
  destruct (Wire.Unmarshal lib (TrimSpace lib raw) zeroMessage) as [msg [err|]];
    [reflexivity|].
  destruct (decide (msg.(Type_) = "handshake")); [reflexivity|].
  destruct (decide (msg.(Type_) = "response" /\ msg.(ID) <> "")); [|reflexivity].
  destruct (s.(responses) !! msg.(ID)); [apply deliver_handshake|reflexivity].
Qed.

Lemma processLines_handshake lines s :
  (fold_left (Session.processLine lib) lines s).(handshake) = s.(handshake).
Proof.
  revert s. induction lines as [|l lines IH]; intros s; [reflexivity|].
  cbn [fold_left]. rewrite IH. apply processLine_handshake.
Qed.

Lemma sendRequest_handshake env s method params :
  (Session.sendRequest lib env s method params).1.(handshake) = s.(handshake).
Proof.
  unfold Session.sendRequest, Session.sendRequest_begin.
  destruct (negb (Session.IsConnected s)); [reflexivity|].
  destruct (Wire.Marshal lib _) as [data|]; [|reflexivity].
  unfold Session.Write. cbn [set_responses set_chans broken].
  destruct s.(broken); [reflexivity|].
  unfold Session.sendRequest_end.
  match goal with
  | |- context [chans ?x !! ?c] => destruct (chans x !! c) as [[[response|] cl]|]
  end; try destruct env.(Session.early); cbn; rewrite ?processLines_handshake; reflexivity.
Qed.

Lemma tryEach_Forall {R : Type} (P : Session -> Prop)
    (call : Session -> Session * (R + error)) (l : list Session) :
  (forall m, P m -> P (call m).1) ->
  Forall P l -> Forall P (tryEach call l).1.
Proof.
  intros Hcall Hl. induction Hl as [|m l Hm Hl IH]; cbn [tryEach]; [constructor|].
  pose proof (Hcall m Hm) as Hm'.
  destruct (call m) as [m' [v|e]]; cbn in *.
  - constructor; assumption.
  - destruct (tryEach call l) as [rest r]. cbn in *. constructor; assumption.
Qed.

Lemma managers_Forall (P : Session -> Prop) order srv :
  map_Forall (fun _ c => P c) srv.(clients) ->
  Forall P (Server.GetConnectedManagers order srv).
Proof.
  intros Hall. unfold Server.GetConnectedManagers.
  apply list.Forall_forall. intros c Hin.
  apply list_elem_of_filter in Hin as [_ Hin].
  apply list_elem_of_omap in Hin as (k & _ & Hk).
  exact (Hall k c Hk).
Qed.

Lemma store_Forall (P : Session -> Prop) ms srv :
  Forall P ms ->
  map_Forall (fun _ c => P c) srv.(clients) ->
  map_Forall (fun _ c => P c) (Server.store ms srv).(clients).
Proof.
  unfold Server.store. cbn [clients]. generalize srv.(clients) as m.
  intros m Hms. revert m. induction Hms as [|c ms Hc _ IH]; intros m Hm; cbn [fold_left].
  - exact Hm.
  - apply IH. apply map_Forall_insert_2; assumption.
Qed.

Lemma step_handshaken srv srv' :
  Server.step lib srv srv' ->
  map_Forall (fun _ c => handshaken c) srv.(clients) ->
  map_Forall (fun _ c => handshaken c) srv'.(clients).
Proof.
  intros Hstep Hinv. destruct Hstep.
  - unfold Server.handleConnection.
    destruct (Handshake.serverWaitForHandshake lib 0 feed fin) as [[h|e] rest|];
      [|exact Hinv|exact Hinv].
    cbn [clients]. apply map_Forall_insert_2; [|exact Hinv].
    unfold handshaken. cbn. eauto.
  - cbn [clients]. apply map_Forall_insert_2; [|exact Hinv].
    unfold handshaken. rewrite processLine_handshake. exact (Hinv _ _ H).
  - cbn [clients]. apply map_Forall_insert_2; [|exact Hinv]. exact (Hinv _ _ H).
  - cbn [clients]. apply map_Forall_insert_2; [|exact Hinv].
    unfold handshaken. rewrite sendRequest_handshake. exact (Hinv _ _ H).
  - unfold Server.GetDriverInfo.
    pose proof (tryEach_Forall handshaken (Server.infoCall lib env driverName)
                  (Server.GetConnectedManagers order srv)) as Ht.
    destruct (tryEach _ _) as [ms [v|]]; cbn [fst snd] in *;
      (apply store_Forall; [|exact Hinv]; apply Ht;
       [|apply managers_Forall; exact Hinv];
       intros m Hm; unfold Server.infoCall, handshaken;
       pose proof (sendRequest_handshake (env m) m "get_driver_info"
                     (Some {[ "driver" := JStr driverName ]})) as Hs;
       destruct (Session.sendRequest lib _ m _ _) as [m' r]; cbn in *;
       rewrite Hs; exact Hm).
  - unfold Server.CreateDriverInstance.
    destruct (decide _); [exact Hinv|].
    pose proof (tryEach_Forall handshaken
                  (Server.createCall lib env instanceID driverName config)
                  (Server.GetConnectedManagers order srv)) as Ht.
    destruct (tryEach _ _) as [ms [v|]]; cbn [fst snd] in *;
      (apply store_Forall; [|exact Hinv]; apply Ht;
       [|apply managers_Forall; exact Hinv];
       intros m Hm; unfold Server.createCall, handshaken;
       rewrite sendRequest_handshake; exact Hm).
  - unfold Server.ExecuteDriverOperation.
    pose proof (tryEach_Forall handshaken
                  (Server.executeCall lib env instanceID operation params)
                  (Server.GetConnectedManagers order srv)) as Ht.
    destruct (tryEach _ _) as [ms [v|]]; cbn [fst snd] in *;
      (apply store_Forall; [|exact Hinv]; apply Ht;
       [|apply managers_Forall; exact Hinv];
       intros m Hm; unfold Server.executeCall, handshaken;
       rewrite sendRequest_handshake; exact Hm).
  - unfold Server.Stop. cbn [clients]. apply map_Forall_fmap.
    intros k c Hk. exact (Hinv k c Hk).
Qed.

Lemma reachable_handshaken srv :
  Server.reachable lib srv ->
  map_Forall (fun _ c => handshaken c) srv.(clients).
Proof.
  induction 1 as [|srv srv' _ IH Hstep].
  - cbn. apply map_Forall_empty.
  - exact (step_handshaken srv srv' Hstep IH).
Qed.

Lemma handshakeLine_return accept raw r :
  Handshake.handshakeLine lib accept raw = Handshake.Return r ->
  exists msg,
    TrimSpace lib raw <> ""
    /\ Wire.Unmarshal lib (TrimSpace lib raw) zeroMessage = (msg, None)
    /\ accept msg = true
    /\ r = Handshake.parseHandshake lib msg.(Result).
Proof.
  unfold Handshake.handshakeLine.
  destruct (decide (TrimSpace lib raw = "")) as [|Hne]; [discriminate|].
  destruct (Wire.Unmarshal lib (TrimSpace lib raw) zeroMessage) as [msg [err|]];
    [discriminate|].
  destruct (accept msg) eqn:Ha; [|discriminate].
  intros [= <-]. exists msg. auto.
Qed.

Lemma handshakeLine_accepted accept raw msg :
  TrimSpace lib raw <> "" ->
  Wire.Unmarshal lib (TrimSpace lib raw) zeroMessage = (msg, None) ->
  Handshake.handshakeLine lib accept raw
  = if accept msg then Handshake.Return (Handshake.parseHandshake lib msg.(Result))
    else Handshake.Continue.
Proof.
  intros Hne Hu. unfold Handshake.handshakeLine.
  destruct (decide (TrimSpace lib raw = "")); [contradiction|].
  rewrite Hu. reflexivity.
Qed.

Lemma serverWait_no_handshake clock feed fin :
  Forall (fun tr => forall text,
              Scanner.token tr.2 = inl text ->
              Handshake.handshakeLine lib Handshake.serverAccepts text
              = Handshake.Continue) feed ->
  Handshake.serverWaitForHandshake lib clock feed fin = Handshake.Blocked
  \/ exists e rest,
       Handshake.serverWaitForHandshake lib clock feed fin = Handshake.Returned (inr e) rest.
Proof.
  intros Hfeed. revert clock.
  induction Hfeed as [|[arrival raw] rest Hraw _ IH]; intros clock;
    cbn [Handshake.serverWaitForHandshake].
  - destruct (Handshake.handshakeTimeout <=? clock); [eauto|].
    destruct fin; eauto.
  - destruct (Handshake.handshakeTimeout <=? clock); [eauto|].
    cbn [snd] in Hraw.
    destruct (Scanner.token raw) as [text|e]; [|eauto].
    rewrite (Hraw text eq_refl). apply IH.
Qed.

Lemma serverWait_accepted clock feed fin h rest :
  Handshake.serverWaitForHandshake lib clock feed fin = Handshake.Returned (inl h) rest ->
  exists arrival raw text msg,
    (arrival, raw) ∈ feed
    /\ Scanner.token raw = inl text
    /\ Wire.Unmarshal lib (TrimSpace lib text) zeroMessage = (msg, None)
    /\ msg.(Type_) = "handshake"
    /\ Handshake.parseHandshake lib msg.(Result) = inl h.
Proof.
  revert clock. induction feed as [|[arrival raw] feed' IH]; intros clock;
    cbn [Handshake.serverWaitForHandshake].
  - destruct (Handshake.handshakeTimeout <=? clock); [discriminate|].
    destruct fin; discriminate.
  - destruct (Handshake.handshakeTimeout <=? clock); [discriminate|].
    destruct (Scanner.token raw) as [text|e] eqn:Htok; [|discriminate].
    destruct (Handshake.handshakeLine lib Handshake.serverAccepts text) as [|r] eqn:Hl.
    + intros Hw. destruct (IH _ Hw) as (arrival' & raw' & text' & msg & Hin & Hrest).
      exists arrival', raw', text', msg. split; [right; exact Hin|exact Hrest].
    + intros [= -> <-].
      apply handshakeLine_return in Hl as (msg & _ & Hu & Ha & Hr).
      exists arrival, raw, text, msg. split; [left|]. split; [exact Htok|].
      split; [exact Hu|].
      unfold Handshake.serverAccepts in Ha. apply bool_decide_eq_true in Ha.
      auto.
Qed.

Lemma handleConnection_failed now feed fin srv :
  (forall h rest,
      Handshake.serverWaitForHandshake lib 0 feed fin <> Handshake.Returned (inl h) rest) ->
  Server.handleConnection lib now feed fin srv = srv.
Proof.
  intros Hw. unfold Server.handleConnection.
  destruct (Handshake.serverWaitForHandshake lib 0 feed fin) as [[h|e] rest|];
    [|reflexivity|reflexivity].
  exfalso. exact (Hw h rest eq_refl).
Qed.

Lemma handleConnection_registered now feed fin srv :
  (Server.handleConnection lib now feed fin srv).(clients) <> srv.(clients) ->
  exists h rest,
    Handshake.serverWaitForHandshake lib 0 feed fin = Handshake.Returned (inl h) rest
    /\ (Server.handleConnection lib now feed fin srv).(clients)
       = <[Server.connID now := set_handshake (Some h) (newSession (Server.connID now))]>
           srv.(clients).
Proof.
  unfold Server.handleConnection.
  destruct (Handshake.serverWaitForHandshake lib 0 feed fin) as [[h|e] rest|].
  - intros _. exists h, rest. auto.
  - intros Hne. contradiction.
  - intros Hne. contradiction.
Qed.

End RegistryFacts.

(** What holds of claim C8.  In every state the listener can reach, each
    session in [clients] has its handshake.  The ID of a connection is made
    from the clock when the connection object is built, before any line is
    read; [handleConnection] changes the registry only when
    [waitForHandshake] has returned a [HandshakeInfo], read from a line of the
    connection that the scanner returned and that decoded into a message of
    type "handshake", and it then adds exactly that connection under its ID.
    When [waitForHandshake] returns an error (timeout or scanner error) or
    does not return, the registry is left as it was; that is the case in
    particular for a connection none of whose lines is a handshake.  Nothing
    here bounds the time at which the handshake arrives, and the code does
    not bound it. *)
Theorem registry_after_handshake (lib : GoLib) :
  (forall srv id c,
      Server.reachable lib srv -> srv.(clients) !! id = Some c -> handshaken c)
  /\ (forall now feed fin srv,
        (Server.handleConnection lib now feed fin srv).(clients) <> srv.(clients) ->
        exists h rest arrival raw text msg,
          Handshake.serverWaitForHandshake lib 0 feed fin = Handshake.Returned (inl h) rest
          /\ (arrival, raw) ∈ feed
          /\ Scanner.token raw = inl text
          /\ Wire.Unmarshal lib (TrimSpace lib text) zeroMessage = (msg, None)
          /\ msg.(Type_) = "handshake"
          /\ Handshake.parseHandshake lib msg.(Result) = inl h
          /\ (Server.handleConnection lib now feed fin srv).(clients)
             = <[Server.connID now := set_handshake (Some h) (newSession (Server.connID now))]>
                 srv.(clients))
  /\ (forall now feed fin srv,
        (forall h rest,
            Handshake.serverWaitForHandshake lib 0 feed fin
            <> Handshake.Returned (inl h) rest) ->
        Server.handleConnection lib now feed fin srv = srv)
  /\ (forall now feed fin srv,
        Forall (fun tr => forall text,
                    Scanner.token tr.2 = inl text ->
                    Handshake.handshakeLine lib Handshake.serverAccepts text
                    = Handshake.Continue) feed ->
        Server.handleConnection lib now feed fin srv = srv).
Proof.
  repeat apply conj.
  - intros srv id c Hreach Hc. exact (reachable_handshaken lib srv Hreach id c Hc).
  - intros now feed fin srv Hne.
    destruct (handleConnection_registered lib now feed fin srv Hne)
      as (h & rest & Hw & Hreg).
    destruct (serverWait_accepted lib 0 feed fin h rest Hw)
      as (arrival & raw & text & msg & Hin & Htok & Hu & Hty & Hp).
    exists h, rest, arrival, raw, text, msg. auto 10.
  - intros now feed fin srv. apply handleConnection_failed.
  - intros now feed fin srv Hfeed.
    apply handleConnection_failed. intros h rest Hw.
    destruct (serverWait_no_handshake lib 0 feed fin Hfeed) as [Hb|(e & rest' & Hr)];
      congruence.
Qed.

(** Both sessions of [twoManagers] have their handshake, and a connection
    that sends a ping and a broken line, but no handshake, is not added. *)
Lemma registry_after_handshake_witness :
  (forall id c, twoManagers.(clients) !! id = Some c -> handshaken c)
  /\ Server.handleConnection goLib 3
       [(1 * Handshake.second, dq "{'id':'p1','type':'ping'}");
        (2 * Handshake.second, "{not json")] Handshake.EndOfInput twoManagers
     = twoManagers.
Proof.
  destruct (registry_after_handshake goLib) as (Hinv & _ & _ & Hnone).
  split.
  - intros id c. apply Hinv. unfold twoManagers.
    eapply Server.reachable_step; [|apply Server.step_accept].
    eapply Server.reachable_step; [|apply Server.step_accept].
    apply Server.reachable_new.
  - apply Hnone. repeat constructor; intros text [= <-]; vm_compute; reflexivity.
Defined.

(** Claim C8 fails on the code: a session that does not complete its
    handshake within the timeout is registered all the same.  The first line
    of this connection, its handshake, arrives 45 seconds after the 30 second
    timer was started; [waitForHandshake] looks at the timer only when an
    iteration of its loop begins and not while [Scan] waits for the line, so
    the line is taken and the connection is put into the registry.  Its ID,
    "dm-1", is the one made from the clock reading 1 when the connection was
    accepted, before any handshake was received.  For the same reason a peer
    that stays silent is not dropped when the timer fires: the wait stays in
    [Scan]. *)
Lemma late_handshake_registered :
  let srv := Server.handleConnection goLib 1 [(45 * Handshake.second, emptyHandshake)]
               Handshake.Silent Server.NewDriverManagerServer in
  Handshake.handshakeTimeout < 45 * Handshake.second
  /\ (name <$> srv.(clients) !! "dm-1") = Some "dm-1"
  /\ (handshake <$> srv.(clients) !! "dm-1")
     = Some (Some {| DriverCount := 0; Drivers := Some ∅ |})
  /\ Handshake.serverWaitForHandshake goLib 0 [] Handshake.Silent = Handshake.Blocked.
Proof. vm_compute. repeat split. Qed.

(* ===================================================================== *)
(** ** Which message counts as the handshake (claim C9)                   *)
(* ===================================================================== *)

Lemma handshake_result_sorted (j1 j2 j3 : json) :
  obj [("manager_id", j1); ("driver_count", j2); ("drivers", j3)]
  = JObj [("driver_count", j2); ("drivers", j3); ("manager_id", j1)].
Proof. vm_compute. reflexivity. Qed.

Lemma decodeInfo_handshake (managerID : string) (n : Z) (drivers : gmap string json) :
  is_int n = true ->
  Handshake.decodeInfo
    (obj [("manager_id", JStr managerID); ("driver_count", JNum n);
          ("drivers", marshalMap drivers)]) zeroHandshakeInfo
  = ({| DriverCount := n; Drivers := Some drivers |}, None).
Proof.
  intros Hn. rewrite handshake_result_sorted.
  unfold Handshake.decodeInfo. cbn [fold_left].
  change (Handshake.decodeInfoField (zeroHandshakeInfo, None) ("driver_count", JNum n))
    with (let '(k, err') := Wire.decodeInt "HandshakeInfo.driver_count" 0 (JNum n) in
          ({| DriverCount := k; Drivers := None |}, Wire.saveError None err')).
  unfold Wire.decodeInt. rewrite Hn. cbn [Wire.saveError].
  change (Handshake.decodeInfoField ({| DriverCount := n; Drivers := None |}, None)
            ("drivers", marshalMap drivers))
    with (let '(m, err') := Wire.decodeMap "HandshakeInfo.drivers" None (marshalMap drivers) in
          ({| DriverCount := n; Drivers := m |}, Wire.saveError None err')).
  pose proof (marshalMap_round_trip drivers) as Hrt.
  unfold asMap, marshalMap in Hrt. unfold Wire.decodeMap, marshalMap. cbn [default].
  injection Hrt as ->. reflexivity.
Qed.

Section HandshakeFacts.
Context (lib : GoLib).

Lemma clientAccepts_spec msg :
  Handshake.clientAccepts msg = true <-> msg.(Type_) = "handshake" /\ msg.(ID) = "handshake".
Proof.
  unfold Handshake.clientAccepts.
  rewrite andb_true_iff, !bool_decide_eq_true. reflexivity.
Qed.

Lemma serverAccepts_spec msg :
  Handshake.serverAccepts msg = true <-> msg.(Type_) = "handshake".
Proof. unfold Handshake.serverAccepts. apply bool_decide_eq_true. Qed.

Context {D : Type} `{DriverOps D}.

Lemma handshake_read (ph : ProtocolHandler (D := D)) (managerID data resultData : string)
    (accept : Message -> bool) :
  let hs := handshakeMessage ph managerID in
  accept hs = true ->
  TrimSpace lib data <> "" ->
  jsonParse lib (TrimSpace lib data) = Some (Wire.encodeMessage hs) ->
  jsonText lib hs.(Result) = Some resultData ->
  jsonParse lib resultData = Some hs.(Result) ->
  is_int (Z.of_nat (size ph.(driverManager).(registry))) = true ->
  Handshake.handshakeLine lib accept data
  = Handshake.Return
      (inl {| DriverCount := Z.of_nat (size ph.(driverManager).(registry));
              Drivers := Some (handshakeEntry <$> ph.(driverManager).(registry)) |}).
Proof.
  intros hs Ha Hne Hparse Htext Hback Hn.
  assert (Hu : Wire.Unmarshal lib (TrimSpace lib data) zeroMessage = (hs, None)).
  { unfold Wire.Unmarshal. rewrite Hparse. apply decode_encode.
    split; [intros p [=]|intros e [=]]. }
  rewrite (handshakeLine_accepted lib accept data hs Hne Hu), Ha.
  unfold Handshake.parseHandshake. rewrite Htext, Hback.
  unfold hs, handshakeMessage. cbn [Result].
  rewrite (decodeInfo_handshake managerID _ _ Hn). reflexivity.
Qed.

End HandshakeFacts.

(** What holds of claim C9.  The outbound client takes a line as the
    handshake only when it decodes into a message whose type and id are both
    "handshake"; a message of type "handshake" with another id is skipped and
    the wait goes on with the next line.  The inbound listener takes any
    message of type "handshake", whatever its id.  [SendHandshake] writes a
    message whose id and type are both "handshake".  When the line it writes
    fits the scanner's buffer, the listener accepts it, and so does the
    client if its wait loop is the one that scans the line; both then read
    from it the driver count and the drivers of the sender's registry (given
    that the text layer of encoding/json reads back the documents it wrote).
    When the client's read loop scans the line, the wait does not see it. *)
Theorem handshake_interop (lib : GoLib) :
  (forall raw r,
      Handshake.handshakeLine lib Handshake.clientAccepts raw = Handshake.Return r ->
      exists msg,
        Wire.Unmarshal lib (TrimSpace lib raw) zeroMessage = (msg, None)
        /\ msg.(Type_) = "handshake" /\ msg.(ID) = "handshake"
        /\ r = Handshake.parseHandshake lib msg.(Result))
  /\ (forall raw text msg arrival rest fin,
        Scanner.token raw = inl text ->
        TrimSpace lib text <> "" ->
        Wire.Unmarshal lib (TrimSpace lib text) zeroMessage = (msg, None) ->
        msg.(Type_) = "handshake" ->
        msg.(ID) <> "handshake" ->
        Handshake.handshakeLine lib Handshake.clientAccepts text = Handshake.Continue
        /\ Handshake.clientWaitForHandshake lib None 0
             ((Handshake.Waiter, (arrival, raw)) :: rest) fin
           = Handshake.clientWaitForHandshake lib None (Z.max 0 arrival) rest fin)
  /\ (forall raw text msg,
        Scanner.token raw = inl text ->
        TrimSpace lib text <> "" ->
        Wire.Unmarshal lib (TrimSpace lib text) zeroMessage = (msg, None) ->
        msg.(Type_) = "handshake" ->
        forall arrival rest fin,
          Handshake.handshakeLine lib Handshake.serverAccepts text
          = Handshake.Return (Handshake.parseHandshake lib msg.(Result))
          /\ Handshake.serverWaitForHandshake lib 0 ((arrival, raw) :: rest) fin
             = Handshake.Returned (Handshake.parseHandshake lib msg.(Result)) rest)
  /\ (forall (D : Type) (ops : DriverOps D) (ph : ProtocolHandler (D := D)) managerID,
        (handshakeMessage ph managerID).(ID) = "handshake"
        /\ (handshakeMessage ph managerID).(Type_) = "handshake"
        /\ SendHandshake lib ph managerID = sendMessage lib ph (handshakeMessage ph managerID))
  /\ (forall (D : Type) (ops : DriverOps D) (ph : ProtocolHandler (D := D))
             managerID data resultData arrival fin,
        let hs := handshakeMessage ph managerID in
        let info := {| DriverCount := Z.of_nat (size ph.(driverManager).(registry));
                       Drivers := Some (handshakeEntry <$> ph.(driverManager).(registry)) |} in
        ph.(connBroken) = false ->
        Wire.Marshal lib hs = Some data ->
        Scanner.token data = inl data ->
        TrimSpace lib data <> "" ->
        jsonParse lib (TrimSpace lib data) = Some (Wire.encodeMessage hs) ->
        jsonText lib hs.(Result) = Some resultData ->
        jsonParse lib resultData = Some hs.(Result) ->
        is_int (Z.of_nat (size ph.(driverManager).(registry))) = true ->
        (SendHandshake lib ph managerID).1.(out) = ph.(out) ++ [data +:+ newline]
        /\ Handshake.serverWaitForHandshake lib 0 [(arrival, data)] fin
           = Handshake.Returned (inl info) []
        /\ Handshake.clientWaitForHandshake lib None 0
             [(Handshake.Waiter, (arrival, data))] fin
           = Handshake.Returned (inl info) []
        /\ Handshake.clientWaitForHandshake lib None 0
             [(Handshake.ReadLoop, (arrival, data))] Handshake.Silent
           = Handshake.Blocked).
Proof.
  repeat apply conj.
  - intros raw r Hl.
    apply handshakeLine_return in Hl as (msg & _ & Hu & Ha & Hr).
    apply clientAccepts_spec in Ha as [Hty Hid]. eauto.
  - intros raw text msg arrival rest fin Htok Hne Hu Hty Hid.
    assert (Hl : Handshake.handshakeLine lib Handshake.clientAccepts text = Handshake.Continue).
    { rewrite (handshakeLine_accepted lib _ text msg Hne Hu).
      destruct (Handshake.clientAccepts msg) eqn:Ha; [|reflexivity].
      apply clientAccepts_spec in Ha as [_ Hid']. contradiction. }
    split; [exact Hl|].
    cbn [Handshake.clientWaitForHandshake Handshake.cancelled_at].
    change (Handshake.handshakeTimeout <=? 0) with false. cbn iota.
    rewrite Htok, Hl. reflexivity.
  - intros raw text msg Htok Hne Hu Hty arrival rest fin.
    assert (Hl : Handshake.handshakeLine lib Handshake.serverAccepts text
                 = Handshake.Return (Handshake.parseHandshake lib msg.(Result))).
    { rewrite (handshakeLine_accepted lib _ text msg Hne Hu).
      rewrite (proj2 (serverAccepts_spec msg) Hty). reflexivity. }
    split; [exact Hl|].
    cbn [Handshake.serverWaitForHandshake].
    change (Handshake.handshakeTimeout <=? 0) with false. cbn iota.
    rewrite Htok, Hl. reflexivity.
  - intros D ops ph managerID. repeat split.
  - intros D ops ph managerID data resultData arrival fin hs info
      Hb Hm Htok Hne Hparse Htext Hback Hn.
    split; [|split; [|split] ].
    + unfold SendHandshake. fold hs.
      rewrite (sendMessage_written lib ph hs data Hm Hb). reflexivity.
    + cbn [Handshake.serverWaitForHandshake].
      change (Handshake.handshakeTimeout <=? 0) with false. cbn iota.
      rewrite Htok.
      rewrite (handshake_read lib ph managerID data resultData Handshake.serverAccepts
                 eq_refl Hne Hparse Htext Hback Hn).
      reflexivity.
    + cbn [Handshake.clientWaitForHandshake Handshake.cancelled_at].
      change (Handshake.handshakeTimeout <=? 0) with false. cbn iota.
      rewrite Htok.
      rewrite (handshake_read lib ph managerID data resultData Handshake.clientAccepts
                 eq_refl Hne Hparse Htext Hback Hn).
      reflexivity.
    + cbn [Handshake.clientWaitForHandshake Handshake.cancelled_at].
      change (Handshake.handshakeTimeout <=? 0) with false. cbn iota.
      rewrite Htok. reflexivity.
Qed.

(** The handshake of a manager with the three stub drivers, sent through a
    working connection and read by both sides; and a handshake with another
    id, which only the listener takes. *)
Lemma handshake_interop_witness :
  let ph := NewProtocolHandler (NewDriverManager stubRegistry) in
  let info := {| DriverCount := 3; Drivers := Some (handshakeEntry <$> stubRegistry) |} in
  exists data,
    (SendHandshake goLib ph "dm-a").1.(out) = [data +:+ newline]
    /\ Handshake.serverWaitForHandshake goLib 0 [(0, data)] Handshake.Silent
       = Handshake.Returned (inl info) []
    /\ Handshake.clientWaitForHandshake goLib None 0
         [(Handshake.Waiter, (0, data))] Handshake.Silent
       = Handshake.Returned (inl info) []
    /\ Handshake.handshakeLine goLib Handshake.clientAccepts
         (dq "{'id':'h2','type':'handshake','result':{}}") = Handshake.Continue
    /\ Handshake.handshakeLine goLib Handshake.serverAccepts
         (dq "{'id':'h2','type':'handshake','result':{}}")
       = Handshake.Return (inl {| DriverCount := 0; Drivers := None |}).
Proof.
  intros ph info.
  destruct (handshake_interop goLib) as (_ & Hskip & Hany & _ & Hinterop).
  set (hs := handshakeMessage ph "dm-a").
  destruct (Wire.Marshal goLib hs) as [data|] eqn:Hdata; [|vm_compute in Hdata; discriminate].
  destruct (jsonText goLib hs.(Result)) as [resultData|] eqn:Hres;
    [|vm_compute in Hres; discriminate].
  exists data.
  assert (Htok : Scanner.token data = inl data).
  { vm_compute in Hdata. injection Hdata as <-. vm_compute. reflexivity. }
  assert (Hne : TrimSpace goLib data <> "").
  { vm_compute in Hdata. injection Hdata as <-. intros E. vm_compute in E. discriminate E. }
  assert (Hparse : jsonParse goLib (TrimSpace goLib data) = Some (Wire.encodeMessage hs)).
  { vm_compute in Hdata. injection Hdata as <-. vm_compute. reflexivity. }
  assert (Hback : jsonParse goLib resultData = Some hs.(Result)).
  { vm_compute in Hres. injection Hres as <-. vm_compute. reflexivity. }
  destruct (Hinterop _ _ ph "dm-a" data resultData 0 Handshake.Silent eq_refl Hdata Htok Hne
              Hparse Hres Hback eq_refl) as (Hout & Hserver & Hclient & _).
  split; [exact Hout|]. split; [exact Hserver|]. split; [exact Hclient|].
  set (other := {| ID := "h2"; Type_ := "handshake"; Method := ""; Params := None;
                   Result := JObj []; Error := None |}).
  set (raw := dq "{'id':'h2','type':'handshake','result':{}}").
  assert (Htok2 : Scanner.token raw = inl raw) by (vm_compute; reflexivity).
  assert (Hne2 : TrimSpace goLib raw <> "")
    by (intros E; vm_compute in E; discriminate E).
  assert (Hu2 : Wire.Unmarshal goLib (TrimSpace goLib raw) zeroMessage = (other, None))
    by (vm_compute; reflexivity).
  split.
  - refine (proj1 (Hskip raw raw other 0 [] Handshake.Silent Htok2 Hne2 Hu2 eq_refl _)).
    discriminate.
  - rewrite (proj1 (Hany raw raw other Htok2 Hne2 Hu2 eq_refl 0 [] Handshake.Silent)).
    vm_compute. reflexivity.
Defined.

(** Claim C9 fails on the code: the handshake that [SendHandshake] writes is
    not always received, although its id and type are both "handshake".

    The handshake is one line that holds the description of every driver.
    For the registry [bulkyRegistry], 64 drivers with 1 KiB of items each,
    the line is longer than the 64 KiB a default [bufio.Scanner] takes:
    [Scan] fails with [ErrTooLong], the listener's [waitForHandshake] returns
    the scanner's error and nothing is registered, and the client's
    [Connect] fails.

    On the client, [Connect] starts the read loop on the scanner before it
    waits for the handshake.  When the read loop's call of [Scan] returns the
    handshake line, the read loop drops it as already processed, the wait
    never sees it, and [Connect] does not return; the same line is accepted
    when the wait loop scans it. *)
Lemma handshake_not_received :
  (let ph := NewProtocolHandler (NewDriverManager bulkyRegistry) in
   let data := RefLib.printJson (Wire.encodeMessage (handshakeMessage ph "dm-a")) in
   (SendHandshake goLib ph "dm-a").1.(out) = [data +:+ newline]
   /\ (Scanner.MaxScanTokenSize <=? N.of_nat (String.length data))%N = true
   /\ Handshake.serverWaitForHandshake goLib 0 [(0, data)] Handshake.Silent
      = Handshake.Returned (inr "scanner error: bufio.Scanner: token too long") []
   /\ Server.handleConnection goLib 1 [(0, data)] Handshake.Silent
        Server.NewDriverManagerServer
      = Server.NewDriverManagerServer
   /\ Client.Connect goLib None [(Handshake.Waiter, (0, data))] Handshake.Silent "dm:9000"
      = Some (Session.Close (newSession "dm:9000"),
              Some "handshake failed: scanner error: bufio.Scanner: token too long"))
  /\ (let ph := NewProtocolHandler (NewDriverManager stubRegistry) in
      let data := RefLib.printJson (Wire.encodeMessage (handshakeMessage ph "dm-a")) in
      let info := {| DriverCount := 3; Drivers := Some (handshakeEntry <$> stubRegistry) |} in
      (SendHandshake goLib ph "dm-a").1.(out) = [data +:+ newline]
      /\ Client.Connect goLib None [(Handshake.Waiter, (0, data))] Handshake.Silent "dm:9000"
         = Some (set_handshake (Some info) (newSession "dm:9000"), None)
      /\ Session.processLine goLib (newSession "dm:9000") data = newSession "dm:9000"
      /\ Client.Connect goLib None [(Handshake.ReadLoop, (0, data))] Handshake.Silent "dm:9000"
         = None).
Proof.
  split.
  - intros ph data.
    assert (Htok : Scanner.token data = inr Scanner.ErrTooLong).
    { unfold Scanner.token.
      assert (Hlen : (Scanner.MaxScanTokenSize <=? N.of_nat (String.length data))%N = true)
        by (vm_compute; reflexivity).
      rewrite Hlen. reflexivity. }
    assert (Hout : (SendHandshake goLib ph "dm-a").1.(out) = [data +:+ newline]).
    { unfold SendHandshake.
      rewrite (sendMessage_written goLib ph (handshakeMessage ph "dm-a") data
                 eq_refl eq_refl).
      reflexivity. }
    clearbody data.
    assert (Hwait : Handshake.serverWaitForHandshake goLib 0 [(0, data)] Handshake.Silent
                    = Handshake.Returned
                        (inr "scanner error: bufio.Scanner: token too long") []).
    { cbn [Handshake.serverWaitForHandshake].
      change (Handshake.handshakeTimeout <=? 0) with false. cbn iota.
      rewrite Htok. reflexivity. }
    split; [exact Hout|]. split.
    { unfold Scanner.token in Htok.
      destruct (Scanner.MaxScanTokenSize <=? N.of_nat (String.length data))%N;
        [reflexivity|discriminate Htok]. }
    split; [exact Hwait|]. split.
    + unfold Server.handleConnection. rewrite Hwait. reflexivity.
    + unfold Client.Connect.
      cbn [Handshake.clientWaitForHandshake Handshake.cancelled_at].
      change (Handshake.handshakeTimeout <=? 0) with false. cbn iota.
      rewrite Htok. reflexivity.
  - repeat apply conj; vm_compute; reflexivity.
Qed.
(* ===================================================================== *)
(** ** Runs of the instance manager                                       *)
(* ===================================================================== *)

Section ManagerRunFacts.
Context {D : Type} `{DriverOps D}.
Implicit Types dm : DriverManager (D := D).

#[local] Ltac in_calls :=
  cbn; rewrite ?elem_of_app, ?list_elem_of_singleton; auto.

Lemma set_driver_same (instance : DriverInstance (D := D)) :
  set_driver instance.(Driver) instance = instance.
Proof. destruct instance; reflexivity. Qed.

Lemma afterCall_frame dm instance c r :
  let dm' := (afterCall dm instance c r).1 in
  dm'.(registry) = dm.(registry)
  /\ dm'.(instances) = alter (set_driver r.1) instance.(InstID) dm.(instances)
  /\ dm'.(calls) = dm.(calls) ++ [c]
  /\ (afterCall dm instance c r).2 = r.2.
Proof. repeat split. Qed.

(** Whichever way [ExecuteDriverOperation] goes, it either returns the
    manager as it was, or it has made one driver call on the instance it
    found under [instanceID]. *)
Lemma execute_cases dm instanceID operation params :
  let r := ExecuteDriverOperation dm instanceID operation params in
  (r.1 = dm /\ exists e, r.2 = inr e)
  \/ exists instance c d,
       dm.(instances) !! instanceID = Some instance
       /\ instance.(Enabled) = true
       /\ callInstance c = instance.(InstID)
       /\ r.1.(registry) = dm.(registry)
       /\ r.1.(instances) = alter (set_driver d) instance.(InstID) dm.(instances)
       /\ r.1.(calls) = dm.(calls) ++ [c].
Proof.
  unfold ExecuteDriverOperation, GetDriverInstance, IsDriverInstanceEnabled.
  destruct (dm.(instances) !! instanceID) as [instance|] eqn:Hi; [|left; eauto].
  destruct instance.(Enabled) eqn:He; cbn [negb]; [|left; eauto].
  assert (Hcall : forall c r, callInstance c = instance.(InstID) ->
            exists instance0 c0 d,
              Some instance = Some instance0
              /\ instance0.(Enabled) = true
              /\ callInstance c0 = instance0.(InstID)
              /\ (afterCall dm instance c r).1.(registry) = dm.(registry)
              /\ (afterCall dm instance c r).1.(instances)
                 = alter (set_driver d) instance0.(InstID) dm.(instances)
              /\ (afterCall dm instance c r).1.(calls) = dm.(calls) ++ [c0]).
  { intros c r Hc. exists instance, c, r.1. repeat split; assumption. }
  destruct (decide (operation = "list")).
  { unfold executeListOperation.
    destruct (asString _); [right; apply Hcall; reflexivity|left; eauto]. }
  destruct (decide (operation = "link")).
  { unfold executeLinkOperation.
    destruct (asString _); [right; apply Hcall; reflexivity|left; eauto]. }
  destruct (decide (operation = "get")).
  { unfold executeGetOperation.
    destruct (isGetter _); cbn [negb]; [|left; eauto].
    destruct (asString _); [right; apply Hcall; reflexivity|left; eauto]. }
  destruct (decide (operation = "other")).
  { unfold executeOtherOperation.
    destruct (isOther _); cbn [negb]; [|left; eauto].
    right; apply Hcall; reflexivity. }
  left; eauto.
Qed.

Lemma execute_success_calls dm instanceID operation params v :
  (ExecuteDriverOperation dm instanceID operation params).2 = inl v ->
  exists c, (ExecuteDriverOperation dm instanceID operation params).1.(calls)
            = dm.(calls) ++ [c].
Proof.
  intros Hv.
  destruct (execute_cases dm instanceID operation params)
    as [[_ [e He] ]|(instance & c & d & _ & _ & _ & _ & _ & Hc)].
  - rewrite He in Hv. discriminate.
  - eauto.
Qed.

Lemma step_invariant reg dm dm' :
  managerStep dm dm' ->
  (dm.(registry) = reg
   /\ forall id instance,
        dm.(instances) !! id = Some instance ->
        instance.(InstID) = id
        /\ is_Some (reg !! instance.(InstName))
        /\ CallInit id ∈ dm.(calls)) ->
  dm'.(registry) = reg
  /\ forall id instance,
       dm'.(instances) !! id = Some instance ->
       instance.(InstID) = id
       /\ is_Some (reg !! instance.(InstName))
       /\ CallInit id ∈ dm'.(calls).
Proof.
  intros Hstep [Hreg Hinv]. destruct Hstep.
  - unfold CreateDriverInstance.
    destruct (dm.(instances) !! instanceID) eqn:Hi; [auto|].
    unfold GetDriver. rewrite Hreg.
    destruct (reg !! driverName) as [info|] eqn:Hinfo; [|auto].
    destruct (drvInit _) as [d [e|] ]; cbn.
    + split; [exact Hreg|]. intros id instance Hl.
      destruct (Hinv id instance Hl) as (? & ? & ?). repeat split; [assumption..|].
      in_calls.
    + split; [exact Hreg|]. intros id instance Hl.
      destruct (decide (id = instanceID)) as [->|Hne].
      * rewrite lookup_insert_eq in Hl. injection Hl as <-. cbn.
        repeat split; [eauto|in_calls].
      * rewrite lookup_insert_ne in Hl by congruence.
        destruct (Hinv id instance Hl) as (? & ? & ?). repeat split; [assumption..|].
        in_calls.
  - unfold RemoveDriverInstance.
    destruct (dm.(instances) !! instanceID) as [inst|] eqn:Hi; [|auto].
    destruct (Hinv _ _ Hi) as (Hid & Hname & Hcall).
    destruct (drvDrop _) as [d [e|] ]; cbn.
    + split; [exact Hreg|]. intros id instance Hl.
      destruct (decide (id = instanceID)) as [->|Hne].
      * rewrite lookup_insert_eq in Hl. injection Hl as <-. cbn.
        repeat split; [assumption..|in_calls].
      * rewrite lookup_insert_ne in Hl by congruence.
        destruct (Hinv id instance Hl) as (? & ? & ?). repeat split; [assumption..|].
        in_calls.
    + split; [exact Hreg|]. intros id instance Hl.
      apply lookup_delete_Some in Hl as [Hne Hl].
      destruct (Hinv id instance Hl) as (? & ? & ?). repeat split; [assumption..|].
      in_calls.
  - unfold EnableDriverInstance, setEnabled.
    destruct (dm.(instances) !! instanceID) as [inst|] eqn:Hi; [|auto].
    destruct (Hinv _ _ Hi) as (Hid & Hname & Hcall). cbn.
    split; [exact Hreg|]. intros id instance Hl.
    destruct (decide (id = instanceID)) as [->|Hne].
    + rewrite lookup_insert_eq in Hl. injection Hl as <-. cbn. auto.
    + rewrite lookup_insert_ne in Hl by congruence. auto.
  - unfold DisableDriverInstance, setEnabled.
    destruct (dm.(instances) !! instanceID) as [inst|] eqn:Hi; [|auto].
    destruct (Hinv _ _ Hi) as (Hid & Hname & Hcall). cbn.
    split; [exact Hreg|]. intros id instance Hl.
    destruct (decide (id = instanceID)) as [->|Hne].
    + rewrite lookup_insert_eq in Hl. injection Hl as <-. cbn. auto.
    + rewrite lookup_insert_ne in Hl by congruence. auto.
  - destruct (execute_cases dm instanceID operation params)
      as [[-> _]|(inst & c & d & Hi & _ & _ & Hr & Htab & Hc)]; [auto|].
    split; [congruence|]. intros id instance Hl.
    rewrite Htab in Hl. rewrite Hc.
    apply lookup_alter_Some in Hl as [(<- & i0 & Hi0 & ->)|[_ Hl] ].
    + destruct (Hinv _ _ Hi0) as (? & ? & ?). cbn. repeat split; [assumption..|in_calls].
    + destruct (Hinv _ _ Hl) as (? & ? & ?). repeat split; [assumption..|in_calls].
Qed.

End ManagerRunFacts.

(** In every state a manager reaches from [NewDriverManager reg] through
    calls of CreateDriverInstance, RemoveDriverInstance, EnableDriverInstance,
    DisableDriverInstance and ExecuteDriverOperation, the registry is still
    [reg], and every instance in the table is stored under its own ID, is of a
    driver the registry knows, and has had its [Init] called. *)
Theorem manager_invariant {D : Type} `{DriverOps D}
    (reg : gmap string (DriverInfo (D := D))) (dm : DriverManager (D := D)) :
  managerReachable reg dm ->
  dm.(registry) = reg
  /\ forall id instance,
       dm.(instances) !! id = Some instance ->
       instance.(InstID) = id
       /\ is_Some (reg !! instance.(InstName))
       /\ CallInit id ∈ dm.(calls).
Proof.
  induction 1 as [|dm dm' _ IH Hstep].
  - split; [reflexivity|]. intros id instance Hl. cbn in Hl.
    rewrite lookup_empty in Hl. discriminate.
  - exact (step_invariant reg dm dm' Hstep IH).
Qed.

(** The manager with the one instance "s-1", after a list on it. *)
Lemma manager_invariant_witness :
  let dm := (ExecuteDriverOperation oneInstance "s-1" "list" {[ "path" := JStr "/" ]}).1 in
  dm.(registry) = stubRegistry
  /\ forall id instance,
       dm.(instances) !! id = Some instance ->
       instance.(InstID) = id
       /\ is_Some (stubRegistry !! instance.(InstName))
       /\ CallInit id ∈ dm.(calls).
Proof.
  intros dm. apply (manager_invariant stubRegistry dm).
  unfold dm, oneInstance.
  eapply mreach_step; [|apply mstep_execute].
  eapply mreach_step; [|apply mstep_create].
  apply mreach_new.
Defined.

(** Creating an instance and then removing it gives back the instance table
    the manager had before: when [CreateDriverInstance] and the following
    [RemoveDriverInstance] of the same ID both succeed, the table and the
    registry are those of the start, and the driver has been called three
    times in between, [SetStorage], [Init] and [Drop], all on that ID. *)
Theorem create_remove_round_trip {D : Type} `{DriverOps D}
    (dm dm1 dm2 : DriverManager (D := D)) (instanceID driverName : string)
    (config : gmap string json) :
  CreateDriverInstance dm instanceID driverName config = (dm1, None) ->
  RemoveDriverInstance dm1 instanceID = (dm2, None) ->
  dm2.(instances) = dm.(instances)
  /\ dm2.(registry) = dm.(registry)
  /\ dm2.(calls)
     = dm.(calls) ++ [CallSetStorage instanceID; CallInit instanceID; CallDrop instanceID].
Proof.
  unfold CreateDriverInstance, RemoveDriverInstance.
  destruct (dm.(instances) !! instanceID) eqn:Hi; [discriminate|].
  destruct (GetDriver _ _) as [info|e]; [|discriminate].
  destruct (drvInit _) as [d [e|] ]; [discriminate|].
  intros [= <-]. cbn. rewrite lookup_insert_eq. cbn.
  destruct (drvDrop d) as [d' [e|] ]; [discriminate|].
  intros [= <-]. cbn.
  rewrite delete_insert_eq, (delete_id _ _ Hi), <- !app_assoc. auto.
Qed.

Lemma create_remove_round_trip_witness :
  exists dm2,
    RemoveDriverInstance oneInstance "s-1" = (dm2, None)
    /\ dm2.(instances) = ∅
    /\ dm2.(calls) = [CallSetStorage "s-1"; CallInit "s-1"; CallDrop "s-1"].
Proof.
  assert (He : (RemoveDriverInstance oneInstance "s-1").2 = None) by (vm_compute; reflexivity).
  destruct (RemoveDriverInstance oneInstance "s-1") as [dm2 err] eqn:Hr.
  cbn [snd] in He. subst err. exists dm2. split; [reflexivity|].
  destruct (create_remove_round_trip (NewDriverManager stubRegistry) oneInstance dm2
              "s-1" "Local" tmpConfig) as (Ht & _ & Hc).
  - vm_compute. reflexivity.
  - exact Hr.
  - split; [exact Ht|exact Hc].
Defined.

(** [EnableDriverInstance] and [DisableDriverInstance] ([setEnabled true] and
    [setEnabled false]) on an ID that is in the table always succeed and
    change nothing but the flag of that instance: no driver method is called,
    the registry and the other instances stay, and the instance keeps its
    driver and its configuration.  The last call decides: after two calls in
    a row the manager is the one the second call alone would have given, and
    [IsDriverInstanceEnabled] returns the flag of the second.  On an ID that
    is not in the table both fail and return the manager as it was. *)
Theorem enable_disable_last_wins {D : Type} `{DriverOps D} (dm : DriverManager (D := D))
    (instanceID : string) (b1 b2 : bool) :
  let first := setEnabled b1 dm instanceID in
  let second := setEnabled b2 first.1 instanceID in
  (forall instance,
      dm.(instances) !! instanceID = Some instance ->
      first.2 = None /\ second.2 = None
      /\ second.1 = (setEnabled b2 dm instanceID).1
      /\ second.1.(instances) = <[instanceID := set_enabled b2 instance]> dm.(instances)
      /\ second.1.(calls) = dm.(calls)
      /\ second.1.(registry) = dm.(registry)
      /\ IsDriverInstanceEnabled second.1 instanceID = b2)
  /\ (dm.(instances) !! instanceID = None ->
      first = (dm, Some ("driver instance " +:+ instanceID +:+ " not found"))
      /\ IsDriverInstanceEnabled dm instanceID = false).
Proof.
  intros first second. subst first second. unfold setEnabled, IsDriverInstanceEnabled.
  split.
  - intros instance Hi. rewrite Hi. cbn. rewrite lookup_insert_eq. cbn.
    rewrite lookup_insert_eq, insert_insert_eq. destruct instance; cbn. auto 10.
  - intros Hi. rewrite Hi. auto.
Qed.

(** What [ExecuteDriverOperation] leaves alone.  On a manager whose instances
    are stored under their own IDs, whatever the operation and its parameters:
    the registry is unchanged; the table has the same IDs; every instance
    keeps its name, configuration and enabled flag, and every instance other
    than the one addressed keeps its driver as well; and the driver has been
    called at most once, on the addressed instance.  When the operation
    returns a result, the driver has been called exactly once. *)
Theorem execute_frame {D : Type} `{DriverOps D} (dm : DriverManager (D := D))
    (instanceID operation : string) (params : gmap string json) :
  keyedByID dm ->
  let r := ExecuteDriverOperation dm instanceID operation params in
  r.1.(registry) = dm.(registry)
  /\ dom r.1.(instances) = dom dm.(instances)
  /\ (forall id instance,
        dm.(instances) !! id = Some instance ->
        exists d,
          r.1.(instances) !! id = Some (set_driver d instance)
          /\ (id <> instanceID -> d = instance.(Driver)))
  /\ (r.1.(calls) = dm.(calls)
      \/ exists c, r.1.(calls) = dm.(calls) ++ [c] /\ callInstance c = instanceID)
  /\ (forall v, r.2 = inl v ->
        exists c, r.1.(calls) = dm.(calls) ++ [c] /\ callInstance c = instanceID).
Proof.
  intros Hkey r. subst r.
  destruct (execute_cases dm instanceID operation params)
    as [[Hsame [e He] ]|(inst & c & d & Hi & _ & Hc & Hreg & Htab & Hcalls)].
  - rewrite Hsame, He. split; [reflexivity|]. split; [reflexivity|]. split.
    + intros id instance Hl. exists instance.(Driver).
      rewrite set_driver_same. auto.
    + split; [left; reflexivity|]. intros v [=].
  - rewrite (Hkey _ _ Hi) in Htab, Hc.
    split; [exact Hreg|]. split; [rewrite Htab; apply dom_alter_L|]. split.
    + intros id instance Hl. rewrite Htab.
      destruct (decide (id = instanceID)) as [->|Hne].
      * exists d. rewrite lookup_alter_eq, Hl. cbn. split; [reflexivity|contradiction].
      * exists instance.(Driver). rewrite lookup_alter_ne by congruence.
        rewrite set_driver_same. auto.
    + split; [right; eauto|]. intros v _. eauto.
Qed.

Lemma execute_frame_witness :
  let r := ExecuteDriverOperation oneInstance "s-1" "list" {[ "path" := JStr "/" ]} in
  dom r.1.(instances) = dom oneInstance.(instances)
  /\ exists c, r.1.(calls) = oneInstance.(calls) ++ [c] /\ callInstance c = "s-1".
Proof.
  intros r.
  assert (Hkey : keyedByID oneInstance).
  { assert (Ht : oneInstance.(instances)
                 = {[ "s-1" := {| InstID := "s-1"; InstName := "Local";
                                  Driver := {| failInit := false; failDrop := false;
                                               canGet := false; mounted := "/driver-s-1";
                                               uses := 1 |};
                                  Config := tmpConfig; Enabled := true |} ]})
      by (vm_compute; reflexivity).
    intros id instance Hl. rewrite Ht in Hl.
    apply lookup_singleton_Some in Hl as [<- <-]. reflexivity. }
  destruct (execute_frame oneInstance "s-1" "list" {[ "path" := JStr "/" ]} Hkey)
    as (_ & Hdom & _ & _ & Hok).
  split; [exact Hdom|]. apply (Hok (JArr [JStr "/"])). vm_compute. reflexivity.
Defined.

(** Which driver method an operation reaches, on an enabled instance stored
    under its own ID.  "list" calls [List] on a directory object whose ID,
    name and path are all the [path] parameter, with [Refresh] taken from the
    [refresh] parameter when that is a boolean and false otherwise; "link"
    calls [Link] on a file object built the same way; "get" calls [Get] with
    the path when the driver is a [Getter], and is refused without a call,
    path or no path, when it is not; "other" calls [Other] when the driver
    has that capability, passing the whole parameter map as [Data] and its
    [method] entry (empty when missing or not a string) as [Method].  The
    result is the driver's, and the instance holds the driver as the call
    left it. *)
Theorem execute_dispatch {D : Type} `{DriverOps D} (dm : DriverManager (D := D))
    (instanceID : string) (instance : DriverInstance (D := D))
    (params : gmap string json) (path : string) :
  dm.(instances) !! instanceID = Some instance ->
  instance.(Enabled) = true ->
  instance.(InstID) = instanceID ->
  params !! "path" = Some (JStr path) ->
  let refresh := default false (asBool (default JNull (params !! "refresh"))) in
  let method := default "" (asString (default JNull (params !! "method"))) in
  let object isDir := {| ObjID := path; ObjName := path; ObjPath := path; IsDir := isDir |} in
  let ran c (call : D * (json + error)) (r : DriverManager (D := D) * (json + error)) :=
    r.2 = call.2
    /\ r.1.(calls) = dm.(calls) ++ [c]
    /\ r.1.(instances) = <[instanceID := set_driver call.1 instance]> dm.(instances) in
  ran (CallList instanceID path refresh)
      (drvList instance.(Driver) (object true) {| Refresh := refresh |})
      (ExecuteDriverOperation dm instanceID "list" params)
  /\ ran (CallLink instanceID path) (drvLink instance.(Driver) (object false))
         (ExecuteDriverOperation dm instanceID "link" params)
  /\ (if isGetter instance.(Driver)
      then ran (CallGet instanceID path) (drvGet instance.(Driver) path)
               (ExecuteDriverOperation dm instanceID "get" params)
      else ExecuteDriverOperation dm instanceID "get" params
           = (dm, inr "driver does not support get operation"))
  /\ (if isOther instance.(Driver)
      then ran (CallOther instanceID method)
               (drvOther instance.(Driver) {| OtherMethod := method; OtherData := params |})
               (ExecuteDriverOperation dm instanceID "other" params)
      else ExecuteDriverOperation dm instanceID "other" params
           = (dm, inr "driver does not support other operation")).
Proof.
  intros Hi He Hid Hp refresh method object ran.
  assert (Halter : forall d, alter (set_driver d) instanceID dm.(instances)
                             = <[instanceID := set_driver d instance]> dm.(instances)).
  { intros d. apply map_eq. intros k. destruct (decide (k = instanceID)) as [->|Hne].
    - rewrite lookup_alter_eq, lookup_insert_eq, Hi. reflexivity.
    - rewrite lookup_alter_ne, lookup_insert_ne by congruence. reflexivity. }
  unfold ExecuteDriverOperation, GetDriverInstance, IsDriverInstanceEnabled.
  rewrite Hi, He. cbn [negb].
  split; [|split; [|split] ].
  - destruct (decide ("list" = "list")); [|contradiction].
    unfold executeListOperation. rewrite Hp. cbn [default from_option id asString].
    unfold ran, afterCall, called, set_instances. cbn [fst snd instances calls].
    rewrite Hid, Halter. auto.
  - destruct (decide ("link" = "list")); [discriminate|].
    destruct (decide ("link" = "link")); [|contradiction].
    unfold executeLinkOperation. rewrite Hp. cbn [default from_option id asString].
    unfold ran, afterCall, called, set_instances. cbn [fst snd instances calls].
    rewrite Hid, Halter. auto.
  - destruct (decide ("get" = "list")); [discriminate|].
    destruct (decide ("get" = "link")); [discriminate|].
    destruct (decide ("get" = "get")); [|contradiction].
    unfold executeGetOperation.
    destruct (isGetter instance.(Driver)); cbn [negb]; [|reflexivity].
    rewrite Hp. cbn [default from_option id asString].
    unfold ran, afterCall, called, set_instances. cbn [fst snd instances calls].
    rewrite Hid, Halter. auto.
  - destruct (decide ("other" = "list")); [discriminate|].
    destruct (decide ("other" = "link")); [discriminate|].
    destruct (decide ("other" = "get")); [discriminate|].
    destruct (decide ("other" = "other")); [|contradiction].
    unfold executeOtherOperation.
    destruct (isOther instance.(Driver)); cbn [negb]; [|reflexivity].
    unfold ran, afterCall, called, set_instances. cbn [fst snd instances calls].
    rewrite Hid, Halter. auto.
Qed.

Lemma execute_dispatch_witness :
  (ExecuteDriverOperation oneInstance "s-1" "list"
     (<["refresh" := JBool true]> {[ "path" := JStr "/docs" ]})).1.(calls)
  = oneInstance.(calls) ++ [CallList "s-1" "/docs" true]
  /\ ExecuteDriverOperation oneInstance "s-1" "get" {[ "path" := JStr "/docs" ]}
     = (oneInstance, inr "driver does not support get operation").
Proof.
  pose (instance := {| InstID := "s-1"; InstName := "Local";
                       Driver := {| failInit := false; failDrop := false; canGet := false;
                                    mounted := "/driver-s-1"; uses := 1 |};
                       Config := tmpConfig; Enabled := true |}).
  assert (Hs : oneInstance.(instances) !! "s-1" = Some instance) by (vm_compute; reflexivity).
  assert (Hp1 : (<["refresh" := JBool true]> {[ "path" := JStr "/docs" ]} : gmap string json)
                !! "path" = Some (JStr "/docs")) by (vm_compute; reflexivity).
  assert (Hp2 : ({[ "path" := JStr "/docs" ]} : gmap string json) !! "path"
                = Some (JStr "/docs")) by (vm_compute; reflexivity).
  split.
  - destruct (execute_dispatch oneInstance "s-1" instance _ "/docs" Hs eq_refl eq_refl Hp1)
      as ((_ & Hc & _) & _).
    exact Hc.
  - destruct (execute_dispatch oneInstance "s-1" instance _ "/docs" Hs eq_refl eq_refl Hp2)
      as (_ & _ & Hget & _).
    exact Hget.
Defined.
(* ===================================================================== *)
(** ** Runs of the protocol handler                                       *)
(* ===================================================================== *)

Section ProtocolRunFacts.
Context {D : Type} `{DriverOps D}.
Context (lib : GoLib).
Implicit Types ph : ProtocolHandler (D := D).

Lemma responseTo_error id code message :
  code ∈ [400; 404; 500] -> responseTo id (errorResponse id code message).
Proof.
  intros Hc. unfold responseTo, errorResponse. cbn.
  split; [reflexivity|]. split; [reflexivity|]. split; [reflexivity|].
  split; [reflexivity|]. intros e [= <-]. auto.
Qed.

Lemma responseTo_result id result : responseTo id (resultResponse id result).
Proof.
  unfold responseTo, resultResponse. cbn.
  split; [reflexivity|]. split; [reflexivity|]. split; [reflexivity|].
  split; [reflexivity|]. intros e [=].
Qed.

Lemma send_answered ph0 ph id resp :
  responseTo id resp ->
  ph.(out) = ph0.(out) ->
  ph.(connBroken) = ph0.(connBroken) ->
  (ph.(driverManager) = ph0.(driverManager)
   \/ managerStep ph0.(driverManager) ph.(driverManager)) ->
  answered lib ph0 id (sendMessage lib ph resp).
Proof.
  intros Hresp Hout Hb Hdm. unfold sendMessage, answered.
  destruct (Wire.Marshal lib resp) as [data|] eqn:Hm; [|cbn; auto].
  destruct ph.(connBroken) eqn:Hbr; cbn; [rewrite <- Hb, Hbr; auto|].
  split; [congruence|]. split; [exact Hdm|].
  exists resp, (data +:+ newline). split; [exact Hresp|].
  split; [exists data; auto|]. rewrite Hout. reflexivity.
Qed.

Lemma sendError_answered ph id code message :
  code ∈ [400; 404; 500] -> answered lib ph id (sendError lib ph id code message).
Proof.
  intros Hc. apply send_answered; auto using responseTo_error.
Qed.

Lemma answer_answered ph msg dm' e :
  managerStep ph.(driverManager) dm' ->
  answered lib ph msg.(ID) (answer lib ph msg (dm', e)).
Proof.
  intros Hstep. unfold answer. cbn [fst snd].
  destruct e as [e|]; [apply send_answered|apply send_answered]; cbn;
    auto using responseTo_result.
  apply responseTo_error. apply list_elem_of_In. cbn. auto.
Qed.

Lemma handleRequest_answered ph msg :
  answered lib ph msg.(ID) (handleRequest lib ph msg).
Proof.
  assert (H400 : (400 : Z) ∈ [400; 404; 500]) by (apply list_elem_of_In; cbn; auto).
  assert (H404 : (404 : Z) ∈ [400; 404; 500]) by (apply list_elem_of_In; cbn; auto).
  assert (H500 : (500 : Z) ∈ [400; 404; 500]) by (apply list_elem_of_In; cbn; auto).
  unfold handleRequest.
  repeat (destruct (decide _));
    [| | | | | | | |apply sendError_answered; exact H400].
  - apply send_answered; auto using responseTo_result.
  - unfold handleGetDriverInfo.
    destruct (asString _); [|apply sendError_answered; exact H400].
    destruct (GetDriver _ _); [|apply sendError_answered; exact H404].
    apply send_answered; auto using responseTo_result.
  - unfold handleCreateInstance.
    destruct (asString _); [|apply sendError_answered; exact H400].
    destruct (asString _); [|apply sendError_answered; exact H400].
    rewrite (surjective_pairing (CreateDriverInstance _ _ _ _)).
    apply answer_answered. constructor.
  - unfold handleRemoveInstance.
    destruct (asString _); [|apply sendError_answered; exact H400].
    rewrite (surjective_pairing (RemoveDriverInstance _ _)).
    apply answer_answered. constructor.
  - apply send_answered; auto using responseTo_result.
  - unfold handleEnableInstance.
    destruct (asString _); [|apply sendError_answered; exact H400].
    rewrite (surjective_pairing (EnableDriverInstance _ _)).
    apply answer_answered. constructor.
  - unfold handleDisableInstance.
    destruct (asString _); [|apply sendError_answered; exact H400].
    rewrite (surjective_pairing (DisableDriverInstance _ _)).
    apply answer_answered. constructor.
  - unfold handleExecuteOperation.
    destruct (asString _) as [instanceID|]; [|apply sendError_answered; exact H400].
    destruct (asString _) as [operation|]; [|apply sendError_answered; exact H400].
    pose proof (mstep_execute ph.(driverManager) instanceID operation
                  (default ∅ (asMap (getParam msg.(Params) "params")))) as Hstep.
    destruct (ExecuteDriverOperation _ _ _ _) as [dm' [result|failure] ]; cbn [fst] in Hstep.
    + apply send_answered; cbn; auto using responseTo_result.
    + apply send_answered; cbn; auto using responseTo_error.
Qed.

Lemma processMessage_answered ph line :
  answered lib ph (Wire.Unmarshal lib line zeroMessage).1.(ID) (processMessage lib ph line).
Proof.
  assert (H400 : (400 : Z) ∈ [400; 404; 500]) by (apply list_elem_of_In; cbn; auto).
  unfold processMessage.
  destruct (Wire.Unmarshal lib line zeroMessage) as [msg [err|] ]; cbn [fst].
  - apply sendError_answered, H400.
  - destruct (decide _); [apply handleRequest_answered|].
    destruct (decide _); [|apply sendError_answered, H400].
    apply send_answered; auto using responseTo_result.
Qed.

End ProtocolRunFacts.

(** Every message the handler processes gets exactly one line in return, or
    none when the write fails.  When [processMessage] returns no error, it has
    written one line: a message of type "response" with the id the decoder
    read from the request (the empty id when it read none), with no method
    and no params, and, when it reports an error, with no result and with one
    of the codes 400, 404 and 500.  When it returns an error, it has written
    nothing.  The state of the connection is never changed. *)
Theorem one_response_per_message {D : Type} `{DriverOps D} (lib : GoLib)
    (ph : ProtocolHandler (D := D)) (line : string) :
  let id := (Wire.Unmarshal lib line zeroMessage).1.(ID) in
  let r := processMessage lib ph line in
  r.1.(connBroken) = ph.(connBroken)
  /\ (r.2 = None ->
        exists resp data,
          Wire.Marshal lib resp = Some data
          /\ r.1.(out) = ph.(out) ++ [data +:+ newline]
          /\ resp.(ID) = id /\ resp.(Type_) = "response"
          /\ resp.(Method) = "" /\ resp.(Params) = None
          /\ forall e, resp.(Error) = Some e ->
                       resp.(Result) = JNull /\ e.(Code) ∈ [400; 404; 500])
  /\ (forall err, r.2 = Some err -> r.1.(out) = ph.(out)).
Proof.
  intros id r. destruct (processMessage_answered lib ph line) as (Hb & _ & Hout).
  fold r in Hb, Hout. fold id in Hout.
  split; [exact Hb|]. split.
  - intros Hr. rewrite Hr in Hout.
    destruct Hout as (resp & l & (Hid & Hty & Hm & Hp & He) & (data & Hdata & ->) & Hout).
    exists resp, data. auto 10.
  - intros err Hr. rewrite Hr in Hout. exact Hout.
Qed.

(** The handler reaches the manager only through its exported methods.
    After [processMessage] the manager is as it was or one call of
    CreateDriverInstance, RemoveDriverInstance, EnableDriverInstance,
    DisableDriverInstance or ExecuteDriverOperation further, so what holds
    along every run of the manager holds along every run of the handler; the
    registry is never changed; and the manager is as it was whenever the line
    does not decode, is not of type "request", or names a method other than
    the five that exist to change it. *)
Theorem handler_reaches_manager {D : Type} `{DriverOps D} (lib : GoLib)
    (ph : ProtocolHandler (D := D)) (line : string) :
  let decoded := Wire.Unmarshal lib line zeroMessage in
  let dm := ph.(driverManager) in
  let dm' := (processMessage lib ph line).1.(driverManager) in
  (dm' = dm \/ managerStep dm dm')
  /\ (forall reg, managerReachable reg dm -> managerReachable reg dm')
  /\ (decoded.2 <> None \/ decoded.1.(Type_) <> "request" \/ decoded.1.(Method) ∉ mutating ->
      dm' = dm).
Proof.
  intros decoded dm dm'.
  destruct (processMessage_answered lib ph line) as (_ & Hdm & _). fold dm dm' in Hdm.
  split; [exact Hdm|]. split.
  - intros reg Hreach. destruct Hdm as [->|Hstep]; [exact Hreach|].
    exact (mreach_step reg dm dm' Hreach Hstep).
  - subst dm dm' decoded. unfold processMessage.
    destruct (Wire.Unmarshal lib line zeroMessage) as [msg [err|] ]; cbn [fst snd].
    { intros _. unfold sendError, sendMessage.
      destruct (Wire.Marshal _ _); [destruct ph.(connBroken)|]; reflexivity. }
    assert (Hsend : forall m, (sendMessage lib ph m).1.(driverManager) = ph.(driverManager)).
    { intros m. unfold sendMessage.
      destruct (Wire.Marshal _ _); [destruct ph.(connBroken)|]; reflexivity. }
    intros [Hn|[Hty|Hmeth] ]; [contradiction| |].
    + destruct (decide _); [contradiction|].
      destruct (decide _); apply Hsend.
    + destruct (decide _); [|destruct (decide _); apply Hsend].
      unfold handleRequest.
      destruct (decide _); [apply Hsend|].
      destruct (decide _).
      { unfold handleGetDriverInfo. destruct (asString _); [|apply Hsend].
        destruct (GetDriver _ _); apply Hsend. }
      unfold mutating in Hmeth.
      destruct (decide _) as [Heq|_]; [exfalso; apply Hmeth; rewrite Heq; apply list_elem_of_In; cbn; tauto|].
      destruct (decide _) as [Heq|_]; [exfalso; apply Hmeth; rewrite Heq; apply list_elem_of_In; cbn; tauto|].
      destruct (decide _); [apply Hsend|].
      destruct (decide _) as [Heq|_]; [exfalso; apply Hmeth; rewrite Heq; apply list_elem_of_In; cbn; tauto|].
      destruct (decide _) as [Heq|_]; [exfalso; apply Hmeth; rewrite Heq; apply list_elem_of_In; cbn; tauto|].
      destruct (decide _) as [Heq|_]; [exfalso; apply Hmeth; rewrite Heq; apply list_elem_of_In; cbn; tauto|].
      apply Hsend.
Qed.

Section HandleFacts.
Context {D : Type} `{DriverOps D}.
Context (lib : GoLib).
Implicit Types ph : ProtocolHandler (D := D).

Lemma sendMessage_ok ph m :
  ph.(connBroken) = false ->
  (forall m, is_Some (Wire.Marshal lib m)) ->
  (sendMessage lib ph m).2 = None.
Proof.
  intros Hb Hm. unfold sendMessage.
  destruct (Hm m) as [data ->]. rewrite Hb. reflexivity.
Qed.

Lemma processMessage_ok ph line :
  ph.(connBroken) = false ->
  (forall m, is_Some (Wire.Marshal lib m)) ->
  (processMessage lib ph line).2 = None.
Proof.
  intros Hb Hm.
  unfold processMessage, handleRequest, handlePing, handleListDrivers, handleGetDriverInfo,
    handleCreateInstance, handleRemoveInstance, handleListInstances, handleEnableInstance,
    handleDisableInstance, handleExecuteOperation, answer, sendError.
  repeat match goal with
         | |- context [match ?x with _ => _ end] => destruct x
         end;
    apply sendMessage_ok; assumption.
Qed.

End HandleFacts.

(** [Handle] answers the lines it reads one by one and in order.  What it
    writes is one line per message it has processed, each line a response to
    the message at the same position among the non-blank lines of the input
    and carrying that message's id; blank lines get nothing.  When the
    connection takes every write, every message can be marshalled and the
    context is not cancelled, [Handle] reads to the end of the input, answers
    every non-blank line and returns what the scanner reports. *)
Theorem handle_answers_in_order {D : Type} `{DriverOps D} (lib : GoLib)
    (ph : ProtocolHandler (D := D)) (feed : list Tick) (scanErr : option error) :
  let r := Handle lib ph feed scanErr in
  let asked := filter (fun t => ~ blank lib t) feed in
  exists resps lines,
    r.1.(out) = ph.(out) ++ lines
    /\ Forall2 (lineOf lib) resps lines
    /\ Forall2 (fun t resp => responseTo (requestID lib t) resp)
         (take (length resps) asked) resps
    /\ (length resps <= length asked)%nat
    /\ ((forall t, t ∈ feed -> t.(ctx_done) = false) ->
        ph.(connBroken) = false ->
        (forall m, is_Some (Wire.Marshal lib m)) ->
        r.2 = scanErr /\ length resps = length asked).
Proof.
  intros r asked. subst r asked.
  revert ph. induction feed as [|t rest IH]; intros ph.
  { exists [], []. cbn. rewrite app_nil_r.
    split; [reflexivity|]. split; [constructor|]. split; [constructor|].
    split; [lia|]. auto. }
  cbn [Handle].
  destruct t.(ctx_done) eqn:Hdone.
  { exists [], []. cbn [fst snd length take]. rewrite app_nil_r.
    split; [reflexivity|]. split; [constructor|]. split; [constructor|].
    split; [lia|]. intros Hall.
    rewrite (Hall t) in Hdone by (left). discriminate. }
  destruct (decide (TrimSpace lib t.(text) = "")) as [Hblank|Hnb].
  { rewrite filter_cons_False by (intros Hn; apply Hn; exact Hblank).
    destruct (IH ph) as (resps & lines & Hout & Hl & Hr & Hlen & Hfull).
    exists resps, lines.
    split; [exact Hout|]. split; [exact Hl|]. split; [exact Hr|].
    split; [exact Hlen|]. intros Hall. apply Hfull.
    intros t' Ht'. apply Hall. right. exact Ht'. }
  rewrite filter_cons_True by exact Hnb.
  pose proof (processMessage_answered lib ph (TrimSpace lib t.(text))) as (Hb & _ & Hans).
  pose proof (processMessage_ok lib ph (TrimSpace lib t.(text))) as Hok.
  destruct (processMessage lib ph (TrimSpace lib t.(text))) as [ph' [err|] ];
    cbn [fst snd] in *.
  { exists [], []. cbn [length take]. rewrite app_nil_r.
    split; [exact Hans|]. split; [constructor|]. split; [constructor|].
    split; [lia|]. intros _ Hbr Hm. specialize (Hok Hbr Hm). discriminate. }
  destruct Hans as (resp & line & Hresp & Hline & Hout).
  destruct (IH ph') as (resps & lines & Hout' & Hl & Hr & Hlen & Hfull).
  exists (resp :: resps), (line :: lines).
  split; [rewrite Hout', Hout, <- app_assoc; reflexivity|].
  split; [constructor; assumption|].
  split; [cbn [length take]; constructor; assumption|].
  split; [cbn [length]; lia|].
  intros Hall Hbr Hm.
  destruct Hfull as [Hres Hfull]; [|congruence|exact Hm|].
  { intros t' Ht'. apply Hall. right. exact Ht'. }
  split; [exact Hres|cbn [length]; lia].
Qed.
(* ===================================================================== *)
(** ** Requests and their responses                                       *)
(* ===================================================================== *)

Section CorrelationFacts.
Context (lib : GoLib).

Lemma deliver_other c c' msg s :
  c' <> c -> (Session.deliver c' msg s).(chans) !! c = s.(chans) !! c.
Proof.
  intros Hne. unfold Session.deliver.
  destruct (s.(chans) !! c') as [ch|]; [|reflexivity].
  destruct ch.(closed); [reflexivity|].
  destruct ch.(buf); [reflexivity|].
  cbn. rewrite lookup_insert_ne by exact Hne. reflexivity.
Qed.

Lemma processLine_wire s raw :
  (Session.processLine lib s raw).(wire) = s.(wire).
Proof.
  unfold Session.processLine.
  destruct (decide (TrimSpace lib raw = "")); [reflexivity|].
  destruct (Wire.Unmarshal lib (TrimSpace lib raw) zeroMessage) as [msg [err|] ];
    [reflexivity|].
  destruct (decide (msg.(Type_) = "handshake")); [reflexivity|].
  destruct (decide (msg.(Type_) = "response" /\ msg.(ID) <> "")); [|reflexivity].
  destruct (s.(responses) !! msg.(ID)); [apply deliver_wire|reflexivity].
Qed.

Lemma processLines_wire lines s :
  (fold_left (Session.processLine lib) lines s).(wire) = s.(wire).
Proof.
  revert s. induction lines as [|l lines IH]; intros s; [reflexivity|].
  cbn [fold_left]. rewrite IH. apply processLine_wire.
Qed.

(** A line that is not the response to [id] leaves the channel of [id]
    alone, provided no other ID shares that channel. *)
Lemma processLine_miss s raw id c :
  (forall msg, ~ answers lib id raw msg) ->
  (forall id' c', id' <> id -> s.(responses) !! id' = Some c' -> c' <> c) ->
  id <> "" ->
  (Session.processLine lib s raw).(chans) !! c = s.(chans) !! c.
Proof.
  intros Hmiss Hother Hid. unfold Session.processLine.
  destruct (decide (TrimSpace lib raw = "")) as [|Hnb]; [reflexivity|].
  destruct (Wire.Unmarshal lib (TrimSpace lib raw) zeroMessage) as [msg [err|] ] eqn:Hu;
    [reflexivity|].
  destruct (decide (msg.(Type_) = "handshake")); [reflexivity|].
  destruct (decide (msg.(Type_) = "response" /\ msg.(ID) <> "")) as [ [Hty Hne]|];
    [|reflexivity].
  destruct (s.(responses) !! msg.(ID)) as [c'|] eqn:Hl; [|reflexivity].
  apply deliver_other. apply (Hother msg.(ID)); [|exact Hl].
  intros Heq. apply (Hmiss msg). repeat split; assumption.
Qed.

(** The response to [id] fills the free slot of its channel. *)
Lemma processLine_hit s raw id c msg :
  answers lib id raw msg ->
  id <> "" ->
  s.(responses) !! id = Some c ->
  s.(chans) !! c = Some newChan ->
  (Session.processLine lib s raw).(chans) !! c = Some {| buf := Some msg; closed := false |}.
Proof.
  intros (Hnb & Hu & Hty & Hmid) Hid Hl Hc. unfold Session.processLine.
  destruct (decide (TrimSpace lib raw = "")); [contradiction|].
  rewrite Hu.
  destruct (decide (msg.(Type_) = "handshake")) as [Hh|_]; [rewrite Hty in Hh; discriminate|].
  destruct (decide (msg.(Type_) = "response" /\ msg.(ID) <> "")) as [_|Hn].
  - rewrite Hmid, Hl. unfold Session.deliver. rewrite Hc. cbn.
    apply lookup_insert_eq.
  - exfalso. apply Hn. rewrite Hmid. auto.
Qed.

(** A slot that is taken stays as it is, whatever comes next. *)
Lemma processLine_taken s raw c msg :
  s.(chans) !! c = Some {| buf := Some msg; closed := false |} ->
  (Session.processLine lib s raw).(chans) !! c = Some {| buf := Some msg; closed := false |}.
Proof.
  intros Hc. unfold Session.processLine.
  destruct (decide (TrimSpace lib raw = "")); [exact Hc|].
  destruct (Wire.Unmarshal lib (TrimSpace lib raw) zeroMessage) as [m [err|] ];
    [exact Hc|].
  destruct (decide (m.(Type_) = "handshake")); [exact Hc|].
  destruct (decide (m.(Type_) = "response" /\ m.(ID) <> "")); [|exact Hc].
  destruct (s.(responses) !! m.(ID)) as [c'|]; [|exact Hc].
  destruct (decide (c' = c)) as [->|Hne].
  - unfold Session.deliver. rewrite Hc. cbn. exact Hc.
  - rewrite deliver_other by exact Hne. exact Hc.
Qed.

Lemma processLines_taken lines s c msg :
  s.(chans) !! c = Some {| buf := Some msg; closed := false |} ->
  (fold_left (Session.processLine lib) lines s).(chans) !! c
  = Some {| buf := Some msg; closed := false |}.
Proof.
  revert s. induction lines as [|l lines IH]; intros s Hc; [exact Hc|].
  cbn [fold_left]. apply IH, processLine_taken, Hc.
Qed.

Lemma processLines_miss lines s id c :
  Forall (fun raw => forall msg, ~ answers lib id raw msg) lines ->
  (forall id' c', id' <> id -> s.(responses) !! id' = Some c' -> c' <> c) ->
  id <> "" ->
  (fold_left (Session.processLine lib) lines s).(chans) !! c = s.(chans) !! c.
Proof.
  intros Hall. revert s. induction Hall as [|l lines Hl _ IH]; intros s Hother Hid;
    [reflexivity|].
  cbn [fold_left]. rewrite IH.
  - apply (processLine_miss s l id); assumption.
  - intros id' c'. rewrite processLine_responses. apply Hother.
  - exact Hid.
Qed.

Lemma end_wire early d s id c :
  (Session.sendRequest_end early d s id c).1.(wire) = s.(wire).
Proof.
  unfold Session.sendRequest_end.
  destruct (s.(chans) !! c) as [ [ [response|] cl]|]; try reflexivity.
  destruct early; reflexivity.
Qed.

Lemma genID_nonempty method now : Session.genID method now <> "".
Proof.
  unfold Session.genID. destruct method; cbn; discriminate.
Qed.

(** The state in which [sendRequest] starts to wait. *)
Lemma waiting_state s method params data now :
  tableSound s ->
  s.(connected) = true ->
  s.(broken) = false ->
  Wire.Marshal lib (requestMessage (Session.genID method now) method params) = Some data ->
  exists s1,
    Session.sendRequest_begin lib now s method params
    = Session.Waiting s1 (Session.genID method now) (Session.freshChan s)
    /\ s1.(responses) = <[Session.genID method now := Session.freshChan s]> s.(responses)
    /\ s1.(chans) !! Session.freshChan s = Some newChan
    /\ s1.(wire) = s.(wire) ++ [data +:+ newline]
    /\ (forall id' c', id' <> Session.genID method now ->
          s1.(responses) !! id' = Some c' -> c' <> Session.freshChan s).
Proof.
  intros Hsound Hc Hb Hm.
  unfold Session.sendRequest_begin, Session.IsConnected. rewrite Hc. cbn [negb].
  unfold requestMessage in Hm. rewrite Hm.
  unfold Session.Write. cbn [set_responses set_chans broken]. rewrite Hb.
  eexists. split; [reflexivity|]. cbn.
  split; [reflexivity|]. split; [apply lookup_insert_eq|]. split; [reflexivity|].
  intros id' c' Hne Hl Heq. subst c'.
  rewrite lookup_insert_ne in Hl by congruence.
  destruct (Hsound _ _ Hl) as [ch Hch].
  apply (is_fresh (dom s.(chans))). apply elem_of_dom. eauto.
Qed.

End CorrelationFacts.

(** A request gets the first response that carries its correlation ID.  On a
    connected session whose table is sound, when the request has been written
    and the lines the read loop handles while the caller waits are [pre], then
    [line], then [post], where [line] is a response to the request's ID and no
    line of [pre] is, [sendRequest] returns what [line] carries: its result,
    or "driver manager error <code>: <message>" when it carries an error.
    Lines for other IDs, lines that do not decode and later responses to the
    same ID do not change that.  The request is the one line written, and the
    ID is out of the table again. *)
Theorem response_correlation (lib : GoLib) (env : Session.CallEnv) (s : Session)
    (method : string) (params : option (gmap string json)) (data : string)
    (pre post : list string) (line : string) (msg : Message) :
  let id := Session.genID method env.(Session.now) in
  let r := Session.sendRequest lib env s method params in
  tableSound s ->
  s.(connected) = true ->
  s.(broken) = false ->
  Wire.Marshal lib (requestMessage id method params) = Some data ->
  env.(Session.incoming) = pre ++ line :: post ->
  Forall (fun raw => forall m, ~ answers lib id raw m) pre ->
  answers lib id line msg ->
  env.(Session.early) = false ->
  r.2 = Session.responseResult msg
  /\ r.1.(wire) = s.(wire) ++ [data +:+ newline]
  /\ r.1.(responses) = delete id s.(responses).
Proof.
  intros id r Hsound Hc Hb Hm Hin Hpre Hline Hearly. subst r.
  destruct (waiting_state lib s method params data env.(Session.now) Hsound Hc Hb Hm)
    as (s1 & Hbegin & Hresp & Hchan & Hwire & Hother).
  fold id in Hbegin, Hresp, Hother.
  split; [|split].
  - unfold Session.sendRequest. rewrite Hbegin, Hin, fold_left_app. cbn [fold_left].
    set (s2 := fold_left (Session.processLine lib) pre s1).
    assert (H2 : s2.(chans) !! Session.freshChan s = Some newChan).
    { unfold s2.
      rewrite (processLines_miss lib pre s1 id _ Hpre Hother (genID_nonempty _ _)).
      exact Hchan. }
    assert (H3 : (Session.processLine lib s2 line).(chans) !! Session.freshChan s
                 = Some {| buf := Some msg; closed := false |}).
    { apply (processLine_hit lib s2 line id).
      - exact Hline.
      - apply genID_nonempty.
      - unfold s2. rewrite processLines_responses, Hresp. apply lookup_insert_eq.
      - exact H2. }
    pose proof (processLines_taken lib post _ _ _ H3) as H4.
    unfold Session.sendRequest_end. rewrite H4, Hearly. reflexivity.
  - unfold Session.sendRequest. rewrite Hbegin, end_wire, processLines_wire.
    exact Hwire.
  - apply sendRequest_responses. exact Hc.
Qed.

(** A request on a fresh session, answered after a blank line, a line that
    is not JSON and a response to another request. *)
Lemma response_correlation_witness :
  let env := {| Session.now := 7;
                Session.incoming :=
                  [""; "{not json";
                   dq "{'id':'list_drivers-6','type':'response','result':'stale'}";
                   dq "{'id':'list_drivers-7','type':'response','result':{'Local':{}}}";
                   dq "{'id':'list_drivers-7','type':'response','result':'late'}"];
                Session.early := false; Session.deadline := Session.TimerFired |} in
  (Session.sendRequest goLib env (newSession "dm-1") "list_drivers" None).2
  = inl (JObj [("Local", JObj [])]).
Proof.
  intros env.
  refine (proj1 (response_correlation goLib env (newSession "dm-1") "list_drivers" None
            (dq "{'id':'list_drivers-7','type':'request','method':'list_drivers'}")
            [""; "{not json"; dq "{'id':'list_drivers-6','type':'response','result':'stale'}"]
            [dq "{'id':'list_drivers-7','type':'response','result':'late'}"]
            (dq "{'id':'list_drivers-7','type':'response','result':{'Local':{}}}")
            {| ID := "list_drivers-7"; Type_ := "response"; Method := ""; Params := None;
               Result := JObj [("Local", JObj [])]; Error := None |}
            _ eq_refl eq_refl _ eq_refl _ _ eq_refl)).
  - intros id c Hl. cbn in Hl. rewrite lookup_empty in Hl. discriminate.
  - vm_compute. reflexivity.
  - repeat constructor; intros m (Hnb & Hu & Hty & Hid).
    + apply Hnb. vm_compute. reflexivity.
    + vm_compute in Hu. discriminate Hu.
    + vm_compute in Hu. injection Hu as <-. vm_compute in Hid. discriminate Hid.
  - repeat split; try (vm_compute; reflexivity).
    intros E. vm_compute in E. discriminate E.
Defined.

(** A request that nobody answers ends with its deadline.  On a connected
    session whose table is sound, when the request has been written and none
    of the lines the read loop handles while the caller waits is a response
    to the request's ID, [sendRequest] returns "request timeout", or the
    context's error when the context ended the wait.  Responses to other IDs
    do not complete it. *)
Theorem unanswered_request_times_out (lib : GoLib) (env : Session.CallEnv) (s : Session)
    (method : string) (params : option (gmap string json)) (data : string) :
  let id := Session.genID method env.(Session.now) in
  let r := Session.sendRequest lib env s method params in
  tableSound s ->
  s.(connected) = true ->
  s.(broken) = false ->
  Wire.Marshal lib (requestMessage id method params) = Some data ->
  Forall (fun raw => forall m, ~ answers lib id raw m) env.(Session.incoming) ->
  r.2 = inr (Session.deadlineError env.(Session.deadline))
  /\ r.1.(wire) = s.(wire) ++ [data +:+ newline]
  /\ r.1.(responses) = delete id s.(responses).
Proof.
  intros id r Hsound Hc Hb Hm Hall. subst r.
  destruct (waiting_state lib s method params data env.(Session.now) Hsound Hc Hb Hm)
    as (s1 & Hbegin & Hresp & Hchan & Hwire & Hother).
  fold id in Hbegin, Hresp, Hother.
  assert (Hfree : (fold_left (Session.processLine lib) env.(Session.incoming) s1).(chans)
                  !! Session.freshChan s = Some newChan).
  { rewrite (processLines_miss lib _ s1 id _ Hall Hother (genID_nonempty _ _)).
    exact Hchan. }
  split; [|split].
  - unfold Session.sendRequest. rewrite Hbegin.
    unfold Session.sendRequest_end. rewrite Hfree. reflexivity.
  - unfold Session.sendRequest. rewrite Hbegin, end_wire, processLines_wire.
    exact Hwire.
  - apply sendRequest_responses. exact Hc.
Qed.

(** A request whose only incoming line answers another request. *)
Lemma unanswered_request_times_out_witness :
  let env := {| Session.now := 7;
                Session.incoming :=
                  [dq "{'id':'list_drivers-6','type':'response','result':'stale'}"];
                Session.early := false; Session.deadline := Session.TimerFired |} in
  (Session.sendRequest goLib env (newSession "dm-1") "list_drivers" None).2
  = inr "request timeout".
Proof.
  intros env.
  refine (proj1 (unanswered_request_times_out goLib env (newSession "dm-1") "list_drivers"
            None (dq "{'id':'list_drivers-7','type':'request','method':'list_drivers'}")
            _ eq_refl eq_refl _ _)).
  - intros id c Hl. cbn in Hl. rewrite lookup_empty in Hl. discriminate.
  - vm_compute. reflexivity.
  - repeat constructor. intros m (Hnb & Hu & Hty & Hid).
    vm_compute in Hu. injection Hu as <-. vm_compute in Hid. discriminate Hid.
Defined.

(* ===================================================================== *)
(** ** All drivers of all managers                                        *)
(* ===================================================================== *)

Lemma mergeInto_union (src dst : gmap string json) : mergeInto src dst = src ∪ dst.
Proof.
  unfold mergeInto.
  apply (map_fold_weak_ind (fun r m => r = m ∪ dst)).
  - symmetry. apply (left_id_L ∅ (∪)).
  - intros i x m r _ ->. apply insert_union_l.
Qed.

Section MergeFacts.
(** What one session adds to the result, if anything. *)
Context (contrib : Session -> option (gmap string json)).

#[local] Abbreviation merged :=
  (fold_left (fun acc c => match contrib c with Some m => m ∪ acc | None => acc end)).

Lemma merged_silent (name : string) (l : list Session) (acc : gmap string json) :
  (forall c m, c ∈ l -> contrib c = Some m -> m !! name = None) ->
  merged l acc !! name = acc !! name.
Proof.
  revert acc. induction l as [|c l IH]; intros acc Hall; [reflexivity|].
  cbn [fold_left]. rewrite IH.
  - destruct (contrib c) as [m|] eqn:Hc; [|reflexivity].
    apply lookup_union_r. apply (Hall c m); [left|exact Hc].
  - intros c' m' Hin. apply Hall. right. exact Hin.
Qed.

Lemma merged_last (name : string) (l1 l2 : list Session) (c : Session)
    (m : gmap string json) (v : json) (acc : gmap string json) :
  contrib c = Some m ->
  m !! name = Some v ->
  (forall c' m', c' ∈ l2 -> contrib c' = Some m' -> m' !! name = None) ->
  merged (l1 ++ c :: l2) acc !! name = Some v.
Proof.
  intros Hc Hm Hrest. rewrite fold_left_app. cbn [fold_left]. rewrite Hc.
  rewrite merged_silent by exact Hrest.
  apply lookup_union_Some_l. exact Hm.
Qed.

Lemma merged_dom (name : string) (l : list Session) (acc : gmap string json) :
  is_Some (merged l acc !! name)
  <-> is_Some (acc !! name)
      \/ exists c m, c ∈ l /\ contrib c = Some m /\ is_Some (m !! name).
Proof.
  revert acc. induction l as [|c l IH]; intros acc.
  - cbn. split; [auto|]. intros [Ha|(c & m & Hin & _)]; [exact Ha|].
    apply elem_of_nil in Hin. contradiction.
  - cbn [fold_left]. rewrite IH. clear IH.
    destruct (contrib c) as [m|] eqn:Hc.
    + rewrite lookup_union_is_Some. split.
      * intros [ [Hm|Ha]|(c' & m' & Hin & Hc' & Hm')].
        -- right. exists c, m. split; [left|]. auto.
        -- left. exact Ha.
        -- right. exists c', m'. split; [right; exact Hin|]. auto.
      * intros [Ha|(c' & m' & Hin & Hc' & Hm')]; [auto|].
        apply elem_of_cons in Hin as [->|Hin].
        -- left. left. congruence.
        -- right. eauto.
    + split.
      * intros [Ha|(c' & m' & Hin & Hc' & Hm')]; [auto|].
        right. exists c', m'. split; [right; exact Hin|]. auto.
      * intros [Ha|(c' & m' & Hin & Hc' & Hm')]; [auto|].
        apply elem_of_cons in Hin as [->|Hin]; [congruence|].
        right. eauto.
Qed.

End MergeFacts.

Section PoolDriversFacts.
Context (lib : GoLib) (env : Session -> Session.CallEnv).

(** What the pool's loop takes from one client. *)
Lemma pool_loop_merged (clients : list Session) (acc : gmap string json) :
  (PoolDrivers.GetAllDrivers_loop lib env clients acc).2
  = fold_left
      (fun acc c =>
         match (if Session.IsConnected c
                then match (Client.ListDrivers lib (env c) c).2 with
                     | inl m => Some m
                     | inr _ => None
                     end
                else None) with
         | Some m => m ∪ acc
         | None => acc
         end) clients acc.
Proof.
  revert acc. induction clients as [|c clients IH]; intros acc; [reflexivity|].
  cbn [PoolDrivers.GetAllDrivers_loop fold_left].
  destruct (Session.IsConnected c); cbn [negb].
  - destruct (Client.ListDrivers lib (env c) c) as [c' [m|e] ]; cbn [snd].
    + rewrite <- IH, mergeInto_union.
      destruct (PoolDrivers.GetAllDrivers_loop lib env clients (m ∪ acc)). reflexivity.
    + rewrite <- IH.
      destruct (PoolDrivers.GetAllDrivers_loop lib env clients acc). reflexivity.
  - rewrite <- IH.
    destruct (PoolDrivers.GetAllDrivers_loop lib env clients acc). reflexivity.
Qed.

Lemma pool_reports (c : Session) (name : string) (v : json) :
  PoolDrivers.reports lib env c name v
  <-> exists m,
        (if Session.IsConnected c
         then match (Client.ListDrivers lib (env c) c).2 with
              | inl m => Some m
              | inr _ => None
              end
         else None) = Some m
        /\ m !! name = Some v.
Proof.
  unfold PoolDrivers.reports. split.
  - intros (-> & m & -> & Hm). eauto.
  - intros (m & Hc & Hm). destruct (Session.IsConnected c); [|discriminate].
    split; [reflexivity|].
    destruct (Client.ListDrivers lib (env c) c).2 as [m'|]; [|discriminate].
    injection Hc as ->. eauto.
Qed.

Lemma pool_loop_wire (clients : list Session) (acc : gmap string json) :
  Forall2 (fun c c' => Session.IsConnected c = false -> c' = c) clients
    (PoolDrivers.GetAllDrivers_loop lib env clients acc).1.
Proof.
  revert acc. induction clients as [|c clients IH]; intros acc; [constructor|].
  cbn [PoolDrivers.GetAllDrivers_loop].
  destruct (Session.IsConnected c) eqn:Hc; cbn [negb].
  - destruct (Client.ListDrivers lib (env c) c) as [c' [m|e] ].
    + specialize (IH (mergeInto m acc)).
      destruct (PoolDrivers.GetAllDrivers_loop lib env clients _). cbn in *.
      constructor; [intros Hf; congruence|exact IH].
    + specialize (IH acc).
      destruct (PoolDrivers.GetAllDrivers_loop lib env clients _). cbn in *.
      constructor; [intros Hf; congruence|exact IH].
  - specialize (IH acc).
    destruct (PoolDrivers.GetAllDrivers_loop lib env clients _). cbn in *.
    constructor; [reflexivity|exact IH].
Qed.

End PoolDriversFacts.

(** The pool's [GetAllDrivers] never fails, and its result is the drivers of
    the clients that answered, a later client overriding an earlier one.  A
    driver name is in the result exactly when some connected client's
    [ListDrivers] returned a map that has it; when several do, the
    description is that of the last of them in the order of the pool; and
    a client that is not connected is left exactly as it was, so nothing is
    sent to it. *)
Theorem pool_all_drivers (lib : GoLib) (env : Session -> Session.CallEnv)
    (p : DriverManagerPool) :
  let r := PoolDrivers.GetAllDrivers lib env p in
  exists all,
    r.2 = inl all
    /\ (forall name,
          is_Some (all !! name)
          <-> exists c v, c ∈ p.(pool_clients) /\ PoolDrivers.reports lib env c name v)
    /\ (forall l1 c l2 name v,
          p.(pool_clients) = l1 ++ c :: l2 ->
          PoolDrivers.reports lib env c name v ->
          (forall c' v', c' ∈ l2 -> ~ PoolDrivers.reports lib env c' name v') ->
          all !! name = Some v)
    /\ Forall2 (fun c c' => Session.IsConnected c = false -> c' = c)
         p.(pool_clients) r.1.(pool_clients).
Proof.
  intros r. subst r. unfold PoolDrivers.GetAllDrivers.
  pose proof (pool_loop_merged lib env p.(pool_clients) ∅) as Hm.
  pose proof (pool_loop_wire lib env p.(pool_clients) ∅) as Hw.
  destruct (PoolDrivers.GetAllDrivers_loop lib env p.(pool_clients) ∅) as [cs all].
  cbn [fst snd pool_clients] in *. exists all. split; [reflexivity|]. subst all.
  split; [|split; [|exact Hw] ].
  - intros name. rewrite merged_dom, lookup_empty. split.
    + intros [ [x Hx]|(c & m & Hin & Hc & [v Hv])]; [discriminate|].
      exists c, v. split; [exact Hin|]. apply pool_reports. eauto.
    + intros (c & v & Hin & Hrep). right.
      apply pool_reports in Hrep as (m & Hc & Hv). exists c, m. eauto.
  - intros l1 c l2 name v -> Hrep Hrest.
    apply pool_reports in Hrep as (m & Hc & Hv).
    apply (merged_last _ name l1 l2 c m v ∅ Hc Hv).
    intros c' m' Hin Hc'.
    destruct (m' !! name) as [v'|] eqn:Hv'; [|reflexivity].
    exfalso. apply (Hrest c' v' Hin). apply pool_reports. eauto.
Qed.

Section ServerDriversFacts.
Context (lib : GoLib) (order : list string) (env : Session -> Session.CallEnv).

(** What the listener's loop takes from one manager. *)
Lemma server_loop_merged (managers : list Session) (acc : gmap string json) :
  (ServerDrivers.GetAllDrivers_loop lib env managers acc).2
  = fold_left
      (fun acc m =>
         match (match (Session.sendRequest lib (env m) m "list_drivers" None).2 with
                | inl drivers => asMap drivers
                | inr _ => None
                end) with
         | Some driversMap => driversMap ∪ acc
         | None => acc
         end) managers acc.
Proof.
  revert acc. induction managers as [|m managers IH]; intros acc; [reflexivity|].
  cbn [ServerDrivers.GetAllDrivers_loop fold_left].
  destruct (Session.sendRequest lib (env m) m "list_drivers" None) as [m' [drivers|e] ];
    cbn [snd].
  - rewrite <- IH. destruct (asMap drivers) as [driversMap|].
    + rewrite mergeInto_union.
      destruct (ServerDrivers.GetAllDrivers_loop lib env managers _). reflexivity.
    + destruct (ServerDrivers.GetAllDrivers_loop lib env managers _). reflexivity.
  - rewrite <- IH.
    destruct (ServerDrivers.GetAllDrivers_loop lib env managers _). reflexivity.
Qed.

Lemma server_reports (m : Session) (name : string) (v : json) :
  ServerDrivers.reports lib env m name v
  <-> exists driversMap,
        (match (Session.sendRequest lib (env m) m "list_drivers" None).2 with
         | inl drivers => asMap drivers
         | inr _ => None
         end) = Some driversMap
        /\ driversMap !! name = Some v.
Proof.
  unfold ServerDrivers.reports. split.
  - intros (drivers & driversMap & -> & Hm & Hv). eauto.
  - intros (driversMap & Hc & Hv).
    destruct (Session.sendRequest lib (env m) m "list_drivers" None).2 as [drivers|];
      [|discriminate].
    eauto.
Qed.

Lemma stop_no_managers (srv : DriverManagerServer) :
  Server.GetConnectedManagers order (Server.Stop srv) = [].
Proof.
  unfold Server.GetConnectedManagers, Server.Stop. cbn [clients].
  assert (Hall : Forall (fun c => Session.IsConnected c <> true)
                   (omap (fun k => (Session.Close <$> srv.(clients)) !! k) order)).
  { apply list.Forall_forall. intros c Hin.
    apply list_elem_of_omap in Hin as (k & _ & Hk). rewrite lookup_fmap in Hk.
    destruct (srv.(clients) !! k) as [c0|]; [|discriminate].
    injection Hk as <-. cbn. discriminate. }
  induction Hall as [|c l Hc _ IH]; [reflexivity|].
  rewrite filter_cons_False by exact Hc. exact IH.
Qed.

End ServerDriversFacts.

(** The listener's [GetAllDrivers] never fails, and its result is the
    drivers of the connected managers that answered [list_drivers] with a
    map, a manager visited later overriding one visited earlier.  A driver
    name is in the result exactly when some connected manager reports it; when
    several do, the description is that of the last of them in the order in
    which the range over the clients map visited them. *)
Theorem server_all_drivers (lib : GoLib) (order : list string)
    (env : Session -> Session.CallEnv) (srv : DriverManagerServer) :
  let r := ServerDrivers.GetAllDrivers lib order env srv in
  let managers := Server.GetConnectedManagers order srv in
  exists all,
    r.2 = inl all
    /\ (forall name,
          is_Some (all !! name)
          <-> exists m v, m ∈ managers /\ ServerDrivers.reports lib env m name v)
    /\ (forall l1 m l2 name v,
          managers = l1 ++ m :: l2 ->
          ServerDrivers.reports lib env m name v ->
          (forall m' v', m' ∈ l2 -> ~ ServerDrivers.reports lib env m' name v') ->
          all !! name = Some v).
Proof.
  intros r managers. subst r. unfold ServerDrivers.GetAllDrivers. fold managers.
  pose proof (server_loop_merged lib env managers ∅) as Hm.
  destruct (ServerDrivers.GetAllDrivers_loop lib env managers ∅) as [ms all].
  cbn [fst snd] in *. exists all. split; [reflexivity|]. subst all. split.
  - intros name. rewrite merged_dom, lookup_empty. split.
    + intros [ [x Hx]|(c & m & Hin & Hc & [v Hv])]; [discriminate|].
      exists c, v. split; [exact Hin|]. apply server_reports. eauto.
    + intros (c & v & Hin & Hrep). right.
      apply server_reports in Hrep as (m & Hc & Hv). exists c, m. eauto.
  - intros l1 c l2 name v -> Hrep Hrest.
    apply server_reports in Hrep as (m & Hc & Hv).
    apply (merged_last _ name l1 l2 c m v ∅ Hc Hv).
    intros c' m' Hin Hc'.
    destruct (m' !! name) as [v'|] eqn:Hv'; [|reflexivity].
    exfalso. apply (Hrest c' v' Hin). apply server_reports. eauto.
Qed.

(** After [Stop] the listener serves nothing.  Every connection is still in
    the clients map, closed; no manager counts as connected, whatever the
    order of the range; so [CreateDriverInstance] fails with "no connected
    driver managers", [GetDriverInfo] and [ExecuteDriverOperation] with their
    aggregate errors, [GetAllDrivers] returns the empty map, and none of them
    writes to any connection.  A second [Stop] changes nothing. *)
Theorem after_stop (lib : GoLib) (order : list string) (env : Session -> Session.CallEnv)
    (srv : DriverManagerServer) :
  let srv' := Server.Stop srv in
  srv'.(cancelled) = true
  /\ dom srv'.(clients) = dom srv.(clients)
  /\ (forall id c, srv'.(clients) !! id = Some c ->
        c.(connected) = false
        /\ exists c0, srv.(clients) !! id = Some c0 /\ c.(wire) = c0.(wire))
  /\ Server.GetConnectedManagers order srv' = []
  /\ (forall instanceID driverName config,
        Server.CreateDriverInstance lib order env srv' instanceID driverName config
        = (srv', Some "no connected driver managers"))
  /\ (forall driverName,
        Server.GetDriverInfo lib order env srv' driverName
        = (srv', inr ("driver " +:+ driverName +:+ " not found in any connected manager")))
  /\ (forall instanceID operation params,
        Server.ExecuteDriverOperation lib order env srv' instanceID operation params
        = (srv', inr "failed to execute operation on any manager"))
  /\ ServerDrivers.GetAllDrivers lib order env srv' = (srv', inl ∅)
  /\ Server.Stop srv' = srv'.
Proof.
  intros srv'. pose proof (stop_no_managers order srv) as Hnone. fold srv' in Hnone.
  split; [reflexivity|]. split; [apply dom_fmap_L|]. split.
  { intros id c Hl. unfold srv', Server.Stop in Hl. cbn [clients] in Hl.
    rewrite lookup_fmap in Hl.
    destruct (srv.(clients) !! id) as [c0|]; [|discriminate].
    injection Hl as <-. split; [reflexivity|]. eauto. }
  split; [exact Hnone|]. split.
  { intros instanceID driverName config. unfold Server.CreateDriverInstance.
    rewrite Hnone. reflexivity. }
  split.
  { intros driverName. unfold Server.GetDriverInfo. rewrite Hnone. reflexivity. }
  split.
  { intros instanceID operation params. unfold Server.ExecuteDriverOperation.
    rewrite Hnone. reflexivity. }
  split.
  { unfold ServerDrivers.GetAllDrivers. rewrite Hnone. reflexivity. }
  unfold srv', Server.Stop. cbn [clients]. f_equal.
  rewrite <- map_fmap_compose. apply map_fmap_ext. reflexivity.
Qed.
(* ===================================================================== *)
(** ** Driver registry: display names and option lists                    *)
(* ===================================================================== *)

Section Utf8Facts.
Import Utf8.

Lemma byteZ_range (c : ascii) : 0 <= byteZ c < 256.
Proof.
  unfold byteZ. pose proof (N_ascii_bounded c) as Hb. lia.
Qed.

Lemma byte_byteZ (c : ascii) : byte (byteZ c) = c.
Proof. unfold byte, byteZ. rewrite N2Z.id. apply ascii_N_embedding. Qed.

Lemma byteZ_byte (n : Z) : 0 <= n < 256 -> byteZ (byte n) = n.
Proof.
  intros Hn. unfold byte, byteZ. rewrite N_ascii_embedding by lia. lia.
Qed.

Lemma byteZ_inj (c d : ascii) : byteZ c = byteZ d -> c = d.
Proof. intros Heq. rewrite <- (byte_byteZ c), <- (byte_byteZ d), Heq. reflexivity. Qed.

Lemma runeString_ascii (r : Z) : 0 <= r < 128 -> runeString r = String (byte r) "".
Proof.
  intros Hr. unfold runeString.
  destruct (Z.leb_spec 0 r); [|lia]. destruct (Z.ltb_spec r 128); [|lia]. reflexivity.
Qed.

Lemma runeString_nonempty (r : Z) : runeString r <> "".
Proof.
  unfold runeString, encode3.
  repeat match goal with |- context [if ?b then _ else _] => destruct b end; discriminate.
Qed.

(** The text before the first byte that is not ASCII is read byte by byte. *)
Lemma runes_ascii_app (a s : string) :
  isAscii a = true ->
  runes (a +:+ s) = (byteZ <$> list_ascii_of_string a) ++ runes s.
Proof.
  induction a as [|c a IH]; intros Ha; [reflexivity|].
  cbn [isAscii] in Ha. apply andb_true_iff in Ha as [Hc Ha].
  cbn [list_ascii_of_string]. rewrite fmap_cons. cbn [app].
  change (String c a +:+ s) with (String c (a +:+ s)). cbn [runes].
  rewrite Hc, (IH Ha). reflexivity.
Qed.

Lemma runes_ascii (a : string) :
  isAscii a = true -> runes a = byteZ <$> list_ascii_of_string a.
Proof.
  intros Ha. pose proof (runes_ascii_app a "" Ha) as Hr.
  cbn [runes] in Hr. rewrite app_nil_r in Hr. rewrite <- Hr. f_equal.
  clear. induction a as [|c a IH]; [reflexivity|].
  change (String c a +:+ "") with (String c (a +:+ "")). rewrite <- IH. reflexivity.
Qed.

Lemma lacks_app (c : ascii) (s t : string) :
  lacks c (s +:+ t) = lacks c s && lacks c t.
Proof.
  induction s as [|c' s IH]; [reflexivity|].
  change (String c' s +:+ t) with (String c' (s +:+ t)). cbn [lacks].
  rewrite IH, andb_assoc. reflexivity.
Qed.

Lemma byte_other (n : Z) (c : ascii) :
  0 <= n < 256 -> n <> byteZ c -> Ascii.eqb (byte n) c = false.
Proof.
  intros Hn Hne. apply Ascii.eqb_neq. intros Heq. apply Hne.
  rewrite <- Heq. symmetry. apply byteZ_byte. exact Hn.
Qed.

Lemma byte_high (n : Z) (c : ascii) :
  byteZ c < 128 -> 128 <= n < 256 -> Ascii.eqb (byte n) c = false.
Proof. intros Hc Hn. apply byte_other; lia. Qed.

(** A rune other than an ASCII character [c] is written without the byte
    [c]: the bytes of a longer sequence are all above 127. *)
Lemma runeString_lacks (r : Z) (c : ascii) :
  byteZ c < 128 -> r <> byteZ c -> lacks c (runeString r) = true.
Proof.
  intros Hc Hne.
  assert (H3 : forall k, 2048 <= k < 65536 -> lacks c (encode3 k) = true).
  { intros k Hk. unfold encode3. cbn [lacks].
    rewrite !byte_high; [reflexivity|exact Hc| |exact Hc| |exact Hc|];
      Z.to_euclidean_division_equations; lia. }
  unfold runeString.
  destruct ((0 <=? r) && (r <? 128)) eqn:H1.
  { apply andb_true_iff in H1 as [Ha Hb]. apply Z.leb_le in Ha. apply Z.ltb_lt in Hb.
    cbn [lacks]. rewrite byte_other; [reflexivity|lia|exact Hne]. }
  destruct ((128 <=? r) && (r <? 2048)) eqn:H2.
  { apply andb_true_iff in H2 as [Ha Hb]. apply Z.leb_le in Ha. apply Z.ltb_lt in Hb.
    cbn [lacks].
    rewrite !byte_high; [reflexivity|exact Hc| |exact Hc|];
      Z.to_euclidean_division_equations; lia. }
  destruct (((2048 <=? r) && (r <? 55296)) || ((57344 <=? r) && (r <? 65536))) eqn:H4.
  { apply H3. apply orb_true_iff in H4 as [H4|H4];
      apply andb_true_iff in H4 as [Ha Hb]; apply Z.leb_le in Ha; apply Z.ltb_lt in Hb; lia. }
  destruct ((65536 <=? r) && (r <=? 1114111)) eqn:H5.
  { apply andb_true_iff in H5 as [Ha Hb]. apply Z.leb_le in Ha. apply Z.leb_le in Hb.
    cbn [lacks].
    rewrite !byte_high; [reflexivity|exact Hc| |exact Hc| |exact Hc| |exact Hc|];
      Z.to_euclidean_division_equations; lia. }
  apply H3. unfold RuneError. lia.
Qed.

End Utf8Facts.

Section OptionFacts.
Import Utf8.

Lemma app_empty (s t : string) : s +:+ t = "" -> s = "" /\ t = "".
Proof. destruct s; [auto|discriminate]. Qed.

(** The pieces [parseOptions] has found, and the piece it is reading, are
    never empty and never hold a comma. *)
Lemma optionsLoop_pieces (chars : list Z) (result : list string) (current : string) :
  Forall (fun o => o <> "" /\ lacks "," o = true) result ->
  lacks "," current = true ->
  Forall (fun o => o <> "" /\ lacks "," o = true)
    (Registry.optionsLoop chars result current).1
  /\ lacks "," (Registry.optionsLoop chars result current).2 = true.
Proof.
  revert result current. induction chars as [|char rest IH]; intros result current Hr Hc;
    [auto|].
  cbn [Registry.optionsLoop].
  destruct (Z.eqb_spec char 44) as [->|Hne].
  - destruct (decide (current <> "")) as [Hcur|_].
    + apply IH; [|reflexivity]. apply Forall_app. split; [exact Hr|].
      constructor; [auto|constructor].
    + apply IH; assumption.
  - apply IH; [exact Hr|]. rewrite lacks_app, Hc.
    apply runeString_lacks; [reflexivity|exact Hne].
Qed.

(** An ASCII piece without a comma is read into [current] as it is. *)
Lemma optionsLoop_piece (p : string) (rest : list Z) (result : list string)
    (current : string) :
  isAscii p = true ->
  lacks "," p = true ->
  Registry.optionsLoop ((byteZ <$> list_ascii_of_string p) ++ rest) result current
  = Registry.optionsLoop rest result (current +:+ p).
Proof.
  revert current. induction p as [|c p IH]; intros current Ha Hl.
  - cbn. rewrite app_empty_r. reflexivity.
  - cbn [isAscii] in Ha. apply andb_true_iff in Ha as [Hc Ha]. apply Z.ltb_lt in Hc.
    cbn [lacks] in Hl. apply andb_true_iff in Hl as [Hne Hl].
    apply negb_true_iff, Ascii.eqb_neq in Hne.
    cbn [list_ascii_of_string]. rewrite fmap_cons. cbn [app Registry.optionsLoop].
    destruct (Z.eqb_spec (byteZ c) 44) as [Heq|_].
    { exfalso. apply Hne. apply byteZ_inj. rewrite Heq. reflexivity. }
    rewrite runeString_ascii by (pose proof (byteZ_range c); lia).
    rewrite byte_byteZ.
    rewrite (IH (current +:+ String c "") Ha Hl), string_app_assoc. reflexivity.
Qed.

Lemma optionsLoop_concat (hd : string) (tl : list string) (result : list string)
    (current : string) :
  Forall (fun p => isAscii p = true /\ lacks "," p = true) (hd :: tl) ->
  (let '(result', current') :=
     Registry.optionsLoop (runes (String.concat "," (hd :: tl))) result current in
   if decide (current' <> "") then result' ++ [current'] else result')
  = result ++ filter (fun p => p <> "") ((current +:+ hd) :: tl).
Proof.
  revert hd result current. induction tl as [|q tl IH]; intros hd result current Hall.
  - apply Forall_cons in Hall as [ [Ha Hl] _]. cbn [String.concat].
    rewrite (runes_ascii hd Ha).
    pose proof (optionsLoop_piece hd [] result current Ha Hl) as Hp.
    rewrite app_nil_r in Hp. rewrite Hp. cbn [Registry.optionsLoop].
    destruct (decide (current +:+ hd <> "")) as [Hne|He].
    + rewrite filter_cons_True by exact Hne. reflexivity.
    + rewrite filter_cons_False by exact He. rewrite app_nil_r. reflexivity.
  - apply Forall_cons in Hall as [ [Ha Hl] Hall].
    change (String.concat "," (hd :: q :: tl))
      with (hd +:+ String "," (String.concat "," (q :: tl))).
    rewrite (runes_ascii_app hd _ Ha). cbn [runes].
    change (byteZ "," <? 128) with true. cbn iota.
    rewrite (optionsLoop_piece hd _ result current Ha Hl).
    change (byteZ ",") with 44. cbn [Registry.optionsLoop]. change (44 =? 44) with true.
    cbn iota.
    destruct (decide (current +:+ hd <> "")) as [Hne|He].
    + rewrite (IH q (result ++ [current +:+ hd]) "" Hall).
      rewrite (filter_cons_True _ (current +:+ hd)) by exact Hne.
      rewrite <- app_assoc. reflexivity.
    + rewrite (IH q result (current +:+ hd) Hall).
      rewrite (filter_cons_False _ (current +:+ hd)) by exact He.
      assert (Hc : current +:+ hd = "") by (destruct (decide (current +:+ hd = "")); tauto).
      rewrite Hc. reflexivity.
Qed.

End OptionFacts.

(** The pieces [parseOptions] returns are never empty and never hold a
    comma, whatever the input (ASCII or not, well-formed UTF-8 or not). *)
Theorem parse_options_pieces (options : string) :
  Forall (fun o => o <> "" /\ Utf8.lacks "," o = true) (Registry.parseOptions options).
Proof.
  unfold Registry.parseOptions.
  destruct (decide (options = "")); [constructor|].
  pose proof (optionsLoop_pieces (Utf8.runes options) [] "" (Forall_nil_2 _) eq_refl)
    as [Hr Hc].
  destruct (Registry.optionsLoop (Utf8.runes options) [] "") as [result current].
  cbn [fst snd] in *.
  destruct (decide (current <> "")) as [Hne|_]; [|exact Hr].
  apply Forall_app. split; [exact Hr|]. constructor; [auto|constructor].
Qed.

(** [parseOptions] splits at commas and drops the empty pieces: for ASCII
    pieces without a comma, the pieces joined with commas are read back as
    the pieces that are not empty, in order.  So leading, trailing and
    repeated commas do not matter, and the empty string and a string of
    commas alone give no option at all. *)
Theorem parse_options_split (pieces : list string) :
  Forall (fun p => Utf8.isAscii p = true /\ Utf8.lacks "," p = true) pieces ->
  Registry.parseOptions (String.concat "," pieces) = filter (fun p => p <> "") pieces.
Proof.
  intros Hall. destruct pieces as [|hd tl]; [reflexivity|].
  pose proof (optionsLoop_concat hd tl [] "" Hall) as Hc.
  cbn [app] in Hc. change ("" +:+ hd) with hd in Hc.
  unfold Registry.parseOptions.
  destruct (decide (String.concat "," (hd :: tl) = "")) as [He|_]; [|exact Hc].
  rewrite He in Hc. cbn in Hc. exact Hc.
Qed.

(** The option list of the item [webdav_policy], and the same pieces with
    commas to spare. *)
Lemma parse_options_split_witness :
  Registry.parseOptions "302_redirect,use_proxy_url,native_proxy"
  = ["302_redirect"; "use_proxy_url"; "native_proxy"]
  /\ Registry.parseOptions ",302_redirect,,use_proxy_url,native_proxy,"
     = ["302_redirect"; "use_proxy_url"; "native_proxy"].
Proof.
  split.
  - apply (parse_options_split ["302_redirect"; "use_proxy_url"; "native_proxy"]).
    repeat constructor.
  - apply (parse_options_split [""; "302_redirect"; ""; "use_proxy_url"; "native_proxy"; ""]).
    repeat constructor.
Defined.

Section DisplayFacts.
Import Utf8.

(** What has been written stays in front. *)
Lemma displayLoop_result (chars : list Z) (capitalize : bool) (result : string) :
  Registry.displayLoop chars capitalize result
  = result +:+ Registry.displayLoop chars capitalize "".
Proof.
  revert capitalize result. induction chars as [|char rest IH]; intros capitalize result.
  - cbn. rewrite app_empty_r. reflexivity.
  - cbn [Registry.displayLoop].
    destruct (char =? 95).
    + rewrite (IH true (result +:+ " ")), (IH true ("" +:+ " ")), string_app_assoc.
      reflexivity.
    + destruct capitalize.
      * rewrite (IH false (result +:+ _)), (IH false ("" +:+ _)), string_app_assoc.
        reflexivity.
      * rewrite (IH false (result +:+ _)), (IH false ("" +:+ _)), string_app_assoc.
        reflexivity.
Qed.

(** An underscore ends a word, whatever came before it. *)
Lemma displayLoop_underscore (l1 l2 : list Z) (capitalize : bool) :
  Registry.displayLoop (l1 ++ 95 :: l2) capitalize ""
  = Registry.displayLoop l1 capitalize "" +:+ " " +:+ Registry.displayLoop l2 true "".
Proof.
  revert capitalize. induction l1 as [|char l1 IH]; intros capitalize.
  - cbn [app Registry.displayLoop]. change (95 =? 95) with true. cbn iota.
    rewrite displayLoop_result. reflexivity.
  - cbn [app Registry.displayLoop].
    destruct (char =? 95).
    + rewrite displayLoop_result, (IH true), (displayLoop_result l1 true ("" +:+ " ")).
      rewrite !string_app_assoc. reflexivity.
    + destruct capitalize.
      * rewrite displayLoop_result, (IH false), (displayLoop_result l1 false ("" +:+ _)).
        rewrite !string_app_assoc. reflexivity.
      * rewrite displayLoop_result, (IH false), (displayLoop_result l1 false ("" +:+ _)).
        rewrite !string_app_assoc. reflexivity.
Qed.

(** After its first character, an ASCII word without an underscore is
    copied. *)
Lemma displayLoop_copy (w : string) :
  isAscii w = true ->
  lacks "_" w = true ->
  Registry.displayLoop (byteZ <$> list_ascii_of_string w) false "" = w.
Proof.
  induction w as [|c w IH]; intros Ha Hl; [reflexivity|].
  cbn [isAscii] in Ha. apply andb_true_iff in Ha as [Hc Ha]. apply Z.ltb_lt in Hc.
  cbn [lacks] in Hl. apply andb_true_iff in Hl as [Hne Hl].
  apply negb_true_iff, Ascii.eqb_neq in Hne.
  cbn [list_ascii_of_string]. rewrite fmap_cons. cbn [Registry.displayLoop].
  destruct (Z.eqb_spec (byteZ c) 95) as [Heq|_].
  { exfalso. apply Hne. apply byteZ_inj. rewrite Heq. reflexivity. }
  rewrite runeString_ascii by (pose proof (byteZ_range c); lia).
  rewrite byte_byteZ, displayLoop_result, (IH Ha Hl). reflexivity.
Qed.

End DisplayFacts.

(** [convertToDisplayName] works word by word.  The empty name gives the
    empty string.  An underscore after an ASCII prefix becomes a space, and
    what precedes and what follows it are converted on their own.  A word, an
    ASCII string without an underscore, is copied except for its first
    character, which is replaced by the character 32 code points below it; a
    first character below the space, for which there is no such character,
    becomes U+FFFD.  The character 32 below is the capital for a lower-case
    letter, one of the characters from the exclamation mark to the colon for
    a capital letter, and a control character for a digit: "root_folder_path"
    becomes "Root Folder Path", and "Abc" becomes "!bc". *)
Theorem display_name_by_words :
  Registry.convertToDisplayName "" = ""
  /\ (forall a b,
        Utf8.isAscii a = true ->
        Registry.convertToDisplayName (a +:+ String "_" b)
        = Registry.convertToDisplayName a +:+ " " +:+ Registry.convertToDisplayName b)
  /\ (forall c w,
        Utf8.isAscii (String c w) = true ->
        Utf8.lacks "_" (String c w) = true ->
        Registry.convertToDisplayName (String c w)
        = (if 32 <=? Utf8.byteZ c
           then String (Utf8.byte (Utf8.byteZ c - 32)) ""
           else Utf8.encode3 Utf8.RuneError) +:+ w)
  /\ (forall c, 97 <= Utf8.byteZ c <= 122 ->
                65 <= Utf8.byteZ (Utf8.byte (Utf8.byteZ c - 32)) <= 90)
  /\ (forall c, 65 <= Utf8.byteZ c <= 90 ->
                33 <= Utf8.byteZ (Utf8.byte (Utf8.byteZ c - 32)) <= 58)
  /\ (forall c, 48 <= Utf8.byteZ c <= 57 ->
                16 <= Utf8.byteZ (Utf8.byte (Utf8.byteZ c - 32)) <= 25)
  /\ Registry.convertToDisplayName "root_folder_path" = "Root Folder Path"
  /\ Registry.convertToDisplayName "Abc" = "!bc".
Proof.
  split; [reflexivity|]. split; [|split; [|split; [|split; [|split; [|split] ] ] ] ].
  - intros a b Ha. unfold Registry.convertToDisplayName.
    rewrite (runes_ascii_app a _ Ha), (runes_ascii a Ha). cbn [Utf8.runes].
    change (Utf8.byteZ "_" <? 128) with true. cbn iota.
    change (Utf8.byteZ "_") with 95. apply displayLoop_underscore.
  - intros c w Ha Hl. unfold Registry.convertToDisplayName.
    rewrite (runes_ascii _ Ha).
    cbn [Utf8.isAscii] in Ha. apply andb_true_iff in Ha as [Hc Ha]. apply Z.ltb_lt in Hc.
    cbn [Utf8.lacks] in Hl. apply andb_true_iff in Hl as [Hne Hl].
    apply negb_true_iff, Ascii.eqb_neq in Hne.
    cbn [list_ascii_of_string]. rewrite fmap_cons. cbn [Registry.displayLoop].
    destruct (Z.eqb_spec (Utf8.byteZ c) 95) as [Heq|_].
    { exfalso. apply Hne. apply byteZ_inj. rewrite Heq. reflexivity. }
    rewrite displayLoop_result, (displayLoop_copy w Ha Hl). f_equal.
    pose proof (byteZ_range c) as Hr.
    destruct (Z.leb_spec 32 (Utf8.byteZ c)) as [Hge|Hlt].
    + rewrite runeString_ascii by lia. reflexivity.
    + unfold Utf8.runeString.
      destruct (Z.leb_spec 0 (Utf8.byteZ c - 32)); [lia|]. cbn [andb].
      destruct (Z.leb_spec 128 (Utf8.byteZ c - 32)); [lia|]. cbn [andb].
      destruct (Z.leb_spec 2048 (Utf8.byteZ c - 32)); [lia|].
      destruct (Z.leb_spec 57344 (Utf8.byteZ c - 32)); [lia|]. cbn [andb orb].
      destruct (Z.leb_spec 65536 (Utf8.byteZ c - 32)); [lia|]. reflexivity.
  - intros c Hc. rewrite byteZ_byte by lia. lia.
  - intros c Hc. rewrite byteZ_byte by lia. lia.
  - intros c Hc. rewrite byteZ_byte by lia. lia.
  - vm_compute. reflexivity.
  - vm_compute. reflexivity.
Qed.

Example display_names :
  Registry.convertToDisplayName "root_folder_path" = "Root Folder Path"
  /\ Registry.convertToDisplayName "302_redirect"
     = String "019" "02 Redirect".
Proof. split; vm_compute; reflexivity. Qed.
(* ===================================================================== *)
(** ** The items of a driver: internal/op                                 *)
(* ===================================================================== *)

(** The common items are consistent with each other, whatever the driver's
    configuration.  No two of them have the same name, so the translation
    tables and the settings form, which are keyed by item name, hold one entry
    for each.  An item that lists options is a select item, and its
    default, when it has one, is one of the options [parseOptions] reads from
    the list.  A required item has a default, except for [mount_path], which
    the user must fill in.  And there is always a [webdav_policy] item,
    required, with its default and "native_proxy" among its options. *)
Theorem main_items_consistent (ct : conf.Types) (config : driver.Config.t) :
  NoDup (driver.Item.Name <$> Op.getMainItems ct config)
  /\ Forall (fun item =>
            (item.(driver.Item.Options) <> "" ->
               item.(driver.Item.Type_) = conf.TypeSelect ct
               /\ (item.(driver.Item.Default) = ""
                   \/ item.(driver.Item.Default)
                        ∈ Registry.parseOptions item.(driver.Item.Options)))
            /\ (item.(driver.Item.Required) = true ->
                  item.(driver.Item.Name) = "mount_path"
                  \/ item.(driver.Item.Default) <> ""))
         (Op.getMainItems ct config)
  /\ exists item,
       item ∈ Op.getMainItems ct config
       /\ item.(driver.Item.Name) = "webdav_policy"
       /\ item.(driver.Item.Required) = true
       /\ item.(driver.Item.Default) ∈ Registry.parseOptions item.(driver.Item.Options)
       /\ "native_proxy" ∈ Registry.parseOptions item.(driver.Item.Options).
Proof.
  destruct config as [name localSort onlyLocal onlyProxy noCache root alert proxyRange].
  unfold Op.getMainItems. cbn [driver.Config.NoCache driver.Config.OnlyProxy
    driver.Config.OnlyLocal driver.Config.ProxyRangeOption driver.Config.LocalSort
    driver.Config.Name].
  split; [|split].
  - destruct localSort, onlyLocal, onlyProxy, noCache, proxyRange; cbn;
      apply NoDup_ListNoDup; repeat constructor; cbn; intuition discriminate.
  - destruct localSort, onlyLocal, onlyProxy, noCache, proxyRange; cbn [negb andb app];
      repeat match goal with
             | |- Forall _ (_ :: _) => apply Forall_cons_2; [split|]
             | |- Forall _ [] => apply Forall_nil_2
             end;
      cbn [driver.Item.Options driver.Item.Type_ driver.Item.Default driver.Item.Required
           driver.Item.Name];
      try (intros Hopt;
           first [ exfalso; apply Hopt; reflexivity
                 | split; [reflexivity|];
                   first [ left; reflexivity
                         | right; apply list_elem_of_In; vm_compute; tauto ] ]);
      try (intros Hreq;
           first [ discriminate Hreq | left; reflexivity | right; discriminate ]).
  - destruct (negb onlyProxy && negb onlyLocal) eqn:Hproxy.
    + exists {| driver.Item.Name := "webdav_policy"; driver.Item.Type_ := conf.TypeSelect ct;
                driver.Item.Default := "302_redirect";
                driver.Item.Options := "302_redirect,use_proxy_url,native_proxy";
                driver.Item.Required := true; driver.Item.Help := "" |}.
      split.
      * destruct localSort, noCache, proxyRange; cbn [negb andb app];
          apply list_elem_of_In; cbn; tauto.
      * cbn. repeat split; apply list_elem_of_In; vm_compute; tauto.
    + exists {| driver.Item.Name := "webdav_policy"; driver.Item.Type_ := conf.TypeSelect ct;
                driver.Item.Default := "native_proxy";
                driver.Item.Options := "use_proxy_url,native_proxy";
                driver.Item.Required := true; driver.Item.Help := "" |}.
      split.
      * destruct localSort, noCache; cbn [negb andb app];
          apply list_elem_of_In; cbn; tauto.
      * cbn. repeat split; apply list_elem_of_In; vm_compute; tauto.
Qed.

Section AdditionalItemFacts.
Context (ToLower : string -> string).

Lemma Type_nested_ind (P : reflect.Type_ -> Prop) :
  (forall name fields,
      Forall (fun f => match f with reflect.Field _ fieldType _ => P fieldType end) fields ->
      P (reflect.Struct name fields)) ->
  (forall elem, P elem -> P (reflect.Pointer elem)) ->
  (forall name, P (reflect.Other name)) ->
  forall t, P t.
Proof.
  intros HS HP HO. fix IH 1. intros [name fields|elem|name].
  - apply HS. induction fields as [|[fieldName fieldType tag] rest IHf].
    + apply Forall_nil_2.
    + apply Forall_cons_2; [apply IH|exact IHf].
  - apply HP, IH.
  - apply HO.
Qed.

Lemma items_nil (name : string) (defaultRoot : string) :
  Op.getAdditionalItems ToLower (reflect.Struct name []) defaultRoot = Some [].
Proof. reflexivity. Qed.

Lemma items_cons (name fieldName : string) (fieldType : reflect.Type_)
    (tag : list (string * string)) (rest : list reflect.StructField) (defaultRoot : string) :
  Op.getAdditionalItems ToLower
    (reflect.Struct name (reflect.Field fieldName fieldType tag :: rest)) defaultRoot
  = match (match fieldType with
           | reflect.Struct _ _ => Op.getAdditionalItems ToLower fieldType defaultRoot
           | _ => Some (option_list (Op.fieldItem ToLower fieldType tag defaultRoot))
           end),
          Op.getAdditionalItems ToLower (reflect.Struct name rest) defaultRoot with
    | Some items, Some more => Some (items ++ more)
    | _, _ => None
    end.
Proof. reflexivity. Qed.

Lemma struct_items_total (t : reflect.Type_) (defaultRoot : string) :
  match t with
  | reflect.Struct _ _ => is_Some (Op.getAdditionalItems ToLower t defaultRoot)
  | _ => Op.getAdditionalItems ToLower t defaultRoot = None
  end.
Proof.
  induction t as [name fields IH|elem _|name] using Type_nested_ind; [|reflexivity..].
  induction IH as [|[fieldName fieldType tag] rest Hf _ IHrest]; [rewrite items_nil; eauto|].
  rewrite items_cons. destruct IHrest as [more ->].
  destruct fieldType as [name' fields'|elem|name']; [destruct Hf as [items ->]|..]; eauto.
Qed.

Lemma fieldItem_ok (fieldType : reflect.Type_) (tag : list (string * string))
    (defaultRoot : string) (item : driver.Item.t) :
  Op.fieldItem ToLower fieldType tag defaultRoot = Some item ->
  reflect.Lookup "json" tag = Some item.(driver.Item.Name)
  /\ reflect.Lookup "ignore" tag <> Some "true"
  /\ item.(driver.Item.Type_) <> ""
  /\ (item.(driver.Item.Name) = "root_folder_id"
      \/ item.(driver.Item.Name) = "root_folder_path" ->
      (item.(driver.Item.Required) = true <-> item.(driver.Item.Default) <> "")
      /\ (defaultRoot <> "" -> item.(driver.Item.Default) <> "")).
Proof.
  unfold Op.fieldItem.
  destruct (reflect.Lookup "json" tag) as [name|]; [|discriminate].
  destruct (decide (reflect.Lookup "ignore" tag = Some "true")) as [|Hig]; [discriminate|].
  set (type := if decide (reflect.Get "type" tag <> "") then reflect.Get "type" tag
               else ToLower (reflect.Name fieldType)).
  assert (Hty : (if decide (type = "") then "string" else type) <> "").
  { destruct (decide (type = "")) as [|Hne]; [discriminate|exact Hne]. }
  destruct (decide (name = "root_folder_id" \/ name = "root_folder_path")) as [Hroot|Hnr].
  - intros [= <-]. cbn. split; [reflexivity|]. split; [exact Hig|]. split; [exact Hty|].
    intros _. split; [apply bool_decide_eq_true|].
    intros Hdr. destruct (decide (reflect.Get "default" tag = "")); assumption.
  - intros [= <-]. cbn. split; [reflexivity|]. split; [exact Hig|]. split; [exact Hty|].
    intros Hn. contradiction.
Qed.

End AdditionalItemFacts.

(** What holds of every item [getAdditionalItems] returns, whatever the
    addition.  The item has a type that is not empty; and an item named
    [root_folder_id] or [root_folder_path] is required exactly when it has a
    default, which it has whenever the driver's default root is not empty,
    whatever its [required] tag says. *)
Theorem additional_items_invariants (ToLower : string -> string) (t : reflect.Type_)
    (defaultRoot : string) (items : list driver.Item.t) :
  Op.getAdditionalItems ToLower t defaultRoot = Some items ->
  Forall (fun item =>
            item.(driver.Item.Type_) <> ""
            /\ (item.(driver.Item.Name) = "root_folder_id"
                \/ item.(driver.Item.Name) = "root_folder_path" ->
                (item.(driver.Item.Required) = true <-> item.(driver.Item.Default) <> "")
                /\ (defaultRoot <> "" -> item.(driver.Item.Default) <> "")))
         items.
Proof.
  revert items.
  induction t as [name fields IH|elem _|name] using Type_nested_ind; [|discriminate..].
  induction IH as [|[fieldName fieldType tag] rest Hf _ IHrest]; intros items.
  - rewrite items_nil. intros [= <-]. apply Forall_nil_2.
  - rewrite items_cons.
    destruct fieldType as [name' fields'|elem|name'].
    + destruct (Op.getAdditionalItems ToLower (reflect.Struct name' fields') defaultRoot)
        as [here|] eqn:Hhere; [|discriminate].
      destruct (Op.getAdditionalItems ToLower (reflect.Struct name rest) defaultRoot)
        as [more|]; [|discriminate].
      specialize (IHrest more eq_refl).
      intros [= <-]. apply Forall_app. split; [apply Hf; reflexivity|exact IHrest].
    + destruct (Op.getAdditionalItems ToLower (reflect.Struct name rest) defaultRoot)
        as [more|]; [|discriminate].
      specialize (IHrest more eq_refl).
      intros [= <-]. apply Forall_app. split; [|exact IHrest].
      destruct (Op.fieldItem ToLower _ tag defaultRoot) as [item|] eqn:Hitem;
        [|apply Forall_nil_2].
      apply Forall_cons_2; [|apply Forall_nil_2].
      destruct (fieldItem_ok ToLower _ _ _ _ Hitem) as (_ & _ & Hty & Hroot). auto.
    + destruct (Op.getAdditionalItems ToLower (reflect.Struct name rest) defaultRoot)
        as [more|]; [|discriminate].
      specialize (IHrest more eq_refl).
      intros [= <-]. apply Forall_app. split; [|exact IHrest].
      destruct (Op.fieldItem ToLower _ tag defaultRoot) as [item|] eqn:Hitem;
        [|apply Forall_nil_2].
      apply Forall_cons_2; [|apply Forall_nil_2].
      destruct (fieldItem_ok ToLower _ _ _ _ Hitem) as (_ & _ & Hty & Hroot). auto.
Qed.

(** An addition with a root folder path, a secret the form must not show,
    and an embedded struct with one more field. *)
Lemma additional_items_invariants_witness :
  Forall (fun item =>
            item.(driver.Item.Type_) <> ""
            /\ (item.(driver.Item.Name) = "root_folder_id"
                \/ item.(driver.Item.Name) = "root_folder_path" ->
                (item.(driver.Item.Required) = true <-> item.(driver.Item.Default) <> "")
                /\ ("/" <> "" -> item.(driver.Item.Default) <> "")))
    [ {| driver.Item.Name := "root_folder_path"; driver.Item.Type_ := "string";
         driver.Item.Default := "/"; driver.Item.Options := "";
         driver.Item.Required := true; driver.Item.Help := "" |};
      {| driver.Item.Name := "thumbnail"; driver.Item.Type_ := "bool";
         driver.Item.Default := ""; driver.Item.Options := "";
         driver.Item.Required := true; driver.Item.Help := "show thumbnails" |} ].
Proof.
  apply (additional_items_invariants Wire.foldName
           (reflect.Struct "Addition"
              [ reflect.Field "RootPath" (reflect.Other "string")
                  [("json", "root_folder_path")];
                reflect.Field "Secret" (reflect.Other "string")
                  [("json", "secret"); ("ignore", "true")];
                reflect.Field "View" (reflect.Struct "View"
                  [ reflect.Field "Thumbnail" (reflect.Other "bool")
                      [("json", "thumbnail"); ("required", "true");
                       ("help", "show thumbnails")] ]) [] ]) "/").
  vm_compute. reflexivity.
Defined.

(** The shape of what [getAdditionalItems] returns.  On a struct it never
    panics, and on anything else it does.  The items of a struct are those of
    its fields in order: the items of the fields in front followed by the
    items of the fields behind.  A field of struct kind stands for the items
    of its own fields, whatever its tag says (an [ignore] tag on it is not
    looked at); a field of any other kind stands for at most one item. *)
Theorem additional_items_shape (ToLower : string -> string) (defaultRoot : string) :
  (forall t,
      match t with
      | reflect.Struct _ _ => is_Some (Op.getAdditionalItems ToLower t defaultRoot)
      | _ => Op.getAdditionalItems ToLower t defaultRoot = None
      end)
  /\ (forall name front behind,
        Op.getAdditionalItems ToLower (reflect.Struct name (front ++ behind)) defaultRoot
        = match Op.getAdditionalItems ToLower (reflect.Struct name front) defaultRoot,
                Op.getAdditionalItems ToLower (reflect.Struct name behind) defaultRoot with
          | Some items, Some more => Some (items ++ more)
          | _, _ => None
          end)
  /\ (forall name fieldName innerName inner tag,
        Op.getAdditionalItems ToLower
          (reflect.Struct name [reflect.Field fieldName (reflect.Struct innerName inner) tag])
          defaultRoot
        = Op.getAdditionalItems ToLower (reflect.Struct innerName inner) defaultRoot)
  /\ (forall name fieldName fieldType tag,
        (forall n fs, fieldType <> reflect.Struct n fs) ->
        Op.getAdditionalItems ToLower
          (reflect.Struct name [reflect.Field fieldName fieldType tag]) defaultRoot
        = Some (option_list (Op.fieldItem ToLower fieldType tag defaultRoot))).
Proof.
  split; [intros t; apply struct_items_total|]. split; [|split].
  - intros name front behind. induction front as [|[fieldName fieldType tag] front IH].
    + cbn [app]. rewrite items_nil.
      destruct (Op.getAdditionalItems ToLower (reflect.Struct name behind) defaultRoot);
        reflexivity.
    + cbn [app]. rewrite !items_cons, IH.
      set (here := match fieldType with
                   | reflect.Struct _ _ => Op.getAdditionalItems ToLower fieldType defaultRoot
                   | _ => Some (option_list (Op.fieldItem ToLower fieldType tag defaultRoot))
                   end).
      destruct here as [here|];
        destruct (Op.getAdditionalItems ToLower (reflect.Struct name front) defaultRoot)
          as [items|];
        destruct (Op.getAdditionalItems ToLower (reflect.Struct name behind) defaultRoot)
          as [more|]; try reflexivity.
      rewrite app_assoc. reflexivity.
  - intros name fieldName innerName inner tag. rewrite items_cons, items_nil.
    destruct (Op.getAdditionalItems ToLower (reflect.Struct innerName inner) defaultRoot);
      [rewrite app_nil_r|]; reflexivity.
  - intros name fieldName fieldType tag Hns. rewrite items_cons, items_nil.
    destruct fieldType as [n fs|elem|n]; [exfalso; exact (Hns n fs eq_refl)|..];
      rewrite app_nil_r; reflexivity.
Qed.

Section RegisterFacts.
Context {D : Type} `{DriverMeta D}.
Context (ct : conf.Types) (ToLower : string -> string).

Lemma register_result (constructor : D) (st st' : Op.State (D := D)) :
  Op.RegisterDriver ct ToLower constructor st = Some st' ->
  exists additional,
    Op.getAdditionalItems ToLower (Op.deref (drvAdditionType constructor))
      (drvConfig constructor).(driver.Config.DefaultRoot) = Some additional
    /\ st'.(Op.driverMap)
       = <[(drvConfig constructor).(driver.Config.Name) := constructor]> st.(Op.driverMap)
    /\ st'.(Op.driverInfoMap)
       = <[(drvConfig constructor).(driver.Config.Name) :=
             {| driver.Info.Common := Op.getMainItems ct (drvConfig constructor);
                driver.Info.Additional := additional;
                driver.Info.Config := drvConfig constructor |}]> st.(Op.driverInfoMap).
Proof.
  unfold Op.RegisterDriver, Op.registerDriverItems.
  destruct (Op.getAdditionalItems _ _ _) as [additional|]; [|discriminate].
  intros [= <-]. exists additional. auto.
Qed.

Lemma registered_inv (st : Op.State (D := D)) :
  Op.registered ct ToLower st ->
  dom st.(Op.driverMap) = dom st.(Op.driverInfoMap)
  /\ forall name info,
       st.(Op.driverInfoMap) !! name = Some info ->
       info.(driver.Info.Config).(driver.Config.Name) = name
       /\ info.(driver.Info.Common)
          = Op.getMainItems ct info.(driver.Info.Config)
       /\ exists constructor,
            st.(Op.driverMap) !! name = Some constructor
            /\ drvConfig constructor = info.(driver.Info.Config)
            /\ Op.getAdditionalItems ToLower
                 (Op.deref (drvAdditionType constructor))
                 info.(driver.Info.Config).(driver.Config.DefaultRoot)
               = Some info.(driver.Info.Additional).
Proof.
  intros Hreg.
  induction Hreg as [|constructor st st' _ [IHdom IH] Hr].
  - split; [reflexivity|]. intros name info Hl. cbn in Hl.
    rewrite lookup_empty in Hl. discriminate.
  - apply register_result in Hr as (additional & Hadd & Hm & Hi).
    split; [rewrite Hm, Hi, !dom_insert_L, IHdom; reflexivity|].
    intros name info Hl. rewrite Hi in Hl. rewrite Hm.
    destruct (decide ((drvConfig constructor).(driver.Config.Name) = name)) as [Heq|Hne].
    + rewrite Heq in Hl. rewrite lookup_insert_eq in Hl. injection Hl as <-. cbn.
      split; [exact Heq|]. split; [reflexivity|].
      exists constructor. rewrite Heq, lookup_insert_eq. auto.
    + rewrite lookup_insert_ne in Hl by exact Hne.
      destruct (IH name info Hl) as (Hn & Hc & ctor & Hctor & Hrest).
      split; [exact Hn|]. split; [exact Hc|].
      exists ctor. rewrite lookup_insert_ne by exact Hne. auto.
Qed.

End RegisterFacts.

(** The two tables of package op stay in step.  In every state that calls of
    [RegisterDriver] produce, [driverMap] and [driverInfoMap] have the same
    names, so [GetDriver] finds a constructor for every name that
    [GetDriverNames] lists.  The description kept under a name carries that
    name in its configuration, which is the configuration of the constructor
    kept under the same name; its common items are [getMainItems] of that
    configuration and its additional items those of the constructor's
    addition, pointers followed to the struct. *)
Theorem registered_tables_agree {D : Type} `{DriverMeta D} (ct : conf.Types)
    (ToLower : string -> string) (st : Op.State (D := D)) :
  Op.registered ct ToLower st ->
  dom st.(Op.driverMap) = dom st.(Op.driverInfoMap)
  /\ (forall order name,
        name ∈ Op.GetDriverNames order st -> exists n, Op.GetDriver st name = inl n)
  /\ (forall name info,
        Op.GetDriverInfoMap st !! name = Some info ->
        info.(driver.Info.Config).(driver.Config.Name) = name
        /\ info.(driver.Info.Common) = Op.getMainItems ct info.(driver.Info.Config)
        /\ exists constructor,
             Op.GetDriver st name = inl constructor
             /\ drvConfig constructor = info.(driver.Info.Config)
             /\ Op.getAdditionalItems ToLower (Op.deref (drvAdditionType constructor))
                  info.(driver.Info.Config).(driver.Config.DefaultRoot)
                = Some info.(driver.Info.Additional)).
Proof.
  intros Hreg.
  destruct (registered_inv ct ToLower st Hreg) as [Hdom Hinv]. split; [exact Hdom|]. split.
  - intros order name Hin. unfold Op.GetDriverNames in Hin.
    apply list_elem_of_filter in Hin as [ [info Hinfo] _].
    destruct (Hinv name info Hinfo) as (_ & _ & ctor & Hctor & _).
    exists ctor. unfold Op.GetDriver. rewrite Hctor. reflexivity.
  - intros name info Hl. destruct (Hinv name info Hl) as (Hn & Hc & ctor & Hctor & Hrest).
    split; [exact Hn|]. split; [exact Hc|].
    exists ctor. unfold Op.GetDriver. rewrite Hctor. auto.
Qed.

(** After "Local" and "S3" have registered, both tables know exactly these
    two. *)
Lemma registered_tables_agree_witness :
  exists st,
    sampleOp = Some st
    /\ dom st.(Op.driverMap) = dom st.(Op.driverInfoMap)
    /\ forall order name,
         name ∈ Op.GetDriverNames order st -> exists n, Op.GetDriver st name = inl n.
Proof.
  destruct (Op.RegisterDriver sampleTypes Wire.foldName LocalDriver Op.empty)
    as [st1|] eqn:H1; [|vm_compute in H1; discriminate H1].
  destruct (Op.RegisterDriver sampleTypes Wire.foldName S3Driver st1)
    as [st2|] eqn:H2.
  - exists st2. split; [unfold sampleOp; rewrite H1; exact H2|].
    assert (Hreg : Op.registered sampleTypes Wire.foldName st2).
    { eapply Op.registered_more; [|exact H2].
      eapply Op.registered_more; [|exact H1]. apply Op.registered_empty. }
    destruct (registered_tables_agree sampleTypes Wire.foldName st2 Hreg) as (Hdom & Hn & _).
    split; [exact Hdom|exact Hn].
  - exfalso. unfold Op.RegisterDriver, Op.registerDriverItems in H2.
    cbn in H2. discriminate H2.
Defined.

(** [GetCombinedDriverNames] lists every local and every remote name once.
    The result has no duplicates; a name is in it exactly when it is a local
    or a remote name; and when the local names have no duplicates, as the
    keys of a map have none, they come first and in their order, followed by
    the remote names that are new. *)
Theorem combined_names_once (localNames remoteNames : list string) :
  let all := Op.GetCombinedDriverNames localNames remoteNames in
  NoDup all
  /\ (forall name, name ∈ all <-> name ∈ localNames \/ name ∈ remoteNames)
  /\ (NoDup localNames ->
      exists rest,
        all = localNames ++ rest
        /\ forall name, name ∈ rest <-> name ∈ remoteNames /\ name ∉ localNames).
Proof.
  assert (Hd : forall names nameSet allNames,
             (forall x, x ∈ nameSet <-> x ∈ allNames) ->
             NoDup allNames ->
             let r := Op.dedupe names nameSet allNames in
             (forall x, x ∈ r.1 <-> x ∈ r.2)
             /\ NoDup r.2
             /\ exists rest,
                  r.2 = allNames ++ rest
                  /\ (forall x, x ∈ rest <-> x ∈ names /\ x ∉ allNames)
                  /\ (NoDup names -> (forall x, x ∈ names -> x ∉ allNames) ->
                      rest = names)).
  { induction names as [|name names IH]; intros nameSet allNames Hset Hnd.
    - cbn. split; [exact Hset|]. split; [exact Hnd|]. exists [].
      rewrite app_nil_r. split; [reflexivity|]. split; [|reflexivity].
      intros x. rewrite elem_of_nil. tauto.
    - cbn [Op.dedupe]. destruct (decide (name ∈ nameSet)) as [Hin|Hnin].
      + destruct (IH nameSet allNames Hset Hnd) as (Hs & Hn & rest & Hr & Hrest & Hid).
        split; [exact Hs|]. split; [exact Hn|]. exists rest.
        split; [exact Hr|]. split.
        * intros x. rewrite Hrest, elem_of_cons. split; [tauto|].
          intros [ [->|Hx] Hna]; [|tauto]. apply Hset in Hin. contradiction.
        * intros _ Hfresh. exfalso. apply (Hfresh name); [left|]. apply Hset. exact Hin.
      + assert (Hset' : forall x, x ∈ ({[name]} ∪ nameSet) <-> x ∈ allNames ++ [name]).
        { intros x. rewrite elem_of_union, elem_of_singleton, elem_of_app,
            list_elem_of_singleton, Hset. tauto. }
        assert (Hnd' : NoDup (allNames ++ [name])).
        { apply NoDup_app. split; [exact Hnd|]. split; [|apply NoDup_singleton].
          intros x Hx Hx'. apply list_elem_of_singleton in Hx'. subst x.
          apply Hnin, Hset, Hx. }
        destruct (IH _ _ Hset' Hnd') as (Hs & Hn & rest & Hr & Hrest & Hid).
        split; [exact Hs|]. split; [exact Hn|]. exists (name :: rest).
        split; [rewrite Hr, <- app_assoc; reflexivity|]. split.
        * intros x. rewrite !elem_of_cons, Hrest, elem_of_app, list_elem_of_singleton.
          split.
          -- intros [->|[Hx Hna] ]; [|tauto]. split; [auto|]. intros Hx. apply Hnin, Hset, Hx.
          -- intros [ [->|Hx] Hna]; [auto|].
             destruct (decide (x = name)) as [->|Hne]; [auto|]. right. tauto.
        * intros Hnames Hfresh. apply NoDup_cons in Hnames as [Hnn Hnames]. f_equal.
          apply Hid; [exact Hnames|]. intros x Hx.
          rewrite elem_of_app, list_elem_of_singleton. intros [Hxa | ->]; [|contradiction].
          apply (Hfresh x); [right; exact Hx|exact Hxa]. }
  intros all. subst all. unfold Op.GetCombinedDriverNames.
  destruct (Hd localNames ∅ []) as (Hs1 & Hn1 & rest1 & Hr1 & Hrest1 & Hid1).
  { intros x. rewrite elem_of_empty, elem_of_nil. tauto. }
  { apply NoDup_nil_2. }
  destruct (Op.dedupe localNames ∅ []) as [nameSet allNames]. cbn [fst snd] in *.
  destruct (Hd remoteNames nameSet allNames Hs1 Hn1) as (Hs2 & Hn2 & rest2 & Hr2 & Hrest2 & _).
  cbn [app] in Hr1. subst allNames.
  split; [exact Hn2|]. split.
  - intros name. rewrite Hr2, elem_of_app, Hrest2, Hrest1. rewrite elem_of_nil.
    split; [tauto|]. intros [Hl|Hr]; [tauto|].
    destruct (decide (name ∈ localNames)) as [Hin|Hnin]; [left|right]; tauto.
  - intros Hnd. assert (Hloc : rest1 = localNames).
    { apply Hid1; [exact Hnd|]. intros x _. apply not_elem_of_nil. }
    subst rest1. exists rest2. split; [exact Hr2|exact Hrest2].
Qed.

(** [GetCombinedDriverInfoMap] returns the local descriptions and nothing
    else.  Whatever the pool reports, and whether or not there is a remote
    driver factory, the result is [driverInfoMap]: [convertRemoteDriverInfo]
    turns every remote description down, so no remote driver is ever added,
    and a local one is never replaced. *)
Theorem combined_info_is_local {D : Type} (st : Op.State (D := D))
    (remote : option (gmap string json + error)) :
  Op.GetCombinedDriverInfoMap st remote = Op.GetDriverInfoMap st.
Proof.
  unfold Op.GetCombinedDriverInfoMap, Op.GetDriverInfoMap.
  destruct remote as [ [drivers|e]|]; [|reflexivity..].
  apply (map_fold_weak_ind (fun r _ => r = st.(Op.driverInfoMap))); [reflexivity|].
  intros name data m r _ ->.
  destruct (decide (is_Some (st.(Op.driverInfoMap) !! name))); reflexivity.
Qed.

Section LoadFacts.
Context {D : Type} `{DriverMeta D}.
Context (encodeConfig : driver.Config.t -> json).
Context (encodeItems : list driver.Item.t -> json).

(** What [loadDrivers] keeps under a name of [driverInfoMap] whose constructor
    [GetDriver] finds. *)
Lemma loadDrivers_lookup (st : Op.State (D := D)) drivers name :
  Registry.loadDrivers encodeConfig encodeItems st drivers !! name
  = match Op.GetDriverInfoMap st !! name, Op.GetDriver st name with
    | Some info, inl constructor =>
        let allItems := info.(driver.Info.Common) ++ info.(driver.Info.Additional) in
        Some {| InfoName := name;
                InfoConfig := encodeConfig info.(driver.Info.Config);
                Items := encodeItems allItems;
                I18n := marshalMap
                          (Registry.generateI18n name allItems info.(driver.Info.Config));
                Constructor := constructor |}
    | _, _ => drivers !! name
    end.
Proof.
  unfold Registry.loadDrivers.
  apply (map_fold_weak_ind
           (fun r m =>
              r !! name
              = match m !! name, Op.GetDriver st name with
                | Some info, inl constructor =>
                    let allItems :=
                      info.(driver.Info.Common) ++ info.(driver.Info.Additional) in
                    Some {| InfoName := name;
                            InfoConfig := encodeConfig info.(driver.Info.Config);
                            Items := encodeItems allItems;
                            I18n := marshalMap
                                      (Registry.generateI18n name allItems
                                         info.(driver.Info.Config));
                            Constructor := constructor |}
                | _, _ => drivers !! name
                end)).
  - rewrite lookup_empty. reflexivity.
  - intros key info m r Hfresh IH.
    destruct (decide (key = name)) as [->|Hne].
    + rewrite lookup_insert_eq.
      destruct (Op.GetDriver st name) as [constructor|failure] eqn:Hget.
      * rewrite lookup_insert_eq. reflexivity.
      * rewrite IH, Hfresh. reflexivity.
    + rewrite (lookup_insert_ne m) by exact Hne.
      destruct (Op.GetDriver st key) as [constructor|failure];
        [rewrite lookup_insert_ne by exact Hne|]; exact IH.
Qed.

End LoadFacts.

(** The registry of the driver manager offers exactly the drivers that have
    registered with package op.  When the state of op comes from calls of
    [RegisterDriver], [NewDriverRegistry] has an entry for every name of
    [driverMap] and for no other, so [GetDriverCount] is the number of
    registered drivers; an entry is kept under its own name, its constructor
    is the one [op.GetDriver] returns for that name, and its items are the
    common items of the constructor's configuration followed by the items of
    its addition. *)
Theorem registry_offers_registered {D : Type} `{DriverMeta D} (ct : conf.Types)
    (ToLower : string -> string) (encodeConfig : driver.Config.t -> json)
    (encodeItems : list driver.Item.t -> json) (st : Op.State (D := D)) :
  Op.registered ct ToLower st ->
  let r := Registry.NewDriverRegistry encodeConfig encodeItems st in
  dom (Registry.ListDrivers r) = dom st.(Op.driverMap)
  /\ Registry.GetDriverCount r = Z.of_nat (size st.(Op.driverMap))
  /\ forall name info,
       r !! name = Some info ->
       info.(InfoName) = name
       /\ Op.GetDriver st name = inl info.(Constructor)
       /\ (drvConfig info.(Constructor)).(driver.Config.Name) = name
       /\ info.(InfoConfig) = encodeConfig (drvConfig info.(Constructor))
       /\ exists additional,
            Op.getAdditionalItems ToLower (Op.deref (drvAdditionType info.(Constructor)))
              (drvConfig info.(Constructor)).(driver.Config.DefaultRoot) = Some additional
            /\ info.(Items)
               = encodeItems (Op.getMainItems ct (drvConfig info.(Constructor)) ++ additional).
Proof.
  intros Hreg r. destruct (registered_inv ct ToLower st Hreg) as [Hdom Hinv].
  assert (Hlook : forall name,
             r !! name
             = match st.(Op.driverInfoMap) !! name, Op.GetDriver st name with
               | Some info, inl constructor =>
                   let allItems :=
                     info.(driver.Info.Common) ++ info.(driver.Info.Additional) in
                   Some {| InfoName := name;
                           InfoConfig := encodeConfig info.(driver.Info.Config);
                           Items := encodeItems allItems;
                           I18n := marshalMap
                                     (Registry.generateI18n name allItems
                                        info.(driver.Info.Config));
                           Constructor := constructor |}
               | _, _ => None
               end).
  { intros name. subst r. unfold Registry.NewDriverRegistry.
    rewrite loadDrivers_lookup, lookup_empty. reflexivity. }
  assert (Hdomr : dom r = dom st.(Op.driverMap)).
  { apply set_eq. intros name. rewrite !elem_of_dom, Hlook.
    destruct (st.(Op.driverInfoMap) !! name) as [info|] eqn:Hinfo.
    - destruct (Hinv name info Hinfo) as (_ & _ & ctor & Hctor & _).
      unfold Op.GetDriver. rewrite Hctor. split; intros _; eauto.
    - assert (Hnone : st.(Op.driverMap) !! name = None).
      { apply not_elem_of_dom. rewrite Hdom. apply not_elem_of_dom. exact Hinfo. }
      rewrite Hnone. split; intros [? ?]; discriminate. }
  split; [exact Hdomr|]. split.
  - unfold Registry.GetDriverCount. f_equal.
    rewrite <- !size_dom, Hdomr. reflexivity.
  - intros name info Hl. rewrite Hlook in Hl.
    destruct (st.(Op.driverInfoMap) !! name) as [opInfo|] eqn:Hinfo; [|discriminate].
    destruct (Hinv name opInfo Hinfo) as (Hn & Hc & ctor & Hctor & Hcfg & Hadd).
    unfold Op.GetDriver in *. rewrite Hctor in *. injection Hl as <-. cbn.
    rewrite Hcfg. split; [reflexivity|]. split; [reflexivity|]. split; [exact Hn|].
    split; [reflexivity|]. exists opInfo.(driver.Info.Additional).
    split; [exact Hadd|]. rewrite Hc. reflexivity.
Qed.

(** With "Local" and "S3" registered, the registry counts two drivers. *)
Lemma registry_offers_registered_witness :
  exists st,
    sampleOp = Some st
    /\ Registry.GetDriverCount
         (Registry.NewDriverRegistry (fun _ => JNull) (fun _ => JNull) st)
       = Z.of_nat (size st.(Op.driverMap)).
Proof.
  destruct (Op.RegisterDriver sampleTypes Wire.foldName LocalDriver Op.empty)
    as [st1|] eqn:H1; [|vm_compute in H1; discriminate H1].
  destruct (Op.RegisterDriver sampleTypes Wire.foldName S3Driver st1)
    as [st2|] eqn:H2.
  - exists st2. split; [unfold sampleOp; rewrite H1; exact H2|].
    assert (Hreg : Op.registered sampleTypes Wire.foldName st2).
    { eapply Op.registered_more; [|exact H2].
      eapply Op.registered_more; [|exact H1]. apply Op.registered_empty. }
    exact (proj1 (proj2 (registry_offers_registered sampleTypes Wire.foldName
                           (fun _ => JNull) (fun _ => JNull) st2 Hreg))).
  - exfalso. unfold Op.RegisterDriver, Op.registerDriverItems in H2.
    cbn in H2. discriminate H2.
Defined.

Section I18nFacts.

#[local] Ltac by_cases :=
  repeat match goal with
         | |- context [decide ?P] => destruct (decide P)
         end.

Lemma translateItem_same (t : gmap string json) (item : driver.Item.t) :
  (Registry.translateItem (t, t) item).1 = (Registry.translateItem (t, t) item).2.
Proof. unfold Registry.translateItem. by_cases; reflexivity. Qed.

Lemma translate_all_same (items : list driver.Item.t) (t : gmap string json) :
  (fold_left Registry.translateItem items (t, t)).1
  = (fold_left Registry.translateItem items (t, t)).2.
Proof.
  revert t. induction items as [|item items IH]; intros t; [reflexivity|].
  cbn [fold_left]. pose proof (translateItem_same t item) as Hsame.
  destruct (Registry.translateItem (t, t) item) as [e z]. cbn in Hsame. subst z.
  apply IH.
Qed.

(** The keys that the loop body sets for one item. *)
#[local] Abbreviation writes item key :=
  (key = item.(driver.Item.Name)
   \/ (key = item.(driver.Item.Name) +:+ "_help" /\ item.(driver.Item.Help) <> "")
   \/ (key = item.(driver.Item.Name) +:+ "_options"
       /\ item.(driver.Item.Type_) = "select" /\ item.(driver.Item.Options) <> "")).

Lemma translateItem_keys (t : gmap string json) (item : driver.Item.t) (key : string) :
  is_Some ((Registry.translateItem (t, t) item).1 !! key)
  <-> is_Some (t !! key) \/ writes item key.
Proof.
  unfold Registry.translateItem. by_cases; cbn [fst];
    rewrite ?lookup_insert_is_Some'; intuition congruence.
Qed.

Lemma translate_all_keys (items : list driver.Item.t) (t : gmap string json) (key : string) :
  is_Some ((fold_left Registry.translateItem items (t, t)).1 !! key)
  <-> is_Some (t !! key) \/ exists item, item ∈ items /\ writes item key.
Proof.
  revert t. induction items as [|item items IH]; intros t.
  - cbn. split; [auto|]. intros [Hk|(item & Hin & _)]; [exact Hk|].
    apply elem_of_nil in Hin. contradiction.
  - cbn [fold_left]. pose proof (translateItem_same t item) as Hsame.
    pose proof (translateItem_keys t item key) as Hkeys.
    destruct (Registry.translateItem (t, t) item) as [e z]. cbn in Hsame, Hkeys. subst z.
    rewrite IH, Hkeys. split.
    + intros [ [Hk|Hw]|(other & Hin & Hw)]; [auto|right..].
      * exists item. split; [left|exact Hw].
      * exists other. split; [right; exact Hin|exact Hw].
    + intros [Hk|(other & Hin & Hw)]; [auto|].
      apply elem_of_cons in Hin as [->|Hin]; [auto|]. right. eauto.
Qed.

Lemma suffix_not_driver_name (name suffix : string) :
  suffix = "_help" \/ suffix = "_options" -> name +:+ suffix <> "driver_name".
Proof.
  intros Hs Heq.
  do 12 (destruct name as [|? name];
         [destruct Hs as [->| ->]; cbn in Heq; discriminate Heq
         |cbn in Heq; try discriminate Heq; injection Heq as _ Heq]).
Qed.

Lemma translateItem_driver_name (t : gmap string json) (item : driver.Item.t) :
  (Registry.translateItem (t, t) item).1 !! "driver_name"
  = if decide (item.(driver.Item.Name) = "driver_name")
    then Some (JStr "Driver Name") else t !! "driver_name".
Proof.
  assert (Hh : item.(driver.Item.Name) +:+ "_help" <> "driver_name")
    by (apply suffix_not_driver_name; auto).
  assert (Ho : item.(driver.Item.Name) +:+ "_options" <> "driver_name")
    by (apply suffix_not_driver_name; auto).
  unfold Registry.translateItem.
  destruct (decide (item.(driver.Item.Name) = "driver_name")) as [Hn|Hn].
  - rewrite Hn. by_cases; cbn [fst]; rewrite ?lookup_insert_ne by (cbn; discriminate);
      rewrite lookup_insert_eq; reflexivity.
  - by_cases; cbn [fst]; rewrite ?lookup_insert_ne by assumption; reflexivity.
Qed.

Lemma translate_all_driver_name (items : list driver.Item.t) (t : gmap string json) :
  (fold_left Registry.translateItem items (t, t)).1 !! "driver_name"
  = if decide (Exists (fun item => item.(driver.Item.Name) = "driver_name") items)
    then Some (JStr "Driver Name") else t !! "driver_name".
Proof.
  induction items as [|item items IH] using rev_ind.
  - cbn. destruct (decide _) as [Hex|_]; [|reflexivity]. apply Exists_nil in Hex.
    contradiction.
  - rewrite fold_left_app. cbn [fold_left].
    pose proof (translate_all_same items t) as Hsame.
    destruct (fold_left Registry.translateItem items (t, t)) as [e z].
    cbn in Hsame, IH. subst z. rewrite translateItem_driver_name, IH.
    repeat destruct (decide _) as [?|?]; try reflexivity;
      match goal with
      | Hn : ~ Exists _ _ |- _ => exfalso; apply Hn; apply Exists_app; auto
      | He : Exists _ (_ ++ [_]) |- _ =>
          apply Exists_app in He as [He|He]; [contradiction|];
          apply Exists_cons in He as [He|He]; [contradiction|];
          apply Exists_nil in He; contradiction
      end.
Qed.

End I18nFacts.

(** [generateI18n] gives two identical tables.  The table under "zh_cn" is the
    table under "en_us".  Its keys are "driver_name", "alert" when the
    configuration has an alert, and for every item its name, its name followed
    by "_help" when it has a help text, and its name followed by "_options"
    when it is a select with options.  Under "driver_name" the table has the
    name of the driver unless an item is itself named "driver_name", whose
    display name "Driver Name" then replaces it. *)
Theorem i18n_tables (driverName : string) (items : list driver.Item.t)
    (config : driver.Config.t) :
  let table := (Registry.translations driverName items config).1 in
  Registry.generateI18n driverName items config
  = <["zh_cn" := marshalMap table]> (<["en_us" := marshalMap table]> ∅)
  /\ (forall key,
        is_Some (table !! key)
        <-> key = "driver_name"
            \/ (key = "alert" /\ config.(driver.Config.Alert) <> "")
            \/ exists item,
                 item ∈ items
                 /\ (key = item.(driver.Item.Name)
                     \/ (key = item.(driver.Item.Name) +:+ "_help"
                         /\ item.(driver.Item.Help) <> "")
                     \/ (key = item.(driver.Item.Name) +:+ "_options"
                         /\ item.(driver.Item.Type_) = "select"
                         /\ item.(driver.Item.Options) <> "")))
  /\ table !! "driver_name"
     = Some (JStr (if decide (Exists (fun item => item.(driver.Item.Name) = "driver_name")
                                items)
                   then "Driver Name" else driverName)).
Proof.
  intros table. subst table.
  unfold Registry.generateI18n, Registry.translations.
  set (start := if decide (config.(driver.Config.Alert) <> "")
                then (<["alert" := JStr config.(driver.Config.Alert)]>
                        (<["driver_name" := JStr driverName]> ∅),
                      <["alert" := JStr config.(driver.Config.Alert)]>
                        (<["driver_name" := JStr driverName]> ∅))
                else (<["driver_name" := JStr driverName]> ∅,
                      <["driver_name" := JStr driverName]> ∅)).
  assert (Hstart : exists t : gmap string json,
             start = (t, t)
             /\ t !! "driver_name" = Some (JStr driverName)
             /\ forall key,
                  is_Some (t !! key)
                  <-> key = "driver_name"
                      \/ (key = "alert" /\ config.(driver.Config.Alert) <> "")).
  { subst start. destruct (decide (config.(driver.Config.Alert) <> "")) as [Ha|Ha].
    - eexists. split; [reflexivity|]. split.
      + rewrite lookup_insert_ne by discriminate. apply lookup_insert_eq.
      + intros key. rewrite !lookup_insert_is_Some', lookup_empty, is_Some_alt.
        intuition congruence.
    - eexists. split; [reflexivity|]. split; [apply lookup_insert_eq|].
      intros key. rewrite lookup_insert_is_Some', lookup_empty, is_Some_alt.
      intuition congruence. }
  destruct Hstart as (t & -> & Hname & Hkeys).
  pose proof (translate_all_same items t) as Hsame.
  pose proof (translate_all_keys items t) as Hall.
  pose proof (translate_all_driver_name items t) as Hdn.
  destruct (fold_left Registry.translateItem items (t, t)) as [enUS zhCN].
  cbn [fst snd] in *. subst zhCN. split; [reflexivity|]. split.
  - intros key. rewrite Hall, Hkeys. tauto.
  - rewrite Hdn, Hname. destruct (decide _); reflexivity.
Qed.

(* ===================================================================== *)
(** ** A request from the client, through the handler, to the manager     *)
(* ===================================================================== *)

Section WireFacts.
Context {D : Type} `{DriverOps D}.
Context (lib : GoLib).

Lemma carries_read (m : Message) (data : string) :
  wireNormal m -> carries lib m data ->
  Wire.Unmarshal lib data zeroMessage = (m, None).
Proof.
  intros Hn (_ & _ & _ & Hparse). unfold Wire.Unmarshal. rewrite Hparse.
  apply decode_encode, Hn.
Qed.

Lemma executeParams_normal (id instanceID operation : string)
    (params : option (gmap string json)) :
  wireNormal (requestMessage id "execute_operation"
                (Some (Client.executeParams instanceID operation params))).
Proof.
  split; cbn.
  - intros p [= <-] Hsize. apply map_size_empty_inv in Hsize.
    apply (f_equal (fun m => m !! "instance_id")) in Hsize.
    unfold Client.executeParams in Hsize.
    rewrite lookup_insert_eq, lookup_empty in Hsize. discriminate.
  - intros e [=].
Qed.

Lemma executeParams_lookup (instanceID operation : string)
    (params : option (gmap string json)) :
  Client.executeParams instanceID operation params !! "instance_id" = Some (JStr instanceID)
  /\ Client.executeParams instanceID operation params !! "operation" = Some (JStr operation)
  /\ Client.executeParams instanceID operation params !! "params" = Some (mapValue params).
Proof.
  unfold Client.executeParams. split; [|split].
  - apply lookup_insert_eq.
  - rewrite lookup_insert_ne by discriminate. apply lookup_insert_eq.
  - rewrite !lookup_insert_ne by discriminate. apply lookup_singleton_eq.
Qed.

Lemma mapValue_read (params : option (gmap string json)) :
  default ∅ (asMap (mapValue params)) = default ∅ params.
Proof.
  destruct params as [p|]; [|reflexivity].
  cbn [mapValue]. rewrite marshalMap_round_trip. reflexivity.
Qed.

(** The response the handler builds for an [execute_operation] request. *)
Lemma execute_served (ph : ProtocolHandler (D := D)) (id instanceID operation : string)
    (params : option (gmap string json)) (reqData : string) :
  let request := requestMessage id "execute_operation"
                   (Some (Client.executeParams instanceID operation params)) in
  let ran := ExecuteDriverOperation ph.(driverManager) instanceID operation
               (default ∅ params) in
  let response := match ran.2 with
                  | inl v => resultResponse id v
                  | inr e => errorResponse id 500 e
                  end in
  carries lib request reqData ->
  processMessage lib ph reqData = sendMessage lib (set_manager ran.1 ph) response.
Proof.
  intros request ran response Hreq.
  unfold processMessage.
  rewrite (carries_read request reqData (executeParams_normal _ _ _ _) Hreq).
  cbn [Type_ requestMessage]. rewrite decide_True by reflexivity.
  unfold handleRequest. cbn [Method].
  repeat (rewrite decide_False by discriminate).
  rewrite decide_True by reflexivity.
  unfold handleExecuteOperation. subst request. cbn [Params ID getParam requestMessage].
  destruct (executeParams_lookup instanceID operation params) as (-> & -> & ->).
  cbn [default from_option Datatypes.id asString]. rewrite mapValue_read.
  subst response. fold ran.
  destruct ran as [dm [v|e] ]; reflexivity.
Qed.

(** The caller gets what the one incoming line carries, when that line is a
    response to its request. *)
Lemma response_returned (env : Session.CallEnv) (s : Session) (method : string)
    (params : option (gmap string json)) (reqData respData : string) (response : Message) :
  let id := Session.genID method env.(Session.now) in
  tableSound s ->
  s.(connected) = true ->
  s.(broken) = false ->
  Wire.Marshal lib (requestMessage id method params) = Some reqData ->
  wireNormal response ->
  carries lib response respData ->
  response.(Type_) = "response" ->
  response.(ID) = id ->
  env.(Session.incoming) = [respData] ->
  env.(Session.early) = false ->
  let r := Session.sendRequest lib env s method params in
  r.2 = Session.responseResult response
  /\ r.1.(wire) = s.(wire) ++ [reqData +:+ newline].
Proof.
  intros id Hsound Hc Hb Hm Hn Hcar Hty Hid Hin Hearly r. subst r.
  destruct (waiting_state lib s method params reqData env.(Session.now) Hsound Hc Hb Hm)
    as (s1 & Hbegin & Hresp & Hchan & Hwire & Hother).
  fold id in Hbegin, Hresp, Hother.
  assert (Hans : answers lib id respData response).
  { destruct Hcar as (Hmar & Htrim & Hne & Hparse). unfold answers. rewrite Htrim.
    split; [exact Hne|]. split; [|auto].
    unfold Wire.Unmarshal. rewrite Hparse. apply decode_encode, Hn. }
  split.
  - unfold Session.sendRequest. rewrite Hbegin, Hin. cbn [fold_left].
    assert (H3 : (Session.processLine lib s1 respData).(chans) !! Session.freshChan s
                 = Some {| buf := Some response; closed := false |}).
    { apply (processLine_hit lib s1 respData id).
      - exact Hans.
      - apply genID_nonempty.
      - rewrite Hresp. apply lookup_insert_eq.
      - exact Hchan. }
    unfold Session.sendRequest_end. rewrite H3, Hearly. reflexivity.
  - unfold Session.sendRequest. rewrite Hbegin, end_wire, processLines_wire.
    exact Hwire.
Qed.

End WireFacts.

(** An operation asked of the client is the operation the manager runs, and
    its outcome is what the client returns.  The client writes one
    [execute_operation] request; the handler that reads this line calls
    [ExecuteDriverOperation] once, with the instance, the operation and the
    parameters the caller gave (no parameters when the caller gave a nil
    map), and writes one response; and when that response is the line the
    client reads while the caller waits, the caller gets the result of the
    driver, or the manager's error as "driver manager error 500: <error>".
    This holds provided the connection carries the two messages. *)
Theorem remote_execute_round_trip {D : Type} `{DriverOps D} (lib : GoLib)
    (env : Session.CallEnv) (s : Session) (ph : ProtocolHandler (D := D))
    (instanceID operation : string) (params : option (gmap string json))
    (reqData respData : string) :
  let id := Session.genID "execute_operation" env.(Session.now) in
  let request := requestMessage id "execute_operation"
                   (Some (Client.executeParams instanceID operation params)) in
  let ran := ExecuteDriverOperation ph.(driverManager) instanceID operation
               (default ∅ params) in
  let response := match ran.2 with
                  | inl v => resultResponse id v
                  | inr e => errorResponse id 500 e
                  end in
  let served := processMessage lib ph reqData in
  let r := Client.ExecuteDriverOperation lib env s instanceID operation params in
  tableSound s ->
  s.(connected) = true ->
  s.(broken) = false ->
  ph.(connBroken) = false ->
  carries lib request reqData ->
  carries lib response respData ->
  env.(Session.incoming) = [respData] ->
  env.(Session.early) = false ->
  r.1.(wire) = s.(wire) ++ [reqData +:+ newline]
  /\ served.1.(driverManager) = ran.1
  /\ served.1.(out) = ph.(out) ++ [respData +:+ newline]
  /\ served.2 = None
  /\ r.2 = match ran.2 with
           | inl v => inl v
           | inr e => inr ("driver manager error 500: " +:+ e)
           end.
Proof.
  intros id request ran response served r Hsound Hc Hb Hbr Hreq Hresp Hin Hearly.
  assert (Hserved : served = sendMessage lib (set_manager ran.1 ph) response).
  { exact (execute_served lib ph id instanceID operation params reqData Hreq). }
  assert (Hsent : served
                  = ({| driverManager := ran.1; out := ph.(out) ++ [respData +:+ newline];
                        connBroken := ph.(connBroken) |}, None)).
  { rewrite Hserved. unfold sendMessage. destruct Hresp as (-> & _).
    cbn [set_manager connBroken]. rewrite Hbr. reflexivity. }
  assert (Hnormal : wireNormal response).
  { subst response. destruct ran.2 as [v|e]; split; cbn; try (intros ? [=]; fail).
    intros e' [= <-]. reflexivity. }
  assert (Hkind : response.(Type_) = "response" /\ response.(ID) = id).
  { subst response. destruct ran.2; auto. }
  destruct (response_returned lib env s "execute_operation"
              (Some (Client.executeParams instanceID operation params)) reqData respData
              response Hsound Hc Hb (proj1 Hreq) Hnormal Hresp (proj1 Hkind) (proj2 Hkind)
              Hin Hearly) as [Hres Hwire].
  split; [exact Hwire|]. rewrite Hsent. cbn [fst snd driverManager out].
  split; [reflexivity|]. split; [reflexivity|]. split; [reflexivity|].
  subst r. unfold Client.ExecuteDriverOperation. rewrite Hres.
  subst response. destruct ran.2 as [v|e]; reflexivity.
Qed.

(** The listing of "/docs" on the instance "s-1": the request the client
    writes, answered by the handler of a manager that holds this instance. *)
Lemma remote_execute_round_trip_witness :
  let env := {| Session.now := 7;
                Session.incoming :=
                  [dq "{'id':'execute_operation-7','type':'response','result':['/docs']}"];
                Session.early := false; Session.deadline := Session.TimerFired |} in
  (Client.ExecuteDriverOperation goLib env (newSession "dm-1") "s-1" "list"
     (Some {[ "path" := JStr "/docs" ]})).2
  = inl (JArr [JStr "/docs"]).
Proof.
  intros env.
  assert (Hsound : tableSound (newSession "dm-1")).
  { intros id c Hl. cbn in Hl. rewrite lookup_empty in Hl. discriminate. }
  pose proof (remote_execute_round_trip goLib env (newSession "dm-1")
                (NewProtocolHandler oneInstance) "s-1" "list"
                (Some {[ "path" := JStr "/docs" ]})
                (dq "{'id':'execute_operation-7','type':'request','method':'execute_operation','params':{'instance_id':'s-1','operation':'list','params':{'path':'/docs'}}}")
                (dq "{'id':'execute_operation-7','type':'response','result':['/docs']}")
                Hsound eq_refl eq_refl eq_refl) as Hrt.
  assert (Hreq : carries goLib
                   (requestMessage "execute_operation-7" "execute_operation"
                      (Some (Client.executeParams "s-1" "list"
                               (Some {[ "path" := JStr "/docs" ]}))))
                   (dq "{'id':'execute_operation-7','type':'request','method':'execute_operation','params':{'instance_id':'s-1','operation':'list','params':{'path':'/docs'}}}")).
  { split; [vm_compute; reflexivity|]. split; [vm_compute; reflexivity|].
    split; [discriminate|vm_compute; reflexivity]. }
  specialize (Hrt Hreq).
  assert (Hresp : carries goLib
                    (resultResponse "execute_operation-7" (JArr [JStr "/docs"]))
                    (dq "{'id':'execute_operation-7','type':'response','result':['/docs']}")).
  { split; [vm_compute; reflexivity|]. split; [vm_compute; reflexivity|].
    split; [discriminate|vm_compute; reflexivity]. }
  assert (Hran : (ExecuteDriverOperation (NewProtocolHandler oneInstance).(driverManager)
                    "s-1" "list" (default ∅ (Some {[ "path" := JStr "/docs" ]}))).2
                 = inl (JArr [JStr "/docs"])).
  { vm_compute. reflexivity. }
  cbv zeta in Hrt. rewrite Hran in Hrt.
  destruct (Hrt Hresp eq_refl eq_refl) as (_ & _ & _ & _ & Hres).
  exact Hres.
Defined.

Section CreateFacts.
Context {D : Type} `{DriverOps D}.
Context (lib : GoLib).

Lemma createParams_lookup (instanceID driverName : string)
    (config : option (gmap string json)) :
  Client.createParams instanceID driverName config !! "instance_id" = Some (JStr instanceID)
  /\ Client.createParams instanceID driverName config !! "driver" = Some (JStr driverName)
  /\ Client.createParams instanceID driverName config !! "config" = Some (mapValue config).
Proof.
  unfold Client.createParams. split; [|split].
  - apply lookup_insert_eq.
  - rewrite lookup_insert_ne by discriminate. apply lookup_insert_eq.
  - rewrite !lookup_insert_ne by discriminate. apply lookup_singleton_eq.
Qed.

Lemma createParams_normal (id instanceID driverName : string)
    (config : option (gmap string json)) :
  wireNormal (requestMessage id "create_instance"
                (Some (Client.createParams instanceID driverName config))).
Proof.
  split; cbn.
  - intros p [= <-] Hsize. apply map_size_empty_inv in Hsize.
    apply (f_equal (fun m => m !! "instance_id")) in Hsize.
    unfold Client.createParams in Hsize.
    rewrite lookup_insert_eq, lookup_empty in Hsize. discriminate.
  - intros e [=].
Qed.

(** The response the handler builds for a [create_instance] request. *)
Lemma create_served (ph : ProtocolHandler (D := D)) (id instanceID driverName : string)
    (config : option (gmap string json)) (reqData : string) :
  let request := requestMessage id "create_instance"
                   (Some (Client.createParams instanceID driverName config)) in
  let ran := CreateDriverInstance ph.(driverManager) instanceID driverName
               (default ∅ config) in
  let response := match ran.2 with
                  | None => resultResponse id (JStr "success")
                  | Some e => errorResponse id 500 e
                  end in
  carries lib request reqData ->
  processMessage lib ph reqData = sendMessage lib (set_manager ran.1 ph) response.
Proof.
  intros request ran response Hreq.
  unfold processMessage.
  rewrite (carries_read lib request reqData (createParams_normal _ _ _ _) Hreq).
  cbn [Type_ requestMessage]. rewrite decide_True by reflexivity.
  unfold handleRequest. cbn [Method].
  repeat (rewrite decide_False by discriminate).
  rewrite decide_True by reflexivity.
  unfold handleCreateInstance. subst request. cbn [Params ID getParam requestMessage].
  destruct (createParams_lookup instanceID driverName config) as (-> & -> & ->).
  cbn [default from_option Datatypes.id asString]. rewrite mapValue_read.
  subst response. fold ran. unfold answer, sendError.
  destruct ran as [dm [e|] ]; reflexivity.
Qed.

End CreateFacts.

(** [Init] on the adapter makes the instance on the manager.  With a storage
    set and a configuration found (the addition's, or the addition text of
    the storage), [Init] writes one [create_instance] request; the handler
    that reads this line calls [CreateDriverInstance] once, for the adapter's
    instance ID, the driver the storage names and that configuration, and
    answers; and when the answer is the line the client reads while [Init]
    waits, [Init] succeeds exactly when the manager did, and otherwise returns
    the manager's error as "driver manager error 500: <error>".  This holds
    provided the connection carries the two messages. *)
Theorem adapter_init_creates_instance {D : Type} `{DriverOps D} (lib : GoLib)
    (env : Session.CallEnv) (rda : RemoteDriverAdapter.t) (ph : ProtocolHandler (D := D))
    (storage : model.Storage.t) (config : option (gmap string json))
    (reqData respData : string) :
  let id := Session.genID "create_instance" env.(Session.now) in
  let instanceID := rda.(RemoteDriverAdapter.instanceID) in
  let driverName := storage.(model.Storage.Driver) in
  let request := requestMessage id "create_instance"
                   (Some (Client.createParams instanceID driverName config)) in
  let ran := CreateDriverInstance ph.(driverManager) instanceID driverName
               (default ∅ config) in
  let response := match ran.2 with
                  | None => resultResponse id (JStr "success")
                  | Some e => errorResponse id 500 e
                  end in
  let served := processMessage lib ph reqData in
  let r := RemoteDriverAdapter.Init lib env rda in
  rda.(RemoteDriverAdapter.storage) = Some storage ->
  RemoteDriverAdapter.initConfig lib rda storage = inl config ->
  tableSound rda.(RemoteDriverAdapter.client) ->
  rda.(RemoteDriverAdapter.client).(connected) = true ->
  rda.(RemoteDriverAdapter.client).(broken) = false ->
  ph.(connBroken) = false ->
  carries lib request reqData ->
  carries lib response respData ->
  env.(Session.incoming) = [respData] ->
  env.(Session.early) = false ->
  r.1.(RemoteDriverAdapter.client).(wire)
  = rda.(RemoteDriverAdapter.client).(wire) ++ [reqData +:+ newline]
  /\ served.1.(driverManager) = ran.1
  /\ served.1.(out) = ph.(out) ++ [respData +:+ newline]
  /\ served.2 = None
  /\ r.2 = match ran.2 with
           | None => None
           | Some e => Some ("driver manager error 500: " +:+ e)
           end.
Proof.
  intros id instanceID driverName request ran response served r
    Hst Hcfg Hsound Hc Hb Hbr Hreq Hresp Hin Hearly.
  assert (Hsent : served
                  = ({| driverManager := ran.1; out := ph.(out) ++ [respData +:+ newline];
                        connBroken := ph.(connBroken) |}, None)).
  { subst served.
    rewrite (create_served lib ph id instanceID driverName config reqData Hreq).
    fold ran. fold response. unfold sendMessage. destruct Hresp as (-> & _).
    cbn [set_manager connBroken]. rewrite Hbr. reflexivity. }
  assert (Hnormal : wireNormal response).
  { subst response. destruct ran.2 as [e|]; split; cbn; try (intros ? [=]; fail).
    intros e' [= <-]. reflexivity. }
  assert (Hkind : response.(Type_) = "response" /\ response.(ID) = id).
  { subst response. destruct ran.2; auto. }
  destruct (response_returned lib env rda.(RemoteDriverAdapter.client) "create_instance"
              (Some (Client.createParams instanceID driverName config)) reqData respData
              response Hsound Hc Hb (proj1 Hreq) Hnormal Hresp (proj1 Hkind) (proj2 Hkind)
              Hin Hearly) as [Hres Hwire].
  assert (Hinit : r = (RemoteDriverAdapter.set_client
                         (Session.sendRequest lib env rda.(RemoteDriverAdapter.client)
                            "create_instance"
                            (Some (Client.createParams instanceID driverName config))).1 rda,
                       match (Session.sendRequest lib env rda.(RemoteDriverAdapter.client)
                                "create_instance"
                                (Some (Client.createParams instanceID driverName config))).2
                       with
                       | inl _ => None
                       | inr err => Some err
                       end)).
  { subst r. unfold RemoteDriverAdapter.Init. rewrite Hst, Hcfg.
    unfold Client.CreateDriverInstance. fold instanceID driverName.
    destruct (Session.sendRequest _ _ _ _ _) as [c res]. reflexivity. }
  rewrite Hinit, Hsent. cbn [fst snd driverManager out RemoteDriverAdapter.set_client
                              RemoteDriverAdapter.client].
  split; [exact Hwire|]. split; [reflexivity|]. split; [reflexivity|].
  split; [reflexivity|]. rewrite Hres.
  subst response. destruct ran.2 as [e|]; reflexivity.
Qed.

(** The storage 3 of the driver "Local", whose addition text names a root
    folder: [Init] succeeds, and the manager holds the instance with that
    configuration. *)
Lemma adapter_init_creates_instance_witness :
  let env := {| Session.now := 7;
                Session.incoming :=
                  [dq "{'id':'create_instance-7','type':'response','result':'success'}"];
                Session.early := false; Session.deadline := Session.TimerFired |} in
  let rda := RemoteDriverAdapter.SetStorage
               {| model.Storage.ID := 3; model.Storage.Driver := "Local";
                  model.Storage.Addition := dq "{'root_folder_path':'/tmp'}" |}
               (RemoteDriverAdapter.NewRemoteDriverAdapter (newSession "dm-1") "storage-3"
                  (sampleConfig LocalDriver)) in
  (RemoteDriverAdapter.Init goLib env rda).2 = None.
Proof.
  intros env rda.
  assert (Hsound : tableSound rda.(RemoteDriverAdapter.client)).
  { intros id c Hl. cbn in Hl. rewrite lookup_empty in Hl. discriminate. }
  assert (Hcfg : RemoteDriverAdapter.initConfig goLib rda
                   {| model.Storage.ID := 3; model.Storage.Driver := "Local";
                      model.Storage.Addition := dq "{'root_folder_path':'/tmp'}" |}
                 = inl (Some tmpConfig)).
  { vm_compute. reflexivity. }
  pose proof (adapter_init_creates_instance goLib env rda
                (NewProtocolHandler (NewDriverManager stubRegistry))
                {| model.Storage.ID := 3; model.Storage.Driver := "Local";
                   model.Storage.Addition := dq "{'root_folder_path':'/tmp'}" |}
                (Some tmpConfig)
                (dq "{'id':'create_instance-7','type':'request','method':'create_instance','params':{'config':{'root_folder_path':'/tmp'},'driver':'Local','instance_id':'storage-3'}}")
                (dq "{'id':'create_instance-7','type':'response','result':'success'}")
                eq_refl Hcfg Hsound eq_refl eq_refl eq_refl) as Hrt.
  assert (Hreq : carries goLib
                   (requestMessage "create_instance-7" "create_instance"
                      (Some (Client.createParams "storage-3" "Local" (Some tmpConfig))))
                   (dq "{'id':'create_instance-7','type':'request','method':'create_instance','params':{'config':{'root_folder_path':'/tmp'},'driver':'Local','instance_id':'storage-3'}}")).
  { split; [vm_compute; reflexivity|]. split; [vm_compute; reflexivity|].
    split; [discriminate|vm_compute; reflexivity]. }
  specialize (Hrt Hreq).
  assert (Hran : (CreateDriverInstance
                    (NewProtocolHandler (NewDriverManager stubRegistry)).(driverManager)
                    "storage-3" "Local" (default ∅ (Some tmpConfig))).2 = None).
  { vm_compute. reflexivity. }
  assert (Hresp : carries goLib (resultResponse "create_instance-7" (JStr "success"))
                    (dq "{'id':'create_instance-7','type':'response','result':'success'}")).
  { split; [vm_compute; reflexivity|]. split; [vm_compute; reflexivity|].
    split; [discriminate|vm_compute; reflexivity]. }
  cbv zeta in Hrt. cbn [RemoteDriverAdapter.instanceID RemoteDriverAdapter.SetStorage
                         RemoteDriverAdapter.NewRemoteDriverAdapter model.Storage.Driver rda]
    in Hrt.
  rewrite Hran in Hrt.
  destruct (Hrt Hresp eq_refl eq_refl) as (_ & _ & _ & _ & Hres).
  exact Hres.
Defined.

(** What the driver of the manager sees of a call made on the adapter.  For
    an enabled instance, the parameters the adapter sends are the ones the
    manager's operations read.  [List] and [Link] reach the driver with an
    object made of the path alone (id, name and path are the path), [List]
    with the caller's refresh flag; [Get] reaches a driver that is a getter
    with the path, and [Other] a driver that supports it with the caller's
    method and, as data, the whole map of parameters, in which the caller's
    own data sit under "data".  A driver without the capability is not
    called. *)
Theorem adapter_params_reach_driver {D : Type} `{DriverOps D} (dm : DriverManager (D := D))
    (instanceID : string) (instance : DriverInstance (D := D)) :
  dm.(instances) !! instanceID = Some instance ->
  instance.(Enabled) = true ->
  let seen path isDir := {| ObjID := path; ObjName := path; ObjPath := path; IsDir := isDir |} in
  (forall dir args,
      ExecuteDriverOperation dm instanceID "list" (RemoteDriverAdapter.listParams dir args)
      = afterCall dm instance (CallList instance.(InstID) dir.(ObjPath) args.(Refresh))
          (drvList instance.(Driver) (seen dir.(ObjPath) true)
             {| Refresh := args.(Refresh) |}))
  /\ (forall file,
        ExecuteDriverOperation dm instanceID "link" (RemoteDriverAdapter.linkParams file)
        = afterCall dm instance (CallLink instance.(InstID) file.(ObjPath))
            (drvLink instance.(Driver) (seen file.(ObjPath) false)))
  /\ (forall path,
        ExecuteDriverOperation dm instanceID "get" (RemoteDriverAdapter.getParams path)
        = if isGetter instance.(Driver)
          then afterCall dm instance (CallGet instance.(InstID) path)
                 (drvGet instance.(Driver) path)
          else (dm, inr "driver does not support get operation"))
  /\ (forall args,
        ExecuteDriverOperation dm instanceID "other" (RemoteDriverAdapter.otherParams args)
        = if isOther instance.(Driver)
          then afterCall dm instance
                 (CallOther instance.(InstID) args.(model.OtherArgs.Method))
                 (drvOther instance.(Driver)
                    {| OtherMethod := args.(model.OtherArgs.Method);
                       OtherData := RemoteDriverAdapter.otherParams args |})
          else (dm, inr "driver does not support other operation")).
Proof.
  intros Hinst Hen seen.
  assert (Hrun : forall operation params,
             ExecuteDriverOperation dm instanceID operation params
             = if decide (operation = "list") then executeListOperation dm instance params
               else if decide (operation = "link") then executeLinkOperation dm instance params
               else if decide (operation = "get") then executeGetOperation dm instance params
               else if decide (operation = "other")
                    then executeOtherOperation dm instance params
                    else (dm, inr ("unsupported operation: " +:+ operation))).
  { intros operation params.
    unfold ExecuteDriverOperation, GetDriverInstance, IsDriverInstanceEnabled.
    rewrite Hinst, Hen. reflexivity. }
  split; [|split; [|split] ].
  - intros dir args. rewrite Hrun. rewrite decide_True by reflexivity.
    unfold executeListOperation, RemoteDriverAdapter.listParams.
    rewrite lookup_insert_eq. rewrite lookup_insert_ne by discriminate.
    rewrite lookup_singleton_eq. reflexivity.
  - intros file. rewrite Hrun. rewrite decide_False by discriminate.
    rewrite decide_True by reflexivity.
    unfold executeLinkOperation, RemoteDriverAdapter.linkParams.
    rewrite lookup_singleton_eq. reflexivity.
  - intros path. rewrite Hrun. rewrite !decide_False by discriminate.
    rewrite decide_True by reflexivity.
    unfold executeGetOperation, RemoteDriverAdapter.getParams.
    rewrite lookup_singleton_eq. destruct (isGetter instance.(Driver)); reflexivity.
  - intros args. rewrite Hrun. rewrite !decide_False by discriminate.
    rewrite decide_True by reflexivity.
    unfold executeOtherOperation.
    destruct (isOther instance.(Driver)); [|reflexivity]. cbn [negb].
    assert (Hm : RemoteDriverAdapter.otherParams args !! "method"
                 = Some (JStr args.(model.OtherArgs.Method))).
    { unfold RemoteDriverAdapter.otherParams.
      destruct args.(model.OtherArgs.Obj);
        rewrite ?(lookup_insert_ne _ "path") by discriminate; apply lookup_insert_eq. }
    rewrite Hm. reflexivity.
Qed.

(** The listing of "/docs" with a refresh, on the instance "s-1". *)
Lemma adapter_params_reach_driver_witness :
  (ExecuteDriverOperation oneInstance "s-1" "list"
     (RemoteDriverAdapter.listParams
        {| ObjID := "42"; ObjName := "docs"; ObjPath := "/docs"; IsDir := true |}
        {| Refresh := true |})).1.(calls)
  = oneInstance.(calls) ++ [CallList "s-1" "/docs" true].
Proof.
  assert (Htable : exists instance,
             oneInstance.(instances) !! "s-1" = Some instance
             /\ instance.(Enabled) = true /\ instance.(InstID) = "s-1").
  { eexists. split; [vm_compute; reflexivity|]. split; reflexivity. }
  destruct Htable as (instance & Hinst & Hen & Hid).
  destruct (adapter_params_reach_driver oneInstance "s-1" instance Hinst Hen) as (Hlist & _).
  rewrite Hlist, Hid. reflexivity.
Defined.

(* ===================================================================== *)
(** ** The addition of a remote driver                                    *)
(* ===================================================================== *)

Section AdditionFacts.
Context (lib : GoLib).

Lemma insertAll_union (kvs : list (string * json)) (a m : gmap string json) :
  insertAll kvs (a ∪ m) = insertAll kvs a ∪ m.
Proof.
  revert a. induction kvs as [|kv kvs IH]; intros a; [reflexivity|].
  cbn [insertAll fold_left]. rewrite insert_union_l. apply IH.
Qed.

Lemma insertAll_marshalMap (p m : gmap string json) :
  match marshalMap p with
  | JObj kvs => insertAll kvs m = p ∪ m
  | _ => False
  end.
Proof.
  pose proof (marshalMap_round_trip p) as Hrt. unfold marshalMap, asMap in *.
  injection Hrt as Hrt.
  rewrite <- (map_empty_union m) at 1. rewrite insertAll_union, Hrt. reflexivity.
Qed.

Lemma unmarshalMap_object (text : string) (p : gmap string json) (target : GenericAddition.t) :
  jsonParse lib text = Some (marshalMap p) ->
  GenericAddition.unmarshalMap lib text target = (Some (p ∪ default ∅ target), None).
Proof.
  intros Hparse. unfold GenericAddition.unmarshalMap. rewrite Hparse.
  pose proof (insertAll_marshalMap p (default ∅ target)) as Hins.
  unfold marshalMap in *. rewrite Hins. reflexivity.
Qed.

End AdditionFacts.

(** A [GenericAddition] behaves as one map of settings, nil or not.
    [SetConfig] adds the given settings over the ones already there and
    [GetConfig] returns them all, the empty map for a nil addition, which
    [MarshalJSON] writes as "{}".  [UnmarshalJSON] adds the members of the
    object it reads over the settings already there, whatever the order of
    the members, the last one winning when a key is repeated; [null] makes
    the addition nil; any other value is a type error that leaves the
    settings as they were; on a text that is not JSON it reports the error
    and leaves the settings as they were; in the last two cases the map is no
    longer nil.  So what [MarshalJSON] wrote, [UnmarshalJSON] reads back into
    a fresh addition, provided the decoder reads from the text the document
    that was written, as the reference library does when the strings of the
    settings are well-formed UTF-8. *)
Theorem generic_addition_settings (lib : GoLib) (ga : GenericAddition.t)
    (config : gmap string json) (text : string) :
  GenericAddition.GetConfig (GenericAddition.SetConfig ga config)
  = config ∪ GenericAddition.GetConfig ga
  /\ GenericAddition.GetConfig None = ∅
  /\ GenericAddition.MarshalJSON lib None = Some "{}"
  /\ (forall p,
        jsonParse lib text = Some (marshalMap p) ->
        GenericAddition.UnmarshalJSON lib ga text
        = (Some (p ∪ GenericAddition.GetConfig ga), None))
  /\ (jsonParse lib text = None ->
      GenericAddition.UnmarshalJSON lib ga text
      = (Some (GenericAddition.GetConfig ga), Some "json: syntax error"))
  /\ (GenericAddition.MarshalJSON lib ga = Some text ->
      jsonParse lib text = Some (marshalMap (GenericAddition.GetConfig ga)) ->
      GenericAddition.UnmarshalJSON lib None text
      = (Some (GenericAddition.GetConfig ga), None))
  /\ (forall kvs,
        jsonParse lib text = Some (JObj kvs) ->
        GenericAddition.UnmarshalJSON lib ga text
        = (Some (list_to_map (rev kvs) ∪ GenericAddition.GetConfig ga), None))
  /\ (jsonParse lib text = Some JNull ->
      GenericAddition.UnmarshalJSON lib ga text = (None, None))
  /\ (forall d,
        jsonParse lib text = Some d ->
        (forall kvs, d <> JObj kvs) ->
        d <> JNull ->
        GenericAddition.UnmarshalJSON lib ga text
        = (Some (GenericAddition.GetConfig ga),
           Some ("json: cannot unmarshal " +:+ Wire.kindOf d
                 +:+ " into Go value of type map[string]interface {}")))
  /\ (validDoc (marshalMap (GenericAddition.GetConfig ga)) = true ->
      exists written,
        GenericAddition.MarshalJSON goLib ga = Some written
        /\ GenericAddition.UnmarshalJSON goLib None written
           = (Some (GenericAddition.GetConfig ga), None)).
Proof.
  assert (Hget : default ∅ ga = GenericAddition.GetConfig ga) by (destruct ga; reflexivity).
  split; [|split; [|split; [|split; [|split; [|split; [|split; [|split; [|split] ] ] ] ] ] ] ].
  - unfold GenericAddition.SetConfig. cbn [GenericAddition.GetConfig].
    rewrite mergeInto_union, Hget. reflexivity.
  - reflexivity.
  - reflexivity.
  - intros p Hparse. unfold GenericAddition.UnmarshalJSON.
    rewrite (unmarshalMap_object lib text p _ Hparse).
    change (default ∅ (Some (default ∅ ga))) with (default ∅ ga).
    rewrite Hget. reflexivity.
  - intros Hparse. unfold GenericAddition.UnmarshalJSON, GenericAddition.unmarshalMap.
    rewrite Hparse, Hget. reflexivity.
  - intros _ Hparse. unfold GenericAddition.UnmarshalJSON.
    rewrite (unmarshalMap_object lib text _ _ Hparse).
    change (default ∅ (Some (default ∅ (None : GenericAddition.t)))) with (∅ : gmap string json).
    rewrite map_union_empty. reflexivity.
  - intros kvs Hparse.
    unfold GenericAddition.UnmarshalJSON, GenericAddition.unmarshalMap.
    rewrite Hparse.
    change (default ∅ (Some (default ∅ ga))) with (default ∅ ga).
    rewrite Hget, <- (map_empty_union (GenericAddition.GetConfig ga)) at 1.
    rewrite insertAll_union, insertAll_list_to_map. reflexivity.
  - intros Hparse.
    unfold GenericAddition.UnmarshalJSON, GenericAddition.unmarshalMap.
    rewrite Hparse. reflexivity.
  - intros d Hparse Hobj Hnull.
    unfold GenericAddition.UnmarshalJSON, GenericAddition.unmarshalMap.
    rewrite Hparse, Hget.
    destruct d as [|b|n|str|l|kvs]; try reflexivity.
    + contradiction.
    + exfalso. exact (Hobj kvs eq_refl).
  - intros Hv. destruct ga as [m|].
    + exists (RefLib.printJson (marshalMap m)). split; [reflexivity|].
      cbn [GenericAddition.GetConfig] in *.
      unfold GenericAddition.UnmarshalJSON.
      rewrite (unmarshalMap_object goLib _ m _ (parse_print _ Hv)).
      change (default ∅ (Some (default ∅ (None : GenericAddition.t))))
        with (∅ : gmap string json).
      rewrite map_union_empty. reflexivity.
    + exists "{}". split; [reflexivity|]. vm_compute. reflexivity.
Qed.

(** Settings written and read back with the reference library; a second
    text read into the same addition adds to them. *)
Example generic_addition_texts :
  let ga := GenericAddition.SetConfig None tmpConfig in
  GenericAddition.MarshalJSON goLib ga = Some (dq "{'root_folder_path':'/tmp'}")
  /\ GenericAddition.UnmarshalJSON goLib None (dq "{'root_folder_path':'/tmp'}") = (ga, None)
  /\ (GenericAddition.UnmarshalJSON goLib ga (dq "{'thumbnail':true}")).1
     = Some (<["thumbnail" := JBool true]> tmpConfig)
  /\ GenericAddition.UnmarshalJSON goLib ga "null" = (None, None)
  /\ (GenericAddition.UnmarshalJSON goLib ga "[1]").1 = ga.
Proof. intros ga. repeat split; vm_compute; reflexivity. Qed.

(** [Init] finds the configuration it sends in one of two places, and both
    give the manager the same one.  Without a storage [Init] fails with
    "storage not set"; when the addition text of the storage cannot be read
    it fails with "failed to parse addition from database: <cause>"; in both
    cases nothing is sent.  When [GetAddition] has made the addition and the
    addition text, not empty, has been unmarshalled into it without error, the
    configuration [Init] takes from the addition and the one it would have
    read from the text itself are the same map once the manager has replaced
    a nil one by the empty map. *)
Theorem adapter_init_config (lib : GoLib) (env : Session.CallEnv)
    (rda : RemoteDriverAdapter.t) :
  (rda.(RemoteDriverAdapter.storage) = None ->
   RemoteDriverAdapter.Init lib env rda = (rda, Some "storage not set"))
  /\ (forall storage err,
        rda.(RemoteDriverAdapter.storage) = Some storage ->
        RemoteDriverAdapter.initConfig lib rda storage = inr err ->
        RemoteDriverAdapter.Init lib env rda = (rda, Some err)
        /\ rda.(RemoteDriverAdapter.addition) = None
        /\ storage.(model.Storage.Addition) <> ""
        /\ exists cause, err = "failed to parse addition from database: " +:+ cause)
  /\ (forall storage,
        rda.(RemoteDriverAdapter.addition) = None ->
        let made := RemoteDriverAdapter.GetAddition rda in
        let filled :=
          GenericAddition.UnmarshalJSON lib
            (default None made.(RemoteDriverAdapter.addition))
            storage.(model.Storage.Addition) in
        let rda' :=
          {| RemoteDriverAdapter.client := made.(RemoteDriverAdapter.client);
             RemoteDriverAdapter.instanceID := made.(RemoteDriverAdapter.instanceID);
             RemoteDriverAdapter.storage := made.(RemoteDriverAdapter.storage);
             RemoteDriverAdapter.config := made.(RemoteDriverAdapter.config);
             RemoteDriverAdapter.addition := Some filled.1 |} in
        storage.(model.Storage.Addition) <> "" ->
        filled.2 = None ->
        exists fromText fromAddition,
          RemoteDriverAdapter.initConfig lib rda storage = inl fromText
          /\ RemoteDriverAdapter.initConfig lib rda' storage = inl fromAddition
          /\ default ∅ fromText = default ∅ fromAddition).
Proof.
  split; [|split].
  - intros Hst. unfold RemoteDriverAdapter.Init. rewrite Hst. reflexivity.
  - intros storage err Hst Hcfg. split.
    { unfold RemoteDriverAdapter.Init. rewrite Hst, Hcfg. reflexivity. }
    unfold RemoteDriverAdapter.initConfig in Hcfg.
    destruct rda.(RemoteDriverAdapter.addition) as [ga|]; [discriminate Hcfg|].
    split; [reflexivity|].
    destruct (decide (storage.(model.Storage.Addition) = "")) as [He|Hne];
      [discriminate Hcfg|].
    split; [exact Hne|].
    destruct (GenericAddition.unmarshalMap lib _ _) as [c [cause|] ]; [|discriminate Hcfg].
    exists cause. congruence.
  - intros storage Hadd made filled rda' Hne Hfilled.
    assert (Hmade : made.(RemoteDriverAdapter.addition) = Some (Some ∅)).
    { subst made. unfold RemoteDriverAdapter.GetAddition. rewrite Hadd. reflexivity. }
    assert (Hf : filled
                 = GenericAddition.unmarshalMap lib storage.(model.Storage.Addition)
                     (Some ∅)).
    { subst filled. rewrite Hmade. reflexivity. }
    subst rda'. rewrite Hf in *. clear Hf.
    unfold RemoteDriverAdapter.initConfig. cbn [RemoteDriverAdapter.addition].
    rewrite Hadd. rewrite decide_False by exact Hne.
    destruct (GenericAddition.unmarshalMap lib storage.(model.Storage.Addition) (Some ∅))
      as [c [cause|] ]; [discriminate Hfilled|].
    eexists _, _. split; [reflexivity|]. split; [reflexivity|].
    destruct c; reflexivity.
Qed.
